(* ===== verification/_CoqProject ===== *)
-Q . S2P
Prelude.v
Match.v
StoreDefs.v
StoreLayout.v
StoreRep.v
StoreAlloc.v
StoreHole.v
StoreRealloc.v
StoreOps.v
StoreOpen.v
StoreTheorems.v
Rxbuf.v
Sock.v
ProtoDefs.v
ProtoKeep.v
ProtoBin.v
ProtoTyped.v
ProtoStream.v
ProtoTextOut.v
ProtoTextIn.v
ProtoTextAny.v
ProtoLines.v
ProtoText.v
Infod.v
InfodSpec.v
InfodSay.v
InfodSim.v
InfodCmd.v
InfodTheorems.v
InfodKeep.v
InfodNet.v
InfodText.v
InfodLog.v
Server.v
ServerTheorems.v
TestServer.v
Main.v
MainTheorems.v
ListH.v
TestList.v
TestMatch.v
TestStore.v
TestProto.v
LibInfo.v
LibPeer.v
LibDaemon.v
LibTheorems.v
TestInfo.v
ClientInfo.v
ClientTheorems.v
