(* ===== verification/Prelude.v ===== *)
(** * infod3: a verification of the information daemon

    infod3 is a small key/value server. Local and TCP clients read, write and delete keys,
    subscribe to patterns of keys and are told of every change that matches; commands may be
    grouped into transactions. The parts of the program and how they work together:

    - src/daemon/store.c keeps the records [key\0value] in a memory-mapped file, with a sorted
      index on the heap;
    - src/daemon/match.c decides if a key matches the pattern of a subscription;
    - src/lib/rxbuf.c, proto.c, protofram.c, protobin.c and prototext.c translate between
      messages and three protocols: packets (framed), a binary stream and lines of text;
    - src/daemon/infod.c holds the clients, their subscriptions and transactions, and executes
      the commands that the translator of a client passes up, on the store and on the sockets;
    - src/daemon/list.h has the linked lists of clients, subscriptions and queued commands;
    - src/daemon/server.c polls the sockets, accepts and closes connections and calls infod.c;
    - src/lib/info.c is the client library: it keeps one connection to the daemon, sends commands
      through the same translator and waits for the answers;
    - src/client/info.c is the command-line client on top of the library;
    - src/lib/sockunix.c and socktcp.c make the addresses of both sides.

    ** The files

    - Prelude.v (this file): the monad [outcome] of C functions that return or crash, machine
      integers, buffers and C strings, tactics and hint databases.
    - Match.v, Module [Match]: match.c. [do_match] is the loop of the source with the array of
      parentheses as a stack; the type [pat] and [run] are the reference semantics.
    - StoreDefs.v: all of store.c. The state is the record [store]: the bytes of the mapped file,
      the extent, the offset of the free space, the index of offsets, its capacity. StoreLayout.v
      has the records as data ([rec], [encs]), StoreRep.v the relation [Rep] of a healthy store to
      the sorted list of its records; StoreAlloc.v (trimming, repacking), StoreHole.v (allocation
      and release), StoreRealloc.v (resizing in place and moving), StoreOps.v (search, get, put,
      del) and StoreOpen.v (scan, de-duplication) prove the operations correct.
      StoreTheorems.v states what clients may rely on, and the class [KVStore] with the instance
      [byte_store]: the daemon is verified against the class only.
    - Rxbuf.v: rxbuf.c. ProtoDefs.v: the translator, one definition per function of the source
      and one per case of the state machine of [recv_text_1ch]. ProtoKeep.v: what the output
      functions leave alone. ProtoBin.v: binary and framed mode. ProtoTyped.v: the upcalls of all
      three decoders are well typed. ProtoStream.v: the binary decoder on any bytes, against the
      relation [Stream] of the messages in them. ProtoTextOut.v: the text encoder. ProtoTextIn.v:
      the text decoder on a line in any spelling that the document PROTOCOL allows ([line_of]:
      command names and their aliases, spaces, bare or quoted strings with escapes, ends of
      line). ProtoTextAny.v: the text decoder on any bytes: the messages that it passes up and
      the error lines that it answers depend on the bytes alone ([text_talk]), and the
      application follows the relation [Chat] of messages and replies. ProtoLines.v: the text
      decoder on a sequence of lines. ProtoText.v: encoder and decoder together.
    - Infod.v: infod.c with the macros of list.h. InfodSpec.v: the abstract server, with the
      relations [step] (a command), [run_queue] (the commands of a transaction) and [accept] (a
      message); it may answer that an internal error occurred only where the class [Faults] says
      that the store or an allocation can fail, and [daemon_faults] ties these to the system
      calls of the model. InfodSay.v: the messages of the daemon in the three protocols. InfodSim.v,
      InfodCmd.v and InfodTheorems.v: the simulation of the abstract server by the handlers,
      command by command, and its consequences. InfodKeep.v: the handlers leave the decoders
      alone. InfodNet.v: [on_net_ready] on any bytes of a client, and the state [Sess] that it
      leaves for the next call. InfodText.v: [on_net_ready] on the lines of a text client.
      InfodLog.v: the names of peers and the verbose log of messages.
    - Server.v and ServerTheorems.v: server.c, over the upcalls and system calls of [context].
      The class [ServerUser] is what the poll server asks of the code that its upcalls run.
    - Main.v: main of the daemon: options, listeners, the daemon's handlers as the upcalls of the
      server, the main loop and the exit status, with runs of the whole program.
      MainTheorems.v: the daemon is a [ServerUser], and so the whole program does not crash.
    - ListH.v: list.h on a memory of [next] and [prevp] pointers; [chain] is its invariant.
    - Sock.v: the addresses and the error paths of sockunix.c and socktcp.c.
    - LibInfo.v: all of info.c, over a class [Link] of the system calls. LibPeer.v has the class
      [InfoPeer], what a server promises to the library (a map, the subscriptions of the library,
      an open transaction, the packets on their way), and the library's calls proved against it;
      LibDaemon.v joins the library and the daemon into one state and shows that the daemon
      keeps the promises; LibTheorems.v has the theorems.
    - ClientInfo.v and ClientTheorems.v: the command-line client on the library.
    - TestList.v, TestMatch.v, TestStore.v, TestServer.v, TestProto.v and TestInfo.v: the unit
      tests of the repository, src/daemon/t-*.c and src/lib/t-*.c, as definitions that are run
      on the model and reach their end.

    ** How the model corresponds to the code

    A C function is a definition of the same name. It returns [Done] with its result and the new
    state, or [Crash]: a failed assertion, [abort()], an access outside an object, a NULL
    pointer. Integers are [Z] with their wrap-around written out ([u8], [u16], [u32]); buffers
    and files are lists of bytes. Pointers into the mapped file are offsets; a [struct client *]
    is the client's descriptor. System calls, [malloc], [qsort] and the byte order are
    parameters: the classes [OS], [Net], [Qsort] and [ByteOrder], with instances to run.
    Callbacks are functions over the state of their owner.

    Loops that are not structural run on fuel. The fuel is computed from the state: the length of
    the index or of the file, the bytes received, the commands in a queue, twice the sockets in
    the table; sixteen passes of the text decoder for a byte; two nested calls of [on_app_input].
    The theorems show that the result is [Done], so that the fuel is enough. The library waits
    for as many packets as its caller's fuel; one more than the answers that are due is enough.

    ** What the theorems show

    - The store refines a finite map at the level of the bytes of its file: get, put, delete,
      iteration, closing and opening again, opening a file with repeated keys.
    - The pattern matcher computes the reference semantics, and validity is a grammar.
    - Each protocol decodes what it encodes, for payloads of at most 65531 bytes in binary mode
      and lines of at most 4095 bytes in text mode; beyond these limits the code fails, and
      theorems say how. The binary decoder is indifferent to fragmentation; the text decoder is
      safe on any input; no decoder passes up an ill-typed message.
    - The daemon implements the abstract server for clients of the three protocols: replies,
      notifications, transactions, errors. The assumptions are that writev() takes what it is
      given, that the texts of strerror() are short, and a limit on payloads (below). Commands between BEGIN and COMMIT have no effect until
      the COMMIT, for all clients. That holds from the bytes that arrive on a socket, cut in any
      way, and not only for whole messages; a text client that sends lines of the protocol, in any
      spelling but for the command HELP, is served exactly the commands they stand for. A text
      connection ends only when a message on it is refused.
    - The poll server serves every ready socket once and respects its limit; the macros of
      list.h do on pointers what the daemon's model does on lists.
    - The whole daemon, from [main] to the bytes of the store's file, does not crash whatever
      its clients send. The assumptions are those of the section of
      MainTheorems.v: memory and disk space suffice, writev() takes what it is given, accept()
      gives new descriptors.
    - The library returns the values that the daemon holds, and what it writes is read back. The
      command-line client carries out its arguments: one theorem from the arguments of [info] to
      the map of the server and the text on stdout, and one each for -A (all keys, in order) and
      -C (no key is left).
    - Where the code does not do what it means to, a theorem says what it does: a full disk, a
      gap that never ends, a lost value, [*\c] patterns, the text output buffer, short writes,
      a connection without memory, limits that are off by one.

    A record that is too long for the output buffer of the text encoder overruns it, and any
    client can write such a record for a text client to read ([long_record_crashes] in
    InfodText.v). The theorems about the daemon therefore have a parameter [lim], the longest
    payload: [MAX_PAYLOAD] (65535) for a daemon without text clients, and with them at most
    [TEXT_LIMIT] (1020), for which every line fits the 4096 bytes even when each byte is written
    as an escape of four. The lines that a text client sends are at most [MAX_LINE]
    (64000) bytes long, spaces included, and the commands they stand for are within [lim].

    Two simplifications of the system: the success of realloc() and of the calls on the store's
    file is a function of the size asked for (and, for malloc(), of the event), so a call that
    fails once and succeeds later for the same size is not represented; and the store's file is
    identified with its mapping, so a file that is left longer than the mapping after a failed
    mmap() or ftruncate() is not represented either.

    ** What is not modelled

    Where logs go, and the texts of local diagnostics; the sleep between
    attempts to connect; getopt() and getaddrinfo(), whose results are parameters; signals
    other than as a flag that is set when poll() returns; the driver scripts. LibInfo.v has the
    connection of the library over TCP, but the promises of [InfoPeer] are those of the framed
    protocol: what the library receives over the binary protocol is shown for the decoder only
    (ProtoBin.v, ProtoStream.v). *)
From Stdlib Require Export ZArith Lia.
From Stdlib Require Import Ascii.
From stdpp Require Export base list sorting gmap strings.

#[global] Open Scope Z_scope.

(** ** Scope, notations and hint databases of the development *)

Declare Scope infod_scope.
Delimit Scope infod_scope with infod.

Create HintDb infod.
Create Rewrite HintDb zlen.

(** A C [char] or [unsigned char] is an integer; a C string or a buffer is a list of them. *)
Abbreviation byte := Z (only parsing).
Abbreviation bytes := (list Z) (only parsing).

(** ** Outcomes

    A C function either returns a value or ends the process: a failed [assert], a call to
    [abort()], an access outside an object, or (for a model that recurses on fuel) a loop
    that is still running when the fuel is gone. *)

Inductive crash := AssertFailed | Aborted | OutOfBounds | NullDeref | OutOfFuel.

Inductive outcome (A : Type) :=
  | Done (a : A)
  | Crash (c : crash).
Arguments Done {A} a.
Arguments Crash {A} c.

#[export] Instance outcome_ret : MRet outcome := fun A a => Done a.
#[export] Instance outcome_bind : MBind outcome := fun A B f x =>
  match x with Done a => f a | Crash c => Crash c end.

#[export] Instance crash_eq_dec : EqDecision crash.
Proof. solve_decision. Defined.

Definition assert_c (b : bool) : outcome unit := if b then Done tt else Crash AssertFailed.
Definition of_option {A} (c : crash) (o : option A) : outcome A :=
  match o with Some a => Done a | None => Crash c end.

Definition is_done {A} (r : outcome A) : bool := match r with Done _ => true | Crash _ => false end.

(** The values of [errno] that the source sets or tests. *)
Inductive errno :=
  | EINVAL | ENOMEM | ENOSPC | EBUSY | ENOENT | EIO | EPIPE | EBADF | ENOTSUP | EOTHER (n : Z).

#[export] Instance errno_eq_dec : EqDecision errno.
Proof. solve_decision. Defined.

(** ** Machine integers *)

Definition u8 (x : Z) : Z := x mod 2 ^ 8.
Definition u16 (x : Z) : Z := x mod 2 ^ 16.
Definition u32 (x : Z) : Z := x mod 2 ^ 32.
Definition UINT32_MAX : Z := 2 ^ 32 - 1.

(** The values of an [unsigned char]. *)
Definition is_byte (x : Z) : Prop := 0 <= x < 2 ^ 8.
#[export] Instance is_byte_dec x : Decision (is_byte x).
Proof. unfold is_byte. apply _. Defined.

Lemma u32_small x : 0 <= x < 2 ^ 32 -> u32 x = x.
Proof. intros H. unfold u32. by rewrite Z.mod_small. Qed.

Lemma u16_small x : 0 <= x < 2 ^ 16 -> u16 x = x.
Proof. intros H. unfold u16. by rewrite Z.mod_small. Qed.

Lemma u8_small x : 0 <= x < 2 ^ 8 -> u8 x = x.
Proof. intros H. unfold u8. by rewrite Z.mod_small. Qed.

Lemma u32_range x : 0 <= u32 x < 2 ^ 32.
Proof. unfold u32. apply Z.mod_pos_bound. lia. Qed.

(** Bit fields that do not overlap. *)
Lemma lor_shiftl a b k : 0 <= k -> 0 <= b < 2 ^ k -> Z.lor (Z.shiftl a k) b = a * 2 ^ k + b.
Proof.
  intros Hk Hb. rewrite <- Z.shiftl_mul_pow2 by done. symmetry. apply Z.add_nocarry_lor.
  apply Z.bits_inj'. intros i Hi. rewrite Z.land_spec, Z.bits_0.
  destruct (Z.ltb_spec i k) as [Hlt|Hge].
  - rewrite Z.shiftl_spec_low by done. done.
  - replace b with (b mod 2 ^ k) by (apply Z.mod_small; lia).
    rewrite Z.mod_pow2_bits_high by lia. apply andb_false_r.
Qed.

Lemma land_255 x : Z.land x 255 = u8 x.
Proof. unfold u8. change 255 with (Z.ones 8). by rewrite Z.land_ones. Qed.

(** ** Lists indexed by [Z] *)

Definition zlen {A} (l : list A) : Z := Z.of_nat (length l).

Lemma zlen_nil {A} : zlen (@nil A) = 0.
Proof. done. Qed.
Lemma zlen_cons {A} (x : A) l : zlen (x :: l) = 1 + zlen l.
Proof. unfold zlen. cbn [length]. lia. Qed.
Lemma zlen_app {A} (l k : list A) : zlen (l ++ k) = zlen l + zlen k.
Proof. unfold zlen. rewrite length_app. lia. Qed.
Lemma zlen_nonneg {A} (l : list A) : 0 <= zlen l.
Proof. unfold zlen. lia. Qed.
Lemma zlen_one {A} (x : A) : zlen [x] = 1.
Proof. done. Qed.
Lemma zlen_fmap {A B} (f : A -> B) l : zlen (f <$> l) = zlen l.
Proof. unfold zlen. by rewrite length_fmap. Qed.
Lemma zlen_zero {A} (l : list A) : zlen l = 0 -> l = [].
Proof. destruct l; [done|]. rewrite zlen_cons. pose proof (zlen_nonneg l). lia. Qed.
Lemma zlen_replicate {A} n (x : A) : 0 <= n -> zlen (replicate (Z.to_nat n) x) = n.
Proof. intros. unfold zlen. rewrite length_replicate. lia. Qed.

#[export] Hint Rewrite @zlen_nil @zlen_cons @zlen_app @zlen_fmap : zlen.

(** Puts every list length of the goal and the hypotheses in linear form. *)
Ltac zlen_pos :=
  repeat match goal with
  | |- context [zlen ?l] =>
      lazymatch goal with
      | _ : 0 <= zlen l |- _ => fail
      | _ => pose proof (zlen_nonneg l)
      end
  | _ : context [zlen ?l] |- _ =>
      lazymatch goal with
      | _ : 0 <= zlen l |- _ => fail
      | _ => pose proof (zlen_nonneg l)
      end
  end.
Ltac zlen_lia := autorewrite with zlen in *; zlen_pos; lia.

(** [memcpy] out of and into an object of known size: [None] is an access outside it. *)
Definition mread (m : bytes) (o n : Z) : option bytes :=
  if bool_decide (0 <= o) && bool_decide (0 <= n) && bool_decide (o + n <= zlen m)
  then Some (take (Z.to_nat n) (drop (Z.to_nat o) m)) else None.

Definition mwrite (m : bytes) (o : Z) (bs : bytes) : option bytes :=
  if bool_decide (0 <= o) && bool_decide (o + zlen bs <= zlen m)
  then Some (take (Z.to_nat o) m ++ bs ++ drop (Z.to_nat (o + zlen bs)) m) else None.

Lemma mread_app a b c o n :
  o = zlen a -> n = zlen b -> mread (a ++ b ++ c) o n = Some b.
Proof.
  intros -> ->. unfold mread, zlen.
  rewrite !bool_decide_true by (rewrite ?length_app; lia). cbn.
  rewrite !Nat2Z.id, drop_app_length, take_app_length. done.
Qed.

Lemma mread_all s : mread s 0 (zlen s) = Some s.
Proof. pose proof (mread_app [] s [] 0 (zlen s) eq_refl eq_refl) as H. by rewrite app_nil_r in H. Qed.

Lemma mwrite_app a b c bs o :
  o = zlen a -> zlen bs = zlen b -> mwrite (a ++ b ++ c) o bs = Some (a ++ bs ++ c).
Proof.
  intros -> Hb. unfold mwrite.
  rewrite !bool_decide_true by zlen_lia. cbn.
  rewrite Hb. unfold zlen. rewrite <- Nat2Z.inj_add, !Nat2Z.id, take_app_length.
  rewrite <- length_app, (app_assoc a b c), drop_app_length. done.
Qed.

Lemma mwrite_zlen m o bs m' : mwrite m o bs = Some m' -> zlen m' = zlen m.
Proof.
  unfold mwrite. intros H. case_bool_decide; [|done]. case_bool_decide; [|done].
  simplify_eq/=. unfold zlen in *. rewrite !length_app, length_take, length_drop. lia.
Qed.

(** ** C strings *)

(** The string a [const char *] denotes: the bytes before the first NUL. *)
Fixpoint cstr (l : bytes) : bytes :=
  match l with
  | [] => []
  | c :: l' => if decide (c = 0) then [] else c :: cstr l'
  end.

Definition nul_free (l : bytes) : Prop := Forall (fun c => c <> 0) l.

#[export] Instance nul_free_dec l : Decision (nul_free l).
Proof. unfold nul_free. apply _. Defined.

(** [*s]: a string seen as a list has its NUL at the end of the list. *)
Definition hd0 (l : bytes) : byte := match l with [] => 0 | c :: _ => c end.

Lemma cstr_nul_free l : nul_free (cstr l).
Proof. unfold nul_free. induction l; cbn; [done|]. case_decide; by constructor. Qed.

Lemma cstr_id l : nul_free l -> cstr l = l.
Proof.
  unfold nul_free. induction 1; cbn; [done|]. case_decide; [done|]. by f_equal.
Qed.

Lemma cstr_app_nul k v : nul_free k -> cstr (k ++ 0 :: v) = k.
Proof.
  unfold nul_free. induction 1; cbn; [done|]. case_decide; [done|]. by f_equal.
Qed.

Lemma cstr_cstr l : cstr (cstr l) = cstr l.
Proof. apply cstr_id, cstr_nul_free. Qed.

(** A buffer that holds a NUL is a key, the NUL and a value. *)
Lemma cstr_split l : 0 ∈ l -> exists v, l = cstr l ++ 0 :: v.
Proof.
  induction l as [|c l IH]; intros H; [by apply not_elem_of_nil in H|]. cbn.
  case_decide as Hc; [subst; by exists l|].
  apply elem_of_cons in H as [?|H]; [by subst|].
  destruct (IH H) as [v Hv]. exists v. cbn. by f_equal.
Qed.

Lemma zlen_cstr l : zlen (cstr l) <= zlen l.
Proof.
  induction l as [|c l IH]; [done|]. cbn [cstr]. rewrite zlen_cons. pose proof (zlen_nonneg l).
  case_decide; [rewrite zlen_nil; lia|rewrite zlen_cons; lia].
Qed.

Lemma nul_free_no_nul l : 0 ∉ l -> nul_free l.
Proof. intros H. apply Forall_forall. intros x Hx ->. done. Qed.

Lemma cstr_no_nul l : 0 ∉ l -> cstr l = l.
Proof. intros H. by apply cstr_id, nul_free_no_nul. Qed.

(** String literals of the source. *)
Fixpoint bytes_of_string (s : string) : bytes :=
  match s with
  | EmptyString => []
  | String a s' => Z.of_N (N_of_ascii a) :: bytes_of_string s'
  end.
Notation "'$' s" := (bytes_of_string s%string) (at level 5, s at level 0) : infod_scope.

(** ** [strcmp]: lexicographic order of byte strings *)

Fixpoint strcmp (a b : bytes) : comparison :=
  match a, b with
  | [], [] => Eq
  | [], _ :: _ => Lt
  | _ :: _, [] => Gt
  | x :: a', y :: b' => match Z.compare x y with Eq => strcmp a' b' | c => c end
  end.

Lemma strcmp_eq a b : strcmp a b = Eq <-> a = b.
Proof.
  revert b. induction a as [|x a IH]; intros [|y b]; cbn; try done.
  destruct (Z.compare_spec x y) as [->|H|H].
  - rewrite IH. split; [by intros ->|by intros [=]].
  - split; [done|]. intros [=]; lia.
  - split; [done|]. intros [=]; lia.
Qed.

Lemma strcmp_antisym a b : strcmp b a = CompOpp (strcmp a b).
Proof.
  revert b. induction a as [|x a IH]; intros [|y b]; cbn; try done.
  rewrite Z.compare_antisym. destruct (Z.compare x y); cbn; auto.
Qed.

Definition str_lt (a b : bytes) : Prop := strcmp a b = Lt.
Definition str_le (a b : bytes) : Prop := strcmp a b <> Gt.

#[export] Instance str_lt_dec a b : Decision (str_lt a b).
Proof. unfold str_lt. solve_decision. Defined.
#[export] Instance str_le_dec a b : Decision (str_le a b).
Proof. unfold str_le. apply _. Defined.

Lemma str_le_bool a b :
  bool_decide (str_le a b) = match strcmp a b with Gt => false | _ => true end.
Proof.
  case_bool_decide as H; unfold str_le in H; destruct (strcmp a b); try done;
    by exfalso; apply H.
Qed.

#[export] Instance str_lt_trans : Transitive str_lt.
Proof.
  unfold str_lt. intros a. induction a as [|x a IH]; intros [|y b] [|z c]; cbn; try done.
  destruct (Z.compare_spec x y), (Z.compare_spec y z), (Z.compare_spec x z);
    subst; try done; try lia; eauto.
Qed.

Lemma str_lt_irrefl a : ~ str_lt a a.
Proof. unfold str_lt. intros H. by rewrite (proj2 (strcmp_eq a a) eq_refl) in H. Qed.

Lemma str_le_lteq a b : str_le a b <-> str_lt a b \/ a = b.
Proof.
  unfold str_le, str_lt. rewrite <- strcmp_eq. destruct (strcmp a b); split; auto; try done; by intros [?|?].
Qed.

Lemma strcmp_gt a b : strcmp a b = Gt <-> str_lt b a.
Proof. unfold str_lt. rewrite (strcmp_antisym a b). by destruct (strcmp a b). Qed.

#[export] Instance str_le_trans : Transitive str_le.
Proof.
  intros a b c. rewrite !str_le_lteq. intros [?| ->] [?| ->]; auto.
  left. by transitivity b.
Qed.
#[export] Instance str_le_total : Total str_le.
Proof.
  intros a b. unfold str_le. rewrite (strcmp_antisym a b).
  destruct (strcmp a b); cbn; auto.
Qed.

(** ** Tactics *)

(** Linear arithmetic with division and remainder by constants. *)
Ltac divlia := Z.div_mod_to_equations; lia.

(** Splits every boolean test of the goal into the arithmetic fact it decides. *)
Ltac bool_cases :=
  repeat match goal with
  | |- context [bool_decide ?P] => case_bool_decide
  | |- context [Z.eqb ?a ?b] => destruct (Z.eqb_spec a b)
  | |- context [Z.leb ?a ?b] => destruct (Z.leb_spec a b)
  | |- context [Z.ltb ?a ?b] => destruct (Z.ltb_spec a b)
  end.

(** Reduces the monadic structure of the goal and nothing else. *)
Ltac ostep := cbn [mbind outcome_bind mret outcome_ret of_option assert_c].

(** Steps through an [outcome] computation in a hypothesis. *)
Ltac outcome_inv H :=
  repeat match type of H with
  | mbind _ ?x = Done _ =>
      let E := fresh "E" in destruct x eqn:E; cbn in H; [|discriminate H]
  | (match ?x with Done _ => _ | Crash _ => _ end) = Done _ =>
      let E := fresh "E" in destruct x eqn:E; cbn in H; [|discriminate H]
  end.

(** ** Partial correctness

    [ensures P m]: if [m] returns, then its result satisfies [P]. *)
Definition ensures {A} (P : A -> Prop) (m : outcome A) : Prop := forall a, m = Done a -> P a.

Lemma ensures_done {A} (P : A -> Prop) a : P a -> ensures P (Done a).
Proof. intros H ? [= <-]. done. Qed.
Lemma ensures_crash {A} (P : A -> Prop) c : ensures P (Crash c).
Proof. intros a H. done. Qed.
Lemma ensures_bind {A B} (Q : A -> Prop) (P : B -> Prop) (m : outcome A) (k : A -> outcome B) :
  ensures Q m -> (forall a, Q a -> ensures P (k a)) -> ensures P (m ≫= k).
Proof. intros Hm Hk b. destruct m as [a|]; cbn; [|done]. by apply Hk, Hm. Qed.
Lemma ensures_weaken {A} (Q P : A -> Prop) (m : outcome A) :
  ensures Q m -> (forall a, Q a -> P a) -> ensures P m.
Proof. intros Hm H a E. by apply H, Hm. Qed.

Create HintDb ensures.
#[export] Hint Resolve ensures_done ensures_crash : ensures.

(** Goes through a computation branch by branch; the calls are left to the hint database. *)
Ltac ensures_step :=
  match goal with
  | |- ensures _ (Done _) => apply ensures_done; cbn
  | |- ensures _ (Crash _) => apply ensures_crash
  | |- ensures _ (if ?b then _ else _) => destruct b
  | |- ensures _ (match ?x with _ => _ end) => destruct x
  | |- ensures _ (_ ≫= _) => eapply ensures_bind; [solve [eauto with ensures]|intros; cbn beta in *]
  end.
