(* ===== verification/Match.v ===== *)
(** * Key patterns (src/daemon/match.c)

    [do_match] is the single-pass matcher of the source: the pattern is scanned once, groups
    are tracked on a stack of at most [MAX_PAREN] records, and the special pointer [CHECK]
    turns the scan into a syntax check. The reference semantics is a recursive matcher [run]
    over the syntax trees [pat] whose printed forms are exactly the valid patterns. *)
From S2P Require Import Prelude.

Module Match.

Local Open Scope infod_scope.

Definition MAX_PAREN : nat := 4.

(** ** UTF-8 helpers *)

Definition is_lead (c : byte) : bool := Z.land c 192 =? 192.
Definition is_cont (c : byte) : bool := Z.land c 192 =? 128.

(** The loop of [utf8eq] over the continuation bytes of [a]. *)
Fixpoint utf8eq_cont (a b : bytes) : bool :=
  match a with
  | [] => true
  | x :: a' => if is_cont x then (x =? hd0 b) && utf8eq_cont a' (tail b) else true
  end.

Definition utf8eq (a b : bytes) : bool :=
  if negb (hd0 a =? hd0 b) then false
  else if negb (is_lead (hd0 a)) then true
  else utf8eq_cont (tail a) (tail b).

Fixpoint skip_cont (a : bytes) : bytes :=
  match a with
  | [] => []
  | x :: a' => if is_cont x then skip_cont a' else a
  end.

Definition utf8inc (a : bytes) : bytes :=
  if is_lead (hd0 a) then skip_cont (tail a) else tail a.

(** [while ( *string && !utf8eq(string, pattern)) utf8inc(&string)]. The string gets shorter
    at each turn, so its length is enough fuel ([greedy_fuel_enough]). *)
Fixpoint greedy_fuel (fuel : nat) (string pattern : bytes) : bytes :=
  match fuel with
  | O => string
  | S f =>
      if negb (hd0 string =? 0) && negb (utf8eq string pattern)
      then greedy_fuel f (utf8inc string) pattern else string
  end.
Definition greedy (string pattern : bytes) : bytes :=
  greedy_fuel (S (length string)) string pattern.

(** ** The matcher *)

(** The [string] pointer: the special pointer [CHECK], or a position in a C string. *)
Inductive sptr := CHECK | Str (l : bytes).

Record paren := mk_paren {
  start : sptr;              (* string position at ( *)
  failed : bool;             (* iff mismatch after '(' or '|' *)
  success : option sptr      (* unfailed string position at '|' *)
}.

Definition set_failed (t : paren) : paren := mk_paren (start t) true (success t).

(** [if (!paren->failed && !paren->success) paren->success = string] *)
Definition note_success (t : paren) (string : sptr) : paren :=
  if negb (failed t) && bool_decide (success t = None)
  then mk_paren (start t) (failed t) (Some string) else t.

(** [if (string != CHECK) string = q] *)
Definition move_to (string q : sptr) : sptr :=
  match string with CHECK => CHECK | Str _ => q end.

Definition ch_star : byte := 42.
Definition ch_lpar : byte := 40.
Definition ch_rpar : byte := 41.
Definition ch_bar : byte := 124.
Definition ch_any : byte := 63.
Definition ch_bs : byte := 92.

#[global] Instance sptr_eq_dec : EqDecision sptr.
Proof. solve_decision. Defined.

(** The [paren] pointer is the top of a stack: [NULL] is the empty stack, [paren - 1] the
    record below. *)
Fixpoint do_match (pattern : bytes) (parens : list paren) (string : sptr) : Z :=
  match pattern with
  | [] =>
      match parens with
      | _ :: _ => -1                                   (* unclosed ( *)
      | [] => match string with
              | CHECK => 1                             (* passed checks *)
              | Str s => if hd0 s =? 0 then 1 else 0   (* pass iff string exhausted *)
              end
      end
  | p :: pattern' =>
      if p =? ch_star then
        let n := hd0 pattern' in
        if (n =? ch_star) || (n =? ch_lpar) then -1    (* malformed pattern *)
        else if (n =? 0) || (n =? ch_bar) || (n =? ch_rpar) then
          do_match pattern' parens (move_to string (Str []))
        else if n =? ch_any then do_match pattern' parens string
        else if (n =? ch_bs) && (hd0 (tail pattern') =? 0) then -1
        else do_match pattern' parens
               (match string with CHECK => CHECK | Str s => Str (greedy s pattern') end)
      else if p =? ch_lpar then
        if (length parens <? MAX_PAREN)%nat
        then do_match pattern' (mk_paren string false None :: parens) string
        else -1                                        (* too many parens *)
      else if p =? ch_bar then
        match parens with
        | [] => -1                                     (* | without ( *)
        | t :: r =>
            let t' := note_success t string in
            do_match pattern' (mk_paren (start t') false (success t') :: r)
                     (move_to string (start t'))
        end
      else if p =? ch_rpar then
        match parens with
        | [] => -1                                     (* ) without ( *)
        | t :: r =>
            let t' := note_success t string in
            match r with
            | [] =>                                    (* outer-level paren *)
                match string, success t' with
                | CHECK, _ => do_match pattern' [] CHECK
                | Str _, Some q => do_match pattern' [] q
                | Str _, None => 0                     (* mismatch at outer ) *)
                end
            | u :: r' =>
                match success t' with
                | Some q => do_match pattern' (u :: r') (move_to string q)
                | None => do_match pattern' (set_failed u :: r') string
                end
            end
        end
      else
        let step (c : byte) (any : bool) (k : list paren -> sptr -> Z) : Z :=
          match string with
          | CHECK => k parens CHECK                    (* only doing validity check *)
          | Str s =>
              if (if any then negb (hd0 s =? 0) else hd0 s =? c)
              then k parens (Str (if any then utf8inc s else tail s))
              else match parens with
                   | t :: r => k (set_failed t :: r) string
                   | [] => 0                           (* char mismatch *)
                   end
          end in
        if p =? ch_bs then
          match pattern' with
          | [] => -1                                   (* \ at end of pattern *)
          | c :: pattern'' => step c false (do_match pattern'')
          end
        else step p (p =? ch_any) (do_match pattern')
  end.

Definition match_ (pattern string : bytes) : Z :=
  do_match (cstr pattern) [] (Str (cstr string)).

Definition match_isvalid (pattern : bytes) : bool :=
  do_match (cstr pattern) [] CHECK =? 1.

(** ** Reference semantics *)

(** Syntax trees of patterns: a [pat] is a sequence, an [alts] the branches of a group.
    [PChr true c] is the escaped character [\c]. *)
Inductive pat :=
  | PNil
  | PChr (esc : bool) (c : byte) (k : pat)
  | PAny (k : pat)
  | PStar (k : pat)
  | PGroup (a : alts) (k : pat)
with alts :=
  | AOne (p : pat)
  | ACons (p : pat) (a : alts).

Scheme pat_mut := Induction for pat Sort Prop
  with alts_mut := Induction for alts Sort Prop.
Combined Scheme pat_alts_ind from pat_mut, alts_mut.

Fixpoint print (p : pat) : bytes :=
  match p with
  | PNil => []
  | PChr esc c k => (if esc then [ch_bs; c] else [c]) ++ print k
  | PAny k => ch_any :: print k
  | PStar k => ch_star :: print k
  | PGroup a k => ch_lpar :: print_alts a ++ ch_rpar :: print k
  end
with print_alts (a : alts) : bytes :=
  match a with
  | AOne p => print p
  | ACons p a' => print p ++ ch_bar :: print_alts a'
  end.

Definition is_meta (c : byte) : bool :=
  (c =? ch_lpar) || (c =? ch_bar) || (c =? ch_rpar) || (c =? ch_star) || (c =? ch_any)
  || (c =? ch_bs).

(** A [*] may not be followed by another [*] or by a group. *)
Definition star_ok (k : pat) : bool :=
  match k with PStar _ | PGroup _ _ => false | _ => true end.

Fixpoint wf (p : pat) : bool :=
  match p with
  | PNil => true
  | PChr esc c k => negb (c =? 0) && (esc || negb (is_meta c)) && wf k
  | PAny k => wf k
  | PStar k => star_ok k && wf k
  | PGroup a k => wf_alts a && wf k
  end
with wf_alts (a : alts) : bool :=
  match a with
  | AOne p => wf p
  | ACons p a' => wf p && wf_alts a'
  end.

(** Nesting depth of groups. *)
Fixpoint depth (p : pat) : nat :=
  match p with
  | PNil => 0
  | PChr _ _ k | PAny k | PStar k => depth k
  | PGroup a k => Nat.max (S (depth_alts a)) (depth k)
  end
with depth_alts (a : alts) : nat :=
  match a with
  | AOne p => depth p
  | ACons p a' => Nat.max (depth p) (depth_alts a')
  end.

(** [run p s] is what is left of [s] after [p] matched at its front. A final [*] takes
    everything, [*?] is [?], any other [*] skips to the next character of the pattern; a
    group takes its first matching branch and never reconsiders it. *)
Fixpoint run (p : pat) (s : bytes) : option bytes :=
  match p with
  | PNil => Some s
  | PChr _ c k => match s with x :: s' => if x =? c then run k s' else None | [] => None end
  | PAny k => match s with _ :: _ => run k (utf8inc s) | [] => None end
  | PStar k =>
      match k with
      | PNil => Some []
      | PAny _ => run k s
      | _ => run k (greedy s (print k))
      end
  | PGroup a k => match run_alts a s with Some s' => run k s' | None => None end
  end
with run_alts (a : alts) (s : bytes) : option bytes :=
  match a with
  | AOne p => run p s
  | ACons p a' => match run p s with Some s' => Some s' | None => run_alts a' s end
  end.

(** ** Facts about the UTF-8 helpers *)

Lemma is_cont_lead c : is_cont c = true -> c <> 0.
Proof. intros H ->. discriminate H. Qed.

Lemma utf8eq_cont_app a b r :
  is_cont (hd0 r) = false -> utf8eq_cont a (b ++ r) = utf8eq_cont a b.
Proof.
  intros Hr. revert b. induction a as [|x a IH]; intros b; cbn; [done|].
  destruct (is_cont x) eqn:Hx; [|done]. destruct b as [|y b]; cbn; [|by rewrite IH].
  destruct (Z.eqb_spec x (hd0 r)) as [->|]; [congruence|].
  destruct (Z.eqb_spec x 0) as [->|]; [discriminate Hx|done].
Qed.

Lemma utf8eq_app a b r :
  b <> [] -> is_cont (hd0 r) = false -> utf8eq a (b ++ r) = utf8eq a b.
Proof.
  intros Hb Hr. destruct b as [|y b]; [done|]. unfold utf8eq. cbn.
  by rewrite utf8eq_cont_app.
Qed.

Lemma greedy_app s b r :
  b <> [] -> is_cont (hd0 r) = false -> greedy s (b ++ r) = greedy s b.
Proof.
  intros Hb Hr. unfold greedy. generalize (S (length s)). intros n. revert s.
  induction n as [|n IH]; intros s; cbn; [done|]. rewrite utf8eq_app by done.
  by rewrite IH.
Qed.

Lemma skip_cont_suffix a : exists b, a = b ++ skip_cont a.
Proof.
  induction a as [|x a [b Hb]]; cbn; [by exists []|]. destruct (is_cont x).
  - exists (x :: b). cbn. by f_equal.
  - by exists [].
Qed.

Lemma utf8inc_suffix x a : exists b, x :: a = x :: b ++ utf8inc (x :: a).
Proof.
  unfold utf8inc. cbn. destruct (is_lead x).
  - destruct (skip_cont_suffix a) as [b Hb]. exists b. by f_equal.
  - by exists [].
Qed.

Lemma utf8inc_length s : s <> [] -> (length (utf8inc s) < length s)%nat.
Proof.
  destruct s as [|x s]; [done|]. intros _. destruct (utf8inc_suffix x s) as [b Hb].
  apply (f_equal length) in Hb. cbn [length] in *. rewrite length_app in Hb. lia.
Qed.

Lemma utf8inc_nul_free s : nul_free s -> nul_free (utf8inc s).
Proof.
  destruct s as [|x s]; [done|]. destruct (utf8inc_suffix x s) as [b Hb].
  unfold nul_free. intros H. rewrite Hb in H. apply Forall_cons in H as [_ H].
  by apply Forall_app in H as [_ ?].
Qed.

(** What the skipping loop of [*c] computes, with enough fuel: it stops at the end of the
    string or at the pattern's next character, and does not pass over that character. *)
Inductive skips (pattern : bytes) : bytes -> bytes -> Prop :=
  | skips_end : skips pattern [] []
  | skips_hit s : s <> [] -> utf8eq s pattern = true -> skips pattern s s
  | skips_pass s s' : s <> [] -> utf8eq s pattern = false ->
      skips pattern (utf8inc s) s' -> skips pattern s s'.

Lemma greedy_fuel_enough n s pattern :
  nul_free s -> (length s < n)%nat -> skips pattern s (greedy_fuel n s pattern).
Proof.
  revert s. induction n as [|n IH]; intros s Hs Hn; [lia|]. cbn.
  destruct s as [|x s]; cbn [hd0]; [constructor|].
  assert (x <> 0) by (by apply Forall_cons in Hs as [? _]).
  destruct (Z.eqb_spec x 0); [done|]. cbn [negb andb].
  destruct (utf8eq (x :: s) pattern) eqn:E; cbn [negb]; [by constructor|].
  apply skips_pass; [done|done|].
  apply IH; [by apply utf8inc_nul_free|].
  pose proof (utf8inc_length (x :: s)). cbn [length] in *. naive_solver lia.
Qed.

Lemma greedy_nul_free s pattern : nul_free s -> nul_free (greedy s pattern).
Proof.
  unfold greedy. generalize (S (length s)). intros n. revert s.
  induction n as [|n IH]; intros s Hs; cbn; [done|].
  destruct (negb (hd0 s =? 0) && negb (utf8eq s pattern)); [|done].
  by apply IH, utf8inc_nul_free.
Qed.

Lemma nul_free_tail s : nul_free s -> nul_free (tail s).
Proof. destruct s; cbn; [done|]. by intros [_ ?]%Forall_cons. Qed.

Lemma nul_free_hd0 s : nul_free s -> (hd0 s =? 0) = bool_decide (s = []).
Proof.
  destruct s as [|x s]; [done|]. intros [Hx _]%Forall_cons. cbn [hd0].
  rewrite bool_decide_false by done. by apply Z.eqb_neq.
Qed.

#[local] Hint Resolve greedy_nul_free nul_free_tail utf8inc_nul_free : infod.

(** ** The scan simulates the reference semantics *)

(** What follows a sequence inside a pattern: nothing, a [|] or a [)]. *)
Definition term (k : bytes) : Prop := hd0 k = 0 \/ hd0 k = ch_bar \/ hd0 k = ch_rpar.

(** Scanning [pattern] from [s] has the result [res] and goes on with [k]: a mismatch
    outside groups ends the scan, inside a group it only marks the group as failed. *)
Definition sim (pattern k : bytes) (st : list paren) (s : bytes) (res : option bytes) : Prop :=
  match res with
  | Some s' => nul_free s' /\ do_match pattern st (Str s) = do_match k st (Str s')
  | None =>
      match st with
      | [] => do_match pattern [] (Str s) = 0
      | t :: r => exists s', nul_free s' /\
          do_match pattern (t :: r) (Str s) = do_match k (set_failed t :: r) (Str s')
      end
  end.

Lemma sim_after_failure pattern mid k t r s s1 res :
  do_match pattern (t :: r) (Str s) = do_match mid (set_failed t :: r) (Str s1) ->
  sim mid k (set_failed t :: r) s1 res -> sim pattern k (t :: r) s None.
Proof.
  intros E H. destruct res as [s'|]; cbn in *.
  - destruct H as [? H]. exists s'. split; [done|]. by rewrite E.
  - destruct H as (s' & ? & H). exists s'. split; [done|]. by rewrite E.
Qed.

Lemma sim_step pattern mid k st s s1 res :
  do_match pattern st (Str s) = do_match mid st (Str s1) ->
  sim mid k st s1 res -> sim pattern k st s res.
Proof.
  intros E H. unfold sim in *. destruct res; [by rewrite E|].
  destruct st; by rewrite E.
Qed.

Lemma term_not_cont k : term k -> is_cont (hd0 k) = false.
Proof. by intros [->|[->| ->]]. Qed.

Lemma print_star_head k r :
  star_ok k = true -> wf k = true -> k <> PNil ->
  hd0 (print k ++ r) <> 0 /\ hd0 (print k ++ r) <> ch_star /\ hd0 (print k ++ r) <> ch_lpar /\
  hd0 (print k ++ r) <> ch_bar /\ hd0 (print k ++ r) <> ch_rpar /\
  (hd0 (print k ++ r) = ch_any <-> exists k', k = PAny k').
Proof.
  destruct k as [|[] c k| | |]; cbn; try done; intros _ Hw _.
  - repeat split; try done. by intros [? ?].
  - unfold is_meta in Hw.
    repeat match type of Hw with context [?a =? ?b] => destruct (Z.eqb_spec a b); [done|] end.
    repeat split; try done. by intros [? ?].
  - repeat split; try done. eauto.
Qed.

(** The character tests of [do_match] on a regular character. *)
Lemma do_match_regular c k st string :
  is_meta c = false ->
  do_match (c :: k) st string =
    match string with
    | CHECK => do_match k st CHECK
    | Str s => if hd0 s =? c then do_match k st (Str (tail s))
               else match st with t :: r => do_match k (set_failed t :: r) string | [] => 0 end
    end.
Proof.
  unfold is_meta. intros H. repeat rewrite orb_false_iff in H.
  destruct H as [[[[[H1 H2] H3] H4] H5] H6].
  cbn [do_match]. by rewrite H1, H2, H3, H4, H5, H6.
Qed.

Lemma print_star k r :
  star_ok k = true -> wf k = true -> term r -> k <> PNil -> forall st s,
  do_match (ch_star :: print k ++ r) st (Str s) =
    do_match (print k ++ r) st
      (Str (match k with PAny _ => s | _ => greedy s (print k) end)).
Proof.
  intros Hs Hw Hr Hk st s.
  destruct (print_star_head k r Hs Hw Hk) as (H0 & H1 & H2 & H3 & H4 & H5).
  apply Z.eqb_neq in H0, H1, H2, H3, H4.
  cbn [do_match]. rewrite Z.eqb_refl. cbn zeta. rewrite H0, H1, H2, H3, H4. cbn [orb].
  destruct (Z.eqb_spec (hd0 (print k ++ r)) ch_any) as [E|E].
  { destruct (proj1 H5 E) as [k' ->]. done. }
  destruct k as [|esc c k'|k'| |]; try done.
  rewrite greedy_app; [|by destruct esc|by apply term_not_cont].
  destruct esc; cbn in *; [|unfold is_meta in Hw];
    destruct (Z.eqb_spec c 0); try done; destruct (c =? ch_bs); try done.
  by rewrite !orb_true_r in Hw.
Qed.

Lemma run_nul_free :
  (forall p s s', run p s = Some s' -> nul_free s -> nul_free s') /\
  (forall a s s', run_alts a s = Some s' -> nul_free s -> nul_free s').
Proof.
  apply pat_alts_ind.
  - by intros s s' [= ->].
  - intros esc c k IH [|x s] s' H Hs; cbn in H; [done|]. destruct (x =? c); [|done].
    by apply IH in H; [|apply nul_free_tail in Hs].
  - intros k IH [|x s] s' H Hs; [done|]. apply (IH _ _ H). eauto with infod.
  - intros k IH s s' H Hs. destruct k; cbn -[greedy] in H;
      try (eapply IH; [exact H|]; eauto with infod; fail).
    by injection H as <-; constructor.
  - intros a IHa k IH s s' H Hs. cbn in H. destruct (run_alts a s) eqn:E; [|done]. eauto.
  - intros p IH s s'. apply IH.
  - intros p IH a IHa s s' H Hs. cbn in H. destruct (run p s) eqn:E; [|eauto].
    injection H as <-. eauto.
Qed.

(** The state of a group at its [)]: the branch that succeeded first, if any. *)
Definition settled (t : paren) (s : bytes) : option sptr := success (note_success t (Str s)).

Lemma settled_ok st0 o s :
  settled (mk_paren st0 false o) s = match o with Some q => Some q | None => Some (Str s) end.
Proof. by destruct o. Qed.

Lemma settled_failed t s : settled (set_failed t) s = success t.
Proof. done. Qed.

Definition sim_pat (p : pat) : Prop := forall k st s,
  wf p = true -> (depth p + length st <= MAX_PAREN)%nat -> term k -> nul_free s ->
  sim (print p ++ k) k st s (run p s).

(** A group entered at [s], whose record [t] is on top of the stack, reaches its [)] with the
    first matching branch settled. *)
Definition sim_alts (a : alts) : Prop := forall k o r s,
  wf_alts a = true -> (depth_alts a + S (length r) <= MAX_PAREN)%nat -> nul_free s ->
  exists t' s', nul_free s' /\ start t' = Str s /\
    do_match (print_alts a ++ ch_rpar :: k) (mk_paren (Str s) false o :: r) (Str s) =
      do_match (ch_rpar :: k) (t' :: r) (Str s') /\
    settled t' s' = match o with Some q => Some q | None => Str <$> run_alts a s end.

Lemma sim_chr esc c k : sim_pat k -> sim_pat (PChr esc c k).
Proof.
  intros IH r st s Hw Hd Hr Hs. cbn [wf depth] in *.
  apply andb_true_iff in Hw as [[Hc He]%andb_true_iff Hw].
  assert (Hstep : forall string, do_match (print (PChr esc c k) ++ r) st string =
    match string with
    | CHECK => do_match (print k ++ r) st CHECK
    | Str s => if hd0 s =? c then do_match (print k ++ r) st (Str (tail s))
               else match st with
                    | t :: r' => do_match (print k ++ r) (set_failed t :: r') string
                    | [] => 0 end
    end).
  { intros string. destruct esc; cbn [print app]; [done|].
    apply do_match_regular. by destruct (is_meta c). }
  destruct (Z.eqb_spec (hd0 s) c) as [E|E].
  - destruct s as [|x s]; cbn in E; subst; [done|]. cbn [run]. rewrite Z.eqb_refl.
    eapply sim_step; [rewrite Hstep; cbn [hd0 tail]; by rewrite Z.eqb_refl|].
    apply IH; auto. by apply nul_free_tail in Hs.
  - assert (Hrun : run (PChr esc c k) s = None).
    { destruct s as [|x s]; [done|]. cbn in *. by rewrite (proj2 (Z.eqb_neq x c)). }
    rewrite Hrun. apply Z.eqb_neq in E. destruct st as [|t st].
    + unfold sim. rewrite Hstep. by rewrite E.
    + eapply sim_after_failure; [rewrite Hstep, E; done|]. by apply IH.
Qed.

Lemma sim_any k : sim_pat k -> sim_pat (PAny k).
Proof.
  intros IH r st s Hw Hd Hr Hs. cbn [wf depth] in *.
  destruct s as [|x s].
  - destruct st as [|t st]; [done|].
    eapply sim_after_failure; [reflexivity|]. by apply IH.
  - eapply (sim_step _ (print k ++ r) _ _ _ (utf8inc (x :: s))); [|apply IH; eauto with infod].
    cbn -[utf8inc]. apply Forall_cons in Hs as [Hx _]. by destruct (Z.eqb_spec x 0).
Qed.

Lemma sim_star k : sim_pat k -> sim_pat (PStar k).
Proof.
  intros IH r st s Hw Hd Hr Hs. cbn [wf depth] in *.
  apply andb_true_iff in Hw as [Hok Hw].
  assert (k = PNil \/ k <> PNil) as [->|Hk] by (destruct k; auto).
  - cbn. split; [by constructor|].
    unfold term in Hr. destruct Hr as [->|[->| ->]]; done.
  - replace (run (PStar k) s)
      with (run k (match k with PAny _ => s | _ => greedy s (print k) end)) by by destruct k.
    eapply sim_step; [apply print_star; done|].
    apply IH; try done. destruct k; eauto with infod.
Qed.

Lemma sim_group a k : sim_alts a -> sim_pat k -> sim_pat (PGroup a k).
Proof.
  intros IHa IH r st s Hw Hd Hr Hs. cbn [wf depth] in *.
  apply andb_true_iff in Hw as [Hwa Hw].
  destruct (IHa (print k ++ r) None st s Hwa ltac:(lia) Hs) as (t' & s' & Hs' & Ht & E & Hset).
  assert (E' : do_match (print (PGroup a k) ++ r) st (Str s) =
    do_match (ch_rpar :: print k ++ r) (t' :: st) (Str s')).
  { rewrite <- E. cbn [print app]. rewrite <- app_assoc. cbn [app].
    remember (print_alts a ++ _) as q. cbn [do_match].
    destruct (Nat.ltb_spec (length st) MAX_PAREN); [done|lia]. }
  unfold settled in Hset. cbn [run]. destruct (run_alts a s) as [s1|] eqn:Ha.
  - pose proof (proj2 run_nul_free a s s1 Ha Hs).
    eapply (sim_step _ (print k ++ r) _ _ _ s1); [|apply IH; auto; lia].
    rewrite E'. cbn [do_match Z.eqb]. rewrite Hset. by destruct st.
  - destruct st as [|u st].
    + unfold sim. rewrite E'. cbn [do_match]. by rewrite Hset.
    + eapply (sim_after_failure _ (print k ++ r)); [|apply (IH r _ s'); auto; cbn [length] in *; lia].
      rewrite E'. cbn [do_match]. by rewrite Hset.
Qed.

Lemma sim_alts_cons p a : sim_pat p -> sim_alts a -> sim_alts (ACons p a).
Proof.
  intros IHp IHa k o r s Hw Hd Hs. cbn [wf_alts depth_alts] in *.
  apply andb_true_iff in Hw as [Hwp Hwa].
  set (k1 := ch_bar :: print_alts a ++ ch_rpar :: k).
  assert (Hp : print_alts (ACons p a) ++ ch_rpar :: k = print p ++ k1)
    by (cbn; by rewrite <- app_assoc).
  pose proof (IHp k1 (mk_paren (Str s) false o :: r) s Hwp
    ltac:(cbn [length]; lia) ltac:(right; by left) Hs) as H.
  rewrite Hp. cbn [run_alts]. destruct (run p s) as [s1|]; cbn -[do_match] in H.
  - destruct H as [Hs1 E]. rewrite E.
    destruct (IHa k (match o with Some q => Some q | None => Some (Str s1) end) r s)
      as (t' & s' & ? & ? & E' & Hset); [done|lia|done|].
    exists t', s'. split_and!; [done..| |by destruct o].
    rewrite <- E'. unfold k1. cbn [do_match]. by destruct o.
  - destruct H as (s1 & Hs1 & E). rewrite E.
    destruct (IHa k o r s) as (t' & s' & ? & ? & E' & Hset); [done|lia|done|].
    exists t', s'. split_and!; [done..| |by destruct o].
    rewrite <- E'. unfold k1. cbn [do_match]. by destruct o.
Qed.

Lemma sim_alts_one p : sim_pat p -> sim_alts (AOne p).
Proof.
  intros IH k o r s Hw Hd Hs. cbn [wf_alts depth_alts print_alts run_alts] in *.
  pose proof (IH (ch_rpar :: k) (mk_paren (Str s) false o :: r) s Hw
    ltac:(cbn [length]; lia) ltac:(right; by right) Hs) as H.
  destruct (run p s) as [s1|]; cbn -[do_match] in H.
  - destruct H as [Hs1 E]. exists (mk_paren (Str s) false o), s1.
    split_and!; [done..|]. by rewrite settled_ok; destruct o.
  - destruct H as (s1 & Hs1 & E). exists (set_failed (mk_paren (Str s) false o)), s1.
    split_and!; [done..|]. by rewrite settled_failed; destruct o.
Qed.

Lemma do_match_sim : (forall p, sim_pat p) /\ (forall a, sim_alts a).
Proof.
  apply pat_alts_ind; auto using sim_chr, sim_any, sim_star, sim_group, sim_alts_one,
    sim_alts_cons.
  intros k st s _ _ _ Hs. by split.
Qed.

(** ** Syntax checks *)

(** In [CHECK] mode only the number of open groups matters. *)
Lemma check_stack n pattern st st' :
  (length pattern < n)%nat -> length st = length st' ->
  do_match pattern st CHECK = do_match pattern st' CHECK.
Proof.
  revert pattern st st'. induction n as [|n IH]; intros pattern st st' Hn Hst; [lia|].
  destruct pattern as [|p pattern]; [by destruct st, st'|].
  cbn [length] in Hn. assert (Hn' : (length pattern < n)%nat) by lia.
  cbn [do_match]. rewrite Hst.
  repeat match goal with |- (if ?b then _ else _) = (if ?b then _ else _) => destruct b end;
    auto; try (apply IH; cbn [length move_to] in *; by auto with lia).
  - destruct st, st'; cbn in Hst; try done. apply IH; [done|]. cbn. lia.
  - destruct st as [|t st], st' as [|t' st']; try done. injection Hst as Hst.
    destruct st as [|u st], st' as [|u' st']; try done.
    destruct (success _), (success _); apply IH; cbn in *; auto.
  - destruct pattern; [done|]. apply IH; [cbn in Hn'; lia|done].
Qed.

Lemma check_len pattern st st' :
  length st = length st' -> do_match pattern st CHECK = do_match pattern st' CHECK.
Proof. apply (check_stack (S (length pattern))). lia. Qed.

Lemma check_close t r k : do_match (ch_rpar :: k) (t :: r) CHECK = do_match k r CHECK.
Proof.
  cbn [do_match]. destruct r as [|u r]; [done|].
  destruct (success _); [done|]. by apply check_len.
Qed.

Lemma check_bar t r k : do_match (ch_bar :: k) (t :: r) CHECK = do_match k (t :: r) CHECK.
Proof. cbn [do_match]. by apply check_len. Qed.

Lemma check_open st k :
  (length st < MAX_PAREN)%nat -> forall t,
  do_match (ch_lpar :: k) st CHECK = do_match k (t :: st) CHECK.
Proof.
  intros H t. cbn [do_match]. destruct (Nat.ltb_spec (length st) MAX_PAREN); [|lia].
  by apply check_len.
Qed.

Lemma check_star_end k st : term k -> do_match (ch_star :: k) st CHECK = do_match k st CHECK.
Proof. intros H. cbn. unfold term in H. destruct H as [->|[->| ->]]; done. Qed.

Lemma check_star k r st :
  star_ok k = true -> wf k = true -> k <> PNil ->
  do_match (ch_star :: print k ++ r) st CHECK = do_match (print k ++ r) st CHECK.
Proof.
  intros Hs Hw Hk.
  destruct (print_star_head k r Hs Hw Hk) as (H0 & H1 & H2 & H3 & H4 & H5).
  apply Z.eqb_neq in H0, H1, H2, H3, H4.
  cbn [do_match]. rewrite Z.eqb_refl. cbn zeta. rewrite H0, H1, H2, H3, H4. cbn [orb].
  destruct (Z.eqb_spec (hd0 (print k ++ r)) ch_any) as [E|E]; [done|].
  destruct k as [|[] c k'| | |]; try done; cbn in *; destruct (Z.eqb_spec c 0); try done.
  unfold is_meta in Hw. destruct (c =? ch_bs); [|done]. by rewrite !orb_true_r in Hw.
Qed.

Lemma check_print :
  (forall p k st, wf p = true -> (depth p + length st <= MAX_PAREN)%nat -> term k ->
     do_match (print p ++ k) st CHECK = do_match k st CHECK) /\
  (forall a k t r, wf_alts a = true -> (depth_alts a + S (length r) <= MAX_PAREN)%nat ->
     do_match (print_alts a ++ ch_rpar :: k) (t :: r) CHECK = do_match k r CHECK).
Proof.
  apply pat_alts_ind; cbn [wf depth wf_alts depth_alts print print_alts]; intros.
  - done.
  - apply andb_true_iff in H0 as [[Hc He]%andb_true_iff Hw].
    transitivity (do_match (print k ++ k0) st CHECK); [|by apply H].
    destruct esc; [done|]. cbn [app]. rewrite do_match_regular; [done|].
    by destruct (is_meta c).
  - transitivity (do_match (print k ++ k0) st CHECK); [done|by apply H].
  - apply andb_true_iff in H0 as [Hs Hw].
    assert (k = PNil \/ k <> PNil) as [->|Hk] by (destruct k; auto).
    + by apply check_star_end.
    + cbn [app]. rewrite check_star by done. by apply H.
  - apply andb_true_iff in H1 as [Hs Hw]. cbn [app]. rewrite <- app_assoc.
    rewrite (check_open st _ ltac:(lia) (mk_paren CHECK false None)). cbn [app].
    rewrite H by (done || lia). apply H0; done || lia.
  - rewrite H; [by rewrite check_close|done|cbn [length]; lia|right; by right].
  - apply andb_true_iff in H1 as [Hp Ha]. rewrite <- app_assoc. cbn [app].
    rewrite H; [|done|cbn [length]; lia|right; by left].
    rewrite check_bar. apply H0; done || lia.
Qed.

(** How a valid scan goes on after a sequence, with [st] groups open. *)
Definition ends (k : bytes) (st : list paren) : Prop :=
  (k = [] /\ st = []) \/
  (exists k', k = ch_bar :: k' /\ st <> [] /\ do_match k' st CHECK = 1) \/
  (exists k' t r, k = ch_rpar :: k' /\ st = t :: r /\ do_match k' r CHECK = 1).

Definition parses (pattern : bytes) : Prop := forall st,
  nul_free pattern -> (length st <= MAX_PAREN)%nat -> do_match pattern st CHECK = 1 ->
  exists p k, pattern = print p ++ k /\ wf p = true /\
    (depth p + length st <= MAX_PAREN)%nat /\ ends k st.

Definition parses_alts (pattern : bytes) : Prop := forall t r,
  nul_free pattern -> (S (length r) <= MAX_PAREN)%nat -> do_match pattern (t :: r) CHECK = 1 ->
  exists a k, pattern = print_alts a ++ ch_rpar :: k /\ wf_alts a = true /\
    (depth_alts a + S (length r) <= MAX_PAREN)%nat /\ do_match k r CHECK = 1.

Lemma parse_star pattern : parses pattern -> parses (ch_star :: pattern).
Proof.
  intros IH st Hnf Hst H. apply nul_free_tail in Hnf. cbn [tail] in Hnf.
  assert (H' : do_match pattern st CHECK = 1 /\ hd0 pattern <> ch_star /\ hd0 pattern <> ch_lpar).
  { cbn [do_match] in H. rewrite Z.eqb_refl in H. cbn zeta in H.
    destruct (Z.eqb_spec (hd0 pattern) ch_star), (Z.eqb_spec (hd0 pattern) ch_lpar); try done.
    cbn [orb move_to] in H. split; [|done].
    destruct ((hd0 pattern =? 0) || _ || _), (hd0 pattern =? ch_any); try done.
    by destruct ((hd0 pattern =? ch_bs) && _). }
  destruct H' as (H1 & H2 & H3).
  destruct (IH st Hnf Hst H1) as (p & k & -> & Hw & Hd & He).
  exists (PStar p), k. split_and!; [done| |done|done].
  cbn. rewrite Hw. by destruct p.
Qed.

Lemma parse_chr esc c pattern :
  (esc || negb (is_meta c)) = true -> parses pattern ->
  parses ((if esc then [ch_bs; c] else [c]) ++ pattern).
Proof.
  intros He IH st Hnf Hst H.
  apply Forall_app in Hnf as [Hc Hnf].
  assert (H' : do_match pattern st CHECK = 1).
  { destruct esc; cbn [app] in H; [exact H|]. rewrite do_match_regular in H; [done|].
    by destruct (is_meta c). }
  destruct (IH st Hnf Hst H') as (p & k & -> & Hw & Hd & He').
  exists (PChr esc c p), k. split_and!; [cbn; by rewrite app_assoc| |done|done].
  cbn. rewrite He, Hw. destruct (Z.eqb_spec c 0); [|done]. subst.
  destruct esc; [apply Forall_cons in Hc as [_ Hc]|]; by apply Forall_cons in Hc as [? _].
Qed.

Lemma parse_group pattern :
  parses_alts pattern -> (forall k, (length k < length pattern)%nat -> parses k) ->
  parses (ch_lpar :: pattern).
Proof.
  intros IHa IH st Hnf Hst H. apply nul_free_tail in Hnf. cbn [tail] in Hnf.
  destruct (decide (length st < MAX_PAREN)%nat) as [Hlt|Hlt].
  2:{ exfalso. cbn [do_match] in H. destruct (Nat.ltb_spec (length st) MAX_PAREN); done. }
  rewrite (check_open st _ Hlt (mk_paren CHECK false None)) in H.
  destruct (IHa _ st Hnf Hlt H) as (a & k & -> & Hwa & Hda & Hk).
  apply Forall_app in Hnf as [_ Hnf]. apply Forall_cons in Hnf as [_ Hnf].
  destruct (IH k) with (st := st) as (p & k' & -> & Hw & Hd & He); try done.
  { rewrite length_app. cbn. lia. }
  exists (PGroup a p), k'. split_and!; [|by cbn; rewrite Hwa|cbn; lia|done].
  cbn. by rewrite <- app_assoc.
Qed.

Lemma parse_complete n pattern :
  (length pattern < n)%nat -> parses pattern /\ parses_alts pattern.
Proof.
  revert pattern. induction n as [|n IH]; intros pattern Hn; [lia|].
  assert (Hp : parses pattern).
  { destruct pattern as [|c pattern].
    { intros [] Hnf Hst H; [|done]. exists PNil, []. split_and!; [done..|]. by left. }
    cbn [length] in Hn.
    destruct (Z.eqb_spec c ch_star) as [->|]; [apply parse_star, IH; lia|].
    destruct (Z.eqb_spec c ch_lpar) as [->|].
    { apply parse_group; [apply IH; lia|]. intros k Hk. apply IH. lia. }
    destruct (Z.eqb_spec c ch_bar) as [->|].
    { intros [|t r] Hnf Hst H; [done|]. rewrite check_bar in H.
      exists PNil, (ch_bar :: pattern). split_and!; [done..|]. right. left. by exists pattern. }
    destruct (Z.eqb_spec c ch_rpar) as [->|].
    { intros [|t r] Hnf Hst H; [done|]. rewrite check_close in H.
      exists PNil, (ch_rpar :: pattern). split_and!; [done..|]. right. right. by exists pattern, t, r. }
    destruct (Z.eqb_spec c ch_bs) as [->|].
    { destruct pattern as [|c pattern]; [by intros st ? ? ?|].
      apply (parse_chr true c pattern); [done|]. apply IH. cbn in Hn. lia. }
    destruct (Z.eqb_spec c ch_any) as [->|].
    { intros st Hnf Hst H. destruct (IH pattern) as [Hp _]; [lia|].
      destruct (Hp st) as (p & k & -> & ? & ? & ?); [by apply nul_free_tail in Hnf|done|done|].
      by exists (PAny p), k. }
    apply (parse_chr false c pattern); [|apply IH; lia].
    unfold is_meta. repeat match goal with |- context [c =? ?b] =>
      rewrite (proj2 (Z.eqb_neq c b)) by done end. done. }
  split; [done|].
  intros t r Hnf Hst H. destruct (Hp (t :: r) Hnf Hst H) as (p & k & -> & Hw & Hd & He).
  destruct He as [[_ ?]|[(k' & -> & _ & Hk)|(k' & t' & r' & -> & [= -> ->] & Hk)]]; [done| |].
  - apply Forall_app in Hnf as [_ Hnf]. apply Forall_cons in Hnf as [_ Hnf].
    destruct (IH k') as [_ Ha]; [rewrite length_app in Hn; cbn in Hn; lia|].
    destruct (Ha t r Hnf Hst Hk) as (a & k & -> & Hwa & Hda & Hk').
    exists (ACons p a), k. split_and!; [|by cbn; rewrite Hw|cbn [depth_alts length] in *; lia|done].
    cbn. by rewrite <- app_assoc.
  - exists (AOne p), k'. by split_and!.
Qed.

(** ** Lemmas behind the properties *)

Lemma print_nul_free :
  (forall p, wf p = true -> nul_free (print p)) /\
  (forall a, wf_alts a = true -> nul_free (print_alts a)).
Proof.
  unfold nul_free. apply pat_alts_ind; cbn; intros;
    rewrite ?andb_true_iff in *; destruct_and?; auto;
    rewrite ?Forall_cons, ?Forall_app, ?Forall_cons; try (split_and!; by auto).
  split; [|by auto]. destruct (Z.eqb_spec c 0); [done|].
  destruct esc; repeat constructor; done.
Qed.

Lemma match_print p s :
  wf p = true -> (depth p <= MAX_PAREN)%nat ->
  match_ (print p) s = if decide (run p (cstr s) = Some []) then 1 else 0.
Proof.
  intros Hw Hd. unfold match_. rewrite (cstr_id (print p)) by by apply print_nul_free.
  pose proof (proj1 do_match_sim p [] [] (cstr s) Hw ltac:(cbn; lia) ltac:(by left)
    (cstr_nul_free s)) as H.
  rewrite app_nil_r in H. unfold sim in H.
  destruct (run p (cstr s)) as [s'|]; [|by case_decide].
  destruct H as [Hs' ->]. cbn [do_match]. rewrite nul_free_hd0 by done.
  case_bool_decide; case_decide; naive_solver.
Qed.

Lemma isvalid_print pattern :
  match_isvalid pattern = true <->
  exists p, wf p = true /\ (depth p <= MAX_PAREN)%nat /\ cstr pattern = print p.
Proof.
  unfold match_isvalid. rewrite Z.eqb_eq. split.
  - intros H. destruct (parse_complete (S (length (cstr pattern))) (cstr pattern)) as [Hp _]; [lia|].
    destruct (Hp [] (cstr_nul_free _) ltac:(cbn; lia) H) as (p & k & E & Hw & Hd & He).
    exists p. cbn in Hd. split_and!; [done|lia|]. rewrite E.
    destruct He as [[-> _]|[(? & ? & ? & ?)|(? & ? & ? & ? & ? & ?)]]; try done.
    by rewrite app_nil_r.
  - intros (p & Hw & Hd & ->). rewrite <- (app_nil_r (print p)).
    rewrite (proj1 check_print p [] []); [done|done|cbn; lia|by left].
Qed.


(** While a string is matched, every saved position is a position in that string. *)
Definition in_string (t : paren) : Prop := start t <> CHECK /\ success t <> Some CHECK.

Lemma note_success_in t s : in_string t -> in_string (note_success t (Str s)).
Proof.
  unfold note_success, in_string. intros [? ?].
  destruct (negb (failed t) && _); by split.
Qed.

(** A scan that accepts a string also accepts the syntax. *)
Lemma accept_check n pattern st q :
  (length pattern < n)%nat -> q <> CHECK -> Forall in_string st ->
  do_match pattern st q = 1 -> do_match pattern st CHECK = 1.
Proof.
  revert pattern st q. induction n as [|n IH]; intros pattern st q Hn Hq Hst; [lia|].
  destruct q as [|s]; [done|].
  destruct pattern as [|p pattern]; [by destruct st|].
  cbn [length] in Hn. assert (Hn' : (length pattern < n)%nat) by lia.
  cbn [do_match move_to].
  repeat match goal with |- (if ?b then _ else _) = _ -> (if ?b then _ else _) = _ =>
    destruct b end; auto; try (apply IH; done).
  - intros H. rewrite (check_len _ _ (mk_paren (Str s) false None :: st)) by done.
    revert H. apply IH; [done..|]. by constructor.
  - destruct st as [|t st]; [done|]. apply Forall_cons in Hst as [[H1 H2]%(note_success_in _ s) Hst].
    intros H. rewrite (check_len _ _ (mk_paren (start (note_success t (Str s))) false
      (success (note_success t (Str s))) :: st)) by done.
    revert H. apply IH; [done..|]. by constructor.
  - destruct st as [|t st]; [done|].
    apply Forall_cons in Hst as [[H1 H2]%(note_success_in _ s) Hst].
    destruct st as [|u st].
    { destruct (success (note_success t (Str s))); [|done].
      apply IH; [done| |done]. congruence. }
    apply Forall_cons in Hst as [Hu Hst].
    intros H. transitivity (do_match pattern (u :: st) CHECK).
    { by destruct (success (note_success t CHECK)); apply check_len. }
    destruct (success (note_success t (Str s))).
    + revert H. apply IH; [done|congruence|by constructor].
    + rewrite (check_len _ _ (set_failed u :: st)) by done.
      revert H. apply IH; [done..|]. by constructor.
  - destruct pattern as [|c pattern]; [done|]. cbn [length] in Hn'.
    destruct (hd0 s =? c); [by apply IH; [lia|..]|].
    destruct st as [|t st]; [done|]. intros H.
    rewrite (check_len _ _ (set_failed t :: st)) by done.
    revert H. apply Forall_cons in Hst as [? ?]. apply IH; [lia|done|by constructor].
  - destruct (if p =? ch_any then _ else _); [by apply IH|].
    destruct st as [|t st]; [done|]. intros H.
    rewrite (check_len _ _ (set_failed t :: st)) by done.
    revert H. apply Forall_cons in Hst as [? ?]. apply IH; [done|done|by constructor].
Qed.

(** A pattern without metacharacters, as a syntax tree. *)
Fixpoint literal (l : bytes) (k : pat) : pat :=
  match l with [] => k | c :: l' => PChr false c (literal l' k) end.

Definition plain (l : bytes) : Prop := Forall (fun c => c <> 0 /\ is_meta c = false) l.

Lemma print_literal l k : print (literal l k) = l ++ print k.
Proof. induction l; cbn; [done|]. by f_equal. Qed.

Lemma wf_literal l k : plain l -> wf (literal l k) = wf k.
Proof.
  induction 1 as [|c l [Hc Hm] _ IH]; cbn; [done|].
  rewrite IH, Hm. by rewrite (proj2 (Z.eqb_neq c 0)).
Qed.

Lemma depth_literal l k : depth (literal l k) = depth k.
Proof. induction l; cbn; auto. Qed.

Lemma run_literal l k s s' :
  run (literal l k) s = Some s' <-> exists r, s = l ++ r /\ run k r = Some s'.
Proof.
  revert s. induction l as [|c l IH]; intros s; cbn.
  - split; [eauto|]. by intros (r & -> & ?).
  - destruct s as [|x s]; [split; [done|by intros (? & ? & ?)]|].
    destruct (Z.eqb_spec x c) as [->|Hx].
    + rewrite IH. split; intros (r & H & ?); exists r; [by subst|]. by injection H as ->.
    + split; [done|]. intros (r & H & _). by injection H.
Qed.

Lemma greedy_none s pattern :
  (forall x r, x :: r `suffix_of` s -> utf8eq (x :: r) pattern = false) -> nul_free s ->
  greedy s pattern = [].
Proof.
  intros H Hs. pose proof (greedy_fuel_enough (S (length s)) s pattern Hs ltac:(lia)) as Hg.
  fold (greedy s pattern) in Hg. clear Hs. induction Hg as [|s Hne Heq|s s' Hne Heq Hg IH].
  - done.
  - destruct s as [|x s]; [done|]. by rewrite H in Heq.
  - apply IH. intros x r Hr. apply H. transitivity (utf8inc s); [done|].
    destruct s as [|y s]; [done|]. destruct (utf8inc_suffix y s) as [b Hb].
    exists (y :: b). done.
Qed.

(** ** Properties *)

(** C14: the single-pass matcher with its stack of groups computes the reference semantics:
    for every syntax tree within the nesting limit, [match()] on its printed form returns 1
    exactly when the recursive matcher consumes the whole key, and 0 otherwise. *)
Theorem match_reference (p : pat) (s : bytes)
  (Hwf : wf p = true) (Hdepth : (depth p <= MAX_PAREN)%nat) :
  match_ (print p) s = if decide (run p (cstr s) = Some []) then 1 else 0.
Proof. by apply match_print. Qed.

(** The nested pattern [(a|b(c|d)e|f)g] of t-match.c. *)
Definition nested_example : pat :=
  let chr c k := PChr false c k in
  PGroup (ACons (chr 97 PNil)
         (ACons (chr 98 (PGroup (ACons (chr 99 PNil) (AOne (chr 100 PNil))) (chr 101 PNil)))
         (AOne (chr 102 PNil)))) (chr 103 PNil).

Lemma match_reference_witness :
  print nested_example = $"(a|b(c|d)e|f)g" /\
  match_ (print nested_example) ($"bdeg") = 1 /\ match_ (print nested_example) ($"bfg") = 0.
Proof.
  split_and!; [reflexivity| |].
  - by rewrite (match_reference nested_example ($"bdeg")); [|vm_compute; lia..].
  - by rewrite (match_reference nested_example ($"bfg")); [|vm_compute; lia..].
Defined.

(** C29: the syntax check accepts exactly the grammar of the pattern language: a pattern is
    valid iff it prints a tree in which no [*] is followed by [*] or a group, escapes are
    complete, regular characters are not metacharacters and groups nest at most four deep. *)
Theorem isvalid_grammar (pattern : bytes) :
  match_isvalid pattern = true <->
  exists p, wf p = true /\ (depth p <= MAX_PAREN)%nat /\ cstr pattern = print p.
Proof. apply isvalid_print. Qed.

(** C30: validity decides how [match()] may answer. For a valid pattern it never reports the
    error code -1; for an invalid one it never reports a match. *)
Theorem match_result_validity (pattern s : bytes) :
  if match_isvalid pattern
  then match_ pattern s = 0 \/ match_ pattern s = 1
  else match_ pattern s <> 1.
Proof.
  destruct (match_isvalid pattern) eqn:E.
  - apply isvalid_print in E as (p & Hw & Hd & E).
    assert (match_ pattern s = match_ (print p) s) as ->
      by (unfold match_; by rewrite <- E, cstr_cstr).
    rewrite match_print by done. case_decide; auto.
  - intros H. apply not_true_iff_false in E. apply E. unfold match_isvalid.
    apply Z.eqb_eq. revert H.
    apply (accept_check (S (length (cstr pattern)))); [lia|done|done].
Qed.

(** A pattern of regular characters matches that key and no other. *)
Theorem match_literal (l s : bytes) (Hl : plain l) :
  match_ l s = 1 <-> cstr s = l.
Proof.
  rewrite <- (app_nil_r l) at 1. change (@nil Z) with (print PNil). rewrite <- print_literal.
  rewrite match_print by (rewrite ?wf_literal, ?depth_literal; cbn; done || lia).
  case_decide as H; rewrite run_literal in H; cbn in H.
  - split; [|done]. intros _. destruct H as (r & -> & [= ->]). by rewrite app_nil_r.
  - split; [done|]. intros E. exfalso. apply H. exists []. by rewrite app_nil_r.
Qed.

Lemma match_literal_witness : match_ ($"iface.mtu") ($"iface.mtu") = 1.
Proof. apply (match_literal ($"iface.mtu")); [|reflexivity]. repeat constructor; done. Defined.

(** A literal followed by a final [*] matches the keys it is a prefix of. *)
Theorem match_prefix (l s : bytes) (Hl : plain l) :
  match_ (l ++ [ch_star]) s = 1 <-> l `prefix_of` cstr s.
Proof.
  change [ch_star] with (print (PStar PNil)). rewrite <- print_literal.
  rewrite match_print by (rewrite ?wf_literal, ?depth_literal; cbn; done || lia).
  case_decide as H; rewrite run_literal in H; cbn in H.
  - split; [|done]. intros _. destruct H as (r & -> & _). by exists r.
  - split; [done|]. intros [r E]. exfalso. apply H. eauto.
Qed.

Lemma match_prefix_witness : match_ ($"iface.*") ($"iface.eth0.mtu") = 1.
Proof.
  apply (match_prefix ($"iface.")); [repeat constructor; done|].
  by exists ($"eth0.mtu").
Defined.

(** C37: a [*] before an escaped character looks for the backslash of the escape and not for
    the character: [*\c] matches no key that is free of backslashes, not even those in which
    [c] occurs, although the pattern is valid. *)
Theorem star_escape_misses (c : byte) (s : bytes) (Hc : c <> 0) (Hbs : ch_bs ∉ s) :
  match_isvalid [ch_star; ch_bs; c] = true /\ match_ [ch_star; ch_bs; c] s = 0.
Proof.
  set (p := PStar (PChr true c PNil)).
  assert (Hw : wf p = true) by (cbn; by rewrite (proj2 (Z.eqb_neq c 0))).
  split.
  - apply isvalid_print. exists p. split_and!; [done|cbn; lia|].
    change [ch_star; ch_bs; c] with (print p). apply cstr_id. by apply print_nul_free.
  - change [ch_star; ch_bs; c] with (print p). rewrite match_print by (done || cbn; lia).
    cbn [p run]. rewrite greedy_none; [done| |apply cstr_nul_free].
    intros x r [b Hb]. unfold utf8eq. cbn [hd0 print app].
    destruct (Z.eqb_spec x ch_bs) as [->|]; [|done]. exfalso. apply Hbs.
    assert (ch_bs ∈ cstr s) as Hin by (rewrite Hb; set_solver).
    destruct (decide (0 ∈ s)) as [H0|H0].
    + apply cstr_split in H0 as [v ->]. set_solver.
    + by rewrite cstr_no_nul in Hin.
Qed.

Lemma star_escape_misses_witness :
  match_ ($"*\.") ($"foo.") = 0 /\ match_ ($"*.") ($"foo.") = 1.
Proof.
  split; [|reflexivity].
  apply (star_escape_misses 46 ($"foo.")); [done|]. vm_compute. set_solver.
Defined.

End Match.
