(* ===== verification/StoreDefs.v ===== *)
(** * The key/value store: definitions (src/daemon/store.c)

    The backing file is modelled byte by byte: [filebase] is the mapping, a pointer into it is
    its offset, and every access outside the mapping is a crash. All 32-bit arithmetic wraps.
    What the store takes from outside (byte order, page size, the answers of mmap,
    posix_fallocate, ftruncate and realloc, and the sorting done by qsort) is a parameter,
    given by the classes [ByteOrder], [OS] and [Qsort]. *)
From S2P Require Import Prelude.

(** ** Parameters *)

(** How the machine lays out [uint16_t] and [uint32_t]. *)
Class ByteOrder := {
  enc16 : Z -> bytes;
  dec16 : bytes -> Z;
  enc32 : Z -> bytes;
  dec32 : bytes -> Z;
  zlen_enc16 x : zlen (enc16 x) = 2;
  zlen_enc32 x : zlen (enc32 x) = 4;
  dec16_enc16 x : 0 <= x < 2 ^ 16 -> dec16 (enc16 x) = x;
  dec32_enc32 x : 0 <= x < 2 ^ 32 -> dec32 (enc32 x) = x;
  enc16_zero : enc16 0 = [0; 0];
  enc32_zero : enc32 0 = [0; 0; 0; 0]
}.

(** The operating system: the size of a page and the answers of the calls that can fail.
    [posix_fallocate] returns 0 or an error number. *)
Class OS := {
  page_log : Z;
  page_log_range : 3 <= page_log <= 20;
  mmap_ok : Z -> bool;
  posix_fallocate : Z -> Z -> Z;
  ftruncate_ok : Z -> bool;
  realloc_ok : Z -> bool
}.
Definition getpagesize `{OS} : Z := 2 ^ page_log.

(** [qsort] returns its array sorted by the comparison, elements that compare equal in some
    order. *)
Class Qsort := {
  qsort : (Z -> Z -> bool) -> list Z -> list Z;
  qsort_perm le l : qsort le l ≡ₚ l;
  qsort_sorted le l :
    (forall x y, x ∈ l -> y ∈ l -> le x y = true \/ le y x = true) ->
    (forall x y z, x ∈ l -> y ∈ l -> z ∈ l -> le x y = true -> le y z = true -> le x z = true) ->
    StronglySorted (fun x y => le x y = true) (qsort le l)
}.

(** ** Instances *)

#[export, refine] Instance little_endian : ByteOrder := {
  enc16 x := [u8 x; u8 (x / 256)];
  dec16 b := match b with [a; b] => u8 a + 256 * u8 b | _ => 0 end;
  enc32 x := [u8 x; u8 (x / 256); u8 (x / 65536); u8 (x / 16777216)];
  dec32 b := match b with
    | [a; b; c; d] => u8 a + 256 * u8 b + 65536 * u8 c + 16777216 * u8 d | _ => 0 end
}.
Proof. all: intros; try done; unfold u8; cbv beta iota; change (2 ^ 8) with 256; divlia. Defined.

Definition big_endian : ByteOrder.
Proof.
  refine {|
    enc16 x := [u8 (x / 256); u8 x];
    dec16 b := match b with [a; b] => 256 * u8 a + u8 b | _ => 0 end;
    enc32 x := [u8 (x / 16777216); u8 (x / 65536); u8 (x / 256); u8 x];
    dec32 b := match b with
      | [a; b; c; d] => 16777216 * u8 a + 65536 * u8 b + 256 * u8 c + u8 d | _ => 0 end
  |}; intros; try done; unfold u8; cbv beta iota; change (2 ^ 8) with 256; divlia.
Defined.

(** A system with 4096-byte pages on which every call succeeds. *)
#[export, refine] Instance quiet_os : OS := {
  page_log := 12;
  mmap_ok n := 0 <? n;
  posix_fallocate _ _ := 0;
  ftruncate_ok _ := true;
  realloc_ok _ := true
}.
Proof. lia. Defined.

Fixpoint isort_insert (le : Z -> Z -> bool) (x : Z) (l : list Z) : list Z :=
  match l with
  | [] => [x]
  | y :: l' => if le x y then x :: l else y :: isort_insert le x l'
  end.
Definition isort (le : Z -> Z -> bool) (l : list Z) : list Z :=
  foldr (isort_insert le) [] l.

Lemma isort_insert_perm le x l : isort_insert le x l ≡ₚ x :: l.
Proof.
  induction l as [|y l IH]; cbn; [done|]. destruct (le x y); [done|].
  rewrite IH. apply Permutation_swap.
Qed.

Lemma isort_perm le l : isort le l ≡ₚ l.
Proof. induction l as [|x l IH]; cbn; [done|]. by rewrite isort_insert_perm, IH. Qed.

Lemma isort_insert_sorted le x l :
  (forall y, y ∈ l -> le x y = true \/ le y x = true) ->
  (forall y z, y ∈ l -> z ∈ l -> le x y = true -> le y z = true -> le x z = true) ->
  StronglySorted (fun x y => le x y = true) l ->
  StronglySorted (fun x y => le x y = true) (isort_insert le x l).
Proof.
  intros Htot Htr. induction 1 as [|y l Hs IH Hall]; cbn; [by repeat constructor|].
  destruct (le x y) eqn:E.
  - constructor; [by constructor|]. constructor; [done|].
    rewrite Forall_forall in *. intros z Hz. eapply (Htr y); [set_solver|set_solver|done|auto].
  - constructor.
    + apply IH; [intros; apply Htot; set_solver|].
      intros; eapply Htr; [| |done|done]; set_solver.
    + rewrite isort_insert_perm. constructor; [|done].
      destruct (Htot y); [set_solver|congruence|done].
Qed.

#[export, refine] Instance insertion_qsort : Qsort := { qsort := isort }.
Proof.
  - apply isort_perm.
  - intros le l Htot Htr. induction l as [|x l IH]; [constructor|].
    change (isort le (x :: l)) with (isort_insert le x (isort le l)).
    apply isort_insert_sorted.
    + intros y Hy. rewrite isort_perm in Hy. apply Htot; set_solver.
    + intros y z Hy Hz. rewrite isort_perm in Hy, Hz. apply Htr; set_solver.
    + apply IH; intros; [apply Htot|eapply Htr]; try done; set_solver.
Defined.

(** ** State *)

Definition INFO_ALIGN : Z := 8.
Definition STORE_INCREMENT : Z := 64.

(** [struct store]. A [struct info *] is the offset of the record in the mapping, so that the
    pointer adjustment after a remapping is the identity; a cell of [index] may be [NULL].
    The field [n] is the length of [index]. *)
Record store := mk_store {
  filebase : bytes;            (* mapped backing file *)
  filesz : Z;                  (* mapped extent *)
  space : Z;                   (* offset to space at end of file *)
  index : list (option Z);     (* sorted index of pointers into the filestore *)
  max : Z                      (* allocated cells of index *)
}.

Definition set_filebase (s : store) (m : bytes) : store :=
  mk_store m (filesz s) (space s) (index s) (max s).
Definition set_space (s : store) (sp : Z) : store :=
  mk_store (filebase s) (filesz s) sp (index s) (max s).
Definition set_index (s : store) (ix : list (option Z)) : store :=
  mk_store (filebase s) (filesz s) (space s) ix (max s).
Definition set_max (s : store) (mx : Z) : store :=
  mk_store (filebase s) (filesz s) (space s) (index s) mx.

(** ** Records in the file *)

Section Store.
Context {BO : ByteOrder} {os : OS} {QS : Qsort}.

(** Rounds n up to an alignment boundary; align is a power of 2. *)
Definition roundup (n align : Z) : Z :=
  Z.land (u32 (n + (align - 1))) (u32 (Z.lnot (align - 1))).

(** [roundup(offsetof(struct info, keyvalue[sz]), INFO_ALIGN)] *)
Definition info_size (sz : Z) : Z := roundup (2 + sz) INFO_ALIGN.

Definition rd16 (m : bytes) (o : Z) : outcome Z :=
  b ← of_option OutOfBounds (mread m o 2); Done (dec16 b).
Definition rd32 (m : bytes) (o : Z) : outcome Z :=
  b ← of_option OutOfBounds (mread m o 4); Done (dec32 b).
Definition wr16 (m : bytes) (o x : Z) : outcome bytes :=
  of_option OutOfBounds (mwrite m o (enc16 x)).

(** [record->info.sz == 0] *)
Definition record_is_gap (m : bytes) (o : Z) : outcome bool :=
  sz ← rd16 m o; Done (sz =? 0).

(** [struct gap] is [zero1], [zero2] and [size], eight bytes in all. *)
Definition record_init_gap (m : bytes) (o nbytes : Z) : outcome bytes :=
  _ ← assert_c (INFO_ALIGN <=? nbytes);
  of_option OutOfBounds
    (mwrite m o (enc16 0 ++ enc16 0 ++ enc32 (u32 (nbytes - INFO_ALIGN)))).

Definition record_get_size (m : bytes) (o : Z) : outcome Z :=
  gap ← record_is_gap m o;
  if (gap : bool) then
    size ← rd32 m (o + 4);
    Done (u32 (roundup size INFO_ALIGN + INFO_ALIGN))
  else
    sz ← rd16 m o;
    Done (info_size sz).

(** ** The index array *)

(** Ensure that slot index[i] exists. *)
Definition store_index_ensure (s : store) (i : Z) : Z * store :=
  if i <? max s then (0, s)
  else
    let new_max := roundup (i + 1) STORE_INCREMENT in
    if realloc_ok (new_max * 8) then (0, set_max s new_max) else (-1, s).

(** Inserts a NULL cell at index[i], shifting up the higher cells. *)
Definition store_index_insert (s : store) (i : nat) : Z * store :=
  let n := zlen (index s) in
  let '(r, s1) := store_index_ensure s n in
  if r =? -1 then (-1, s1)
  else (Z.of_nat i, set_index s1 (take i (index s1) ++ None :: drop i (index s1))).

(** Removes the cell at index[i], shifting higher cells down. *)
Definition store_index_delete (s : store) (i : nat) : store :=
  set_index s (take i (index s) ++ drop (S i) (index s)).

(** [store->index[i]], as a pointer that is going to be dereferenced. *)
Definition index_at (s : store) (i : nat) : outcome Z :=
  c ← of_option OutOfBounds (index s !! i);
  of_option NullDeref c.

(** [store->index[i] = info] *)
Definition index_set (s : store) (i : nat) (c : option Z) : store :=
  set_index s (<[i := c]> (index s)).

(** [strcmp] on two C strings in memory; [None] when a string runs off its object. *)
Fixpoint strcmp_mem (a b : bytes) : option comparison :=
  match a, b with
  | x :: a', y :: b' =>
      if x =? 0 then Some (if y =? 0 then Eq else Lt)
      else if y =? 0 then Some Gt
      else match Z.compare x y with Eq => strcmp_mem a' b' | c => Some c end
  | _, _ => None
  end.

(** The object that starts at [info->keyvalue]. *)
Definition keyvalue_at (m : bytes) (o : Z) : bytes := drop (Z.to_nat (o + 2)) m.

(** [strcmp(key, info->keyvalue)] for a C string [key]. *)
Definition strcmp_info (m key : bytes) (o : Z) : outcome comparison :=
  of_option OutOfBounds (strcmp_mem (cstr key ++ [0]) (keyvalue_at m o)).

(** [info_compar(a, b) <= 0] *)
Definition info_compar_le (m : bytes) (a b : Z) : bool :=
  match strcmp_mem (keyvalue_at m a) (keyvalue_at m b) with
  | Some Gt => false
  | _ => true
  end.

(** Whether a comparison made while sorting reads outside the mapping. *)
Definition compar_safe (m : bytes) (l : list Z) : bool :=
  forallb (fun a => forallb (fun b =>
    (a =? b) || bool_decide (is_Some (strcmp_mem (keyvalue_at m a) (keyvalue_at m b)))) l) l.

(** ** Space at the end of the file *)

(** Sets the space pointer, and writes a sentinel gap. *)
Definition store_set_space (s : store) (sp : Z) : outcome store :=
  let s1 := set_space s sp in
  if sp =? filesz s1 then Done s1
  else
    m ← record_init_gap (filebase s1) sp (u32 (filesz s1 - sp));
    Done (set_filebase s1 m).

(** Convert an info into a gap: the loop that swallows the gaps that follow it. *)
Fixpoint make_gap_loop (fuel : nat) (m : bytes) (fsz next_offset : Z) : outcome Z :=
  match fuel with
  | O => Crash OutOfFuel
  | S f =>
      if next_offset <? fsz then
        record_sz ← record_get_size m next_offset;
        gap ← record_is_gap m next_offset;
        if negb gap then Done next_offset
        else if u32 (fsz - record_sz) <? next_offset then make_gap_loop f m fsz fsz
        else make_gap_loop f m fsz (u32 (next_offset + record_sz))
      else Done next_offset
  end.

Definition info_make_gap (s : store) (offset : Z) : outcome store :=
  let m := filebase s in
  sz ← rd16 m offset;
  next ← make_gap_loop (S (Z.to_nat (filesz s / INFO_ALIGN))) m (filesz s) (u32 (offset + info_size sz));
  let next := if filesz s <? next then filesz s else next in
  m' ← record_init_gap m offset (u32 (next - offset));
  let s' := set_filebase s m' in
  if next =? filesz s then store_set_space s' offset else Done s'.

(** ** Repacking *)

(** Scan 0..space copying down data. [i] cells of the index have been written; the array of
    cells is extended on demand and writing a cell it does not have is a crash. *)
Fixpoint repack_loop (fuel : nat) (s : store) (offset w_offset : Z) (cells : list Z)
  : outcome (store * Z * list Z) :=
  if offset <? space s then
    match fuel with
    | O => Crash OutOfFuel
    | S f =>
        recordsz ← record_get_size (filebase s) offset;
        gap ← record_is_gap (filebase s) offset;
        if (gap : bool) then repack_loop f s (u32 (offset + recordsz)) w_offset cells
        else
          m ← (if w_offset =? offset then Done (filebase s)
               else rec ← of_option OutOfBounds (mread (filebase s) offset recordsz);
                    of_option OutOfBounds (mwrite (filebase s) w_offset rec));
          let '(_, s1) := store_index_ensure (set_filebase s m) (zlen cells) in
          if zlen cells <? max s1
          then repack_loop f s1 (u32 (offset + recordsz)) (u32 (w_offset + recordsz))
                           (cells ++ [w_offset])
          else Crash OutOfBounds
    end
  else Done (s, w_offset, cells).

(** Repack the file, and rebuild the sorted index. Every record takes eight bytes or more, so
    [space / 8] turns are enough ([repack_ok]). *)
Definition store_repack (s : store) : outcome store :=
  '(s1, w_offset, cells) ← repack_loop (S (Z.to_nat (space s / INFO_ALIGN))) s 0 0 [];
  _ ← assert_c (w_offset <=? space s1);
  m ← (if w_offset <? filesz s1
       then record_init_gap (filebase s1) w_offset (u32 (filesz s1 - w_offset))
       else Done (filebase s1));
  s2 ← store_set_space (set_filebase s1 m) w_offset;
  if compar_safe (filebase s2) cells
  then Done (set_index s2 (Some <$> qsort (info_compar_le (filebase s2)) cells))
  else Crash OutOfBounds.

(** ** File size *)

(** Change the size of the backing file. The result of [posix_fallocate] is compared with -1,
    which it never returns: when the call fails the file keeps its old size and the pages of
    the new mapping beyond it cannot be accessed. *)
Definition store_file_setsize (s : store) (new_filesz : Z) : Z * store :=
  let old_filesz := filesz s in
  let rc := if old_filesz <? new_filesz
            then posix_fallocate old_filesz (u32 (new_filesz - old_filesz)) else 0 in
  if rc =? -1 then (-1, s)
  else if negb (mmap_ok new_filesz) then (-1, s)
  else
    let grown := if (old_filesz <? new_filesz) && (rc =? 0)
                 then filebase s ++ replicate (Z.to_nat (new_filesz - old_filesz)) 0
                 else filebase s in
    let m := take (Z.to_nat new_filesz) grown in
    let fsz := if (new_filesz <? old_filesz) && negb (ftruncate_ok new_filesz)
               then old_filesz (* failed to shrink? *) else new_filesz in
    (0, mk_store m fsz (space s) (index s) (max s)).

(** Trim off excess pages from the mapped file. *)
Definition store_file_trim (s : store) : outcome store :=
  let sp := space s in
  let maxfilesz := roundup (u32 (sp + 3 * getpagesize)) getpagesize in
  if maxfilesz <? filesz s then
    let newfilesz := roundup (u32 (sp + getpagesize)) getpagesize in
    let '(_, s1) := store_file_setsize s newfilesz in
    m ← record_init_gap (filebase s1) sp (u32 (filesz s1 - sp));
    Done (set_filebase s1 m)
  else Done s.

(** ** Allocation *)

(** The end of [store_file_alloc]: the record is carved from the space at the end. *)
Definition store_file_carve (s : store) (sz : Z) : outcome (option Z * store) :=
  let allocsz := info_size sz in
  _ ← assert_c (allocsz <=? u32 (filesz s - space s));
  let info := space s in
  let s1 := set_space s (u32 (space s + allocsz)) in
  m ← (if space s1 <? filesz s1
       then record_init_gap (filebase s1) (space s1) (u32 (filesz s1 - space s1))
       else Done (filebase s1));
  m' ← wr16 m info sz;
  Done (Some info, set_filebase s1 m').

(** Returns the offset of the new record, or [None] for [NULL]. *)
Definition store_file_alloc (s : store) (sz : Z) : outcome (option Z * store) :=
  let allocsz := info_size sz in
  s1 ← (if u32 (filesz s - space s) <? allocsz then store_repack s else Done s);
  let '(r, s2) :=
    if u32 (filesz s1 - space s1) <? allocsz then
      if u32 (UINT32_MAX - allocsz) <=? filesz s1 then (-1, s1)          (* ENOSPC *)
      else store_file_setsize s1 (roundup (u32 (space s1 + allocsz)) getpagesize)
    else (0, s1) in
  if r =? -1 then Done (None, s2) else store_file_carve s2 sz.

(** Converts an info into a gap. *)
Definition store_file_dealloc (s : store) (offset : Z) : outcome store :=
  sz ← rd16 (filebase s) offset;
  let gapsz := info_size sz in
  let after_offset := u32 (offset + gapsz) in
  if after_offset =? space s then
    s1 ← store_set_space s offset;
    store_file_trim s1
  else
    gap ← record_is_gap (filebase s) after_offset;
    extra ← (if (gap : bool) then record_get_size (filebase s) after_offset else Done 0);
    m ← record_init_gap (filebase s) offset (u32 (gapsz + extra));
    Done (set_filebase s m).

(** The end of [store_info_realloc]: the old info becomes a gap of [gapsz] bytes and a new
    record is allocated, in the space at the end or after deleting index[i]. *)
Definition realloc_move (s : store) (i : nat) (offset new_sz gapsz : Z)
  : outcome (option Z * store) :=
  m ← record_init_gap (filebase s) offset gapsz;
  let s1 := set_filebase s m in
  if info_size new_sz <? u32 (filesz s1 - space s1) then
    (* a simple allocation in the space will work *)
    '(info, s2) ← store_file_alloc s1 new_sz;
    Done (info, index_set s2 i info)
  else
    '(info, s3) ← store_file_alloc (store_index_delete s1 i) new_sz;
    match info with
    | None => Done (None, s3)
    | Some o =>
        let '(_, s4) := store_index_insert s3 i in
        Done (Some o, index_set s4 i (Some o))
    end.

(** Resize an existing index[i]; the content of the resized info is undefined. *)
Definition store_info_realloc (s : store) (i : nat) (new_sz : Z) : outcome (option Z * store) :=
  offset ← index_at s i;
  old_sz ← rd16 (filebase s) offset;
  let new_alloc := info_size new_sz in
  let old_alloc := info_size old_sz in
  _ ← assert_c (offset <? filesz s);
  _ ← assert_c (offset mod INFO_ALIGN =? 0);
  if new_alloc =? old_alloc then
    (* the allocation can stay the same size *)
    m ← wr16 (filebase s) offset new_sz;
    Done (Some offset, set_filebase s m)
  else
    let after := if u32 (offset + old_alloc) =? space s then None
                 else Some (u32 (offset + old_alloc)) in
    if new_alloc <? old_alloc then
      m ← wr16 (filebase s) offset new_sz;
      let s1 := set_filebase s m in
      match after with
      | None =>
          (* space grows backwards *)
          s2 ← store_set_space s1 (u32 (offset + new_alloc));
          s3 ← store_file_trim s2;
          o ← index_at s3 i;
          Done (Some o, s3)
      | Some a =>
          (* create new gap; its size merged with a gap afterward is computed and not used *)
          gap ← record_is_gap (filebase s1) a;
          _ ← (if (gap : bool)
               then n ← record_get_size (filebase s1) a; Done (u32 (old_alloc - new_alloc + n))
               else Done (old_alloc - new_alloc));
          m' ← record_init_gap (filebase s1) (u32 (offset + new_alloc)) (old_alloc - new_alloc);
          Done (Some offset, set_filebase s1 m')
      end
    else
      let grow := new_alloc - old_alloc in
      after_gap ← match after with
                  | Some a =>
                      gap ← record_is_gap (filebase s) a;
                      if (gap : bool) then (n ← record_get_size (filebase s) a; Done (Some n))
                      else Done None
                  | None => Done None
                  end;
      match after_gap with
      | Some after_size =>
          if after_size =? grow then
            m ← wr16 (filebase s) offset new_sz;
            Done (Some offset, set_filebase s m)
          else if grow <? after_size then
            m ← record_init_gap (filebase s) (u32 (offset + new_alloc)) (after_size - grow);
            m' ← wr16 m offset new_sz;
            Done (Some offset, set_filebase s m')
          else realloc_move s i offset new_sz (u32 (old_alloc + after_size))
      | None => realloc_move s i offset new_sz old_alloc
      end.

(** ** Search *)

(** The binary search loop of [store_find]; returns [m] and [b]. *)
Fixpoint find_loop (fuel : nat) (s : store) (key : bytes) (a b : nat) : outcome (nat * nat) :=
  match fuel with
  | O => Crash OutOfFuel
  | S f =>
      let m := ((a + b) / 2)%nat in
      if (a <? m)%nat then
        o ← index_at s m;
        cmp ← strcmp_info (filebase s) key o;
        match cmp with
        | Eq => Done (m, b)
        | Lt => find_loop f s key a m
        | Gt => find_loop f s key (S m) b
        end
      else Done (m, b)
  end.

(** The slot having the key, or where the slot would be. *)
Definition store_find (s : store) (key : bytes) : outcome nat :=
  '(m, b) ← find_loop (S (length (index s))) s key 0 (length (index s));
  if (m <? b)%nat then
    o ← index_at s m;
    cmp ← strcmp_info (filebase s) key o;
    Done (match cmp with Gt => S m | _ => m end)
  else Done m.

(** Test if the i'th slot has the given key. *)
Definition store_eq (s : store) (i : nat) (key : bytes) : outcome bool :=
  if (i <? length (index s))%nat then
    o ← index_at s i;
    cmp ← strcmp_info (filebase s) key o;
    Done (match cmp with Eq => true | _ => false end)
  else Done false.

(** ** Operations *)

(** [memcpy(info->keyvalue, keyvalue, sz)] *)
Definition info_fill (s : store) (o sz : Z) (keyvalue : bytes) : outcome store :=
  m ← of_option OutOfBounds (mwrite (filebase s) (o + 2) (take (Z.to_nat sz) keyvalue));
  Done (set_filebase s m).

Definition store_put (s : store) (sz : Z) (keyvalue : bytes) : outcome (Z * store) :=
  i ← store_find s keyvalue;
  found ← store_eq s i keyvalue;
  if (found : bool) then
    o ← index_at s i;
    osz ← rd16 (filebase s) o;
    old ← (if osz =? sz then of_option OutOfBounds (mread (filebase s) (o + 2) sz)
           else Done []);
    if (osz =? sz) && bool_decide (old = take (Z.to_nat sz) keyvalue) then Done (0, s)
    else
      '(info, s1) ← store_info_realloc s i sz;
      match info with
      | None => Done (-1, s1)
      | Some o' => s2 ← info_fill s1 o' sz keyvalue; Done (1, s2)
      end
  else
    '(info, s1) ← store_file_alloc s sz;
    match info with
    | None => Done (-1, s1)
    | Some o' =>
        let '(r, s2) := store_index_insert s1 i in
        if r =? -1 then
          s3 ← store_file_dealloc s2 o';
          Done (-1, s3)
        else
          s3 ← info_fill (index_set s2 i (Some o')) o' sz keyvalue;
          Done (1, s3)
    end.

Definition store_info_free (s : store) (i : nat) : outcome store :=
  o ← index_at s i;
  s1 ← store_file_dealloc s o;
  Done (index_set s1 i None).

Definition store_del (s : store) (key : option bytes) : outcome (Z * store) :=
  match key with
  | None => Done (0, s)
  | Some key =>
      i ← store_find s key;
      found ← store_eq s i key;
      if negb found then Done (0, s)
      else
        s1 ← store_info_free s i;
        Done (1, store_index_delete s1 i)
  end.

(** The [struct info] at an offset, as the bytes of its [keyvalue]. *)
Definition info_at (m : bytes) (o : Z) : outcome bytes :=
  sz ← rd16 m o;
  of_option OutOfBounds (mread m (o + 2) sz).

Definition store_get (s : store) (key : bytes) : outcome (option bytes) :=
  i ← store_find s key;
  found ← store_eq s i key;
  if negb found then Done None
  else
    o ← index_at s i;
    kv ← info_at (filebase s) o;
    Done (Some kv).

(** [struct store_index] is the position of an iteration. *)
Definition store_get_next (s : store) (ix : nat) : outcome (option bytes * nat) :=
  if (ix <? length (index s))%nat then
    o ← index_at s ix;
    kv ← info_at (filebase s) o;
    Done (Some kv, S ix)
  else Done (None, ix).

Definition store_get_first (s : store) : outcome (option bytes * nat) := store_get_next s 0.

(** ** Opening and closing *)

(** Scan the number of data records in the file; a corrupted entry ends the scan. *)
Fixpoint scan_loop (fuel : nat) (m : bytes) (fsz offset : Z) (n : Z) : outcome (Z * Z) :=
  if offset <? fsz then
    match fuel with
    | O => Crash OutOfFuel
    | S f =>
        record_sz ← record_get_size m offset;
        if u32 (fsz - record_sz) <? offset then Done (offset, n)   (* too big *)
        else
          gap ← record_is_gap m offset;
          scan_loop f m fsz (u32 (offset + record_sz)) (if (gap : bool) then n else n + 1)
    end
  else Done (offset, n).

(** De-duplicate. *)
Fixpoint dedup_loop (fuel : nat) (s : store) (i : nat) : outcome store :=
  match fuel with
  | O => Crash OutOfFuel
  | S f =>
      if (i <? length (index s))%nat then
        info ← index_at s i;
        prev ← index_at s (i - 1);
        cmp ← of_option OutOfBounds
                (strcmp_mem (keyvalue_at (filebase s) prev) (keyvalue_at (filebase s) info));
        match cmp with
        | Eq =>
            s1 ← info_make_gap s info;
            dedup_loop f (store_index_delete s1 i) i
        | _ => dedup_loop f s (S i)
        end
      else Done s
  end.

(** Load or initialize a backing file with the given content; [None] is a return of -1. *)
Definition store_file_open (file : bytes) : outcome (option store) :=
  let st_size := zlen file in
  if UINT32_MAX <=? st_size then Done None                     (* ENOSPC *)
  else
    let fsz := Z.max getpagesize (roundup st_size getpagesize) in
    if (st_size <? fsz) && negb (ftruncate_ok fsz) then Done None
    else if negb (mmap_ok fsz) then Done None
    else
      let m := take (Z.to_nat fsz) file ++ replicate (Z.to_nat (fsz - st_size)) 0 in
      '(offset, n) ← scan_loop (S (Z.to_nat (fsz / INFO_ALIGN))) m fsz 0 0;
      let '(r, s0) := if n =? 0 then (0, mk_store m fsz offset [] 0)
                      else store_index_ensure (mk_store m fsz offset [] 0) (n - 1) in
      if r =? -1 then Done None
      else
        s1 ← store_repack s0;
        s2 ← dedup_loop (S (length (index s1) + length (index s1))) s1 1;
        Done (Some s2).

(** [opened] is the content of the file when [open()] succeeds, [locked] the answer of
    [flock()]. *)
Definition store_open (opened : option bytes) (locked : bool) : outcome (option store) :=
  match opened with
  | None => Done None
  | Some file => if negb locked then Done None else store_file_open file
  end.

(** What the file holds once the store is closed: the shared mapping is the file. A file that a
    failed [mmap] or [ftruncate] of [store_file_setsize] has left longer than its mapping is not
    represented. *)
Definition store_close (s : store) : bytes := filebase s.

End Store.
