(* ===== verification/StoreLayout.v ===== *)
(** * The key/value store: layout of the backing file

    The bytes of a healthy file are the concatenation of encoded records ([rec], [enc_rec]).
    This file relates the primitive accesses of [StoreDefs] to that view: rounding, record
    headers, gaps, and the offsets of the data records. *)
From S2P Require Import Prelude StoreDefs.

(** ** Rounding *)

Lemma land_clear_low x k :
  0 <= k <= 32 -> 0 <= x < 2 ^ 32 ->
  Z.land x (u32 (Z.lnot (2 ^ k - 1))) = 2 ^ k * (x / 2 ^ k).
Proof.
  intros Hk Hx.
  assert (0 < 2 ^ k) by (apply Z.pow_pos_nonneg; lia).
  assert (Hp : 2 ^ 32 = 2 ^ k * 2 ^ (32 - k)) by (rewrite <- Z.pow_add_r by lia; f_equal; lia).
  assert (0 < 2 ^ (32 - k)) by (apply Z.pow_pos_nonneg; lia).
  assert (Hm : u32 (Z.lnot (2 ^ k - 1)) = Z.ldiff (Z.ones 32) (Z.ones k)).
  { rewrite Z.ldiff_ones_r, Z.shiftl_mul_pow2, Z.shiftr_div_pow2 by lia.
    rewrite Z.ones_equiv, <- Z.sub_1_r, Hp.
    replace (2 ^ k * 2 ^ (32 - k) - 1)
      with ((2 ^ (32 - k) - 1) * 2 ^ k + (2 ^ k - 1)) by ring.
    rewrite Z.div_add_l, (Z.div_small (2 ^ k - 1)) by lia.
    unfold u32, Z.lnot. symmetry. apply (Z.mod_unique _ _ (-1)); [left; nia|nia]. }
  rewrite Hm.
  transitivity (Z.ldiff (Z.land x (Z.ones 32)) (Z.ones k)).
  { apply Z.bits_inj'. intros n Hn. rewrite ?Z.land_spec, ?Z.ldiff_spec, ?Z.land_spec.
    by rewrite andb_assoc. }
  rewrite Z.land_ones, Z.mod_small by lia.
  rewrite Z.ldiff_ones_r, Z.shiftl_mul_pow2, Z.shiftr_div_pow2 by lia. lia.
Qed.

Lemma roundup_spec n k :
  0 <= k <= 32 -> 0 <= n -> n + 2 ^ k <= 2 ^ 32 ->
  n <= roundup n (2 ^ k) < n + 2 ^ k /\ (2 ^ k | roundup n (2 ^ k)).
Proof.
  intros Hk Hn Hmax. assert (0 < 2 ^ k) by (apply Z.pow_pos_nonneg; lia).
  unfold roundup. rewrite u32_small by lia. rewrite land_clear_low by lia.
  split; [|by exists ((n + (2 ^ k - 1)) / 2 ^ k); lia].
  pose proof (Z.div_mod (n + (2 ^ k - 1)) (2 ^ k)).
  pose proof (Z.mod_pos_bound (n + (2 ^ k - 1)) (2 ^ k)). lia.
Qed.

Lemma roundup_aligned n k :
  0 <= k <= 32 -> 0 <= n -> n + 2 ^ k <= 2 ^ 32 -> (2 ^ k | n) -> roundup n (2 ^ k) = n.
Proof.
  intros Hk Hn Hmax [q Hq]. assert (0 < 2 ^ k) by (apply Z.pow_pos_nonneg; lia).
  destruct (roundup_spec n k) as [H1 [q' Hq']]; [lia..|].
  rewrite Hq', Hq in *. f_equal. nia.
Qed.

(** The allocation of a record: at most 65544 bytes, a multiple of 8. *)
Lemma info_size_spec sz :
  0 <= sz < 2 ^ 16 ->
  2 + sz <= info_size sz < 2 + sz + 8 /\ (8 | info_size sz).
Proof.
  intros H. unfold info_size, INFO_ALIGN. change 8 with (2 ^ 3). apply roundup_spec; lia.
Qed.

Lemma info_size_bounds sz : 0 <= sz < 2 ^ 16 -> 8 <= info_size sz <= 65544 /\ (8 | info_size sz).
Proof.
  intros H. destruct (info_size_spec sz H) as [H1 [q Hq]].
  split; [lia|by exists q].
Qed.

Lemma page_pos `{OS} : 8 <= getpagesize <= 1048576 /\ (8 | getpagesize).
Proof.
  unfold getpagesize. pose proof page_log_range.
  assert (E : 2 ^ page_log = 2 ^ (page_log - 3) * 8).
  { change 8 with (2 ^ 3). rewrite <- Z.pow_add_r by lia. f_equal. lia. }
  assert (0 < 2 ^ (page_log - 3)) by (apply Z.pow_pos_nonneg; lia).
  assert (2 ^ page_log <= 2 ^ 20) by (apply Z.pow_le_mono_r; lia).
  split; [lia|by exists (2 ^ (page_log - 3))].
Qed.

Lemma roundup_page `{OS} n :
  0 <= n -> n + getpagesize <= 2 ^ 32 ->
  n <= roundup n getpagesize < n + getpagesize /\ (getpagesize | roundup n getpagesize).
Proof. intros. unfold getpagesize in *. pose proof page_log_range. apply roundup_spec; lia. Qed.

Lemma roundup_8 n : 0 <= n -> n + 8 <= 2 ^ 32 -> (8 | n) -> roundup n INFO_ALIGN = n.
Proof. intros. unfold INFO_ALIGN. change 8 with (2 ^ 3). apply roundup_aligned; try done; lia. Qed.

(** ** Records *)

(** A data record holds [key\0value] and padding; a gap holds its size and leftover bytes. *)
Inductive rec :=
  | RData (kv pad : bytes)
  | RGap (junk : bytes).

Section Layout.
Context {BO : ByteOrder}.

Definition gap_header (n : Z) : bytes := enc16 0 ++ enc16 0 ++ enc32 n.

Definition enc_rec (r : rec) : bytes :=
  match r with
  | RData kv pad => enc16 (zlen kv) ++ kv ++ pad
  | RGap junk => gap_header (zlen junk) ++ junk
  end.

Definition rsize (r : rec) : Z := zlen (enc_rec r).

Definition is_gap (r : rec) : bool := match r with RGap _ => true | RData _ _ => false end.

(** What [store_put] accepts and keeps: a [uint16_t] size and a NUL after the key. *)
Definition wf_kv (kv : bytes) : Prop := zlen kv < 2 ^ 16 /\ 0 ∈ kv.

Definition wf_rec (r : rec) : Prop :=
  match r with
  | RData kv pad => 0 < zlen kv < 2 ^ 16 /\ rsize r = info_size (zlen kv)
  | RGap junk => (8 | zlen junk) /\ zlen junk + 16 <= 2 ^ 32
  end.

Definition encs (rs : list rec) : bytes := concat (enc_rec <$> rs).

Lemma encs_nil : encs [] = [].
Proof. done. Qed.
Lemma encs_cons r rs : encs (r :: rs) = enc_rec r ++ encs rs.
Proof. done. Qed.
Lemma encs_app rs ss : encs (rs ++ ss) = encs rs ++ encs ss.
Proof. unfold encs. by rewrite fmap_app, concat_app. Qed.
Lemma encs_one r : encs [r] = enc_rec r.
Proof. unfold encs. cbn. by rewrite app_nil_r. Qed.

Lemma wf_kv_pos kv : wf_kv kv -> 0 < zlen kv < 2 ^ 16.
Proof.
  intros [H H0]. destruct kv as [|c kv]; [by apply not_elem_of_nil in H0|]. zlen_lia.
Qed.

Lemma zlen_gap_header n : zlen (gap_header n) = 8.
Proof. unfold gap_header. rewrite !zlen_app, !zlen_enc16, zlen_enc32. done. Qed.

Lemma rsize_gap junk : rsize (RGap junk) = 8 + zlen junk.
Proof. unfold rsize. cbn. rewrite zlen_app, zlen_gap_header. done. Qed.

Lemma rsize_data kv pad : rsize (RData kv pad) = 2 + zlen kv + zlen pad.
Proof. unfold rsize. cbn. rewrite !zlen_app, zlen_enc16. lia. Qed.

Lemma rsize_bounds r : wf_rec r -> 8 <= rsize r /\ (8 | rsize r) /\ rsize r + 8 <= 2 ^ 32.
Proof.
  destruct r as [kv pad|junk]; cbn.
  - intros [Hkv ->].
    destruct (info_size_bounds (zlen kv)) as [H1 H2]; [lia|]. split_and!; [lia|done|lia].
  - intros [[q Hq] H2]. rewrite rsize_gap. pose proof (zlen_nonneg junk).
    split_and!; [lia| |lia]. exists (1 + q). lia.
Qed.

(** ** Reading a record *)

Lemma rd16_at a x c o : 0 <= x < 2 ^ 16 -> o = zlen a -> rd16 (a ++ enc16 x ++ c) o = Done x.
Proof.
  intros Hx Ho. unfold rd16. rewrite (mread_app _ (enc16 x)) by (by rewrite ?zlen_enc16).
  cbn. by rewrite dec16_enc16.
Qed.

Lemma rd16_data a kv pad c o :
  0 < zlen kv < 2 ^ 16 -> o = zlen a -> rd16 (a ++ enc_rec (RData kv pad) ++ c) o = Done (zlen kv).
Proof.
  intros Hkv Ho. cbn. rewrite <- !app_assoc. apply rd16_at; [lia|done].
Qed.

Lemma record_is_gap_at a r c o :
  wf_rec r -> o = zlen a -> record_is_gap (a ++ enc_rec r ++ c) o = Done (is_gap r).
Proof.
  intros Hwf Ho. unfold record_is_gap. destruct r as [kv pad|junk]; cbn [is_gap].
  - destruct Hwf as [Hkv _]. rewrite rd16_data by done. cbn.
    by rewrite (proj2 (Z.eqb_neq _ 0)) by lia.
  - cbn [enc_rec]. unfold gap_header. rewrite <- !app_assoc. by rewrite rd16_at by (done || lia).
Qed.

Lemma record_get_size_at a r c o :
  wf_rec r -> o = zlen a -> record_get_size (a ++ enc_rec r ++ c) o = Done (rsize r).
Proof.
  intros Hwf Ho. unfold record_get_size. rewrite record_is_gap_at by done.
  destruct r as [kv pad|junk]; cbn [mbind outcome_bind is_gap].
  - destruct Hwf as [Hkv Hsz]. rewrite rd16_data by done. cbn. by rewrite Hsz.
  - destruct Hwf as [Hal Hmax]. pose proof (zlen_nonneg junk). unfold rd32. cbn [enc_rec].
    unfold gap_header. rewrite <- !app_assoc.
    rewrite (app_assoc (enc16 0) (enc16 0)), (app_assoc a).
    rewrite (mread_app _ (enc32 (zlen junk)))
      by (rewrite ?zlen_app, ?zlen_enc16, ?zlen_enc32; lia).
    cbn. rewrite dec32_enc32 by lia. rewrite roundup_8 by (done || lia).
    unfold INFO_ALIGN. rewrite u32_small by lia. rewrite rsize_gap. f_equal. lia.
Qed.

(** ** Writing gaps *)

Lemma record_init_gap_at a b c o n :
  o = zlen a -> n = zlen b -> 8 <= n < 2 ^ 32 ->
  record_init_gap (a ++ b ++ c) o n = Done (a ++ enc_rec (RGap (drop 8 b)) ++ c).
Proof.
  intros Ho Hn Hb. unfold record_init_gap, INFO_ALIGN.
  destruct (Z.leb_spec 8 n); [|lia]. cbn [assert_c mbind outcome_bind].
  assert (Hlen : (8 <= length b)%nat) by (unfold zlen in Hn; lia).
  assert (Hd : zlen (drop 8 b) = n - 8) by (unfold zlen in *; rewrite length_drop; lia).
  rewrite <- (take_drop 8 b) at 1. rewrite <- app_assoc.
  rewrite u32_small by lia. fold (gap_header (n - 8)).
  rewrite (mwrite_app _ (take 8 b)); [|done|].
  - cbn. rewrite Hd. by rewrite <- !app_assoc.
  - rewrite zlen_gap_header. unfold zlen. rewrite length_take. lia.
Qed.

Lemma wf_gap_of b : (8 | zlen b) -> 8 <= zlen b <= 2 ^ 32 - 8 -> wf_rec (RGap (drop 8 b)).
Proof.
  intros [q Hq] Hb. cbn.
  assert (zlen (drop 8 b) = zlen b - 8) as -> by (unfold zlen in *; rewrite length_drop; lia).
  split; [exists (q - 1); lia|lia].
Qed.

Lemma rsize_gap_of b : 8 <= zlen b -> rsize (RGap (drop 8 b)) = zlen b.
Proof. intros. rewrite rsize_gap. unfold zlen in *. rewrite length_drop. lia. Qed.

(** ** Offsets of the data records *)

Fixpoint data_offs (o : Z) (rs : list rec) : list (Z * bytes) :=
  match rs with
  | [] => []
  | RData kv pad :: rs' => (o, kv) :: data_offs (o + rsize (RData kv pad)) rs'
  | RGap junk :: rs' => data_offs (o + rsize (RGap junk)) rs'
  end.

Lemma data_offs_app o rs ss :
  data_offs o (rs ++ ss) = data_offs o rs ++ data_offs (o + zlen (encs rs)) ss.
Proof.
  revert o. induction rs as [|[kv pad|junk] rs IH]; intros o; cbn [app data_offs].
  - by rewrite encs_nil, zlen_nil, Z.add_0_r.
  - rewrite IH, encs_cons, zlen_app, Z.add_assoc. done.
  - rewrite IH, encs_cons, zlen_app, Z.add_assoc. done.
Qed.

(** Every listed offset is where the record is. *)
Lemma data_offs_elem o rs o' kv :
  (o', kv) ∈ data_offs o rs ->
  exists pre pad post, rs = pre ++ RData kv pad :: post /\ o' = o + zlen (encs pre).
Proof.
  revert o. induction rs as [|r rs IH]; intros o H; [by apply not_elem_of_nil in H|].
  assert (Hrec : (o', kv) ∈ data_offs (o + rsize r) rs ->
    exists pre pad post, r :: rs = pre ++ RData kv pad :: post /\ o' = o + zlen (encs pre)).
  { intros (pre & pad & post & -> & ->)%IH. exists (r :: pre), pad, post.
    split; [done|]. rewrite encs_cons, zlen_app. unfold rsize. lia. }
  destruct r as [kv0 pad0|junk]; cbn in H; [|by apply Hrec].
  apply elem_of_cons in H as [[= -> ->]|H]; [|by apply Hrec].
  exists [], pad0, rs. split; [done|]. rewrite encs_nil, zlen_nil. lia.
Qed.

Lemma encs_aligned rs : Forall wf_rec rs -> (8 | zlen (encs rs)).
Proof.
  induction 1 as [|r rs Hr _ IH]; [exists 0; done|]. rewrite encs_cons, zlen_app.
  apply Z.divide_add_r; [|done]. apply (rsize_bounds r Hr).
Qed.

(** ** Keys in memory *)

Lemma strcmp_mem_keys k1 v1 k2 v2 :
  nul_free k1 -> nul_free k2 -> strcmp_mem (k1 ++ 0 :: v1) (k2 ++ 0 :: v2) = Some (strcmp k1 k2).
Proof.
  unfold nul_free. intros H1. revert k2. induction H1 as [|x k1 Hx H1 IH]; intros k2 H2.
  - destruct H2 as [|y k2 Hy H2]; [done|]. cbn. by rewrite (proj2 (Z.eqb_neq y 0)).
  - cbn. rewrite (proj2 (Z.eqb_neq x 0)) by done.
    destruct H2 as [|y k2 Hy H2]; [done|]. cbn. rewrite (proj2 (Z.eqb_neq y 0)) by done.
    destruct (Z.compare x y); auto.
Qed.

(** The key of a record, read through [info->keyvalue]. *)
Lemma keyvalue_at_data a kv pad c o :
  0 ∈ kv -> o = zlen a ->
  exists v, keyvalue_at (a ++ enc_rec (RData kv pad) ++ c) o = cstr kv ++ 0 :: v.
Proof.
  intros H0 Ho. destruct (cstr_split kv H0) as [v Hv].
  exists (v ++ pad ++ c). unfold keyvalue_at. cbn [enc_rec].
  rewrite <- !app_assoc, (app_assoc a).
  replace (Z.to_nat (o + 2)) with (length (a ++ enc16 (zlen kv))).
  - rewrite drop_app_length. rewrite Hv at 1. by rewrite <- app_assoc.
  - pose proof (zlen_enc16 (zlen kv)) as H2. unfold zlen in *. rewrite length_app. lia.
Qed.

End Layout.
