(* ===== verification/StoreRep.v ===== *)
(** * The key/value store: representation invariant and search

    [Rep s l] says that the store [s] is healthy and holds the records [l], in key order:
    its file is a sequence of well-formed records followed by a sentinel gap, and its index
    lists exactly the offsets of the data records, sorted by key. *)
From S2P Require Import Prelude StoreDefs StoreLayout.

Section Rep.
Context {BO : ByteOrder} {os : OS}.

Definition key_of (p : Z * bytes) : bytes := cstr p.2.
Definition rec_lt (p q : Z * bytes) : Prop := str_lt (key_of p) (key_of q).

(** The file: records up to [space], then nothing or one sentinel gap up to [filesz]. *)
Record Image (s : store) (rs tl : list rec) : Prop := mk_Image {
  img_bytes : filebase s = encs rs ++ encs tl;
  img_space : space s = zlen (encs rs);
  img_filesz : filesz s = zlen (filebase s);
  img_wf : Forall wf_rec rs;
  img_wf_tl : Forall wf_rec tl;
  img_tl : tl = [] \/ exists j, tl = [RGap j];
  img_page : (getpagesize | filesz s);
  img_max : filesz s < 2 ^ 32
}.

(** Every record holds a NUL, which ends its key. *)
Definition has_keys (l : list (Z * bytes)) : Prop := Forall (fun p => 0 ∈ p.2) l.

(** The index of the records [l]. *)
Definition Index (s : store) (l : list (Z * bytes)) (rs : list rec) : Prop :=
  index s = (fun p => Some p.1) <$> l /\ l ≡ₚ data_offs 0 rs /\
  StronglySorted rec_lt l /\ zlen l <= max s /\ has_keys l.

Definition Rep (s : store) (l : list (Z * bytes)) : Prop :=
  exists rs tl, Image s rs tl /\ Index s l rs.

(** The finite map a healthy store stands for: key to [key\0value]. *)
Definition contents (l : list (Z * bytes)) : gmap bytes bytes :=
  list_to_map ((fun p => (key_of p, p.2)) <$> l).

(** ** Reading through the index *)

Lemma Image_split s rs tl o kv :
  Image s rs tl -> (o, kv) ∈ data_offs 0 rs ->
  exists pre pad post, rs = pre ++ RData kv pad :: post /\ o = zlen (encs pre) /\
    wf_rec (RData kv pad) /\
    filebase s = encs pre ++ enc_rec (RData kv pad) ++ encs post ++ encs tl.
Proof.
  intros Himg (pre & pad & post & -> & ->)%data_offs_elem.
  destruct Himg as [Hb _ _ Hwf _ _ _ _].
  assert (Hr : wf_rec (RData kv pad)) by (by apply Forall_app in Hwf as [_ [? _]%Forall_cons]).
  exists pre, pad, post. split_and!; [done|lia|done|].
  rewrite Hb, encs_app, encs_cons. by rewrite <- !app_assoc.
Qed.

Lemma index_at_lookup s l rs i o kv :
  Index s l rs -> l !! i = Some (o, kv) -> index_at s i = Done o.
Proof.
  intros (Hi & _) Hl. unfold index_at. rewrite Hi, list_lookup_fmap, Hl. done.
Qed.

Lemma Index_length s l rs : Index s l rs -> length (index s) = length l.
Proof. intros (-> & _). by rewrite length_fmap. Qed.

Lemma strcmp_info_at s rs tl key o kv :
  Image s rs tl -> (o, kv) ∈ data_offs 0 rs -> 0 ∈ kv ->
  strcmp_info (filebase s) key o = Done (strcmp (cstr key) (cstr kv)).
Proof.
  intros Himg Hin Hkv. destruct (Image_split _ _ _ _ _ Himg Hin)
    as (pre & pad & post & -> & -> & Hr & Hb).
  unfold strcmp_info. rewrite Hb.
  destruct (keyvalue_at_data (encs pre) kv pad (encs post ++ encs tl) _ Hkv eq_refl) as [v ->].
  rewrite strcmp_mem_keys; [done|apply cstr_nul_free..].
Qed.

Lemma rd16_info s rs tl o kv :
  Image s rs tl -> (o, kv) ∈ data_offs 0 rs -> rd16 (filebase s) o = Done (zlen kv).
Proof.
  intros Himg Hin. destruct (Image_split _ _ _ _ _ Himg Hin)
    as (pre & pad & post & -> & -> & Hr & ->).
  apply rd16_data; [apply Hr|done].
Qed.

Lemma mread_info s rs tl o kv :
  Image s rs tl -> (o, kv) ∈ data_offs 0 rs ->
  mread (filebase s) (o + 2) (zlen kv) = Some kv.
Proof.
  intros Himg Hin. destruct (Image_split _ _ _ _ _ Himg Hin)
    as (pre & pad & post & -> & -> & Hr & ->). cbn [enc_rec].
  rewrite <- !app_assoc, app_assoc. apply mread_app; [|done].
  rewrite zlen_app, zlen_enc16. done.
Qed.

(** ** Binary search *)

(** [i] is the first slot whose key is not smaller than [key]. *)
Definition lower_bound (l : list (Z * bytes)) (key : bytes) (i : nat) : Prop :=
  (i <= length l)%nat /\
  (forall j p, l !! j = Some p -> (j < i)%nat -> str_lt (key_of p) key) /\
  (forall j p, l !! j = Some p -> (i <= j)%nat -> str_le key (key_of p)).

Lemma sorted_lookup l i j p q :
  StronglySorted rec_lt l -> l !! i = Some p -> l !! j = Some q -> (i < j)%nat -> rec_lt p q.
Proof.
  intros Hs. revert i j. induction Hs as [|x l Hs IH Hall]; intros i j Hi Hj Hij; [done|].
  destruct j as [|j]; [lia|]. destruct i as [|i]; cbn in *.
  - injection Hi as ->. rewrite Forall_forall in Hall. apply Hall.
    by eapply list_elem_of_lookup_2.
  - eapply IH; [done|done|lia].
Qed.

Section Find.
Context (s : store) (rs tl : list rec) (l : list (Z * bytes)) (key : bytes).
Hypothesis Himg : Image s rs tl.
Hypothesis Hidx : Index s l rs.

Lemma probe i o kv :
  l !! i = Some (o, kv) ->
  index_at s i = Done o /\
  strcmp_info (filebase s) key o = Done (strcmp (cstr key) (cstr kv)).
Proof.
  intros Hl. split; [by eapply index_at_lookup|].
  destruct Hidx as (_ & Hp & _ & _ & Hk). apply list_elem_of_lookup_2 in Hl.
  eapply strcmp_info_at; [done|by rewrite <- Hp|].
  unfold has_keys in Hk. rewrite Forall_forall in Hk. apply (Hk _ Hl).
Qed.

Lemma find_loop_ok n a b :
  (b - a < n)%nat -> (a <= b <= length l)%nat ->
  (forall j p, l !! j = Some p -> (j < a)%nat -> str_lt (key_of p) (cstr key)) ->
  (forall j p, l !! j = Some p -> (b <= j)%nat -> str_lt (cstr key) (key_of p)) ->
  exists m b', find_loop n s key a b = Done (m, b') /\ (b' <= length l)%nat /\
    (forall j p, l !! j = Some p -> (j < m)%nat -> str_lt (key_of p) (cstr key)) /\
    (forall j p, l !! j = Some p -> (b' <= j)%nat -> str_lt (cstr key) (key_of p)) /\
    (m <= b')%nat /\ ((m < b')%nat -> (b' = S m)%nat \/
      exists p, l !! m = Some p /\ key_of p = cstr key).
Proof.
  revert a b. induction n as [|n IH]; intros a b Hn Hab Hlt Hgt; [lia|]. cbn [find_loop].
  set (m := ((a + b) / 2)%nat).
  assert (Hm : (a <= m /\ m <= b /\ (m = a -> b <= S a) /\ (a < b -> m < b))%nat).
  { unfold m. pose proof (Nat.div_mod_eq (a + b) 2).
    pose proof (Nat.mod_upper_bound (a + b) 2). lia. }
  destruct (Nat.ltb_spec a m) as [Ham|Ham].
  2:{ exists m, b. split_and!; [done|lia| |done|lia|intros; left; lia].
      intros j p Hj Hjm. apply (Hlt j p Hj). lia. }
  destruct (lookup_lt_is_Some_2 l m) as [[o kv] Hl]; [lia|].
  destruct (probe m o kv Hl) as [-> Hc]. ostep. rewrite Hc. ostep.
  destruct (strcmp (cstr key) (cstr kv)) eqn:E.
  - apply strcmp_eq in E. exists m, b. split_and!; [done|lia| |done|lia|].
    + intros j p Hj Hjm. destruct Hidx as (_ & _ & Hs & _).
      pose proof (sorted_lookup l j m p (o, kv) Hs Hj Hl Hjm) as H.
      unfold rec_lt, key_of in *. cbn in H. by rewrite E.
    + intros _. right. by exists (o, kv).
  - destruct (IH a m) as (m' & b' & H); [lia|lia|done| |by exists m', b'].
    intros j p Hj Hjm. destruct (decide (j = m)) as [->|]; [by simplify_eq|].
    destruct Hidx as (_ & _ & Hs & _).
    transitivity (cstr kv); [done|].
    apply (sorted_lookup l m j (o, kv) p Hs Hl Hj). lia.
  - destruct (IH (S m) b) as (m' & b' & H); [lia|lia| |done|by exists m', b'].
    intros j p Hj Hjm. apply strcmp_gt in E.
    destruct (decide (j = m)) as [->|]; [by simplify_eq|].
    destruct Hidx as (_ & _ & Hs & _).
    transitivity (cstr kv); [|done].
    apply (sorted_lookup l j m p (o, kv) Hs Hj Hl). lia.
Qed.

Lemma store_find_spec : exists i, store_find s key = Done i /\ lower_bound l (cstr key) i.
Proof.
  unfold store_find. rewrite (Index_length s l rs Hidx).
  destruct (find_loop_ok (S (length l)) 0 (length l))
    as (m & b & -> & Hb & Hlt & Hgt & Hmb & Hcase); [lia|lia|intros; lia| |].
  { intros j p Hj Hjl. apply lookup_lt_Some in Hj. lia. }
  assert (Hle : forall j p, l !! j = Some p -> (b <= j)%nat -> str_le (cstr key) (key_of p)).
  { intros j p Hj Hbj. apply str_le_lteq. left. eauto. }
  ostep. destruct (Nat.ltb_spec m b) as [Hm|Hm].
  2:{ exists m. split; [done|]. split_and!; [lia|done|]. intros j p Hj ?. apply (Hle j p Hj). lia. }
  destruct (lookup_lt_is_Some_2 l m) as [[o kv] Hl]; [lia|].
  destruct (probe m o kv Hl) as [-> Hc]. ostep. rewrite Hc. ostep.
  assert (Hsorted : forall j p, l !! j = Some p -> (m < j)%nat -> str_lt (cstr kv) (key_of p)).
  { intros j p Hj Hmj. destruct Hidx as (_ & _ & Hs & _).
    apply (sorted_lookup l m j (o, kv) p Hs Hl Hj Hmj). }
  destruct (strcmp (cstr key) (cstr kv)) eqn:E;
    [apply strcmp_eq in E| |apply strcmp_gt in E].
  - exists m. split; [done|]. split_and!; [lia|done|]. intros j p Hj ?. apply str_le_lteq.
    destruct (decide (j = m)) as [->|]; [right; by simplify_eq|]. left. rewrite E.
    apply (Hsorted j p Hj). lia.
  - exists m. split; [done|]. split_and!; [lia|done|]. intros j p Hj ?. apply str_le_lteq. left.
    destruct (decide (j = m)) as [->|]; [by simplify_eq|].
    transitivity (cstr kv); [done|]. apply (Hsorted j p Hj). lia.
  - exists (S m). split; [done|]. split_and!; [lia| |].
    + intros j p Hj ?. destruct (decide (j = m)) as [->|]; [by simplify_eq|].
      apply (Hlt j p Hj). lia.
    + intros j p Hj ?. destruct (Hcase Hm) as [->|(p' & Hp' & Hk)]; [apply (Hle j p Hj); lia|].
      simplify_eq. exfalso. unfold key_of in Hk. cbn in Hk. rewrite Hk in E.
      by apply str_lt_irrefl in E.
Qed.

Lemma store_eq_spec i :
  store_eq s i key = Done (match l !! i with
    | Some p => bool_decide (key_of p = cstr key) | None => false end).
Proof.
  unfold store_eq. rewrite (Index_length s l rs Hidx).
  destruct (Nat.ltb_spec i (length l)) as [Hi|Hi].
  - destruct (lookup_lt_is_Some_2 l i Hi) as [[o kv] Hl].
    destruct (probe i o kv Hl) as [-> Hc]. ostep. rewrite Hc, Hl. ostep. f_equal.
    destruct (strcmp (cstr key) (cstr kv)) eqn:E.
    + apply strcmp_eq in E. by rewrite bool_decide_true by done.
    + rewrite bool_decide_false; [done|]. intros H. unfold key_of in H. cbn in H.
      rewrite H in E. by apply str_lt_irrefl in E.
    + rewrite bool_decide_false; [done|]. intros H. unfold key_of in H. cbn in H.
      rewrite H in E. apply strcmp_gt in E. by apply str_lt_irrefl in E.
  - by rewrite (lookup_ge_None_2 l i Hi).
Qed.

End Find.

End Rep.
