(* ===== verification/StoreAlloc.v ===== *)
(** * The key/value store: space, repacking, allocation

    Specifications of the routines of store.c that rearrange the file, in terms of the record
    view of [StoreLayout]. An allocation leaves a [Hole]: a record whose header is written
    and whose content the caller still has to copy in. *)
From S2P Require Import Prelude StoreDefs StoreLayout StoreRep.

(** ** Sorting lemmas *)

Lemma StronglySorted_fmap_inv {A B} (f : A -> B) (R : relation B) l :
  StronglySorted R (f <$> l) -> StronglySorted (fun x y => R (f x) (f y)) l.
Proof.
  induction l as [|x l IH]; intros H; [constructor|].
  rewrite fmap_cons in H. apply StronglySorted_inv in H as [H1 H2].
  constructor; [auto|]. rewrite Forall_fmap in H2. exact H2.
Qed.

Lemma StronglySorted_impl_in {A} (R S : relation A) l :
  (forall x y, x ∈ l -> y ∈ l -> R x y -> S x y) -> StronglySorted R l -> StronglySorted S l.
Proof.
  intros H. induction 1 as [|x l Hs IH Hall]; [constructor|]. constructor.
  - apply IH. intros; apply H; set_solver.
  - rewrite Forall_forall in *. intros y Hy. apply H; [set_solver..|auto].
Qed.

Section Alloc.
Context {BO : ByteOrder} {os : OS} {QS : Qsort}.

Implicit Types (s : store) (rs pre post tl : list rec).

(** The parts of a store that a file operation leaves alone. *)
Definition same_index s s' : Prop := index s' = index s /\ max s' = max s.

Lemma same_index_refl s : same_index s s.
Proof. done. Qed.
Lemma same_index_trans s1 s2 s3 : same_index s1 s2 -> same_index s2 s3 -> same_index s1 s3.
Proof. unfold same_index. intros [-> ->] [-> ->]. done. Qed.

(** ** The space at the end *)

Lemma zlen_encs_zero rs : Forall wf_rec rs -> zlen (encs rs) = 0 -> rs = [].
Proof.
  intros Hwf Hz. destruct rs as [|r rs]; [done|]. exfalso.
  apply Forall_cons in Hwf as [Hr%rsize_bounds _]. rewrite encs_cons, zlen_app in Hz.
  unfold rsize in Hr. pose proof (zlen_nonneg (encs rs)). lia.
Qed.

Lemma page_div8 n : (getpagesize | n) -> (8 | n).
Proof. intros H. etransitivity; [|done]. apply page_pos. Qed.

(** Writing the sentinel over whatever follows the records. *)
Lemma sentinel rs rest n :
  rest <> [] -> Forall wf_rec rs -> (8 | zlen (encs rs ++ rest)) ->
  zlen (encs rs ++ rest) + 8 <= 2 ^ 32 -> n = zlen rest ->
  record_init_gap (encs rs ++ rest) (zlen (encs rs)) n =
    Done (encs rs ++ encs [RGap (drop 8 rest)]) /\ wf_rec (RGap (drop 8 rest)) /\
  zlen (encs [RGap (drop 8 rest)]) = zlen rest.
Proof.
  intros Hne Hwf Hal Hmax ->. pose proof (encs_aligned rs Hwf) as Hal'.
  assert (Hr : (8 | zlen rest)).
  { rewrite zlen_app in Hal. apply (Z.divide_add_cancel_r 8 (zlen (encs rs))); done. }
  assert (0 < zlen rest) by (destruct rest; [done|]; zlen_lia).
  assert (8 <= zlen rest) by (by apply Z.divide_pos_le).
  rewrite zlen_app in Hmax. pose proof (zlen_nonneg (encs rs)).
  split_and!.
  - rewrite <- (app_nil_r rest) at 1. rewrite record_init_gap_at by (done || lia).
    by rewrite app_nil_r, encs_one.
  - apply wf_gap_of; [done|lia].
  - rewrite encs_one. by apply rsize_gap_of.
Qed.

(** A file whose records [rs] are in place and whose remaining bytes are not yet a gap. *)
Definition Partial s rs rest : Prop :=
  filebase s = encs rs ++ rest /\ filesz s = zlen (filebase s) /\ Forall wf_rec rs /\
  (getpagesize | filesz s) /\ filesz s < 2 ^ 32.

Lemma page_room n : (getpagesize | n) -> n < 2 ^ 32 -> n + getpagesize <= 2 ^ 32.
Proof.
  unfold getpagesize. intros [q ->] H. pose proof page_log_range.
  assert (E : 2 ^ 32 = 2 ^ (32 - page_log) * 2 ^ page_log)
    by (rewrite <- Z.pow_add_r by lia; f_equal; lia).
  rewrite E in *. assert (0 < 2 ^ page_log) by (apply Z.pow_pos_nonneg; lia).
  apply Z.mul_lt_mono_pos_r in H; [|done].
  replace (q * 2 ^ page_log + 2 ^ page_log) with ((q + 1) * 2 ^ page_log) by ring.
  apply Z.mul_le_mono_nonneg_r; lia.
Qed.

Lemma store_set_space_ok s rs rest :
  Partial s rs rest ->
  exists m tl, store_set_space s (zlen (encs rs)) =
      Done (mk_store m (filesz s) (zlen (encs rs)) (index s) (max s)) /\
    Image (mk_store m (filesz s) (zlen (encs rs)) (index s) (max s)) rs tl.
Proof.
  intros (Hb & Hsz & Hwf & Hpg & Hmax). unfold store_set_space. cbn [set_space filesz filebase].
  pose proof (page_room _ Hpg Hmax). pose proof page_pos as [Hpp _].
  pose proof (zlen_nonneg (encs rs)).
  destruct (Z.eqb_spec (zlen (encs rs)) (filesz s)) as [E|E].
  - assert (rest = []) as ->.
    { apply zlen_zero. rewrite Hsz, Hb, zlen_app in E. lia. }
    exists (filebase s), []. split; [done|].
    constructor; cbn; rewrite ?app_nil_r in *; auto.
  - assert (Hne : rest <> []) by (intros ->; rewrite Hsz, Hb, app_nil_r in E; done).
    rewrite Hsz, Hb in *. pose proof (zlen_app (encs rs) rest) as Hz.
    destruct (sentinel rs rest (u32 (zlen (encs rs ++ rest) - zlen (encs rs))))
      as (-> & Hw & Hl); [done|done|by apply page_div8|lia| |].
    { rewrite u32_small by (pose proof (zlen_nonneg rest); lia). lia. }
    exists (encs rs ++ encs [RGap (drop 8 rest)]), [RGap (drop 8 rest)].
    split; [by unfold set_filebase, set_space; cbn; rewrite Hsz|].
    constructor; cbn [filebase filesz space]; eauto.
    rewrite !zlen_app in *. lia.
Qed.

Lemma Image_partial s rs tl : Image s rs tl -> Partial s rs (encs tl).
Proof. intros []. by split_and!. Qed.

(** ** Resizing the file *)

Lemma setsize_grow s n :
  filesz s = zlen (filebase s) -> filesz s < n < 2 ^ 32 ->
  posix_fallocate (filesz s) (n - filesz s) = 0 -> mmap_ok n = true ->
  store_file_setsize s n =
    (0, mk_store (filebase s ++ replicate (Z.to_nat (n - filesz s)) 0) n
          (space s) (index s) (max s)).
Proof.
  intros Hsz Hn Hf Hm. unfold store_file_setsize. pose proof (zlen_nonneg (filebase s)).
  destruct (Z.ltb_spec (filesz s) n); [|lia]. rewrite u32_small by lia. rewrite Hf, Hm.
  cbn [andb negb Z.eqb]. destruct (Z.ltb_spec n (filesz s)); [lia|]. cbn.
  rewrite take_ge; [done|]. rewrite length_app, length_replicate. unfold zlen in *. lia.
Qed.

Lemma setsize_shrink s n :
  filesz s = zlen (filebase s) -> 0 <= n <= filesz s -> ftruncate_ok n = true ->
  mmap_ok n = true ->
  store_file_setsize s n =
    (0, mk_store (take (Z.to_nat n) (filebase s)) n (space s) (index s) (max s)).
Proof.
  intros Hsz Hn Hf Hm. unfold store_file_setsize.
  destruct (Z.ltb_spec (filesz s) n); [lia|]. rewrite Hf, Hm.
  cbn. by rewrite andb_false_r.
Qed.

Lemma setsize_fail s n :
  (forall a b, posix_fallocate a b = 0) -> mmap_ok n = false ->
  store_file_setsize s n = (-1, s).
Proof.
  intros Hf Hm. unfold store_file_setsize. rewrite Hf, Hm. by destruct (filesz s <? n).
Qed.

(** Files that are far from the 32-bit limit. *)
Definition roomy s : Prop := filesz s + 4 * getpagesize + 65544 <= 2 ^ 32.

Hypothesis fallocate_succeeds : forall a b, posix_fallocate a b = 0.
Hypothesis ftruncate_succeeds : forall n, ftruncate_ok n = true.

Lemma store_file_trim_ok s rs tl :
  Image s rs tl -> roomy s ->
  exists s' tl', store_file_trim s = Done s' /\ Image s' rs tl' /\ same_index s s' /\
    filesz s' <= filesz s.
Proof.
  intros Himg Hroom. unfold store_file_trim, roomy in *. pose proof page_pos as [Hpp _].
  assert (Hsp : 0 <= space s <= filesz s).
  { destruct Himg as [Hb -> -> _ _ _ _ _]. rewrite Hb. zlen_lia. }
  rewrite !(u32_small (space s + _)) by lia.
  destruct (roundup_page (space s + 3 * getpagesize)) as [Hr3 _]; [lia..|].
  destruct (roundup_page (space s + getpagesize)) as [Hr1 Hd1]; [lia..|].
  set (n := roundup (space s + getpagesize) getpagesize) in *.
  destruct (Z.ltb_spec (roundup (space s + 3 * getpagesize) getpagesize) (filesz s)) as [Hlt|Hlt].
  2:{ exists s, tl. done. }
  assert (Hs1 : exists m z, store_file_setsize s n =
      (if mmap_ok n then 0 else -1, mk_store m z (space s) (index s) (max s)) /\
    z <= filesz s /\ space s < z /\
    exists rest, Partial (mk_store m z (space s) (index s) (max s)) rs rest).
  { destruct (mmap_ok n) eqn:Em.
    - exists (take (Z.to_nat n) (filebase s)), n. rewrite setsize_shrink; auto; [|apply Himg|lia].
      split_and!; [done|lia|lia|]. exists (take (Z.to_nat (n - space s)) (encs tl)).
      destruct Himg as [Hb Hsp' Hfz Hwf _ _ _ _]. unfold Partial. cbn [filebase filesz].
      assert (Hlen : zlen (take (Z.to_nat n) (filebase s)) = n).
      { unfold zlen in *. rewrite length_take. lia. }
      split_and!; [|done|done|done|lia].
      rewrite Hb, take_app. f_equal; [apply take_ge|f_equal]; unfold zlen in *; lia.
    - exists (filebase s), (filesz s). rewrite setsize_fail by done.
      split_and!; [by destruct s|lia|lia|]. exists (encs tl).
      exact (Image_partial _ _ _ Himg). }
  destruct Hs1 as (m & z & -> & Hz & Hz' & rest & Hp).
  destruct Hp as (Hb & Hfz & Hwf & Hpg & Hmax). cbn [filebase filesz space] in *.
  pose proof (img_space _ _ _ Himg) as Hspace. rewrite Hspace in Hz' |- *.
  pose proof (zlen_app (encs rs) rest) as Happ. rewrite <- Hb, <- Hfz in Happ.
  pose proof (page_room _ Hpg Hmax).
  destruct (sentinel rs rest (u32 (z - zlen (encs rs)))) as (E & Hw & Hl);
    [intros ->; rewrite zlen_nil in Happ; lia|done|rewrite <- Hb, <- Hfz; by apply page_div8|
     rewrite <- Hb, <- Hfz; lia| |].
  { rewrite u32_small; lia. }
  rewrite Hb, E. ostep. eexists _, [RGap (drop 8 rest)]. split; [done|].
  split_and!; [|done|cbn; lia].
  constructor; cbn [set_filebase filebase filesz space]; eauto. rewrite zlen_app. lia.
Qed.

(** ** Repacking *)

Definition datas (rs : list rec) : list rec := filter (fun r => is_gap r = false) rs.

Lemma datas_cons_data kv pad rs : datas (RData kv pad :: rs) = RData kv pad :: datas rs.
Proof. done. Qed.
Lemma datas_cons_gap j rs : datas (RGap j :: rs) = datas rs.
Proof. done. Qed.

Lemma datas_app rs rs' : datas (rs ++ rs') = datas rs ++ datas rs'.
Proof. apply filter_app. Qed.

Lemma datas_wf rs : Forall wf_rec rs -> Forall wf_rec (datas rs).
Proof. rewrite !Forall_forall. intros H r [_ ?]%list_elem_of_filter. auto. Qed.

Lemma datas_zlen rs : zlen (encs (datas rs)) <= zlen (encs rs).
Proof.
  induction rs as [|[kv pad|j] rs IH]; [done|..].
  - rewrite datas_cons_data, !encs_cons, !zlen_app. lia.
  - rewrite datas_cons_gap, encs_cons, zlen_app. pose proof (zlen_nonneg (enc_rec (RGap j))). lia.
Qed.

(** Repacking keeps the contents of the data records, in file order. *)
Lemma data_offs_datas o o' rs : (data_offs o (datas rs)).*2 = (data_offs o' rs).*2.
Proof.
  revert o o'. induction rs as [|[kv pad|j] rs IH]; intros o o'; [done|..].
  - rewrite datas_cons_data. cbn. f_equal. apply IH.
  - rewrite datas_cons_gap. cbn. apply IH.
Qed.

Lemma has_keys_snd (l l' : list (Z * bytes)) : l.*2 = l'.*2 -> has_keys l -> has_keys l'.
Proof.
  unfold has_keys. rewrite !Forall_forall. intros E H p Hp.
  apply (list_elem_of_fmap_2 snd) in Hp. rewrite <- E in Hp.
  by apply list_elem_of_fmap in Hp as (q & -> & Hq%H).
Qed.

Lemma has_keys_datas o o' rs : has_keys (data_offs o' rs) -> has_keys (data_offs o (datas rs)).
Proof. apply has_keys_snd. by rewrite (data_offs_datas o o'). Qed.

(** Moving one record down over the bytes already given up. *)
Lemma move_down d junk r rest :
  exists junk', zlen junk' = zlen junk /\
    mread (d ++ junk ++ enc_rec r ++ rest) (zlen (d ++ junk)) (rsize r) = Some (enc_rec r) /\
    mwrite (d ++ junk ++ enc_rec r ++ rest) (zlen d) (enc_rec r) =
      Some (d ++ enc_rec r ++ junk' ++ rest).
Proof.
  set (n := length (enc_rec r)). exists (drop n (junk ++ enc_rec r)). split_and!.
  - unfold zlen. rewrite length_drop, length_app. lia.
  - rewrite (app_assoc d). by apply mread_app.
  - rewrite (app_assoc junk). rewrite <- (take_drop n (junk ++ enc_rec r)) at 1.
    rewrite <- app_assoc. rewrite (mwrite_app _ (take n (junk ++ enc_rec r))); [done|done|].
    unfold zlen. rewrite length_take, length_app. lia.
Qed.

(** The copying step of the repacking loop, which is skipped when nothing was given up. *)
Lemma repack_copy m d junk r rest :
  m = d ++ junk ++ enc_rec r ++ rest ->
  exists junk', zlen junk' = zlen junk /\
    (if zlen d =? zlen (d ++ junk) then Done m
     else rec ← of_option OutOfBounds (mread m (zlen (d ++ junk)) (rsize r));
          of_option OutOfBounds (mwrite m (zlen d) rec)) =
    Done (d ++ enc_rec r ++ junk' ++ rest).
Proof.
  intros ->. destruct (Z.eqb_spec (zlen d) (zlen (d ++ junk))) as [E|E].
  - rewrite zlen_app in E. assert (junk = []) as -> by (apply zlen_zero; lia). by exists [].
  - destruct (move_down d junk r rest) as (j & Hj & E1 & E2).
    exists j. split; [done|]. rewrite E1. ostep. by rewrite E2.
Qed.

(** One record of the repacking loop: a data record moves down to follow the records already
    kept and is indexed there, a gap becomes part of the junk between the two. *)
Lemma repack_step fuel s d junk r rest :
  wf_rec r -> filebase s = encs d ++ junk ++ enc_rec r ++ rest -> zlen (filebase s) < 2 ^ 32 ->
  zlen (encs d ++ junk) < space s -> zlen (data_offs 0 (d ++ datas [r])) <= max s ->
  exists junk', repack_loop (S fuel) s (zlen (encs d ++ junk)) (zlen (encs d)) (data_offs 0 d).*1 =
    repack_loop fuel (set_filebase s (encs (d ++ datas [r]) ++ junk' ++ rest))
      (zlen (encs (d ++ datas [r]) ++ junk')) (zlen (encs (d ++ datas [r])))
      (data_offs 0 (d ++ datas [r])).*1 /\
    zlen (encs (d ++ datas [r]) ++ junk') = zlen (encs d ++ junk) + rsize r.
Proof.
  intros Hr Hb Hmax Hsp Hn. cbn [repack_loop]. destruct (rsize_bounds r Hr) as (Hr8 & _).
  destruct (Z.ltb_spec (zlen (encs d ++ junk)) (space s)); [|lia].
  assert (Hlen : zlen (filebase s) = zlen (encs d ++ junk) + rsize r + zlen rest)
    by (rewrite Hb, !zlen_app; unfold rsize; lia).
  pose proof (zlen_nonneg rest). pose proof (zlen_nonneg (encs d)). pose proof (zlen_nonneg junk).
  assert (Hb' : filebase s = (encs d ++ junk) ++ enc_rec r ++ rest) by (by rewrite <- app_assoc).
  assert (G1 : record_get_size (filebase s) (zlen (encs d ++ junk)) = Done (rsize r))
    by (rewrite Hb'; by apply record_get_size_at).
  assert (G2 : record_is_gap (filebase s) (zlen (encs d ++ junk)) = Done (is_gap r))
    by (rewrite Hb'; by apply record_is_gap_at).
  rewrite G1. ostep. rewrite G2. ostep.
  rewrite !(u32_small (_ + rsize r)) by (rewrite ?zlen_app in *; lia).
  destruct r as [kv pad|j]; cbn [is_gap].
  - change (datas [RData kv pad]) with [RData kv pad] in *. set (r := RData kv pad) in *.
    destruct (repack_copy (filebase s) (encs d) junk r rest Hb) as (junk' & Hj & ->).
    ostep. unfold store_index_ensure. cbn [set_filebase max].
    rewrite data_offs_app, zlen_app in Hn. unfold r in Hn. cbn [data_offs] in Hn. rewrite zlen_one in Hn.
    assert (Hlt : zlen (data_offs 0 d).*1 < max s) by (rewrite zlen_fmap; lia).
    destruct (Z.ltb_spec (zlen (data_offs 0 d).*1) (max s)); [|lia]. cbn [max set_filebase].
    destruct (Z.ltb_spec (zlen (data_offs 0 d).*1) (max s)); [|lia].
    assert (Hd : encs (d ++ [r]) = encs d ++ enc_rec r) by (by rewrite encs_app, encs_one).
    exists junk'. rewrite Hd. split; [|rewrite !zlen_app; unfold rsize; lia]. f_equal.
    + by rewrite <- !app_assoc.
    + rewrite !zlen_app. unfold rsize. lia.
    + by rewrite zlen_app.
    + by rewrite data_offs_app, fmap_app.
  - change (datas [RGap j]) with (@nil rec) in *. rewrite app_nil_r in *.
    exists (junk ++ enc_rec (RGap j)). split; [|rewrite !zlen_app; unfold rsize; lia].
    f_equal; [|rewrite !zlen_app; unfold rsize; lia]. rewrite <- app_assoc, <- Hb. by destruct s.
Qed.

Lemma repack_loop_ok todo : forall fuel s d junk rest,
  (length todo <= fuel)%nat -> Forall wf_rec todo ->
  filebase s = encs d ++ junk ++ encs todo ++ rest ->
  space s = zlen (encs d ++ junk) + zlen (encs todo) -> zlen (filebase s) < 2 ^ 32 ->
  zlen (data_offs 0 (d ++ datas todo)) <= max s ->
  exists junk', repack_loop fuel s (zlen (encs d ++ junk)) (zlen (encs d)) (data_offs 0 d).*1 =
    Done (set_filebase s (encs (d ++ datas todo) ++ junk' ++ rest),
          zlen (encs (d ++ datas todo)), (data_offs 0 (d ++ datas todo)).*1) /\
    zlen (encs (d ++ datas todo)) + zlen junk' = zlen (encs d ++ junk) + zlen (encs todo).
Proof.
  induction todo as [|r todo IH]; intros fuel s d junk rest Hf Hwf Hb Hsp Hmax Hn.
  - exists junk. change (datas []) with (@nil rec). rewrite app_nil_r.
    rewrite encs_nil, zlen_nil in *. split; [|zlen_lia].
    assert (E : (zlen (encs d ++ junk) <? space s) = false) by (apply Z.ltb_ge; lia).
    destruct fuel; cbn [repack_loop]; rewrite E; cbn in Hb; rewrite <- Hb; by destruct s.
  - apply Forall_cons in Hwf as [Hr Hwf]. destruct fuel as [|fuel]; [cbn in Hf; lia|].
    rewrite encs_cons, (zlen_app (enc_rec r)) in *. fold (rsize r) in *.
    rewrite <- app_assoc in Hb. destruct (rsize_bounds r Hr) as (Hr8 & _).
    pose proof (zlen_nonneg (encs todo)).
    assert (Hds : d ++ datas (r :: todo) = (d ++ datas [r]) ++ datas todo)
      by (by rewrite <- app_assoc, <- datas_app). rewrite Hds in *.
    rewrite data_offs_app, zlen_app in Hn.
    pose proof (zlen_nonneg (data_offs (0 + zlen (encs (d ++ datas [r]))) (datas todo))).
    destruct (repack_step fuel s d junk r (encs todo ++ rest)) as (junk1 & -> & Hz1); [done..|lia|lia|].
    destruct (IH fuel (set_filebase s (encs (d ++ datas [r]) ++ junk1 ++ encs todo ++ rest))
      (d ++ datas [r]) junk1 rest) as (junk' & E & Hz); cbn [set_filebase filebase space max]; try done.
    + cbn in Hf. lia.
    + lia.
    + rewrite Hb in Hmax. rewrite !zlen_app in *. unfold rsize in *. lia.
    + rewrite data_offs_app, zlen_app. lia.
    + exists junk'. split; [exact E|lia].
Qed.

Lemma length_encs rs : Forall wf_rec rs -> 8 * zlen rs <= zlen (encs rs).
Proof.
  induction 1 as [|r rs Hr%rsize_bounds _ IH]; [done|].
  rewrite encs_cons, zlen_cons, zlen_app. unfold rsize in Hr. lia.
Qed.

(** The comparisons made by [qsort] on the index of a healthy file. *)
Lemma strcmp_mem_at s rs tl o kv o' kv' :
  Image s rs tl -> has_keys (data_offs 0 rs) ->
  (o, kv) ∈ data_offs 0 rs -> (o', kv') ∈ data_offs 0 rs ->
  strcmp_mem (keyvalue_at (filebase s) o) (keyvalue_at (filebase s) o') =
    Some (strcmp (cstr kv) (cstr kv')).
Proof.
  intros Himg Hk H1 H2. unfold has_keys in Hk. rewrite Forall_forall in Hk.
  pose proof (Hk _ H1) as Hk1. pose proof (Hk _ H2) as Hk2. cbn [snd] in Hk1, Hk2.
  destruct (Image_split _ _ _ _ _ Himg H1) as (p1 & d1 & q1 & _ & -> & _ & E1).
  destruct (Image_split _ _ _ _ _ Himg H2) as (p2 & d2 & q2 & _ & -> & _ & E2).
  destruct (keyvalue_at_data (encs p1) kv d1 (encs q1 ++ encs tl) _ Hk1 eq_refl) as [v1 V1].
  destruct (keyvalue_at_data (encs p2) kv' d2 (encs q2 ++ encs tl) _ Hk2 eq_refl) as [v2 V2].
  rewrite E1 at 1. rewrite V1, E2, V2. apply strcmp_mem_keys; apply cstr_nul_free.
Qed.

Definition rec_le (p q : Z * bytes) : Prop := str_le (key_of p) (key_of q).

Lemma elem_fst (D : list (Z * bytes)) o : o ∈ D.*1 -> exists kv, (o, kv) ∈ D.
Proof. intros ([o' kv] & -> & H)%list_elem_of_fmap. by exists kv. Qed.

Lemma sort_index s rs tl :
  Image s rs tl -> has_keys (data_offs 0 rs) ->
  compar_safe (filebase s) (data_offs 0 rs).*1 = true /\
  exists l, qsort (info_compar_le (filebase s)) (data_offs 0 rs).*1 = l.*1 /\
    l ≡ₚ data_offs 0 rs /\ StronglySorted rec_le l.
Proof.
  intros Himg Hk. set (D := data_offs 0 rs). split.
  - unfold compar_safe. apply forallb_forall. intros a Ha%list_elem_of_In.
    apply forallb_forall. intros b Hb%list_elem_of_In.
    destruct (elem_fst D a Ha) as [ka Ha']. destruct (elem_fst D b Hb) as [kb Hb'].
    rewrite (strcmp_mem_at s rs tl a ka b kb) by done.
    by rewrite bool_decide_true, orb_true_r by done.
  - assert (Hle : forall a ka b kb, (a, ka) ∈ D -> (b, kb) ∈ D ->
      info_compar_le (filebase s) a b = bool_decide (str_le (cstr ka) (cstr kb))).
    { intros a ka b kb Ha Hb. unfold info_compar_le.
      rewrite (strcmp_mem_at s rs tl a ka b kb) by done. by rewrite str_le_bool. }
    pose proof (qsort_perm (info_compar_le (filebase s)) D.*1) as Hp.
    destruct (Permutation_map_inv _ _ Hp) as (l & Hl & HD). exists l.
    split_and!; [done|by symmetry|].
    assert (Hs : StronglySorted (fun x y => info_compar_le (filebase s) x y = true) l.*1).
    { change (l.*1) with (map fst l). rewrite <- Hl. apply qsort_sorted.
      - intros x y (kx & Hx)%elem_fst (ky & Hy)%elem_fst.
        rewrite (Hle x kx y ky), (Hle y ky x kx) by done. rewrite !bool_decide_eq_true.
        apply str_le_total.
      - intros x y z (kx & Hx)%elem_fst (ky & Hy)%elem_fst (kz & Hz)%elem_fst.
        rewrite (Hle x kx y ky), (Hle y ky z kz), (Hle x kx z kz) by done.
        rewrite !bool_decide_eq_true. apply str_le_trans. }
    apply StronglySorted_fmap_inv in Hs. revert Hs. apply StronglySorted_impl_in.
    intros [x kx] [y ky] Hx Hy. rewrite <- HD in Hx, Hy. cbn [fst].
    rewrite (Hle x kx y ky) by done. by rewrite bool_decide_eq_true.
Qed.

(** Repacking a healthy file: the gaps go, the data records keep their content and their
    order, and the index is rebuilt in key order. *)
Lemma store_repack_gen s rs tl :
  Image s rs tl -> has_keys (data_offs 0 rs) -> zlen (data_offs 0 rs) <= max s ->
  exists s' tl' l, store_repack s = Done s' /\ Image s' (datas rs) tl' /\
    index s' = (fun p => Some p.1) <$> l /\ l ≡ₚ data_offs 0 (datas rs) /\
    StronglySorted rec_le l /\ filesz s' = filesz s /\ max s' = max s.
Proof.
  intros Himg Hk Hn. destruct (Himg) as [Hb Hsp Hfz Hwf Hwtl Htl Hpg Hmax].
  pose proof (page_room _ Hpg Hmax). pose proof page_pos as [Hpp _].
  destruct (repack_loop_ok rs (S (Z.to_nat (space s / INFO_ALIGN))) s [] [] (encs tl))
    as (junk & E & Hz).
  { pose proof (length_encs rs Hwf). rewrite Hsp. unfold INFO_ALIGN, zlen in *. divlia. }
  { done. } { done. } { rewrite Hsp. done. } { lia. }
  { cbn [app]. replace (zlen (data_offs 0 (datas rs))) with (zlen (data_offs 0 rs)); [done|].
    rewrite <- (zlen_fmap snd (data_offs 0 rs)), <- (zlen_fmap snd (data_offs 0 (datas rs))).
    by rewrite (data_offs_datas 0 0 rs). }
  change (encs [] ++ []) with (@nil Z) in *. change (encs []) with (@nil Z) in *.
  change (@zlen Z []) with 0 in *. cbn [app] in E, Hz. change ((data_offs 0 []).*1) with (@nil Z) in E.
  unfold store_repack. rewrite E. ostep. cbn [space filesz filebase set_filebase].
  pose proof (zlen_nonneg junk). pose proof (zlen_nonneg (encs (datas rs))).
  destruct (Z.leb_spec (zlen (encs (datas rs))) (space s)); [|lia]. ostep.
  set (w := zlen (encs (datas rs))) in *. pose proof (datas_wf rs Hwf) as Hwd.
  assert (Hlen : zlen (encs (datas rs) ++ junk ++ encs tl) = filesz s)
    by (rewrite Hfz, Hb, !zlen_app; lia).
  assert (Hm : exists rest, (if w <? filesz s
      then record_init_gap (encs (datas rs) ++ junk ++ encs tl) w (u32 (filesz s - w))
      else Done (encs (datas rs) ++ junk ++ encs tl)) = Done (encs (datas rs) ++ rest) /\
      zlen (encs (datas rs) ++ rest) = filesz s).
  { destruct (Z.ltb_spec w (filesz s)) as [Hw|Hw]; [|by eauto].
    pose proof (zlen_app (encs (datas rs)) (junk ++ encs tl)) as Happ.
    rewrite Hlen in Happ.
    destruct (sentinel (datas rs) (junk ++ encs tl) (u32 (filesz s - w))) as (E1 & _ & Hl).
    - intros Hnil. rewrite Hnil, zlen_nil in Happ. lia.
    - done.
    - rewrite Hlen. by apply page_div8.
    - lia.
    - rewrite u32_small by lia. lia.
    - fold w in E1. rewrite E1. eexists. split; [done|]. rewrite zlen_app, Hl. lia. }
  destruct Hm as (rest & -> & Hrest). ostep.
  destruct (store_set_space_ok (set_filebase (set_filebase s
      (encs (datas rs) ++ junk ++ encs tl)) (encs (datas rs) ++ rest)) (datas rs) rest)
    as (m & tl' & E2 & Himg'); [by split_and!|].
  cbn [set_filebase filesz index max] in E2, Himg'. fold w in E2, Himg'. rewrite E2. ostep.
  destruct (sort_index _ _ _ Himg' (has_keys_datas 0 0 rs Hk)) as [Hsafe (l & Hq & Hperm & Hsort)].
  cbn [filebase] in *. rewrite Hsafe, Hq.
  eexists _, tl', l. split; [done|]. split_and!; try done.
  - by destruct Himg'; constructor.
  - cbn. by rewrite <- list_fmap_compose.
Qed.

End Alloc.
