(* ===== verification/StoreHole.v ===== *)
(** * The key/value store: allocating, freeing and resizing records

    Every way a record can be given room ends with a record of the right size and arbitrary
    content, which [info_fill] then overwrites. *)
From S2P Require Import Prelude StoreDefs StoreLayout StoreRep StoreAlloc.

Section Hole.
Context {BO : ByteOrder} {os : OS} {QS : Qsort}.
Hypothesis fallocate_succeeds : forall a b, posix_fallocate a b = 0.
Hypothesis ftruncate_succeeds : forall n, ftruncate_ok n = true.

Implicit Types (s : store) (rs pre post tl : list rec).

(** ** Repacking an indexed file *)

Lemma rec_lt_nodup (l : list (Z * bytes)) : StronglySorted rec_lt l -> NoDup (key_of <$> l).
Proof.
  induction 1 as [|p l Hs IH Hall]; cbn; constructor; [|done].
  intros (q & Hq & Hin)%list_elem_of_fmap. rewrite Forall_forall in Hall.
  specialize (Hall q Hin). unfold rec_lt in Hall. rewrite Hq in Hall. by apply str_lt_irrefl in Hall.
Qed.

Lemma rec_le_strict (l : list (Z * bytes)) :
  NoDup (key_of <$> l) -> StronglySorted rec_le l -> StronglySorted rec_lt l.
Proof.
  intros Hnd. induction 1 as [|p l Hs IH Hall]; [constructor|].
  apply NoDup_cons in Hnd as [Hp Hnd]. constructor; [auto|].
  rewrite Forall_forall in *. intros q Hq. specialize (Hall q Hq).
  apply str_le_lteq in Hall as [?|E]; [done|]. exfalso. apply Hp. rewrite E.
  by apply list_elem_of_fmap_2.
Qed.

Lemma keys_fmap (l : list (Z * bytes)) : key_of <$> l = cstr <$> l.*2.
Proof. by rewrite <- list_fmap_compose. Qed.

Definition kv_lt (x y : bytes) : Prop := str_lt (cstr x) (cstr y).

(** Two indexes of the same records list them in the same order. *)
Lemma sorted_same_records (l l' : list (Z * bytes)) :
  StronglySorted rec_lt l -> StronglySorted rec_lt l' -> l.*2 ≡ₚ l'.*2 -> l.*2 = l'.*2.
Proof.
  assert (Hf : forall k : list (Z * bytes), StronglySorted rec_lt k -> StronglySorted kv_lt k.*2).
  { intros k. induction 1 as [|p k Hk IH Hall]; cbn; constructor; [done|].
    rewrite Forall_fmap. exact Hall. }
  assert (AntiSymm (=) kv_lt).
  { intros x y H1 H2. exfalso. apply (str_lt_irrefl (cstr x)). by transitivity (cstr y). }
  intros H1 H2 Hp. apply (StronglySorted_unique kv_lt); auto.
Qed.

Lemma store_repack_ok s l rs tl :
  Image s rs tl -> Index s l rs ->
  exists s' l' tl', store_repack s = Done s' /\ Image s' (datas rs) tl' /\
    Index s' l' (datas rs) /\ l'.*2 = l.*2 /\ filesz s' = filesz s /\ max s' = max s.
Proof.
  intros Himg (Hi & Hp & Hs & Hm & Hk).
  assert (Hlen : zlen (data_offs 0 rs) = zlen l) by (unfold zlen; by rewrite Hp).
  destruct (store_repack_gen s rs tl Himg) as (s' & tl' & l' & E & Himg' & Hi' & Hp' & Hs' & Hfz & Hmx);
    [by unfold has_keys; rewrite <- Hp|lia|].
  assert (Hkv : l'.*2 ≡ₚ l.*2) by (rewrite Hp, Hp'; by rewrite (data_offs_datas 0 0)).
  assert (Hlt : StronglySorted rec_lt l').
  { apply rec_le_strict; [|done]. rewrite keys_fmap, Hkv, <- keys_fmap.
    by apply rec_lt_nodup. }
  assert (Heq : l'.*2 = l.*2) by (by apply sorted_same_records).
  exists s', l', tl'. split_and!; try done. split_and!; try done.
  - rewrite Hmx. replace (zlen l') with (zlen l); [done|].
    by rewrite <- (zlen_fmap snd l), <- Heq, zlen_fmap.
  - by apply (has_keys_snd l).
Qed.

(** ** Copying the content in *)

Lemma info_fill_ok s pre b pad post tl kv :
  Image s (pre ++ RData b pad :: post) tl -> zlen b = zlen kv ->
  exists s', info_fill s (zlen (encs pre)) (zlen kv) kv = Done s' /\
    Image s' (pre ++ RData kv pad :: post) tl /\ same_index s s' /\ filesz s' = filesz s.
Proof.
  intros [Hb Hsp Hfz Hwf Hwtl Htl Hpg Hmx] Hlen.
  assert (Hsize : rsize (RData kv pad) = rsize (RData b pad)) by (rewrite !rsize_data; lia).
  assert (Hw : mwrite (filebase s) (zlen (encs pre) + 2) kv =
    Some (encs (pre ++ RData kv pad :: post) ++ encs tl)).
  { rewrite Hb, !encs_app, !encs_cons. cbn [enc_rec]. rewrite <- !app_assoc, Hlen.
    rewrite !(app_assoc (encs pre) (enc16 _)).
    apply mwrite_app; [by rewrite zlen_app, zlen_enc16|done]. }
  unfold info_fill. replace (Z.to_nat (zlen kv)) with (length kv) by (unfold zlen; lia).
  rewrite firstn_all, Hw. ostep. eexists. split; [done|]. split_and!; try done.
  pose proof (mwrite_zlen _ _ _ _ Hw) as Hz.
  constructor; cbn [set_filebase filebase filesz space]; auto.
  - rewrite Hsp, !encs_app, !encs_cons, !zlen_app. unfold rsize in Hsize. lia.
  - by rewrite Hz.
  - apply Forall_app in Hwf as [W1 [W2 W3]%Forall_cons]. apply Forall_app. split; [done|].
    constructor; [|done]. cbn in *. by rewrite Hsize, <- Hlen.
Qed.

(** The first bytes of the free space, laid out as a record of [sz] bytes. *)
Lemma carve_split sz (rest : bytes) :
  0 <= sz -> 2 + sz <= info_size sz -> info_size sz <= zlen rest ->
  exists h b pad rest', rest = (h ++ b ++ pad) ++ rest' /\ zlen h = 2 /\ zlen b = sz /\
    2 + sz + zlen pad = info_size sz.
Proof.
  intros Hsz Hal Hfit.
  exists (take 2 rest), (take (Z.to_nat sz) (drop 2 rest)),
    (take (Z.to_nat (info_size sz - 2 - sz)) (drop (Z.to_nat sz) (drop 2 rest))),
    (drop (Z.to_nat (info_size sz - 2 - sz)) (drop (Z.to_nat sz) (drop 2 rest))).
  split; [by rewrite <- !app_assoc, !take_drop|].
  unfold zlen in *. rewrite !length_take, !length_drop. lia.
Qed.

(** What is left of the free space after [a] becomes the sentinel gap, unless nothing is. *)
Lemma carve_tail (a rest : bytes) sp fsz :
  sp = zlen a -> fsz = zlen a + zlen rest -> (8 | zlen rest) -> fsz < 2 ^ 32 ->
  exists tl, (if sp <? fsz then record_init_gap (a ++ rest) sp (u32 (fsz - sp)) else Done (a ++ rest)) =
      Done (a ++ encs tl) /\
    zlen (encs tl) = zlen rest /\ Forall wf_rec tl /\ (tl = [] \/ exists j, tl = [RGap j]).
Proof.
  intros -> -> Hd8 Hmax. pose proof (zlen_nonneg a). pose proof (zlen_nonneg rest).
  destruct (Z.ltb_spec (zlen a) (zlen a + zlen rest)) as [Hlt|Hlt].
  - exists [RGap (drop 8 rest)].
    assert (8 <= zlen rest) by (apply Z.divide_pos_le; [lia|done]).
    rewrite <- (app_nil_r rest) at 1.
    rewrite record_init_gap_at; [|done|rewrite u32_small; lia|rewrite u32_small; lia].
    rewrite app_nil_r, encs_one. split_and!; [done|by apply rsize_gap_of| |eauto].
    constructor; [|done]. apply wf_gap_of; [done|]. destruct Hd8 as [q Hq]. lia.
  - exists []. assert (rest = []) as -> by (apply zlen_zero; lia). auto.
Qed.

(** ** Allocation at the end of the file *)

Lemma store_file_carve_ok s rs rest sz :
  Partial s rs rest -> space s = zlen (encs rs) -> 0 < sz < 2 ^ 16 -> info_size sz <= zlen rest ->
  exists s' b pad tl, store_file_carve s sz = Done (Some (space s), s') /\
    Image s' (rs ++ [RData b pad]) tl /\ zlen b = sz /\ same_index s s' /\ filesz s' = filesz s.
Proof.
  intros (Hb & Hfz & Hwf & Hpg & Hmax) Hsp Hsz Hfit.
  destruct (info_size_spec sz) as [Hal Hal8]; [lia|].
  pose proof (zlen_nonneg (encs rs)) as Hnn.
  assert (Htot : filesz s = zlen (encs rs) + zlen rest) by (by rewrite Hfz, Hb, zlen_app).
  destruct (carve_split sz rest) as (h & b & pad & rest' & -> & Hh & Hb1 & Hpad); [lia..|].
  rewrite !zlen_app in *. pose proof (zlen_nonneg rest').
  unfold store_file_carve. rewrite (u32_small (filesz s - space s)) by lia.
  destruct (Z.leb_spec (info_size sz) (filesz s - space s)); [|lia]. ostep.
  cbn [set_space space filesz filebase]. rewrite (u32_small (space s + info_size sz)) by lia.
  destruct (carve_tail (encs rs ++ h ++ b ++ pad) rest' (space s + info_size sz) (filesz s))
    as (tl & E & Htl & Hwtl & Htl'); [rewrite !zlen_app; lia..| |done|].
  { replace (zlen rest') with (filesz s - (zlen (encs rs) + info_size sz)) by lia.
    apply Z.divide_sub_r; [by apply page_div8|].
    apply Z.divide_add_r; [by apply encs_aligned|done]. }
  rewrite Hb, app_assoc, E. ostep. unfold wr16. rewrite <- !app_assoc.
  rewrite mwrite_app; [|done|by rewrite zlen_enc16]. ostep.
  assert (Hr : wf_rec (RData b pad)) by (cbn; rewrite rsize_data, Hb1; lia).
  assert (Henc : encs (rs ++ [RData b pad]) = encs rs ++ enc16 sz ++ b ++ pad)
    by (rewrite encs_app, encs_one; cbn; by rewrite Hb1).
  eexists _, b, pad, tl. split; [done|]. split_and!; try done.
  constructor; cbn [set_filebase set_space filebase filesz space]; auto.
  - rewrite Henc. by rewrite <- !app_assoc.
  - rewrite Henc, !zlen_app, zlen_enc16. lia.
  - rewrite !zlen_app, zlen_enc16. lia.
  - apply Forall_app. split; [done|]. by apply Forall_singleton.
Qed.

Lemma Image_room s rs tl :
  Image s rs tl -> 0 <= space s <= filesz s /\ filesz s - space s = zlen (encs tl).
Proof.
  intros [Hb Hsp Hfz _ _ _ _ _]. rewrite Hsp, Hfz, Hb, zlen_app.
  pose proof (zlen_nonneg (encs rs)). pose proof (zlen_nonneg (encs tl)). lia.
Qed.

Lemma store_file_alloc_fits s rs tl sz :
  Image s rs tl -> 0 < sz < 2 ^ 16 -> info_size sz <= filesz s - space s ->
  exists s' b pad tl', store_file_alloc s sz = Done (Some (space s), s') /\
    Image s' (rs ++ [RData b pad]) tl' /\ zlen b = sz /\ same_index s s' /\
    filesz s' = filesz s.
Proof.
  intros Himg Hsz Hfit. pose proof (Image_room _ _ _ Himg) as [Hsp Hroom].
  pose proof (img_max _ _ _ Himg). pose proof (img_space _ _ _ Himg) as Hs.
  unfold store_file_alloc.
  assert (E : (u32 (filesz s - space s) <? info_size sz) = false)
    by (rewrite u32_small by lia; apply Z.ltb_ge; lia).
  rewrite E. ostep. rewrite E. cbn [Z.eqb].
  eapply store_file_carve_ok; [by apply Image_partial|done|done|lia].
Qed.

(** Repacking, or not, leaves the same records in a healthy file of the same size. *)
Lemma repack_if_ok (c : bool) s l rs tl :
  Image s rs tl -> Index s l rs ->
  exists s1 l1 rs1 tl1, (if c then store_repack s else Done s) = Done s1 /\
    Image s1 rs1 tl1 /\ Index s1 l1 rs1 /\ l1.*2 = l.*2 /\ filesz s1 = filesz s /\ max s1 = max s.
Proof.
  intros Himg Hidx. destruct c; [|by exists s, l, rs, tl].
  destruct (store_repack_ok s l rs tl Himg Hidx) as (s1 & l1 & tl1 & E & ? & ? & ? & ? & ?).
  by exists s1, l1, (datas rs), tl1.
Qed.

(** Allocation for a new record, with repacking and growth of the file when the space at the
    end is too small. Either there is a new record at the end, or the file could not be
    mapped at its new size and the store still holds what it held. *)
Lemma store_file_alloc_ok s l rs tl sz :
  Image s rs tl -> Index s l rs -> 0 < sz < 2 ^ 16 -> roomy s ->
  exists r s' l' rs' tl', store_file_alloc s sz = Done (r, s') /\ l'.*2 = l.*2 /\
    index s' = (fun p => Some p.1) <$> l' /\ Index s' l' rs' /\ max s' = max s /\
    filesz s' <= filesz s + 65544 + getpagesize /\
    match r with
    | Some o => exists b pad, Image s' (rs' ++ [RData b pad]) tl' /\ zlen b = sz /\
        o = zlen (encs rs')
    | None => Image s' rs' tl' /\ (exists n, 0 < n /\ mmap_ok n = false) /\ filesz s' = filesz s
    end.
Proof.
  intros Himg Hidx Hsz Hroom. destruct (info_size_bounds sz) as [Hal Hal8]; [lia|].
  pose proof page_pos as [Hpp _]. unfold roomy in Hroom.
  destruct (repack_if_ok (u32 (filesz s - space s) <? info_size sz) s l rs tl Himg Hidx)
    as (s1 & l1 & rs1 & tl1 & E & Himg1 & Hidx1 & Hkv & Hfz & Hmx).
  unfold store_file_alloc. rewrite E. ostep. clear E.
  pose proof (Image_room _ _ _ Himg1) as [Hsp Hrm]. pose proof (img_space _ _ _ Himg1) as Hspe.
  rewrite (u32_small (filesz s1 - space s1)) by lia.
  assert (Hcarve : forall s2 rest, Partial s2 rs1 rest -> space s2 = space s1 ->
    same_index s1 s2 -> info_size sz <= zlen rest ->
    exists s' b pad tl', store_file_carve s2 sz = Done (Some (space s1), s') /\
      Image s' (rs1 ++ [RData b pad]) tl' /\ zlen b = sz /\ Index s' l1 rs1 /\ max s' = max s /\
      filesz s' = filesz s2).
  { intros s2 rest Hp Hs2 [Hi2 Hm2] Hfit.
    destruct (store_file_carve_ok s2 rs1 rest sz) as (s' & b & pad & tl' & E & Hi & Hb & [Hx Hy] & Hf);
      [done|congruence|done|done|]. exists s', b, pad, tl'. rewrite <- Hs2.
    split_and!; try done; [|congruence].
    destruct Hidx1 as (A & B & C & D & F). split_and!; try done; congruence. }
  destruct (Z.ltb_spec (filesz s1 - space s1) (info_size sz)) as [Hlt|Hge].
  - unfold UINT32_MAX. rewrite (u32_small (2 ^ 32 - 1 - info_size sz)) by lia.
    destruct (Z.leb_spec (2 ^ 32 - 1 - info_size sz) (filesz s1)); [lia|].
    rewrite (u32_small (space s1 + info_size sz)) by lia.
    destruct (roundup_page (space s1 + info_size sz)) as [Hr Hrd]; [lia..|].
    set (n := roundup (space s1 + info_size sz) getpagesize) in *.
    destruct (mmap_ok n) eqn:Em.
    + rewrite setsize_grow; [|apply Himg1|lia|apply fallocate_succeeds|done]. cbn [Z.eqb].
      edestruct Hcarve as (s' & b & pad & tl' & -> & Hi & Hb & Hx & Hm & Hf);
        [|done|done| |exists (Some (space s1)), s', l1, rs1, tl'; split_and!; try done;
          [apply Hx|cbn [filesz] in Hf; lia|by exists b, pad]].
      * destruct Himg1 as [Hb Hs1 Hf Hw _ _ _ _]. unfold Partial. cbn [filebase filesz].
        split_and!; [by rewrite Hb, <- app_assoc| |done|done|lia].
        rewrite zlen_app, zlen_replicate by lia. lia.
      * rewrite zlen_app, zlen_replicate by lia. lia.
    + rewrite setsize_fail by done. cbn [Z.eqb].
      exists None, s1, l1, rs1, tl1. split_and!; try done; [apply Hidx1|lia|exists n; split; [lia|done]].
  - cbn [Z.eqb]. edestruct Hcarve as (s' & b & pad & tl' & -> & Hi & Hb & Hx & Hm & Hf);
      [by apply Image_partial|done|done|lia|].
    exists (Some (space s1)), s', l1, rs1, tl'. split_and!; try done; [apply Hx|lia|by exists b, pad].
Qed.

(** ** Turning records into gaps *)

Lemma make_gap s pre mid post tl :
  Image s (pre ++ mid ++ post) tl -> mid <> [] ->
  exists m j, record_init_gap (filebase s) (zlen (encs pre)) (zlen (encs mid)) = Done m /\
    Image (set_filebase s m) (pre ++ RGap j :: post) tl /\ rsize (RGap j) = zlen (encs mid).
Proof.
  intros Himg Hne. destruct (Himg) as [Hb Hsp Hfz Hwf Hwtl Htl Hpg Hmx].
  apply Forall_app in Hwf as [W1 [W2 W3]%Forall_app].
  pose proof (page_room _ Hpg Hmx). pose proof page_pos as [Hpp _].
  assert (Hm8 : 8 <= zlen (encs mid)).
  { destruct mid as [|r mid]; [done|]. apply Forall_cons in W2 as [Hr%rsize_bounds _].
    rewrite encs_cons, zlen_app. unfold rsize in Hr. pose proof (zlen_nonneg (encs mid)). lia. }
  rewrite !encs_app in Hb. rewrite <- !app_assoc in Hb.
  assert (Htot : filesz s = zlen (encs pre) + zlen (encs mid) + zlen (encs post) + zlen (encs tl))
    by (rewrite Hfz, Hb, !zlen_app; lia).
  pose proof (zlen_nonneg (encs pre)). pose proof (zlen_nonneg (encs post)).
  pose proof (zlen_nonneg (encs tl)).
  eexists _, (drop 8 (encs mid)). rewrite Hb at 1.
  split; [apply record_init_gap_at; [done|done|lia]|].
  pose proof (rsize_gap_of (encs mid) Hm8) as Hrs. split; [|done].
  unfold rsize in Hrs. constructor; cbn [set_filebase filebase filesz space]; auto.
  - rewrite encs_app, encs_cons. by rewrite <- !app_assoc.
  - rewrite Hsp, !encs_app, encs_cons, !zlen_app. lia.
  - rewrite !zlen_app. lia.
  - apply Forall_app. split; [done|]. constructor; [|done].
    apply wf_gap_of; [by apply encs_aligned|lia].
Qed.

Lemma data_offs_gap o j post : data_offs o (RGap j :: post) = data_offs (o + rsize (RGap j)) post.
Proof. done. Qed.

(** What follows a record in the file: the space, or another record. *)
Lemma after_record s pre r post tl :
  Image s (pre ++ r :: post) tl ->
  u32 (zlen (encs pre) + rsize r) = zlen (encs pre) + rsize r /\
  (zlen (encs pre) + rsize r = space s <-> post = []) /\
  (forall r' post', post = r' :: post' ->
    record_is_gap (filebase s) (zlen (encs pre) + rsize r) = Done (is_gap r') /\
    record_get_size (filebase s) (zlen (encs pre) + rsize r) = Done (rsize r')).
Proof.
  intros Himg. destruct (Himg) as [Hb Hsp Hfz Hwf Hwtl Htl Hpg Hmx].
  pose proof (Image_room _ _ _ Himg) as [Hr _].
  apply Forall_app in Hwf as [W1 [W2 W3]%Forall_cons].
  rewrite encs_app, encs_cons, !zlen_app in Hsp. fold (rsize r) in Hsp.
  pose proof (zlen_nonneg (encs pre)). pose proof (zlen_nonneg (encs post)).
  pose proof (rsize_bounds r W2). split_and!.
  - apply u32_small. lia.
  - split; [|by intros ->; rewrite encs_nil, zlen_nil in Hsp; lia].
    intros E. apply zlen_encs_zero; [done|lia].
  - intros r' post' ->. apply Forall_cons in W3 as [Hr' _].
    rewrite Hb, encs_app, !encs_cons, <- !app_assoc, app_assoc.
    split; [apply record_is_gap_at|apply record_get_size_at]; try done; by rewrite zlen_app.
Qed.

Lemma store_file_dealloc_ok s pre kv pad post tl :
  Image s (pre ++ RData kv pad :: post) tl -> roomy s ->
  exists s' rs' tl', store_file_dealloc s (zlen (encs pre)) = Done s' /\ Image s' rs' tl' /\
    data_offs 0 rs' = data_offs 0 pre ++
      data_offs (zlen (encs pre) + rsize (RData kv pad)) post /\
    same_index s s' /\ filesz s' <= filesz s.
Proof.
  intros Himg Hroom. destruct (after_record _ _ _ _ _ Himg) as (Hu & Hend & Hnext).
  assert (Hin : (zlen (encs pre), kv) ∈ data_offs 0 (pre ++ RData kv pad :: post)).
  { rewrite data_offs_app. cbn [data_offs]. apply elem_of_app. right. rewrite Z.add_0_l. left. }
  assert (Hr : wf_rec (RData kv pad)).
  { destruct Himg as [_ _ _ Hwf _ _ _ _]. by apply Forall_app in Hwf as [_ [? _]%Forall_cons]. }
  unfold store_file_dealloc. rewrite (rd16_info _ _ _ _ _ Himg Hin). ostep.
  destruct Hr as [Hkv Hsz]. rewrite <- Hsz, Hu.
  destruct (Z.eqb_spec (zlen (encs pre) + rsize (RData kv pad)) (space s)) as [E|E].
  - apply Hend in E as ->.
    destruct (store_set_space_ok s pre (enc_rec (RData kv pad) ++ encs tl)) as (m & tl1 & -> & Hi1).
    { destruct Himg as [Hb _ Hfz Hwf _ _ Hpg Hmx]. rewrite encs_app, encs_one, <- app_assoc in Hb.
      apply Forall_app in Hwf as [? _]. by split_and!. }
    ostep. destruct (store_file_trim_ok fallocate_succeeds ftruncate_succeeds _ _ _ Hi1 Hroom)
      as (s' & tl' & -> & Hi' & Hsame & Hle).
    exists s', pre, tl'. cbn [data_offs]. rewrite app_nil_r. by split_and!.
  - destruct post as [|r' post']; [by exfalso; apply E, Hend|].
    destruct (Hnext r' post' eq_refl) as [-> Hget]. ostep.
    assert (Hx : exists mid post1, RData kv pad :: r' :: post' = mid ++ post1 /\ mid <> [] /\
      (if is_gap r' then record_get_size (filebase s) (zlen (encs pre) + rsize (RData kv pad))
       else Done 0) = Done (zlen (encs mid) - rsize (RData kv pad)) /\
      data_offs (zlen (encs pre) + zlen (encs mid)) post1 =
      data_offs (zlen (encs pre) + rsize (RData kv pad)) (r' :: post')).
    { rewrite Hget. destruct r' as [kv' pad'|j].
      - exists [RData kv pad], (RData kv' pad' :: post'). rewrite encs_one.
        split_and!; [done|done|by cbn [is_gap]; rewrite Z.sub_diag|done].
      - exists [RData kv pad; RGap j], post'. rewrite encs_cons, encs_one, zlen_app.
        split_and!; [done|done| |by rewrite data_offs_gap, Z.add_assoc].
        cbn [is_gap]. f_equal. unfold rsize. lia. }
    destruct Hx as (mid & post1 & Hsplit & Hmid & -> & Hoffs). ostep. rewrite Hsplit in Himg.
    destruct (make_gap s pre mid post1 tl Himg Hmid) as (m & j & Hg & Hi' & Hj).
    replace (rsize (RData kv pad) + (zlen (encs mid) - rsize (RData kv pad)))
      with (zlen (encs mid)) by lia.
    rewrite u32_small.
    2:{ pose proof (Image_room _ _ _ Himg) as [Hr _]. pose proof (img_max _ _ _ Himg).
        pose proof (img_space _ _ _ Himg) as Hsp. rewrite !encs_app, !zlen_app in Hsp.
        pose proof (zlen_nonneg (encs pre)). pose proof (zlen_nonneg (encs post1)).
        pose proof (zlen_nonneg (encs mid)). lia. }
    rewrite Hg. ostep. eexists _, _, tl. split; [done|]. split_and!; [done| |done|done].
    rewrite data_offs_app, data_offs_gap, Hj, Z.add_0_l. by f_equal.
Qed.

End Hole.
