(* ===== verification/StoreRealloc.v ===== *)
(** * The key/value store: resizing a record in place or by moving it

    [store_info_realloc] has seven ways to give a record its new size. Each of them ends with
    the record, of the new size, indexed in its old slot ([Placed]); only a failure to map a
    bigger file ends without it. *)
From S2P Require Import Prelude StoreDefs StoreLayout StoreRep StoreAlloc StoreHole.

Section Realloc.
Context {BO : ByteOrder} {os : OS} {QS : Qsort}.
Hypothesis fallocate_succeeds : forall a b, posix_fallocate a b = 0.
Hypothesis ftruncate_succeeds : forall n, ftruncate_ok n = true.

Implicit Types (s : store) (rs pre post tl : list rec) (l : list (Z * bytes)).

Definition cells l : list (option Z) := (fun p => Some p.1) <$> l.

(** A record of [sz] bytes is at [o], between the records [l1] and [l2] in the index. *)
Definition Placed s (o sz : Z) l1 l2 : Prop :=
  exists pre b pad post tl, Image s (pre ++ RData b pad :: post) tl /\ zlen b = sz /\
    o = zlen (encs pre) /\ index s = cells l1 ++ Some o :: cells l2 /\
    l1 ++ l2 ≡ₚ data_offs 0 pre ++ data_offs (o + rsize (RData b pad)) post.

Lemma Image_update s rs tl m rs' :
  Image s rs tl -> m = encs rs' ++ encs tl -> Forall wf_rec rs' ->
  zlen (encs rs') = zlen (encs rs) -> Image (set_filebase s m) rs' tl.
Proof.
  intros [Hb Hsp Hfz Hwf Hwtl Htl Hpg Hmx] -> Hwf' Hlen.
  constructor; cbn [set_filebase filebase filesz space]; auto; [lia|].
  rewrite Hfz, Hb, !zlen_app. lia.
Qed.

(** Writing the size field over a region that is big enough makes a record at its front. *)
Lemma retag_bytes pre R c sz :
  0 < sz < 2 ^ 16 -> info_size sz <= zlen R ->
  exists b pad g, zlen b = sz /\ wf_rec (RData b pad) /\ zlen g = zlen R - info_size sz /\
    rsize (RData b pad) = info_size sz /\
    wr16 (encs pre ++ R ++ c) (zlen (encs pre)) sz =
      Done (encs (pre ++ [RData b pad]) ++ g ++ c) /\ g = drop (Z.to_nat (info_size sz)) R.
Proof.
  intros Hsz Hfit. destruct (info_size_spec sz) as [Hal _]; [lia|].
  exists (take (Z.to_nat sz) (drop 2 R)),
    (take (Z.to_nat (info_size sz - 2 - sz)) (drop (Z.to_nat (2 + sz)) R)),
    (drop (Z.to_nat (info_size sz)) R).
  set (b := take _ (drop 2 R)). set (pad := take _ (drop (Z.to_nat (2 + sz)) R)).
  set (g := drop _ R).
  assert (Hb : zlen b = sz) by (unfold b, zlen in *; rewrite length_take, length_drop; lia).
  assert (Hpad : zlen pad = info_size sz - 2 - sz)
    by (unfold pad, zlen in *; rewrite length_take, length_drop; lia).
  assert (Hg : zlen g = zlen R - info_size sz) by (unfold g, zlen in *; rewrite length_drop; lia).
  assert (Hrs : rsize (RData b pad) = info_size sz) by (rewrite rsize_data; lia).
  assert (HR : R = take 2 R ++ b ++ pad ++ g).
  { unfold b, pad, g. rewrite <- (take_drop 2 R) at 1. f_equal.
    rewrite <- (take_drop (Z.to_nat sz) (drop 2 R)) at 1. f_equal. rewrite drop_drop.
    replace (2 + Z.to_nat sz)%nat with (Z.to_nat (2 + sz)) by lia.
    rewrite <- (take_drop (Z.to_nat (info_size sz - 2 - sz)) (drop _ R)) at 1. f_equal.
    rewrite drop_drop. f_equal. lia. }
  split_and!; try done; [cbn; by rewrite Hb|].
  unfold wr16. rewrite HR at 1. rewrite <- !app_assoc.
  rewrite mwrite_app; [|done|rewrite zlen_enc16; unfold zlen in *; rewrite length_take; lia].
  cbn [of_option]. rewrite encs_app, encs_one. cbn [enc_rec]. rewrite Hb.
  by rewrite <- !app_assoc.
Qed.

Section InPlace.
Context (s : store) (pre post tl : list rec) (kv pad : bytes) (sz : Z).
Hypothesis Himg : Image s (pre ++ RData kv pad :: post) tl.
Hypothesis Hsz : 0 < sz < 2 ^ 16.
Local Abbreviation o := (zlen (encs pre)).
Local Abbreviation old := (rsize (RData kv pad)).

Lemma wf_parts : Forall wf_rec pre /\ wf_rec (RData kv pad) /\ Forall wf_rec post.
Proof.
  pose proof (img_wf _ _ _ Himg) as Hwf. by apply Forall_app in Hwf as [? [? ?]%Forall_cons].
Qed.

Lemma bytes_parts :
  filebase s = encs pre ++ enc_rec (RData kv pad) ++ encs post ++ encs tl.
Proof. rewrite (img_bytes _ _ _ Himg), encs_app, encs_cons. by rewrite <- !app_assoc. Qed.

(** The allocation stays the same size. *)
Lemma resize_same :
  info_size sz = old ->
  exists m b pad', wr16 (filebase s) o sz = Done m /\ zlen b = sz /\
    rsize (RData b pad') = info_size sz /\
    Image (set_filebase s m) (pre ++ RData b pad' :: post) tl.
Proof.
  intros E. destruct wf_parts as (W1 & W2 & W3). rewrite bytes_parts.
  destruct (retag_bytes pre (enc_rec (RData kv pad)) (encs post ++ encs tl) sz)
    as (b & pad' & g & Hb & Hw & Hg & Hr & -> & _); [done|unfold rsize in E; lia|].
  unfold rsize in E. assert (g = []) as -> by (apply zlen_zero; lia).
  eexists _, b, pad'. split; [done|]. split_and!; [done..|].
  eapply Image_update; [done| |by apply Forall_app; split; [|constructor]|].
  - rewrite !encs_app, encs_one, !encs_cons. cbn [app]. by rewrite <- !app_assoc.
  - rewrite !encs_app, !encs_cons, !zlen_app. unfold rsize in Hr. lia.
Qed.

(** Shrinking before another record: the end of the old allocation becomes a gap. *)
Lemma resize_shrink_mid :
  info_size sz < old ->
  exists m m' b pad' j, wr16 (filebase s) o sz = Done m /\
    (forall r' post', post = r' :: post' -> record_is_gap m (o + old) = Done (is_gap r') /\
       record_get_size m (o + old) = Done (rsize r')) /\
    record_init_gap m (o + info_size sz) (old - info_size sz) = Done m' /\ zlen b = sz /\
    rsize (RData b pad') = info_size sz /\ rsize (RGap j) = old - info_size sz /\
    Image (set_filebase s m') (pre ++ RData b pad' :: RGap j :: post) tl.
Proof.
  intros Hlt. destruct wf_parts as (W1 & W2 & W3). rewrite bytes_parts.
  pose proof (rsize_bounds _ W2) as (B1 & B2 & B3).
  destruct (info_size_bounds sz) as [Ha Ha8]; [lia|].
  destruct (retag_bytes pre (enc_rec (RData kv pad)) (encs post ++ encs tl) sz)
    as (b & pad' & g & Hb & Hw & Hg & Hr & -> & _); [done|unfold rsize in Hlt; lia|].
  fold (rsize (RData kv pad)) in Hg.
  assert (Hg8 : (8 | zlen g)) by (rewrite Hg; by apply Z.divide_sub_r).
  assert (8 <= zlen g) by (apply Z.divide_pos_le; [lia|done]).
  pose proof (rsize_gap_of g ltac:(done)) as Hj.
  eexists _, _, b, pad', (drop 8 g). split; [done|].
  split; [|split; [apply record_init_gap_at|split_and!]].
  - intros r' post' ->. apply Forall_cons in W3 as [Wr _]. rewrite encs_cons, <- app_assoc, (app_assoc _ g).
    assert (o + old = zlen (encs (pre ++ [RData b pad']) ++ g)) as ->.
    { rewrite encs_app, encs_one, !zlen_app. unfold rsize in *. lia. }
    split; [by apply record_is_gap_at|by apply record_get_size_at].
  - rewrite encs_app, encs_one, zlen_app. unfold rsize in Hr. lia.
  - lia.
  - lia.
  - done.
  - done.
  - lia.
  - eapply Image_update; [done| | |].
    + rewrite !encs_app, encs_one, !encs_cons. by rewrite <- !app_assoc.
    + apply Forall_app. split; [done|]. constructor; [done|]. constructor; [|done].
      apply wf_gap_of; [done|lia].
    + rewrite !encs_app, !encs_cons, !zlen_app. unfold rsize in *. lia.
Qed.

(** Growing into a following gap that is bigger than needed. *)
Lemma resize_grow_part j post' :
  post = RGap j :: post' -> old < info_size sz < old + rsize (RGap j) ->
  exists m m' b pad' j', record_init_gap (filebase s) (o + info_size sz)
      (rsize (RGap j) - (info_size sz - old)) = Done m /\
    wr16 m o sz = Done m' /\ zlen b = sz /\ rsize (RData b pad') = info_size sz /\
    rsize (RGap j') = old + rsize (RGap j) - info_size sz /\
    Image (set_filebase s m') (pre ++ RData b pad' :: RGap j' :: post') tl.
Proof.
  intros Hp Hlt. destruct wf_parts as (W1 & W2 & W3). rewrite bytes_parts.
  pose proof (rsize_bounds _ W2) as (B1 & B2 & B3). rewrite Hp in W3 |- *.
  apply Forall_cons in W3 as [Wj W3]. pose proof (rsize_bounds _ Wj) as (J1 & J2 & J3).
  destruct (info_size_bounds sz) as [Ha Ha8]; [lia|].
  pose proof (Image_room _ _ _ Himg) as [Hroom _]. pose proof (img_max _ _ _ Himg) as Hmx.
  pose proof (img_space _ _ _ Himg) as Hspc. rewrite Hp, encs_app, !encs_cons, !zlen_app in Hspc.
  set (R := enc_rec (RData kv pad) ++ enc_rec (RGap j)).
  assert (HR : zlen R = old + rsize (RGap j)) by (unfold R; by rewrite zlen_app).
  set (n := Z.to_nat (info_size sz)).
  assert (Hn : zlen (take n R) = info_size sz) by (unfold n, zlen in *; rewrite length_take; lia).
  assert (Hg : zlen (drop n R) = zlen R - info_size sz)
    by (unfold n, zlen in *; rewrite length_drop; lia).
  assert (Hg8 : (8 | zlen (drop n R))).
  { rewrite Hg, HR. apply Z.divide_sub_r; [by apply Z.divide_add_r|done]. }
  assert (8 <= zlen (drop n R)) by (apply Z.divide_pos_le; [lia|done]).
  pose proof (rsize_gap_of (drop n R) ltac:(done)) as Hj.
  destruct (retag_bytes pre (take n R)
    (enc_rec (RGap (drop 8 (drop n R))) ++ encs post' ++ encs tl) sz)
    as (b & pad' & g & Hb & Hw & Hg' & Hr & Ew & _); [done|lia|].
  assert (g = []) as -> by (apply zlen_zero; lia).
  pose proof (zlen_nonneg (encs pre)). pose proof (zlen_nonneg (encs post')).
  fold (rsize (RData kv pad)) (rsize (RGap j)) in Hspc.
  eexists _, _, b, pad', (drop 8 (drop n R)). split; [|split; [exact Ew|split_and!; [done|done|lia|]]].
  - rewrite encs_cons. replace (encs pre ++ enc_rec (RData kv pad) ++
      (enc_rec (RGap j) ++ encs post') ++ encs tl)
      with ((encs pre ++ take n R) ++ drop n R ++ encs post' ++ encs tl).
    2:{ rewrite <- app_assoc, (app_assoc (take n R)), take_drop. unfold R. by rewrite <- !app_assoc. }
    rewrite record_init_gap_at; [by rewrite <- app_assoc|rewrite zlen_app; lia|lia|lia].
  - eapply Image_update; [done| | |].
    + rewrite !encs_app, encs_one, !encs_cons. cbn [app]. by rewrite <- !app_assoc.
    + apply Forall_app. split; [done|]. constructor; [done|]. constructor; [|done].
      apply wf_gap_of; [done|lia].
    + rewrite Hp, !encs_app, !encs_cons, !zlen_app. unfold rsize in *. lia.
Qed.

(** Growing into a following gap of exactly the size needed. *)
Lemma resize_grow_exact j post' :
  post = RGap j :: post' -> info_size sz = old + rsize (RGap j) ->
  exists m b pad', wr16 (filebase s) o sz = Done m /\ zlen b = sz /\
    rsize (RData b pad') = info_size sz /\
    Image (set_filebase s m) (pre ++ RData b pad' :: post') tl.
Proof.
  intros Hp E. destruct wf_parts as (W1 & W2 & W3). rewrite bytes_parts, Hp.
  rewrite Hp in W3. apply Forall_cons in W3 as [Wj W3].
  rewrite encs_cons, <- app_assoc, (app_assoc (enc_rec (RData kv pad))).
  destruct (retag_bytes pre (enc_rec (RData kv pad) ++ enc_rec (RGap j)) (encs post' ++ encs tl) sz)
    as (b & pad' & g & Hb & Hw & Hg & Hr & -> & _);
    [done|rewrite zlen_app; unfold rsize in E; lia|].
  rewrite zlen_app in Hg. unfold rsize in E. assert (g = []) as -> by (apply zlen_zero; lia).
  eexists _, b, pad'. split; [done|]. split_and!; [done..|].
  eapply Image_update; [done| |by apply Forall_app; split; [|constructor]|].
  - rewrite !encs_app, encs_one, !encs_cons. cbn [app]. by rewrite <- !app_assoc.
  - rewrite Hp, !encs_app, !encs_cons, !zlen_app. unfold rsize in Hr. lia.
Qed.

(** Shrinking the last record: the space grows backwards, and the file may be trimmed. *)
Lemma resize_shrink_end :
  post = [] -> info_size sz < old -> roomy s ->
  exists m s2 s3 b pad' tl', wr16 (filebase s) o sz = Done m /\
    store_set_space (set_filebase s m) (o + info_size sz) = Done s2 /\
    store_file_trim s2 = Done s3 /\ zlen b = sz /\ rsize (RData b pad') = info_size sz /\
    Image s3 (pre ++ [RData b pad']) tl' /\ same_index s s3 /\ filesz s3 <= filesz s.
Proof.
  intros Hp Hlt Hroom. destruct wf_parts as (W1 & W2 & W3). rewrite bytes_parts, Hp, encs_nil.
  destruct (retag_bytes pre (enc_rec (RData kv pad)) ([] ++ encs tl) sz)
    as (b & pad' & g & Hb & Hw & Hg & Hr & -> & _); [done|unfold rsize in Hlt; lia|].
  fold (rsize (RData kv pad)) in Hg.
  set (m := encs (pre ++ [RData b pad']) ++ g ++ [] ++ encs tl).
  assert (Hm : zlen m = filesz s).
  { unfold m. rewrite (img_filesz _ _ _ Himg), bytes_parts, Hp, encs_app, encs_one, !zlen_app.
    change (encs []) with (@nil Z). unfold rsize in *. lia. }
  destruct (store_set_space_ok (set_filebase s m) (pre ++ [RData b pad']) (g ++ encs tl))
    as (m2 & tl2 & E2 & Hi2).
  { unfold Partial. cbn [set_filebase filebase filesz]. split_and!; [done|done| |apply Himg..].
    apply Forall_app. split; [done|]. by apply Forall_singleton. }
  assert (Ho : zlen (encs (pre ++ [RData b pad'])) = o + info_size sz).
  { rewrite encs_app, encs_one, zlen_app. unfold rsize in *. lia. }
  rewrite Ho in E2. cbn [set_filebase filesz index max] in E2, Hi2.
  destruct (store_file_trim_ok fallocate_succeeds ftruncate_succeeds _ _ _ Hi2 Hroom)
    as (s3 & tl3 & E3 & Hi3 & Hsame & Hle). rewrite Ho in E3.
  eexists m, _, s3, b, pad', tl3. by split_and!.
Qed.

End InPlace.

(** ** The slot of the record *)

Lemma cells_app l1 l2 : cells (l1 ++ l2) = cells l1 ++ cells l2.
Proof. apply fmap_app. Qed.

Lemma length_cells l : length (cells l) = length l.
Proof. apply length_fmap. Qed.

Lemma set_slot l1 c l2 c' :
  <[length l1 := c']> (cells l1 ++ c :: cells l2) = cells l1 ++ c' :: cells l2.
Proof. rewrite insert_app_r_alt; rewrite length_cells; [by rewrite Nat.sub_diag|done]. Qed.

Lemma index_delete_slot s l1 c l2 :
  index s = cells l1 ++ c :: cells l2 ->
  index (store_index_delete s (length l1)) = cells (l1 ++ l2).
Proof.
  intros E. unfold store_index_delete. cbn [set_index index]. rewrite E, cells_app.
  rewrite take_app_length' by (by rewrite length_cells). f_equal.
  replace (S (length l1)) with (length (cells l1) + 1)%nat by (rewrite length_cells; lia).
  by rewrite drop_app_add.
Qed.

Lemma index_insert_slot s l1 l2 o :
  index s = cells (l1 ++ l2) -> zlen (l1 ++ l2) < max s ->
  exists s', store_index_insert s (length l1) = (Z.of_nat (length l1), s') /\
    index (index_set s' (length l1) (Some o)) = cells l1 ++ Some o :: cells l2 /\
    max s' = max s /\ filebase s' = filebase s /\ filesz s' = filesz s /\ space s' = space s.
Proof.
  intros E Hm. unfold store_index_insert, store_index_ensure.
  assert (Hn : zlen (index s) = zlen (l1 ++ l2)) by (by rewrite E; unfold cells; rewrite zlen_fmap).
  rewrite Hn. destruct (Z.ltb_spec (zlen (l1 ++ l2)) (max s)); [|lia]. cbn [Z.eqb].
  eexists. split; [done|]. cbn [index_set set_index index]. split_and!; [|done..].
  rewrite E, cells_app, take_app_length', drop_app_length' by (by rewrite length_cells).
  apply set_slot.
Qed.

Lemma sorted_remove (R : relation (Z * bytes)) l1 p l2 :
  StronglySorted R (l1 ++ p :: l2) -> StronglySorted R (l1 ++ l2).
Proof.
  induction l1 as [|q l1 IH]; cbn [app]; intros [Hs Hall]%StronglySorted_inv; [done|].
  constructor; [auto|]. apply Forall_app in Hall as [? [? ?]%Forall_cons]. by apply Forall_app.
Qed.

Lemma Index_remove s l1 p l2 rs rs' s' :
  Index s (l1 ++ p :: l2) rs -> index s' = cells (l1 ++ l2) -> max s' = max s ->
  l1 ++ l2 ≡ₚ data_offs 0 rs' -> Index s' (l1 ++ l2) rs'.
Proof.
  intros (_ & _ & Hs & Hm & Hk) Hi Hmx Hp. split_and!; [done|done|by eapply sorted_remove| |].
  - rewrite zlen_app, zlen_cons in Hm. rewrite zlen_app, Hmx. lia.
  - unfold has_keys in *. apply Forall_app in Hk as [? [? ?]%Forall_cons]. by apply Forall_app.
Qed.

(** What a resize has to deliver. *)
Definition Resized s l1 l2 (sz : Z) (out : outcome (option Z * store)) : Prop :=
  exists r s' l1' l2', out = Done (r, s') /\ l1'.*2 = l1.*2 /\ l2'.*2 = l2.*2 /\ max s' = max s /\
    filesz s' <= filesz s + 65544 + getpagesize /\
    match r with
    | Some o => Placed s' o sz l1' l2'
    | None => (exists rs tl, Image s' rs tl /\ Index s' (l1' ++ l2') rs) /\
              exists n, 0 < n /\ mmap_ok n = false
    end.

Section Move.
Context (s : store) (pre post tl : list rec) (kv pad : bytes) (sz : Z) (l1 l2 : list (Z * bytes)).
Local Abbreviation o := (zlen (encs pre)).
Local Abbreviation old := (rsize (RData kv pad)).
Local Abbreviation rs := (pre ++ RData kv pad :: post).
Hypothesis Himg : Image s rs tl.
Hypothesis Hidx : Index s (l1 ++ (o, kv) :: l2) rs.
Hypothesis Hsz : 0 < sz < 2 ^ 16.
Hypothesis Hroom : roomy s.

Lemma others : l1 ++ l2 ≡ₚ data_offs 0 pre ++ data_offs (o + old) post.
Proof.
  destruct Hidx as (_ & Hp & _). rewrite data_offs_app, Z.add_0_l in Hp. cbn [data_offs] in Hp.
  rewrite <- !Permutation_middle in Hp. by apply Permutation_cons_inv in Hp.
Qed.

Lemma index_cells : index s = cells l1 ++ Some o :: cells l2.
Proof. destruct Hidx as (-> & _). apply (cells_app l1 ((o, kv) :: l2)). Qed.

Lemma placed_here s' b pad' post' tl' :
  Image s' (pre ++ RData b pad' :: post') tl' -> zlen b = sz -> same_index s s' -> filesz s' <= filesz s ->
  data_offs (o + rsize (RData b pad')) post' = data_offs (o + old) post ->
  Resized s l1 l2 sz (Done (Some o, s')).
Proof.
  intros Hi Hb [Hx Hm] Hle Hd. pose proof page_pos as [Hpp _].
  exists (Some o), s', l1, l2. split_and!; [done..|lia|].
  exists pre, b, pad', post', tl'. split_and!; [done|done|done|by rewrite Hx, index_cells|].
  rewrite Hd. apply others.
Qed.

Lemma realloc_move_ok mid post' :
  RData kv pad :: post = mid ++ post' -> mid <> [] ->
  data_offs (o + zlen (encs mid)) post' = data_offs (o + old) post ->
  Resized s l1 l2 sz (realloc_move s (length l1) o sz (zlen (encs mid))).
Proof.
  intros Hsplit Hmid Hd. unfold realloc_move.
  destruct (make_gap s pre mid post' tl) as (m & j & -> & Hi1 & Hj);
    [by rewrite <- Hsplit|done|]. ostep.
  set (s1 := set_filebase s m) in *. set (rs1 := pre ++ RGap j :: post') in *.
  assert (Hp1 : l1 ++ l2 ≡ₚ data_offs 0 rs1).
  { unfold rs1. rewrite data_offs_app, data_offs_gap, Hj, Z.add_0_l, Hd. apply others. }
  pose proof (Image_room _ _ _ Hi1) as [Hsp _]. pose proof (img_max _ _ _ Hi1).
  fold s1. rewrite (u32_small (filesz s1 - space s1)) by lia.
  destruct (Z.ltb_spec (info_size sz) (filesz s1 - space s1)) as [Hfit|_].
  - destruct (store_file_alloc_fits s1 rs1 tl sz Hi1 Hsz)
      as (s2 & b & pad' & tl' & -> & Hi2 & Hb & [Hx Hm] & Hfz); [lia|].
    ostep. eexists _, _, l1, l2. pose proof page_pos as [Hpp _].
    split_and!; [done..|cbn [filesz index_set set_index s1 set_filebase] in *; lia|].
    exists rs1, b, pad', [], tl'. split_and!; [by destruct Hi2|done|by apply Hi1| |].
    + cbn [index_set set_index index]. rewrite Hx. cbn [s1 set_filebase index].
      rewrite index_cells. apply set_slot.
    + cbn [data_offs]. by rewrite app_nil_r.
  - set (s2 := store_index_delete s1 (length l1)).
    assert (Hx2 : Index s2 (l1 ++ l2) rs1).
    { eapply Index_remove; [exact Hidx| |done|done]. eapply index_delete_slot, index_cells. }
    destruct (store_file_alloc_ok fallocate_succeeds s2 (l1 ++ l2) rs1 tl sz)
      as (r & s3 & l' & rs' & tl' & -> & Hl' & _ & Hx3 & Hm3 & Hfz & Hr);
      [by destruct Hi1|done|done|done|]. ostep.
    rewrite fmap_app in Hl'. apply fmap_app_inv in Hl' as (l1' & l2' & E1 & E2 & ->).
    assert (Hlen : length l1 = length l1') by (by rewrite <- (length_fmap snd l1), E1, length_fmap).
    destruct r as [o'|].
    2:{ destruct Hr as (Hi3 & Hmm & _). eexists _, _, l1', l2'. split; [done|]; split_and!; [by symmetry|by symmetry|by rewrite Hm3|exact Hfz| |done].
        by exists rs', tl'. }
    destruct Hr as (b & pad' & Hi3 & Hb & ->).
    destruct (index_insert_slot s3 l1' l2' (zlen (encs rs'))) as (s4 & E4 & Hx4 & Hm4 & F1 & F2 & F3).
    { apply Hx3. }
    { rewrite Hm3. destruct Hidx as (_ & _ & _ & Hmx & _). cbn [s2 s1 max set_filebase store_index_delete set_index].
      rewrite zlen_app, zlen_cons in Hmx. rewrite zlen_app. unfold zlen in *.
      rewrite <- Hlen. replace (length l2') with (length l2); [lia|].
      by rewrite <- (length_fmap snd l2), E2, length_fmap. }
    rewrite Hlen, E4. eexists _, _, l1', l2'. split_and!; try done;
      [cbn [max index_set set_index]; by rewrite Hm4|cbn [filesz index_set set_index]; by rewrite F2|].
    exists rs', b, pad', [], tl'. split_and!; [|done|done|done|cbn [data_offs]; rewrite app_nil_r; apply Hx3].
    destruct Hi3. by constructor; cbn [index_set set_index filebase filesz space]; rewrite ?F1, ?F2, ?F3.
Qed.

Lemma slot_here : index_at s (length l1) = Done o.
Proof.
  eapply index_at_lookup; [exact Hidx|]. by rewrite list_lookup_middle.
Qed.

Lemma record_here : (o, kv) ∈ data_offs 0 rs.
Proof.
  pose proof Hidx as (_ & Hp & _). rewrite <- Hp. apply elem_of_app. right. left.
Qed.

Lemma record_bounds : 0 <= o /\ o + old <= filesz s < 2 ^ 32 /\ (8 | o) /\ 8 <= old.
Proof.
  pose proof (Image_room _ _ _ Himg) as [Hr _]. pose proof (img_max _ _ _ Himg).
  pose proof (img_space _ _ _ Himg) as Hsp. rewrite encs_app, encs_cons, !zlen_app in Hsp.
  pose proof (wf_parts _ _ _ _ _ _ Himg) as (W1 & W2 & W3). pose proof (rsize_bounds _ W2).
  pose proof (zlen_nonneg (encs pre)). pose proof (zlen_nonneg (encs post)).
  split_and!; try lia; [unfold rsize; lia|by apply encs_aligned].
Qed.

(** The branch taken when the new allocation is the bigger one. *)
Lemma resize_grow_ok :
  old < info_size sz ->
  Resized s l1 l2 sz
    (after_gap ← match (if u32 (o + old) =? space s then None else Some (u32 (o + old))) with
                 | Some a => gap ← record_is_gap (filebase s) a;
                     if (gap : bool) then (n ← record_get_size (filebase s) a; Done (Some n))
                     else Done None
                 | None => Done None
                 end;
     match after_gap with
     | Some after_size =>
         if after_size =? info_size sz - old then
           m ← wr16 (filebase s) o sz; Done (Some o, set_filebase s m)
         else if info_size sz - old <? after_size then
           m ← record_init_gap (filebase s) (u32 (o + info_size sz))
                 (after_size - (info_size sz - old));
           m' ← wr16 m o sz; Done (Some o, set_filebase s m')
         else realloc_move s (length l1) o sz (u32 (old + after_size))
     | None => realloc_move s (length l1) o sz old
     end).
Proof.
  intros Hlt. destruct (after_record _ _ _ _ _ Himg) as (Hu & Hend & Hnext). rewrite Hu.
  destruct record_bounds as (B1 & B2 & B3 & B4). destruct (info_size_bounds sz) as [Ha _]; [lia|].
  assert (Hmove : Resized s l1 l2 sz (realloc_move s (length l1) o sz old)).
  { pose proof (realloc_move_ok [RData kv pad] post eq_refl) as Hmv. rewrite encs_one in Hmv.
    by apply Hmv. }
  destruct (Z.eqb_spec (o + old) (space s)) as [E|E]; [done|].
  assert (Hc : post = [] \/ exists r' post', post = r' :: post').
  { clear. destruct post; eauto. }
  destruct Hc as [Hc|(r' & post' & Hc)]; [by exfalso; apply E, Hend|].
  destruct (Hnext r' post' Hc) as [-> Hget]. ostep. destruct r' as [kv' pad'|j]; [done|].
  cbn [is_gap]. rewrite Hget. ostep.
  destruct (Z.eqb_spec (rsize (RGap j)) (info_size sz - old)) as [E1|E1];
    [|destruct (Z.ltb_spec (info_size sz - old) (rsize (RGap j))) as [E2|E2]].
  - destruct (resize_grow_exact s pre _ tl kv pad sz Himg Hsz j post' Hc)
      as (m & b & pad' & -> & Hb & Hr & Hi); [lia|]. ostep.
    eapply placed_here; [done|done|done|done|]. rewrite Hc, Hr, data_offs_gap. f_equal. lia.
  - destruct (resize_grow_part s pre _ tl kv pad sz Himg Hsz j post' Hc)
      as (m & m' & b & pad' & j' & Hg & Hw & Hb & Hr & Hj & Hi); [lia|].
    rewrite u32_small.
    2:{ pose proof (Image_room _ _ _ Himg) as [Hr' _].
        pose proof (img_space _ _ _ Himg) as Hsp. rewrite Hc, encs_app, !encs_cons, !zlen_app in Hsp.
        pose proof (zlen_nonneg (encs post')). unfold rsize in *. lia. }
    rewrite Hg. ostep. rewrite Hw. ostep.
    eapply placed_here; [done|done|done|done|]. rewrite Hc, Hr, !data_offs_gap, Hj. f_equal. lia.
  - pose proof (realloc_move_ok [RData kv pad; RGap j] post') as Hmv.
    rewrite encs_cons, encs_one, zlen_app in Hmv.
    rewrite u32_small.
    2:{ pose proof (zlen_nonneg (enc_rec (RGap j))). unfold rsize in *. lia. }
    apply Hmv; [by rewrite Hc|done|]. rewrite Hc, data_offs_gap. f_equal. unfold rsize. lia.
Qed.

Lemma store_info_realloc_ok : Resized s l1 l2 sz (store_info_realloc s (length l1) sz).
Proof.
  destruct record_bounds as (B1 & B2 & B3 & B4). destruct (info_size_bounds sz) as [Ha _]; [lia|].
  destruct (after_record _ _ _ _ _ Himg) as (Hu & Hend & _).
  unfold store_info_realloc. rewrite slot_here. ostep.
  rewrite (rd16_info _ _ _ _ _ Himg record_here). ostep.
  destruct (wf_parts _ _ _ _ _ _ Himg) as (_ & [_ Hold] & _). rewrite <- Hold.
  destruct (Z.ltb_spec o (filesz s)); [|lia]. ostep.
  unfold INFO_ALIGN. rewrite (proj2 (Z.mod_divide o 8 ltac:(lia)) B3). ostep.
  destruct (Z.eqb_spec (info_size sz) old) as [E|E].
  { destruct (resize_same s pre post tl kv pad sz Himg Hsz E) as (m & b & pad' & -> & Hb & Hr & Hi).
    ostep. eapply placed_here; [done|done|done|done|]. by rewrite Hr, E. }
  destruct (Z.ltb_spec (info_size sz) old) as [Hlt|Hge]; [|apply resize_grow_ok; lia].
  rewrite Hu. rewrite (u32_small (o + info_size sz)) by lia.
  destruct (Z.eqb_spec (o + old) (space s)) as [E1|E1].
  - apply Hend in E1.
    destruct (resize_shrink_end s pre post tl kv pad sz Himg Hsz E1 Hlt Hroom)
      as (m & s2 & s3 & b & pad' & tl' & -> & E2 & E3 & Hb & Hr & Hi & Hsame & Hle).
    ostep. rewrite E2. ostep. rewrite E3. ostep.
    assert (index_at s3 (length l1) = Done o) as ->.
    { destruct Hsame as [Hx _]. unfold index_at. rewrite Hx. apply slot_here. }
    ostep. eapply placed_here; [done|done|done|done|]. by rewrite E1.
  - destruct (resize_shrink_mid s pre post tl kv pad sz Himg Hsz Hlt)
      as (m & m' & b & pad' & j & -> & Hnext & Hg & Hb & Hr & Hj & Hi).
    ostep. cbn [set_filebase filebase] in *. assert (Hne : post <> []) by (intros E2; by apply E1, Hend).
    assert (exists r' post', post = r' :: post') as (r' & post' & Ep)
      by (revert Hne; generalize post; intros [|r' post'] ?; [done|by exists r', post']).
    destruct (Hnext r' post' Ep) as [-> G]. ostep.
    assert (exists n, (if is_gap r' then n ← record_get_size m (o + old); Done (u32 (old - info_size sz + n))
                       else Done (old - info_size sz)) = Done n) as [n ->].
    { rewrite G. by destruct (is_gap r'); eexists. }
    ostep. rewrite Hg. ostep.
    eapply placed_here; [done|done|done|done|]. rewrite Hr, data_offs_gap, Hj. f_equal. lia.
Qed.

End Move.
End Realloc.
