(* ===== verification/StoreOps.v ===== *)
(** * The key/value store: the operations refine a finite map

    A healthy store ([Rep s l]) stands for the map [contents l]. Looking up, putting, deleting
    and iterating are lookups, insertions, deletions and sorted enumeration of that map. *)
From S2P Require Import Prelude StoreDefs StoreLayout StoreRep StoreAlloc StoreHole.
From S2P Require Import StoreRealloc.

(** ** The map of a list of records *)

(** [key\0value] strings by key. *)
Definition kvmap (ks : list bytes) : gmap bytes bytes :=
  list_to_map ((fun kv => (cstr kv, kv)) <$> ks).

Lemma contents_kvmap l : contents l = kvmap l.*2.
Proof. unfold contents, kvmap. by rewrite <- list_fmap_compose. Qed.

Lemma fst_keys (ks : list bytes) : ((fun kv => (cstr kv, kv)) <$> ks).*1 = cstr <$> ks.
Proof. by rewrite <- list_fmap_compose. Qed.

Lemma kvmap_perm ks ks' : NoDup (cstr <$> ks) -> ks ≡ₚ ks' -> kvmap ks = kvmap ks'.
Proof.
  intros Hnd Hp. apply list_to_map_proper; [by rewrite fst_keys|by rewrite Hp].
Qed.

Lemma kvmap_cons kv ks : kvmap (kv :: ks) = <[cstr kv := kv]> (kvmap ks).
Proof. done. Qed.

Lemma kvmap_none k ks : k ∉ cstr <$> ks -> kvmap ks !! k = None.
Proof. intros Hk. apply not_elem_of_list_to_map. by rewrite fst_keys. Qed.

Lemma kvmap_elem kv ks : NoDup (cstr <$> ks) -> kv ∈ ks -> kvmap ks !! cstr kv = Some kv.
Proof.
  intros Hnd Hin. apply elem_of_list_to_map; [by rewrite fst_keys|].
  apply list_elem_of_fmap. by exists kv.
Qed.

Lemma kvmap_middle kv ks1 ks2 :
  NoDup (cstr <$> (ks1 ++ kv :: ks2)) ->
  kvmap (ks1 ++ kv :: ks2) = <[cstr kv := kv]> (kvmap (ks1 ++ ks2)) /\
  kvmap (ks1 ++ ks2) !! cstr kv = None.
Proof.
  intros Hnd. rewrite (kvmap_perm _ (kv :: ks1 ++ ks2)) by (done || symmetry; apply Permutation_middle).
  split; [done|]. apply kvmap_none.
  rewrite <- Permutation_middle in Hnd. rewrite fmap_cons in Hnd. by apply NoDup_cons in Hnd as [? _].
Qed.

Section Ops.
Context {BO : ByteOrder} {os : OS} {QS : Qsort}.

Implicit Types (s : store) (rs tl : list rec) (l : list (Z * bytes)).

Lemma index_nodup s l rs : Index s l rs -> NoDup (cstr <$> l.*2).
Proof. intros (_ & _ & Hs & _). rewrite <- keys_fmap. by apply rec_lt_nodup. Qed.

(** Where a key is, or where it would be inserted. *)
Lemma lower_bound_split l key i :
  StronglySorted rec_lt l -> lower_bound l key i ->
  (exists l1 o kv l2, l = l1 ++ (o, kv) :: l2 /\ i = length l1 /\ cstr kv = key) \/
  (exists l1 l2, l = l1 ++ l2 /\ i = length l1 /\ (key ∉ cstr <$> l.*2) /\
    Forall (fun p => str_lt (key_of p) key) l1 /\ Forall (fun p => str_lt key (key_of p)) l2).
Proof.
  intros Hs (Hi & Hlt & Hge).
  destruct (l !! i) as [[o kv]|] eqn:E; [destruct (decide (cstr kv = key)) as [Ek|Ek]|].
  - left. exists (take i l), o, kv, (drop (S i) l). apply lookup_lt_Some in E as Hl.
    split_and!; [by rewrite take_drop_middle|rewrite length_take; lia|done].
  - right. assert (Hgt : forall j p, l !! j = Some p -> (i <= j)%nat -> str_lt key (key_of p)).
    { intros j p Hj Hij. pose proof (Hge i _ E ltac:(lia)) as [H|H]%str_le_lteq; [|by symmetry in H].
      destruct (decide (j = i)) as [->|]; [by simplify_eq|].
      transitivity (cstr kv); [done|]. apply (sorted_lookup l i j (o, kv) p Hs E Hj). lia. }
    exists (take i l), (drop i l). split_and!; [by rewrite take_drop|rewrite length_take; lia| | |].
    + rewrite <- keys_fmap. intros (p & -> & [j Hj]%list_elem_of_lookup)%list_elem_of_fmap.
      destruct (decide (j < i)%nat) as [Hji|Hji].
      * by apply (str_lt_irrefl (key_of p)), (Hlt j).
      * apply (str_lt_irrefl (key_of p)), (Hgt j); [done|lia].
    + apply Forall_lookup. intros j p Hj. apply lookup_take_Some in Hj as [Hj Hji]. eauto.
    + apply Forall_lookup. intros j p Hj. rewrite lookup_drop in Hj. eapply Hgt; [done|lia].
  - right. apply lookup_ge_None in E. exists l, []. rewrite app_nil_r.
    assert (H : Forall (fun p => str_lt (key_of p) key) l).
    { apply Forall_lookup. intros j p Hj. apply (Hlt j); [done|]. apply lookup_lt_Some in Hj. lia. }
    split_and!; [done|lia| |done|constructor].
    rewrite <- keys_fmap. intros (p & -> & Hp)%list_elem_of_fmap. rewrite Forall_forall in H.
    by apply (str_lt_irrefl (key_of p)), H.
Qed.

Lemma locate s l rs tl key :
  Image s rs tl -> Index s l rs ->
  (exists l1 o kv l2, l = l1 ++ (o, kv) :: l2 /\ cstr kv = cstr key /\
     store_find s key = Done (length l1) /\ store_eq s (length l1) key = Done true) \/
  (exists l1 l2, l = l1 ++ l2 /\ (cstr key ∉ cstr <$> l.*2) /\
     Forall (fun p => str_lt (key_of p) (cstr key)) l1 /\
     Forall (fun p => str_lt (cstr key) (key_of p)) l2 /\
     store_find s key = Done (length l1) /\ store_eq s (length l1) key = Done false).
Proof.
  intros Himg Hidx. destruct (store_find_spec s rs tl l key Himg Hidx) as (i & Hf & Hlb).
  pose proof (store_eq_spec s rs tl l key Himg Hidx) as He. rewrite Hf.
  destruct Hidx as (_ & _ & Hs & _).
  destruct (lower_bound_split l _ i Hs Hlb) as [(l1 & o & kv & l2 & -> & -> & Hk)|(l1 & l2 & -> & -> & Hk & H1 & H2)].
  - left. exists l1, o, kv, l2. split_and!; [done|done|done|].
    rewrite He, list_lookup_middle by done. by rewrite bool_decide_true.
  - right. exists l1, l2. split_and!; [done..|].
    rewrite He. destruct ((l1 ++ l2) !! length l1) as [p|] eqn:E; [|done].
    rewrite bool_decide_false; [done|]. intros Hp. apply Hk. rewrite <- Hp, <- keys_fmap.
    apply list_elem_of_fmap_2. by eapply list_elem_of_lookup_2.
Qed.

Lemma info_at_ok s rs tl o kv :
  Image s rs tl -> (o, kv) ∈ data_offs 0 rs -> info_at (filebase s) o = Done kv.
Proof.
  intros Himg Hin. unfold info_at. rewrite (rd16_info _ _ _ _ _ Himg Hin). ostep.
  by rewrite (mread_info _ _ _ _ _ Himg Hin).
Qed.

Lemma slot_ok s l rs tl i o kv :
  Image s rs tl -> Index s l rs -> l !! i = Some (o, kv) ->
  index_at s i = Done o /\ info_at (filebase s) o = Done kv /\
  rd16 (filebase s) o = Done (zlen kv) /\
  mread (filebase s) (o + 2) (zlen kv) = Some kv.
Proof.
  intros Himg Hidx Hl. split; [by eapply index_at_lookup|].
  assert (Hin : (o, kv) ∈ data_offs 0 rs).
  { destruct Hidx as (_ & <- & _). by eapply list_elem_of_lookup_2. }
  split_and!; [by eapply info_at_ok|by eapply rd16_info|by eapply mread_info].
Qed.

(** ** Looking up *)

Lemma get_ok s l key : Rep s l -> store_get s key = Done (contents l !! cstr key).
Proof.
  intros (rs & tl & Himg & Hidx). pose proof (index_nodup _ _ _ Hidx) as Hnd.
  rewrite contents_kvmap. unfold store_get.
  destruct (locate s l rs tl key Himg Hidx)
    as [(l1 & o & kv & l2 & -> & Hk & -> & He)|(l1 & l2 & -> & Hk & _ & _ & -> & He)];
    ostep; rewrite He; ostep.
  - destruct (slot_ok s _ rs tl (length l1) o kv Himg Hidx) as (-> & Hi & _);
      [by rewrite list_lookup_middle|]. ostep. rewrite Hi. ostep. f_equal. rewrite <- Hk.
    symmetry. apply kvmap_elem; [done|]. rewrite fmap_app, fmap_cons. set_solver.
  - by rewrite kvmap_none.
Qed.

(** ** Iterating *)

Lemma next_ok s l ix :
  Rep s l -> store_get_next s ix = Done (l.*2 !! ix, if decide (ix < length l)%nat then S ix else ix).
Proof.
  intros (rs & tl & Himg & Hidx). unfold store_get_next. rewrite (Index_length _ _ _ Hidx).
  rewrite list_lookup_fmap. destruct (Nat.ltb_spec ix (length l)) as [Hlt|Hge].
  - rewrite decide_True by done. destruct (lookup_lt_is_Some_2 l ix Hlt) as [[o kv] Hl].
    destruct (slot_ok s l rs tl ix o kv Himg Hidx Hl) as (-> & Hi & _). ostep. rewrite Hi.
    ostep. by rewrite Hl.
  - rewrite decide_False by lia. by rewrite (lookup_ge_None_2 l ix Hge).
Qed.

Section Update.
Hypothesis fallocate_succeeds : forall a b, posix_fallocate a b = 0.
Hypothesis ftruncate_succeeds : forall n, ftruncate_ok n = true.

(** The file is far enough from 4 GiB for one more record and a few pages. *)
Definition spacious s : Prop := filesz s + 5 * getpagesize + 131088 <= 2 ^ 32.

Lemma spacious_roomy s : spacious s -> roomy s.
Proof. unfold spacious, roomy. pose proof page_pos. lia. Qed.

(** ** Deleting *)

Lemma free_slot s rs tl l1 o kv l2 :
  Image s rs tl -> Index s (l1 ++ (o, kv) :: l2) rs -> roomy s ->
  exists s', store_info_free s (length l1) = Done s' /\
    Rep (store_index_delete s' (length l1)) (l1 ++ l2) /\ filesz s' <= filesz s.
Proof.
  intros Himg Hidx Hroom.
  destruct (slot_ok s _ rs tl (length l1) o kv Himg Hidx) as (Ho & _);
    [by rewrite list_lookup_middle|].
  assert (Hin : (o, kv) ∈ data_offs 0 rs).
  { destruct Hidx as (_ & <- & _). set_solver. }
  destruct (Image_split _ _ _ _ _ Himg Hin) as (pre & pad & post & -> & -> & _ & _).
  pose proof (others _ _ _ _ _ _ _ Hidx) as Hoth. pose proof (index_cells _ _ _ _ _ _ _ Hidx) as Hc.
  destruct (store_file_dealloc_ok fallocate_succeeds ftruncate_succeeds _ _ _ _ _ _ Himg Hroom)
    as (s1 & rs' & tl' & E & Himg' & Hd & [Hi Hm] & Hle).
  unfold store_info_free. rewrite Ho. ostep. rewrite E. ostep. eexists. split; [done|].
  split; [|exact Hle].
  exists rs', tl'. split; [by destruct Himg'|].
  eapply Index_remove; [exact Hidx| |exact Hm|by rewrite Hd].
  apply (index_delete_slot _ l1 None). cbn [index_set set_index index]. rewrite Hi, Hc.
  apply set_slot.
Qed.

Lemma del_ok s l key :
  Rep s l -> roomy s ->
  exists s' l', store_del s (Some key) =
      Done (if decide (is_Some (contents l !! cstr key)) then 1 else 0, s') /\ Rep s' l' /\
    contents l' = delete (cstr key) (contents l) /\
    (contents l !! cstr key = None -> s' = s) /\ filesz s' <= filesz s.
Proof.
  intros Hrep Hroom. destruct (Hrep) as (rs & tl & Himg & Hidx).
  pose proof (index_nodup _ _ _ Hidx) as Hnd. unfold store_del.
  destruct (locate s l rs tl key Himg Hidx)
    as [(l1 & o & kv & l2 & -> & Hk & -> & He)|(l1 & l2 & -> & Hk & _ & _ & -> & He)];
    ostep; rewrite He; ostep; rewrite !contents_kvmap.
  - destruct (free_slot s rs tl l1 o kv l2 Himg Hidx Hroom) as (s1 & -> & Hrep' & Hle). ostep.
    rewrite fmap_app, fmap_cons in *. destruct (kvmap_middle _ _ _ Hnd) as [E Hn].
    rewrite E, <- Hk, lookup_insert_eq. rewrite decide_True by done.
    eexists _, (l1 ++ l2). split_and!; [done|done| |done|done].
    rewrite contents_kvmap, fmap_app. by rewrite delete_insert_id.
  - rewrite (kvmap_none _ _ Hk). rewrite decide_False by (by intros [? ?]).
    exists s, (l1 ++ l2). split_and!; [done|done| |done|done].
    rewrite contents_kvmap. by rewrite delete_id by (by apply kvmap_none).
Qed.

(** ** Putting *)

Lemma sorted_replace l1 o kv l2 l1' o' kv' l2' :
  StronglySorted rec_lt (l1 ++ (o, kv) :: l2) -> cstr kv' = cstr kv ->
  l1'.*2 = l1.*2 -> l2'.*2 = l2.*2 -> StronglySorted rec_lt (l1' ++ (o', kv') :: l2').
Proof.
  assert (H : forall k : list (Z * bytes),
    StronglySorted rec_lt k <-> StronglySorted str_lt (cstr <$> k.*2)).
  { intros k. rewrite <- keys_fmap. split; [|apply (StronglySorted_fmap_inv key_of str_lt)].
    induction 1 as [|p k Hk IH Hall]; cbn; constructor; [done|]. by rewrite Forall_fmap. }
  intros Hs Hk E1 E2. apply H. apply H in Hs. rewrite !fmap_app, !fmap_cons in *. cbn in *.
  by rewrite E1, E2, Hk.
Qed.

(** A placed record, once filled in, is part of a healthy store. *)
Lemma fill_placed s l1 o kv l2 :
  Placed s o (zlen kv) l1 l2 -> StronglySorted rec_lt (l1 ++ (o, kv) :: l2) ->
  zlen (l1 ++ (o, kv) :: l2) <= max s -> has_keys (l1 ++ l2) -> 0 ∈ kv ->
  exists s', info_fill s o (zlen kv) kv = Done s' /\ Rep s' (l1 ++ (o, kv) :: l2) /\
    filesz s' = filesz s.
Proof.
  intros (pre & b & pad & post & tl & Himg & Hb & -> & Hi & Hp) Hs Hm Hk Hkv.
  destruct (info_fill_ok s pre b pad post tl kv Himg Hb) as (s' & E & Himg' & [Hi' Hm'] & Hf).
  exists s'. split; [done|]. split; [|done]. exists (pre ++ RData kv pad :: post), tl. split; [done|].
  split_and!; [|  |done|by rewrite Hm'|].
  - rewrite Hi', Hi. symmetry. apply (cells_app l1 ((zlen (encs pre), kv) :: l2)).
  - rewrite data_offs_app, Z.add_0_l. cbn [data_offs]. rewrite <- !Permutation_middle.
    rewrite rsize_data in *. rewrite Hb in Hp. by rewrite Hp.
  - unfold has_keys in *. apply Forall_app in Hk as [? ?]. apply Forall_app. split; [done|].
    by constructor.
Qed.

(** Putting over an existing record. *)
Lemma put_over s rs tl l1 o old kv l2 :
  Image s rs tl -> Index s (l1 ++ (o, old) :: l2) rs -> roomy s -> wf_kv kv ->
  cstr kv = cstr old ->
  exists r s' l', ('(info, s1) ← store_info_realloc s (length l1) (zlen kv);
      match info with
      | None => Done (-1, s1)
      | Some o' => s2 ← info_fill s1 o' (zlen kv) kv; Done (1, s2)
      end) = Done (r, s') /\ Rep s' l' /\ filesz s' <= filesz s + 65544 + getpagesize /\
    (r = 1 /\ l'.*2 = l1.*2 ++ kv :: l2.*2 \/
     r = -1 /\ l'.*2 = l1.*2 ++ l2.*2 /\ exists n, 0 < n /\ mmap_ok n = false).
Proof.
  intros Himg Hidx Hroom Hwf Hk. pose proof (wf_kv_pos kv Hwf) as Hpos. destruct Hwf as [_ Hnul].
  destruct (Hidx) as (_ & Hperm & Hs & Hm & Hhas).
  assert (Hin : (o, old) ∈ data_offs 0 rs) by (rewrite <- Hperm; set_solver).
  destruct (Image_split _ _ _ _ _ Himg Hin) as (pre & pad & post & -> & -> & _ & _).
  destruct (store_info_realloc_ok fallocate_succeeds ftruncate_succeeds s pre post tl old pad
    (zlen kv) l1 l2 Himg Hidx Hpos Hroom) as (r & s1 & l1' & l2' & -> & E1 & E2 & Hmx & Hfz & Hr).
  ostep. destruct r as [o'|].
  2:{ destruct Hr as ((rs' & tl' & Hi & Hx) & Hmm). eexists _, _, (l1' ++ l2').
      split_and!; [done|by exists rs', tl'|done|]. right. rewrite fmap_app, E1, E2. done. }
  destruct (fill_placed s1 l1' o' kv l2') as (s2 & -> & Hrep & Hf2); [done| | | |done|].
  - by eapply sorted_replace.
  - rewrite Hmx. rewrite zlen_app, zlen_cons in Hm |- *.
    rewrite <- (zlen_fmap snd l1'), <- (zlen_fmap snd l2'), E1, E2, !zlen_fmap. lia.
  - unfold has_keys in Hhas. apply (has_keys_snd (l1 ++ l2)); [by rewrite !fmap_app, E1, E2|].
    apply Forall_app in Hhas as [? [? ?]%Forall_cons]. by apply Forall_app.
  - ostep. eexists _, _, _. split_and!; [done|exact Hrep|by rewrite Hf2|]. left.
    by rewrite fmap_app, fmap_cons, E1, E2.
Qed.

(** Room for one more slot: the array is extended by blocks of [STORE_INCREMENT]. *)
Lemma index_insert_grow s l1 l2 o :
  index s = cells (l1 ++ l2) -> zlen (l1 ++ l2) <= max s -> zlen (l1 ++ l2) + 65 <= 2 ^ 32 ->
  (store_index_insert s (length l1) = (-1, s) /\ exists n, realloc_ok n = false) \/
  exists s', store_index_insert s (length l1) = (Z.of_nat (length l1), s') /\
    index (index_set s' (length l1) (Some o)) = cells l1 ++ Some o :: cells l2 /\
    zlen (l1 ++ l2) < max s' /\ filebase s' = filebase s /\ filesz s' = filesz s /\
    space s' = space s.
Proof.
  intros E Hm Hmax. destruct (Z.ltb_spec (zlen (l1 ++ l2)) (max s)) as [Hlt|Hge].
  { right. destruct (index_insert_slot s l1 l2 o E Hlt) as (s' & ? & ? & Hmx & ?).
    exists s'. by rewrite Hmx. }
  assert (Hn : zlen (index s) = zlen (l1 ++ l2)) by (by rewrite E; unfold cells; rewrite zlen_fmap).
  pose proof (zlen_nonneg (l1 ++ l2)) as H0.
  unfold store_index_insert, store_index_ensure. rewrite Hn.
  destruct (Z.ltb_spec (zlen (l1 ++ l2)) (max s)) as [|_]; [lia|].
  destruct (realloc_ok _) eqn:Er; [right|left; eauto].
  destruct (roundup_spec (zlen (l1 ++ l2) + 1) 6) as (Hr & _); [lia..|].
  unfold STORE_INCREMENT. change (2 ^ 6) with 64 in Hr. cbn [Z.eqb].
  eexists. split; [done|]. cbn [index_set set_index set_max index max]. split_and!; [|lia|done..].
  rewrite E, cells_app, take_app_length', drop_app_length' by (by rewrite length_cells).
  apply set_slot.
Qed.

Lemma sorted_insert l1 o kv l2 :
  StronglySorted rec_lt (l1 ++ l2) -> Forall (fun p => str_lt (key_of p) (cstr kv)) l1 ->
  Forall (fun p => str_lt (cstr kv) (key_of p)) l2 ->
  StronglySorted rec_lt (l1 ++ (o, kv) :: l2).
Proof.
  intros Hs H1 H2. induction l1 as [|p l1 IH]; cbn [app] in *; [by constructor|].
  apply StronglySorted_inv in Hs as [Hs Hall]. apply Forall_cons in H1 as [Hp H1].
  constructor; [auto|]. apply Forall_app in Hall as [? ?]. apply Forall_app. split; [done|].
  by constructor.
Qed.

Lemma Forall_keys (P : bytes -> Prop) (k k' : list (Z * bytes)) :
  k.*2 = k'.*2 -> Forall (fun p => P (key_of p)) k -> Forall (fun p => P (key_of p)) k'.
Proof.
  intros E H. pose proof (Forall_fmap (A:=Z * bytes) snd (fun kv => P (cstr kv))) as Hf.
  apply (proj1 (Hf k')). rewrite <- E. by apply Hf.
Qed.

Lemma data_offs_small o rs : Forall wf_rec rs -> 8 * zlen (data_offs o rs) <= zlen (encs rs).
Proof.
  revert o. induction rs as [|r rs IH]; intros o Hwf; [done|].
  apply Forall_cons in Hwf as [Hw Hwf]. rewrite encs_cons, zlen_app.
  pose proof (rsize_bounds r Hw) as [Hb _]. fold (rsize r).
  destruct r as [kv pad|j]; cbn [data_offs].
  - rewrite zlen_cons. specialize (IH (o + rsize (RData kv pad)) Hwf). lia.
  - specialize (IH (o + rsize (RGap j)) Hwf). lia.
Qed.

Lemma Index_small s s' l rs post tl :
  Image s (rs ++ post) tl -> Index s' l rs -> 8 * zlen l <= filesz s.
Proof.
  intros Himg (_ & Hp & _). pose proof (Image_room _ _ _ Himg) as [[_ Hr] _].
  rewrite (img_space _ _ _ Himg), encs_app, zlen_app in Hr.
  pose proof (img_wf _ _ _ Himg) as [Hwf _]%Forall_app.
  assert (zlen l = zlen (data_offs 0 rs)) as -> by (unfold zlen; by rewrite Hp).
  pose proof (data_offs_small 0 rs Hwf). pose proof (zlen_nonneg (encs post)). lia.
Qed.

(** Putting a new record. *)
Lemma put_new s rs tl l1 l2 kv :
  Image s rs tl -> Index s (l1 ++ l2) rs -> spacious s -> wf_kv kv ->
  Forall (fun p => str_lt (key_of p) (cstr kv)) l1 ->
  Forall (fun p => str_lt (cstr kv) (key_of p)) l2 ->
  exists r s' l', ('(info, s1) ← store_file_alloc s (zlen kv);
      match info with
      | None => Done (-1, s1)
      | Some o' =>
          let '(r, s2) := store_index_insert s1 (length l1) in
          if r =? -1 then (s3 ← store_file_dealloc s2 o'; Done (-1, s3))
          else (s3 ← info_fill (index_set s2 (length l1) (Some o')) o' (zlen kv) kv; Done (1, s3))
      end) = Done (r, s') /\ Rep s' l' /\ filesz s' <= filesz s + 65544 + getpagesize /\
    (r = 1 /\ l'.*2 = l1.*2 ++ kv :: l2.*2 \/
     r = -1 /\ l'.*2 = l1.*2 ++ l2.*2 /\ exists n, 0 < n /\ mmap_ok n = false \/ realloc_ok n = false).
Proof.
  intros Himg Hidx Hspc Hwf H1 H2. pose proof (wf_kv_pos kv Hwf) as Hpos.
  destruct (store_file_alloc_ok fallocate_succeeds s _ rs tl (zlen kv) Himg Hidx Hpos
    (spacious_roomy s Hspc)) as (r & s1 & l' & rs' & tl' & -> & Hl' & _ & Hx & Hm & Hf & Hr). ostep.
  rewrite fmap_app in Hl'. apply fmap_app_inv in Hl' as (l1' & l2' & E1 & E2 & ->).
  assert (Hlen : length l1 = length l1') by (by rewrite <- (length_fmap snd l1), E1, length_fmap).
  destruct r as [o'|].
  2:{ destruct Hr as (Hi & [n Hmm] & _). eexists _, _, (l1' ++ l2').
      split_and!; [done|by exists rs', tl'|done|]. right. rewrite fmap_app. split_and!; [done|by f_equal|eauto]. }
  destruct Hr as (b & pad & Hi & Hb & ->). destruct (Hx) as (Hi1 & Hp & Hs & Hmx & Hk). rewrite Hlen.
  destruct (index_insert_grow s1 l1' l2' (zlen (encs rs')) Hi1 Hmx) as [[-> Hre]|(s2 & -> & Hi2 & Hm2 & F1 & F2 & F3)].
  - pose proof (Index_small _ _ _ _ _ _ Hi Hx). pose proof (img_max _ _ _ Hi). lia.
  - cbn [Z.eqb].
    destruct (store_file_dealloc_ok fallocate_succeeds ftruncate_succeeds s1 rs' b pad [] tl' Hi)
      as (s3 & rs3 & tl3 & -> & Hi3 & Hd & [Hix Hmx3] & Hle).
    { unfold roomy, spacious in *. lia. }
    ostep. eexists _, _, (l1' ++ l2'). split_and!; [done| |lia|].
    + exists rs3, tl3. split; [done|]. cbn [data_offs] in Hd. rewrite app_nil_r in Hd.
      unfold Index. by rewrite Hix, Hmx3, Hd.
    + right. destruct Hre as [n ?]. rewrite fmap_app. split_and!; [done|by f_equal|eauto].
  - destruct (Z.eqb_spec (Z.of_nat (length l1')) (-1)); [lia|].
    destruct (fill_placed (index_set s2 (length l1') (Some (zlen (encs rs')))) l1'
      (zlen (encs rs')) kv l2') as (s3 & -> & Hrep & Hf3).
    + exists rs', b, pad, [], tl'. split_and!; [|done|done|done|cbn [data_offs]; by rewrite app_nil_r].
      destruct Hi. by constructor; cbn [index_set set_index filebase filesz space]; rewrite ?F1, ?F2, ?F3.
    + apply sorted_insert; [done|by apply (Forall_keys (fun k => str_lt k (cstr kv)) l1)|
        by apply (Forall_keys (fun k => str_lt (cstr kv) k) l2)].
    + cbn [index_set set_index max]. rewrite zlen_app, zlen_cons in *. lia.
    + done.
    + apply Hwf.
    + ostep. eexists _, _, _. split_and!; [done|exact Hrep|cbn [index_set set_index filesz] in Hf3; lia|]. left.
      by rewrite fmap_app, fmap_cons, E1, E2.
Qed.

(** The three outcomes of [store_put]. *)
Lemma put_ok s l kv :
  Rep s l -> spacious s -> wf_kv kv ->
  exists r s' l', store_put s (zlen kv) kv = Done (r, s') /\ Rep s' l' /\ filesz s' <= filesz s + 65544 + getpagesize /\
    (r = 0 /\ s' = s /\ l' = l /\ contents l !! cstr kv = Some kv \/
     r = 1 /\ contents l !! cstr kv <> Some kv /\ contents l' = <[cstr kv := kv]> (contents l) \/
     r = -1 /\ (exists n, 0 < n /\ mmap_ok n = false \/ realloc_ok n = false) /\
       contents l' = delete (cstr kv) (contents l)).
Proof.
  intros Hrep Hspc Hwf. destruct (Hrep) as (rs & tl & Himg & Hidx).
  pose proof (index_nodup _ _ _ Hidx) as Hnd. unfold store_put.
  destruct (locate s l rs tl kv Himg Hidx)
    as [(l1 & o & old & l2 & -> & Hk & -> & He)|(l1 & l2 & -> & Hk & H1 & H2 & -> & He)];
    ostep; rewrite He; ostep.
  - destruct (slot_ok s _ rs tl (length l1) o old Himg Hidx) as (-> & _ & Hsz & Hrd);
      [by rewrite list_lookup_middle|]. ostep. rewrite Hsz. ostep.
    rewrite !contents_kvmap. rewrite fmap_app, fmap_cons in *. cbn [snd] in *.
    destruct (kvmap_middle _ _ _ Hnd) as [Ec Hn]. rewrite <- Hk, Ec, lookup_insert_eq.
    assert (Hsame : exists b, (if zlen old =? zlen kv
      then of_option OutOfBounds (mread (filebase s) (o + 2) (zlen kv)) else Done []) = Done b /\
      ((zlen old =? zlen kv) && bool_decide (b = take (Z.to_nat (zlen kv)) kv)) =
        bool_decide (old = kv)).
    { replace (take (Z.to_nat (zlen kv)) kv) with kv
        by (symmetry; apply take_ge; unfold zlen; lia).
      destruct (Z.eqb_spec (zlen old) (zlen kv)) as [E|E].
      - rewrite <- E, Hrd. by exists old.
      - exists []. split; [done|]. symmetry. apply bool_decide_eq_false. by intros ->. }
    destruct Hsame as (b & -> & Hsame). ostep. rewrite Hsame. clear Hsame b. case_bool_decide as Eold.
    { subst old. exists 0, s, (l1 ++ (o, kv) :: l2). pose proof page_pos as [Hpp _].
      split_and!; [done|done|lia|]. by left. }
    destruct (put_over s rs tl l1 o old kv l2 Himg Hidx (spacious_roomy s Hspc) Hwf)
      as (r & s' & l' & E & Hrep' & Hfz & Hcase); [done|]. exists r, s', l'. split; [exact E|]. split; [done|]. split; [done|].
    right. rewrite contents_kvmap. destruct Hcase as [[-> ->]|(-> & -> & [n Hm])]; [left|right].
    + split_and!; [done|congruence|]. rewrite insert_insert_eq, Hk.
      apply kvmap_middle. rewrite fmap_app, fmap_cons in *. by rewrite <- Hk.
    + split_and!; [done|eauto|]. by rewrite delete_insert_id.
  - rewrite (contents_kvmap (l1 ++ l2)). rewrite (kvmap_none _ _ Hk).
    destruct (put_new s rs tl l1 l2 kv Himg Hidx Hspc Hwf H1 H2) as (r & s' & l' & E & Hrep' & Hfz & Hcase).
    exists r, s', l'. split; [exact E|]. split; [done|]. split; [done|]. right. rewrite contents_kvmap.
    rewrite fmap_app in *. destruct Hcase as [[-> ->]|(-> & -> & Hm)]; [left|right].
    + split_and!; [done|done|]. apply kvmap_middle. rewrite fmap_app, fmap_cons in *.
      rewrite <- Permutation_middle. by constructor.
    + split_and!; [done|done|]. by rewrite delete_id by (by apply kvmap_none).
Qed.

End Update.
End Ops.
