(* ===== verification/StoreOpen.v ===== *)
(** * The key/value store: opening a backing file

    Opening scans the file, repacks it, sorts an index and drops all but one of the records
    of each key. *)
From S2P Require Import Prelude StoreDefs StoreLayout StoreRep StoreAlloc StoreHole.
From S2P Require Import StoreRealloc StoreOps.

Section Open.
Context {BO : ByteOrder} {os : OS} {QS : Qsort}.

Implicit Types (s : store) (rs pre post tl : list rec) (l : list (Z * bytes)).

(** ** Scanning *)

Lemma scan_loop_ok rs : forall fuel a n,
  Forall wf_rec rs -> zlen (a ++ encs rs) < 2 ^ 32 -> (length rs <= fuel)%nat ->
  scan_loop fuel (a ++ encs rs) (zlen (a ++ encs rs)) (zlen a) n =
    Done (zlen (a ++ encs rs), n + zlen (data_offs 0 rs)).
Proof.
  induction rs as [|r rs IH]; intros fuel a n Hwf Hmax Hfuel.
  - rewrite encs_nil, app_nil_r in *. destruct fuel; cbn [scan_loop]; rewrite Z.ltb_irrefl;
      cbn [data_offs]; by rewrite zlen_nil, Z.add_0_r.
  - apply Forall_cons in Hwf as [Hr Hwf]. pose proof (rsize_bounds r Hr) as (B1 & _).
    rewrite encs_cons in *. set (fsz := zlen (a ++ enc_rec r ++ encs rs)) in *.
    assert (Hf : fsz = zlen a + rsize r + zlen (encs rs)) by (unfold fsz; rewrite !zlen_app; unfold rsize; lia).
    pose proof (zlen_nonneg a). pose proof (zlen_nonneg (encs rs)).
    destruct fuel as [|fuel]; [cbn in Hfuel; lia|]. cbn [scan_loop].
    destruct (Z.ltb_spec (zlen a) fsz); [|lia]. rewrite record_get_size_at by done. ostep.
    rewrite u32_small by lia. destruct (Z.ltb_spec (fsz - rsize r) (zlen a)); [lia|].
    rewrite record_is_gap_at by done. ostep. rewrite u32_small by lia.
    replace (zlen a + rsize r) with (zlen (a ++ enc_rec r)) by (rewrite zlen_app; done).
    assert (Hm : a ++ enc_rec r ++ encs rs = (a ++ enc_rec r) ++ encs rs) by apply app_assoc.
    unfold fsz in *. rewrite Hm in *. rewrite IH; [|done|done|cbn in Hfuel; lia]. do 2 f_equal.
    assert (Hd : forall o, zlen (data_offs o rs) = zlen (data_offs 0 rs)).
    { intros o. rewrite <- (zlen_fmap snd (data_offs o rs)), <- (zlen_fmap snd (data_offs 0 rs)).
      by rewrite <- (data_offs_datas 0 o rs), (data_offs_datas 0 0 rs). }
    destruct r as [kv pad|j]; cbn [is_gap data_offs]; rewrite ?zlen_cons, (Hd (0 + _)); lia.
Qed.

(** Zero bytes are empty gaps. *)
Lemma zeros_are_gaps k : replicate (8 * k) 0 = encs (replicate k (RGap [])).
Proof.
  induction k as [|k IH]; [done|]. replace (8 * S k)%nat with (8 + 8 * k)%nat by lia.
  rewrite replicate_add, IH. cbn [replicate]. rewrite encs_cons. f_equal.
  cbn [enc_rec]. unfold gap_header. change (zlen (@nil Z)) with 0. by rewrite enc16_zero, enc32_zero.
Qed.

Lemma datas_gaps k : datas (replicate k (RGap [])) = [].
Proof. induction k as [|k IH]; [done|]. cbn [replicate]. by rewrite datas_cons_gap. Qed.

(** ** Removing a record *)

Lemma make_gap_loop_ok gs : forall fuel a c,
  Forall wf_rec gs -> Forall (fun r => is_gap r = true) gs -> zlen (a ++ encs gs ++ c) < 2 ^ 32 ->
  (length gs < fuel)%nat -> (c = [] \/ exists kv pad c', c = enc_rec (RData kv pad) ++ c' /\ wf_rec (RData kv pad)) ->
  make_gap_loop fuel (a ++ encs gs ++ c) (zlen (a ++ encs gs ++ c)) (zlen a) =
    Done (zlen a + zlen (encs gs)).
Proof.
  induction gs as [|r gs IH]; intros fuel a c Hwf Hg Hmax Hfuel Hc;
    (destruct fuel as [|fuel]; [cbn in Hfuel; lia|]); cbn [make_gap_loop].
  - rewrite encs_nil, zlen_nil, Z.add_0_r in *. cbn [app] in *.
    destruct (Z.ltb_spec (zlen a) (zlen (a ++ c))) as [Hlt|Hge]; [|done].
    destruct Hc as [->|(kv & pad & c' & -> & Hr)]; [rewrite app_nil_r in Hlt; lia|].
    rewrite record_get_size_at by done. ostep. by rewrite record_is_gap_at by done.
  - apply Forall_cons in Hwf as [Hr Hwf]. apply Forall_cons in Hg as [Hgr Hg].
    pose proof (rsize_bounds r Hr) as (B1 & _). rewrite encs_cons in *. rewrite <- app_assoc in *.
    set (fsz := zlen (a ++ enc_rec r ++ encs gs ++ c)) in *.
    assert (Hf : fsz = zlen a + rsize r + zlen (encs gs) + zlen c)
      by (unfold fsz; rewrite !zlen_app; unfold rsize; lia).
    pose proof (zlen_nonneg a). pose proof (zlen_nonneg (encs gs)). pose proof (zlen_nonneg c).
    destruct (Z.ltb_spec (zlen a) fsz); [|lia]. rewrite record_get_size_at by done. ostep.
    rewrite record_is_gap_at, Hgr by done. ostep.
    rewrite u32_small by lia. destruct (Z.ltb_spec (fsz - rsize r) (zlen a)); [lia|].
    rewrite u32_small by lia.
    replace (zlen a + rsize r) with (zlen (a ++ enc_rec r)) by (rewrite zlen_app; done).
    assert (Hm : a ++ enc_rec r ++ encs gs ++ c = (a ++ enc_rec r) ++ encs gs ++ c) by apply app_assoc.
    unfold fsz in *. rewrite Hm in *. rewrite IH; [|done|done|done|cbn in Hfuel; lia|done].
    rewrite !zlen_app. f_equal. lia.
Qed.

(** The gaps a record is followed by. *)
Lemma leading_gaps post :
  exists gs rest, post = gs ++ rest /\ Forall (fun r => is_gap r = true) gs /\
    (rest = [] \/ exists kv pad rest', rest = RData kv pad :: rest') /\
    forall o, data_offs o post = data_offs (o + zlen (encs gs)) rest.
Proof.
  induction post as [|r post IH].
  - exists [], []. split_and!; [done|constructor|by left|]. intros o. by rewrite encs_nil, zlen_nil, Z.add_0_r.
  - destruct r as [kv pad|j].
    + exists [], (RData kv pad :: post). split_and!; [done|constructor|by eauto|].
      intros o. by rewrite encs_nil, zlen_nil, Z.add_0_r.
    + destruct IH as (gs & rest & -> & Hg & Hc & Hd). exists (RGap j :: gs), rest.
      split_and!; [done|by constructor|done|]. intros o. rewrite data_offs_gap, Hd, encs_cons, zlen_app.
      f_equal. unfold rsize. lia.
Qed.

(** The scan over the gaps after a record stops at the data record that follows them. *)
Lemma make_gap_scan_data s pre r gs kv pad rest tl :
  Image s (pre ++ r :: gs ++ RData kv pad :: rest) tl -> Forall (fun r => is_gap r = true) gs ->
  make_gap_loop (S (Z.to_nat (filesz s / INFO_ALIGN))) (filebase s) (filesz s) (zlen (encs pre) + rsize r) =
    Done (zlen (encs pre) + rsize r + zlen (encs gs)) /\
  zlen (encs pre) + rsize r + zlen (encs gs) < filesz s.
Proof.
  intros [Hb Hsp Hfz Hwf Hwtl Htl Hpg Hmx] Hg.
  apply Forall_app in Hwf as [_ [W [Wg [Wk _]%Forall_cons]%Forall_app]%Forall_cons].
  pose proof (length_encs gs Wg). pose proof (rsize_bounds _ W). pose proof (rsize_bounds _ Wk).
  rewrite encs_app, encs_cons, encs_app, encs_cons in Hb. rewrite <- !app_assoc in Hb.
  assert (Ho : zlen (encs pre) + rsize r = zlen (encs pre ++ enc_rec r)) by (by rewrite zlen_app).
  assert (Hlt : zlen (encs pre) + rsize r + zlen (encs gs) + rsize (RData kv pad) <= filesz s).
  { rewrite Hfz, Hb, !zlen_app. unfold rsize. zlen_pos. lia. }
  pose proof (zlen_nonneg (encs pre)). split; [|lia].
  pose proof (make_gap_loop_ok gs (S (Z.to_nat (filesz s / INFO_ALIGN))) (encs pre ++ enc_rec r)
    (enc_rec (RData kv pad) ++ encs rest ++ encs tl)) as Hl.
  rewrite <- !app_assoc, <- Hb, <- Hfz, <- Ho in Hl. apply Hl; [done|done|lia| |].
  - unfold INFO_ALIGN, zlen in *. divlia.
  - right. by exists kv, pad, (encs rest ++ encs tl).
Qed.

(** When only gaps follow the record the scan reaches the end of the file, the tail of the
    file being a gap too. *)
Lemma make_gap_scan_end s pre r gs tl :
  Image s (pre ++ r :: gs) tl -> Forall (fun r => is_gap r = true) gs ->
  make_gap_loop (S (Z.to_nat (filesz s / INFO_ALIGN))) (filebase s) (filesz s) (zlen (encs pre) + rsize r) =
    Done (filesz s).
Proof.
  intros [Hb Hsp Hfz Hwf Hwtl Htl Hpg Hmx] Hg. apply Forall_app in Hwf as [_ [W Wg]%Forall_cons].
  pose proof (length_encs gs Wg). pose proof (length_encs tl Hwtl). pose proof (rsize_bounds _ W).
  rewrite encs_app, encs_cons in Hb. rewrite <- !app_assoc in Hb.
  assert (Ho : zlen (encs pre) + rsize r = zlen (encs pre ++ enc_rec r)) by (by rewrite zlen_app).
  assert (Hfs : filesz s = zlen (encs pre) + rsize r + zlen (encs gs) + zlen (encs tl))
    by (rewrite Hfz, Hb, !zlen_app; unfold rsize; lia).
  pose proof (zlen_nonneg (encs pre)).
  pose proof (make_gap_loop_ok (gs ++ tl) (S (Z.to_nat (filesz s / INFO_ALIGN)))
    (encs pre ++ enc_rec r) []) as Hl.
  rewrite encs_app, app_nil_r, <- !app_assoc, <- Hb, <- Hfz, <- Ho in Hl. rewrite Hl.
  - f_equal. rewrite zlen_app. lia.
  - by apply Forall_app.
  - apply Forall_app. split; [done|]. destruct Htl as [->|[j ->]]; by repeat constructor.
  - lia.
  - rewrite length_app. unfold INFO_ALIGN, zlen in *. divlia.
  - by left.
Qed.

(** Making everything from [pre] to the end of the file one gap gives it back to the free
    space. *)
Lemma make_gap_tail s pre mid tl :
  Image s (pre ++ mid) tl -> mid <> [] ->
  exists s' tl', (m' ← record_init_gap (filebase s) (zlen (encs pre)) (filesz s - zlen (encs pre));
                  store_set_space (set_filebase s m') (zlen (encs pre))) = Done s' /\
    Image s' pre tl' /\ same_index s s' /\ filesz s' = filesz s.
Proof.
  intros [Hb Hsp Hfz Hwf Hwtl Htl Hpg Hmx] Hne. apply Forall_app in Hwf as [W1 W2].
  rewrite encs_app, <- app_assoc in Hb. pose proof (zlen_nonneg (encs pre)).
  assert (Hfs : filesz s = zlen (encs pre) + zlen (encs mid ++ encs tl)) by (by rewrite Hfz, Hb, zlen_app).
  assert (H8 : 8 <= zlen (encs mid ++ encs tl)).
  { destruct mid as [|r mid]; [done|]. apply Forall_cons in W2 as [B%rsize_bounds _].
    rewrite encs_cons, !zlen_app. unfold rsize in B. zlen_pos. lia. }
  rewrite Hb. rewrite <- (app_nil_r (encs mid ++ encs tl)).
  rewrite record_init_gap_at; [|done|lia|lia]. ostep. rewrite app_nil_r.
  set (g := RGap (drop 8 _)).
  assert (Hgl : zlen (enc_rec g) = filesz s - zlen (encs pre)).
  { fold (rsize g). unfold g. rewrite rsize_gap_of; lia. }
  destruct (store_set_space_ok (set_filebase s (encs pre ++ enc_rec g)) pre (enc_rec g)) as (m & tl' & -> & Hi).
  { split_and!; try done. cbn [set_filebase filesz filebase]. rewrite zlen_app. lia. }
  by eexists _, tl'.
Qed.

Lemma info_make_gap_ok s pre kv pad post tl :
  Image s (pre ++ RData kv pad :: post) tl ->
  exists s' rs' tl', info_make_gap s (zlen (encs pre)) = Done s' /\ Image s' rs' tl' /\
    data_offs 0 rs' = data_offs 0 pre ++ data_offs (zlen (encs pre) + rsize (RData kv pad)) post /\
    same_index s s' /\ filesz s' = filesz s.
Proof.
  intros Himg. pose proof (img_wf _ _ _ Himg) as [_ [W2 _]%Forall_cons]%Forall_app.
  pose proof (img_max _ _ _ Himg) as Hmx. pose proof (zlen_nonneg (encs pre)).
  assert (Hin : (zlen (encs pre), kv) ∈ data_offs 0 (pre ++ RData kv pad :: post)).
  { rewrite data_offs_app. cbn [data_offs]. apply elem_of_app. right. rewrite Z.add_0_l. left. }
  unfold info_make_gap. rewrite (rd16_info _ _ _ _ _ Himg Hin). ostep.
  destruct (W2) as [_ Hsz]. rewrite <- Hsz. destruct (after_record _ _ _ _ _ Himg) as (-> & _ & _).
  pose proof (rsize_bounds _ W2) as (B1 & _).
  destruct (leading_gaps post) as (gs & rest & -> & Hg & Hrest & Hd). rewrite Hd.
  set (r := RData kv pad) in *. set (o := zlen (encs pre)) in *.
  destruct Hrest as [->|(kv' & pad' & rest' & ->)].
  - rewrite app_nil_r in Himg. unfold o. rewrite (make_gap_scan_end _ _ _ _ _ Himg Hg). ostep.
    destruct (make_gap_tail s pre (r :: gs) tl Himg) as (s' & tl' & E & Hi & Hx & Hf); [done|].
    rewrite Z.ltb_irrefl, Z.eqb_refl, u32_small.
    2:{ pose proof (Image_room _ _ _ Himg). rewrite (img_filesz _ _ _ Himg), (img_bytes _ _ _ Himg) in *.
        rewrite !encs_app, !zlen_app in *. zlen_pos. lia. }
    rewrite E. exists s', pre, tl'. split_and!; try done. cbn [data_offs]. by rewrite app_nil_r.
  - destruct (make_gap_scan_data _ _ _ _ _ _ _ _ Himg Hg) as [Hl Hlt]. fold o in Hl, Hlt. rewrite Hl. ostep.
    pose proof (zlen_nonneg (encs gs)).
    destruct (Z.ltb_spec (filesz s) (o + rsize r + zlen (encs gs))); [lia|]. rewrite u32_small by lia.
    destruct (make_gap s pre (r :: gs) (RData kv' pad' :: rest') tl Himg) as (m & j & E & Hi & Hj); [done|].
    replace (o + rsize r + zlen (encs gs) - o) with (zlen (encs (r :: gs)))
      by (rewrite encs_cons, zlen_app; unfold rsize; lia).
    fold o in E. rewrite E. ostep. destruct (Z.eqb_spec (o + rsize r + zlen (encs gs)) (filesz s)); [lia|].
    eexists _, _, tl. split; [done|]. split; [exact Hi|]. split; [|done].
    rewrite data_offs_app, data_offs_gap, Hj, Z.add_0_l, encs_cons, zlen_app. f_equal. f_equal.
    unfold rsize, o. lia.
Qed.

(** ** Removing duplicates *)

(** [l'] has one record of [l] for each key of [l], in key order. *)
Definition deduped l l' : Prop :=
  StronglySorted rec_lt l' /\ (forall q, q ∈ l' -> q ∈ l) /\
  (forall q, q ∈ l -> exists q', q' ∈ l' /\ key_of q' = key_of q).

Lemma sorted_snoc d p q :
  StronglySorted rec_lt (d ++ [p]) -> rec_lt p q -> StronglySorted rec_lt (d ++ [p; q]).
Proof.
  intros Hs Hpq. induction d as [|x d IH]; cbn [app] in *.
  - by repeat constructor.
  - apply StronglySorted_inv in Hs as [Hs Hall]. constructor; [auto|].
    apply Forall_app in Hall as [? [Hxp _]%Forall_cons]. apply Forall_app. split; [done|].
    repeat constructor; [done|]. unfold rec_lt in *. by transitivity (key_of p).
Qed.

(** Making a gap of an indexed record and deleting its slot. *)
Lemma drop_record s rs tl l1 q l2 :
  Image s rs tl -> index s = cells (l1 ++ q :: l2) -> l1 ++ q :: l2 ≡ₚ data_offs 0 rs ->
  exists s' rs' tl', info_make_gap s q.1 = Done s' /\ Image s' rs' tl' /\
    l1 ++ l2 ≡ₚ data_offs 0 rs' /\
    index (store_index_delete s' (length l1)) = cells (l1 ++ l2) /\
    max s' = max s /\ filesz s' = filesz s.
Proof.
  intros Himg Hi Hp. destruct q as [o kv].
  assert (Hin : (o, kv) ∈ data_offs 0 rs) by (rewrite <- Hp; set_solver).
  destruct (Image_split _ _ _ _ _ Himg Hin) as (pre & pad & post & -> & -> & _ & _).
  destruct (info_make_gap_ok s pre kv pad post tl Himg) as (s' & rs' & tl' & E & Hi' & Hd & [Hx Hm] & Hf).
  exists s', rs', tl'. split_and!; [done|done| | |done|done].
  - rewrite Hd. rewrite data_offs_app, Z.add_0_l in Hp. cbn [data_offs] in Hp.
    rewrite <- !Permutation_middle in Hp. by apply Permutation_cons_inv in Hp.
  - apply (index_delete_slot s' l1 (Some (zlen (encs pre))) l2). rewrite Hx, Hi. apply cells_app.
Qed.

(** The comparison of a cell with the one before it, which the loop acts on. *)
Lemma dedup_compare fuel s rs tl d p q todo :
  Image s rs tl -> index s = cells (d ++ p :: q :: todo) -> d ++ p :: q :: todo ≡ₚ data_offs 0 rs ->
  has_keys (d ++ p :: q :: todo) ->
  dedup_loop (S fuel) s (S (length d)) =
    match strcmp (key_of p) (key_of q) with
    | Eq => s1 ← info_make_gap s q.1; dedup_loop fuel (store_index_delete s1 (S (length d))) (S (length d))
    | _ => dedup_loop fuel s (S (S (length d)))
    end.
Proof.
  intros Himg Hi Hp Hk. cbn [dedup_loop]. rewrite Hi, length_cells, length_app.
  destruct (Nat.ltb_spec (S (length d)) (length d + length (p :: q :: todo))) as [H|H]; [|cbn in H; lia].
  assert (Hat : forall i x, (d ++ p :: q :: todo) !! i = Some x -> index_at s i = Done x.1).
  { intros i x Hx. unfold index_at. rewrite Hi. unfold cells. by rewrite list_lookup_fmap, Hx. }
  rewrite (Hat (S (length d)) q). 2:{
    rewrite lookup_app_r by lia. by replace (S (length d) - length d)%nat with 1%nat by lia. }
  ostep. rewrite (Hat _ p). 2:{
    replace (S (length d) - 1)%nat with (length d) by lia. by rewrite list_lookup_middle. }
  ostep.
  assert (Hin : forall x, x ∈ d ++ p :: q :: todo -> (x.1, x.2) ∈ data_offs 0 rs)
    by (intros [o kv] Hx; by rewrite <- Hp).
  assert (Hkd : has_keys (data_offs 0 rs)) by (unfold has_keys; by rewrite <- Hp).
  rewrite (strcmp_mem_at s rs tl p.1 p.2 q.1 q.2 Himg Hkd) by (apply Hin; set_solver). by ostep.
Qed.

(** A record whose key another record has may be left out. *)
Lemma deduped_skip d p q todo l :
  key_of p = key_of q -> deduped (d ++ p :: todo) l -> deduped (d ++ p :: q :: todo) l.
Proof.
  intros Hpq (S1 & S2 & S3). split_and!; [done|intros x Hx; apply S2 in Hx; set_solver|].
  intros x Hx. assert (x = q \/ x ∈ d ++ p :: todo) as [->|Hx'] by set_solver; [|by apply S3].
  destruct (S3 p) as (p' & Hp' & Kp); [set_solver|]. exists p'. split; [done|]. by rewrite Kp.
Qed.

Lemma dedup_loop_ok todo : forall fuel s rs tl d p,
  (length todo < fuel)%nat -> Image s rs tl -> index s = cells (d ++ p :: todo) ->
  d ++ p :: todo ≡ₚ data_offs 0 rs -> StronglySorted rec_lt (d ++ [p]) ->
  StronglySorted rec_le (d ++ p :: todo) -> zlen (d ++ p :: todo) <= max s ->
  has_keys (d ++ p :: todo) ->
  exists s' l', dedup_loop fuel s (S (length d)) = Done s' /\ Rep s' l' /\
    deduped (d ++ p :: todo) l' /\ filesz s' = filesz s.
Proof.
  induction todo as [|q todo IH]; intros fuel s rs tl d p Hfuel Himg Hi Hp Hlt Hle Hm Hk;
    (destruct fuel as [|fuel]; [cbn in Hfuel; lia|]).
  - cbn [dedup_loop]. rewrite Hi, length_cells, length_app.
    destruct (Nat.ltb_spec (S (length d)) (length d + length [p])) as [H|H]; [cbn in H; lia|].
    exists s, (d ++ [p]). split_and!; [done| | |done].
    + exists rs, tl. split; [done|]. by split_and!.
    + split_and!; [done|done|]. intros q Hq. by exists q.
  - rewrite (dedup_compare fuel s rs tl d p q todo Himg Hi Hp Hk).
    destruct (strcmp (key_of p) (key_of q)) eqn:Ec.
    + apply strcmp_eq in Ec.
      assert (Hd : d ++ p :: q :: todo = (d ++ [p]) ++ q :: todo) by (by rewrite <- app_assoc).
      assert (Hd' : d ++ p :: todo = (d ++ [p]) ++ todo) by (by rewrite <- app_assoc).
      destruct (drop_record s rs tl (d ++ [p]) q todo Himg) as (s1 & rs1 & tl1 & -> & Hi1 & Hp1 & Hx1 & Hm1 & Hf1);
        [by rewrite <- Hd|by rewrite <- Hd|]. ostep.
      rewrite length_app, Nat.add_1_r in Hx1. cbn [length] in Hx1. rewrite <- Hd' in *.
      rewrite Hd in Hle, Hm, Hk.
      destruct (IH fuel (store_index_delete s1 (S (length d))) rs1 tl1 d p)
        as (s' & l' & E & Hrep & Hdd & Hf); try done.
      * cbn in Hfuel; lia.
      * by destruct Hi1.
      * rewrite Hd'. by eapply sorted_remove.
      * cbn [store_index_delete set_index max]. rewrite Hm1, Hd'. rewrite zlen_app, zlen_cons in *. lia.
      * rewrite Hd'. unfold has_keys in *. apply Forall_app in Hk as [? [? ?]%Forall_cons]. by apply Forall_app.
      * exists s', l'. split_and!; [done|done|by apply deduped_skip|cbn in Hf; congruence].
    + destruct (IH fuel s rs tl (d ++ [p]) q) as (s' & l' & E & Hrep & Hdd & Hf);
        rewrite <- ?app_assoc; cbn [app]; try done.
      * cbn in Hfuel; lia.
      * by apply sorted_snoc.
      * rewrite <- app_assoc in Hdd.
        replace (length (d ++ [p])) with (S (length d)) in E by (rewrite length_app; cbn; lia).
        by exists s', l'.
    + exfalso. apply StronglySorted_app_1_r, StronglySorted_inv in Hle as [_ [Hpq _]%Forall_cons].
      by apply Hpq.
Qed.

(** [ks'] has one record of [ks] for each key of [ks]. *)
Definition one_per_key (ks ks' : list bytes) : Prop :=
  (forall kv, kv ∈ ks' -> kv ∈ ks) /\
  (forall kv, kv ∈ ks -> exists kv', kv' ∈ ks' /\ cstr kv' = cstr kv).

Lemma deduped_values l l' ks :
  deduped l l' -> l.*2 ≡ₚ ks -> one_per_key ks l'.*2.
Proof.
  intros (_ & H1 & H2) Hp. split.
  - intros kv ([o kv'] & -> & Hin)%list_elem_of_fmap. rewrite <- Hp. by apply list_elem_of_fmap_2, H1.
  - intros kv. rewrite <- Hp. intros (q & -> & Hin)%list_elem_of_fmap.
    destruct (H2 q Hin) as (q' & Hq' & Hk). exists q'.2. split; [by apply list_elem_of_fmap_2|done].
Qed.

(** Indexing a scanned file: repacking, sorting and removing duplicates. *)
Lemma index_file_ok m rs mx :
  m = encs rs -> Forall wf_rec rs -> has_keys (data_offs 0 rs) -> zlen (data_offs 0 rs) <= mx ->
  (getpagesize | zlen m) -> zlen m < 2 ^ 32 ->
  exists s' l', (s1 ← store_repack (mk_store m (zlen m) (zlen m) [] mx);
      s2 ← dedup_loop (S (length (index s1) + length (index s1))) s1 1;
      Done (Some s2)) = Done (Some s') /\ Rep s' l' /\ one_per_key (data_offs 0 rs).*2 l'.*2 /\
    filesz s' = zlen m.
Proof.
  intros -> Hwf Hk Hm Hpg Hmax. set (s0 := mk_store _ _ _ _ _).
  destruct (store_repack_gen s0 rs []) as (s1 & tl1 & l & -> & Hi1 & Hx1 & Hp1 & Hs1 & Hf1 & Hm1); [|done|done|].
  { constructor; cbn; try done; [by rewrite app_nil_r|by left]. }
  ostep. assert (Hkv : l.*2 ≡ₚ (data_offs 0 rs).*2) by (rewrite Hp1; by rewrite (data_offs_datas 0 0)).
  assert (Hlen : zlen l = zlen (data_offs 0 rs)).
  { rewrite <- (zlen_fmap snd l), <- (zlen_fmap snd (data_offs 0 rs)). unfold zlen. by rewrite Hkv. }
  assert (Hkl : has_keys l).
  { unfold has_keys. rewrite Hp1. by apply (has_keys_datas 0 0). }
  destruct l as [|p todo].
  - cbn in Hx1. rewrite Hx1. cbn [length Nat.add dedup_loop]. rewrite Hx1. cbn [length Nat.ltb Nat.leb]. ostep.
    exists s1, []. split_and!; [done| | |by rewrite Hf1].
    + exists (datas rs), tl1. split; [done|]. split_and!; try done; [constructor|].
      rewrite Hm1. cbn [s0 max]. rewrite Hlen. done.
    + eapply (deduped_values []); [|done]. by split_and!; [constructor|set_solver..].
  - rewrite Hx1. destruct (dedup_loop_ok todo (S (length (cells (p :: todo)) + length (cells (p :: todo))))
      s1 (datas rs) tl1 [] p) as (s' & l' & E & Hrep & Hdd & Hf); try done.
    + rewrite length_cells. cbn. lia.
    + by repeat constructor.
    + cbn [app]. rewrite Hm1, Hlen. done.
    + cbn [length] in E. fold (cells (p :: todo)). rewrite E. ostep. exists s', l'.
      split_and!; [done|done| |by rewrite Hf, Hf1]. by eapply deduped_values.
Qed.

(** Filling a file of records with zero bytes up to a page boundary adds empty gaps. *)
Lemma padded_file rs fsz :
  Forall wf_rec rs -> has_keys (data_offs 0 rs) -> zlen (encs rs) <= fsz -> (getpagesize | fsz) ->
  exists rs', take (Z.to_nat fsz) (encs rs) ++ replicate (Z.to_nat (fsz - zlen (encs rs))) 0 = encs rs' /\
    zlen (encs rs') = fsz /\ Forall wf_rec rs' /\ (data_offs 0 rs').*2 = (data_offs 0 rs).*2 /\
    has_keys (data_offs 0 rs').
Proof.
  intros Hwf Hk Hle Hdiv. set (st := zlen (encs rs)) in *.
  assert (Hd8 : (8 | fsz - st)) by (apply Z.divide_sub_r; [by apply page_div8|by apply encs_aligned]).
  set (k := Z.to_nat ((fsz - st) / 8)). exists (rs ++ replicate k (RGap [])).
  assert (Hd' : (data_offs 0 (rs ++ replicate k (RGap []))).*2 = (data_offs 0 rs).*2).
  { rewrite <- (data_offs_datas 0 0 (rs ++ _)), <- (data_offs_datas 0 0 rs).
    by rewrite datas_app, datas_gaps, app_nil_r. }
  rewrite take_ge by (unfold st, zlen in *; lia). rewrite encs_app, <- zeros_are_gaps.
  replace (8 * k)%nat with (Z.to_nat (fsz - st)).
  2:{ unfold k. destruct Hd8 as [q Hq]. rewrite Hq, Z.div_mul by lia. lia. }
  split_and!; [done| | |done|by apply (has_keys_snd (data_offs 0 rs))].
  - rewrite zlen_app, zlen_replicate by lia. unfold st. lia.
  - apply Forall_app. split; [done|]. apply Forall_replicate. cbn. rewrite zlen_nil. split; [by exists 0|lia].
Qed.

Lemma file_open_ok rs :
  Forall wf_rec rs -> has_keys (data_offs 0 rs) -> zlen (encs rs) + getpagesize <= 2 ^ 32 ->
  exists r, store_file_open (encs rs) = Done r /\
    match r with
    | None => exists n, ftruncate_ok n = false \/ 0 < n /\ mmap_ok n = false \/ realloc_ok n = false
    | Some s => exists l, Rep s l /\ one_per_key (data_offs 0 rs).*2 l.*2 /\
        filesz s = Z.max getpagesize (roundup (zlen (encs rs)) getpagesize)
    end.
Proof.
  intros Hwf Hk Hmax. pose proof page_pos as [Hpp Hp8]. pose proof (zlen_nonneg (encs rs)) as H0.
  unfold store_file_open, UINT32_MAX. destruct (Z.leb_spec (2 ^ 32 - 1) (zlen (encs rs))); [lia|].
  destruct (roundup_page (zlen (encs rs))) as [Hr Hrd]; [lia..|]. set (fsz := Z.max _ _) in *.
  assert (Hfsz : zlen (encs rs) <= fsz < 2 ^ 32 /\ (getpagesize | fsz)).
  { unfold fsz. destruct (Z.max_spec getpagesize (roundup (zlen (encs rs)) getpagesize))
      as [[? ->]|[? ->]]; split; try lia; done. }
  destruct Hfsz as [Hfsz Hdiv].
  destruct (_ && negb (ftruncate_ok fsz)) eqn:Et.
  { apply andb_true_iff in Et as [_ Et%negb_true_iff]. exists None. eauto. }
  destruct (mmap_ok fsz) eqn:Em; cbn [negb]; [|exists None; split; [done|]; exists fsz; right; left; split; [lia|done]].
  destruct (padded_file rs fsz Hwf Hk ltac:(lia) Hdiv) as (rs' & -> & Hz & Hwf' & Hd' & Hk').
  pose proof (scan_loop_ok rs' (S (Z.to_nat (fsz / INFO_ALIGN))) [] 0 Hwf') as Hs. cbn [app] in Hs.
  change (zlen (@nil Z)) with 0 in Hs. rewrite Hz in Hs. rewrite Hs; [ostep|lia|].
  2:{ pose proof (length_encs rs' Hwf'). unfold INFO_ALIGN, zlen in *. divlia. }
  rewrite Z.add_0_l. set (n := zlen (data_offs 0 rs')).
  assert (Hens : exists mx, (if n =? 0 then (0, mk_store (encs rs') fsz fsz [] 0)
      else store_index_ensure (mk_store (encs rs') fsz fsz [] 0) (n - 1)) =
        (0, mk_store (encs rs') fsz fsz [] mx) /\ n <= mx \/
      (if n =? 0 then (0, mk_store (encs rs') fsz fsz [] 0)
      else store_index_ensure (mk_store (encs rs') fsz fsz [] 0) (n - 1)) =
        (-1, mk_store (encs rs') fsz fsz [] 0) /\ realloc_ok mx = false).
  { destruct (Z.eqb_spec n 0) as [->|Hn]; [exists 0; by left|].
    pose proof (zlen_nonneg (data_offs 0 rs')). pose proof (data_offs_small 0 rs' Hwf') as Hsm. fold n in Hsm.
    unfold store_index_ensure. cbn [max set_max filebase filesz space index].
    destruct (Z.ltb_spec (n - 1) 0); [lia|]. destruct (realloc_ok _) eqn:Er; [|eauto].
    eexists. left. split; [done|]. replace (n - 1 + 1) with n by lia. unfold STORE_INCREMENT.
    destruct (roundup_spec n 6) as [Hr6 _]; [lia..|]. change (2 ^ 6) with 64 in Hr6. lia. }
  destruct Hens as (mx & [[-> Hmx]|[-> Hre]]); cbn [Z.eqb]; [|exists None; eauto].
  destruct (index_file_ok (encs rs') rs' mx) as (s & l & E & Hrep & Hone & Hf); rewrite ?Hz; try done; [lia|].
  rewrite Hz in E. rewrite E. exists (Some s). split; [done|]. exists l. rewrite <- Hd'.
  split_and!; [done|done|by rewrite Hf].
Qed.

(** Nothing is lost when the keys of the file are distinct. *)
Lemma one_per_key_kvmap ks ks' :
  NoDup (cstr <$> ks) -> NoDup (cstr <$> ks') -> one_per_key ks ks' -> kvmap ks' = kvmap ks.
Proof.
  intros Hnd Hnd' [H1 H2]. apply map_eq. intros k.
  destruct (decide (k ∈ cstr <$> ks)) as [(kv & -> & Hin)%list_elem_of_fmap|Hn].
  - destruct (H2 kv Hin) as (kv' & Hin' & Hk). rewrite (kvmap_elem kv ks) by done.
    rewrite <- Hk, (kvmap_elem kv' ks') by done. f_equal.
    pose proof (kvmap_elem kv' ks Hnd (H1 _ Hin')) as E. rewrite Hk, kvmap_elem in E by done.
    congruence.
  - rewrite !kvmap_none; [done|done|]. intros (kv & -> & Hin)%list_elem_of_fmap.
    apply Hn. by apply list_elem_of_fmap_2, H1.
Qed.

(** Closing and opening again. *)
Lemma reopen_ok s l :
  Rep s l -> filesz s + getpagesize <= 2 ^ 32 ->
  exists r, store_open (Some (store_close s)) true = Done r /\
    match r with
    | None => exists n, ftruncate_ok n = false \/ 0 < n /\ mmap_ok n = false \/ realloc_ok n = false
    | Some s' => exists l', Rep s' l' /\ contents l' = contents l
    end.
Proof.
  intros (rs & tl & Himg & Hidx) Hroom. destruct (Himg) as [Hb _ Hfz Hwf Hwtl Htl _ _].
  assert (Hd : data_offs 0 (rs ++ tl) = data_offs 0 rs).
  { rewrite data_offs_app. destruct Htl as [->|[j ->]]; cbn [data_offs]; apply app_nil_r. }
  destruct (Hidx) as (_ & Hp & _ & _ & Hk).
  unfold store_open, store_close. rewrite Hb, <- encs_app. cbn [negb].
  destruct (file_open_ok (rs ++ tl)) as (r & -> & Hr).
  - by apply Forall_app.
  - unfold has_keys. by rewrite Hd, <- Hp.
  - rewrite encs_app, <- Hb, <- Hfz. done.
  - exists r. split; [done|]. destruct r as [s'|]; [|done]. destruct Hr as (l' & Hrep & Hone & _).
    exists l'. split; [done|]. rewrite !contents_kvmap. rewrite Hd in Hone.
    pose proof (index_nodup _ _ _ Hidx) as Hnd. destruct Hrep as (rs1 & tl1 & _ & Hidx1).
    rewrite (kvmap_perm l.*2 (data_offs 0 rs).*2) by (done || by rewrite Hp).
    apply one_per_key_kvmap; [by rewrite <- Hp|by eapply index_nodup|done].
Qed.

End Open.
