(* ===== verification/StoreTheorems.v ===== *)
(** * The key/value store: what its clients may rely on

    The refinement of store.c to a finite map, as theorems about each operation, as an
    instance of the interface [KVStore] that the daemon is verified against, and the
    behaviour of the store when the system calls it depends on fail. *)
From S2P Require Import Prelude StoreDefs StoreLayout StoreRep StoreAlloc StoreHole.
From S2P Require Import StoreRealloc StoreOps StoreOpen.

(** ** The interface *)

(** The records of an enumeration are in strict key order. *)
Definition key_sorted (ks : list bytes) : Prop :=
  StronglySorted (fun x y => str_lt (cstr x) (cstr y)) ks.

Lemma key_sorted_nodup ks : key_sorted ks -> NoDup (cstr <$> ks).
Proof.
  induction 1 as [|kv ks _ IH Hall]; [constructor|]. rewrite fmap_cons. constructor; [|done].
  intros (kv' & E & Hin)%list_elem_of_fmap. apply (str_lt_irrefl (cstr kv)).
  rewrite E at 2. by apply (proj1 (Forall_forall _ _) Hall).
Qed.

(** A store holding a finite map from keys to [key\0value] strings. [kv_room] says that [n]
    more records can be put, [kv_size] how many records there are, [kv_fails] that a system call
    or an allocation the store depends on may fail. *)
Class KVStore (ST : Type) := {
  kv_holds : ST -> gmap bytes bytes -> Prop;
  kv_room : ST -> nat -> Prop;
  kv_get : ST -> bytes -> outcome (option bytes);
  kv_put : ST -> Z -> bytes -> outcome (Z * ST);
  kv_del : ST -> option bytes -> outcome (Z * ST);
  kv_next : ST -> nat -> outcome (option bytes * nat);
  kv_size : ST -> nat;
  kv_fails : Prop;
  kv_get_law s M key : kv_holds s M -> kv_get s key = Done (M !! cstr key);
  kv_room_law s n : kv_room s (S n) -> kv_room s n;
  kv_put_law s M kv n : kv_holds s M -> kv_room s (S n) -> wf_kv kv ->
    exists r s' M', kv_put s (zlen kv) kv = Done (r, s') /\ kv_holds s' M' /\ kv_room s' n /\
      (r = 0 /\ s' = s /\ M' = M /\ M !! cstr kv = Some kv \/
       r = 1 /\ M !! cstr kv <> Some kv /\ M' = <[cstr kv := kv]> M \/
       r = -1 /\ kv_fails /\ M' = delete (cstr kv) M);
  kv_del_law s M key n : kv_holds s M -> kv_room s n ->
    exists s', kv_del s (Some key) = Done (if decide (is_Some (M !! cstr key)) then 1 else 0, s') /\
      kv_holds s' (delete (cstr key) M) /\ kv_room s' n /\ (M !! cstr key = None -> s' = s);
  kv_next_law s M : kv_holds s M ->
    exists ks, key_sorted ks /\ kvmap ks = M /\ Forall wf_kv ks /\
      length ks = kv_size s /\
      forall ix, kv_next s ix = Done (ks !! ix, if decide (ix < length ks)%nat then S ix else ix)
}.

(** What is in the map is a record of its key. *)
Lemma kv_record {ST} {KV : KVStore ST} s M k kv :
  kv_holds s M -> M !! k = Some kv -> wf_kv kv /\ cstr kv = k.
Proof.
  intros (ks & _ & <- & Hwf & _)%kv_next_law Hk. unfold kvmap in Hk.
  apply elem_of_list_to_map_2, list_elem_of_fmap in Hk as (kv' & [= -> ->] & Hin).
  split; [|done]. by apply (proj1 (Forall_forall _ _) Hwf).
Qed.

(** ** A store to run *)

(** ["a\0one"] and ["b\0two"] in a 4096-byte file. *)
Definition demo_a : bytes := [97; 0; 111; 110; 101].
Definition demo_b : bytes := [98; 0; 116; 119; 111].
Definition demo_store : store :=
  mk_store (encs [RData demo_a [0]; RData demo_b [0]] ++ encs [RGap (replicate 4072 0)])
    4096 16 [Some 0; Some 8] 64.
Definition demo_l : list (Z * bytes) := [(0, demo_a); (8, demo_b)].

Lemma demo_rep : Rep demo_store demo_l.
Proof.
  exists [RData demo_a [0]; RData demo_b [0]], [RGap (replicate 4072 0)]. split; [split|].
  - done.
  - done.
  - vm_compute. done.
  - repeat constructor; vm_compute; intuition congruence.
  - repeat constructor; [exists 509; vm_compute; done|vm_compute; done].
  - eauto.
  - exists 1. done.
  - done.
  - split_and!; [done|done| |done|].
    + repeat constructor.
    + repeat constructor; rewrite <- list_elem_of_In; set_solver.
Qed.

Lemma demo_spacious : spacious demo_store.
Proof. vm_compute. done. Qed.

Section Theorems.
Context {BO : ByteOrder} {os : OS} {QS : Qsort}.

Lemma rep_sorted (s : store) l : Rep s l -> key_sorted l.*2.
Proof.
  intros (rs & tl & _ & (_ & _ & Hs & _)). unfold key_sorted.
  induction Hs as [|p l Hs IH Hall]; cbn; constructor; [done|]. by rewrite Forall_fmap.
Qed.

Lemma rep_wf (s : store) l : Rep s l -> Forall wf_kv l.*2.
Proof.
  intros (rs & tl & Himg & (_ & Hp & _ & _ & Hk)). rewrite Forall_fmap.
  apply Forall_forall. intros [o kv] Hin. cbn. split; [|by apply (proj1 (Forall_forall _ _) Hk (o, kv))].
  rewrite Hp in Hin. apply (Image_split s rs tl o kv Himg) in Hin as (? & ? & ? & _ & _ & [? _] & _). lia.
Qed.

(** C3: [store_get] returns the record of the key in the map the store stands for, and NULL
    exactly when the key is absent; it never reads outside the file. *)
Theorem store_get_refines s l key :
  Rep s l -> store_get s key = Done (contents l !! cstr key).
Proof. apply get_ok. Qed.

Section Update.
Hypothesis fallocate_succeeds : forall a b, posix_fallocate a b = 0.
Hypothesis ftruncate_succeeds : forall n, ftruncate_ok n = true.

(** C2: [store_put] of a well-formed [key\0value], where the file can be grown and shrunk
    (fallocate and ftruncate succeed) and stays below 4 GB, does not crash and keeps the store
    healthy. It returns 0 when the record was already there and then changes nothing, 1 when it
    stored the record, and -1 only when mapping a bigger file or extending the index failed; then
    the key has lost its old value. Every other key keeps its value in all three cases. *)
Theorem store_put_refines s l kv :
  Rep s l -> spacious s -> wf_kv kv ->
  exists r s' l', store_put s (zlen kv) kv = Done (r, s') /\ Rep s' l' /\
    (r = 0 /\ s' = s /\ contents l' = contents l /\ contents l !! cstr kv = Some kv \/
     r = 1 /\ contents l !! cstr kv <> Some kv /\ contents l' = <[cstr kv := kv]> (contents l) \/
     r = -1 /\ (exists n, 0 < n /\ mmap_ok n = false \/ realloc_ok n = false) /\
       contents l' = delete (cstr kv) (contents l)).
Proof.
  intros Hrep Hs Hkv.
  destruct (put_ok fallocate_succeeds ftruncate_succeeds s l kv Hrep Hs Hkv)
    as (r & s' & l' & E & Hrep' & _ & Hc).
  exists r, s', l'. split; [done|]. split; [done|].
  destruct Hc as [(-> & -> & -> & H)|Hc]; [left|right]; done.
Qed.

(** C27: [store_del] removes the record of the key, returns 1 exactly when there was one, and
    leaves every other key alone. *)
Theorem store_del_refines s l key :
  Rep s l -> roomy s ->
  exists s' l', store_del s (Some key) =
      Done (if decide (is_Some (contents l !! cstr key)) then 1 else 0, s') /\ Rep s' l' /\
    contents l' = delete (cstr key) (contents l).
Proof.
  intros Hrep Hs. destruct (del_ok fallocate_succeeds ftruncate_succeeds s l key Hrep Hs)
    as (s' & l' & ? & ? & ? & _). by exists s', l'.
Qed.

(** Putting never grows the file by more than a record and a page. *)
Definition room_for (s : store) (n : nat) : Prop :=
  filesz s + 4 * getpagesize + 65544 + Z.of_nat n * (getpagesize + 65544) <= 2 ^ 32.

Lemma room_for_roomy s n : room_for s n -> roomy s.
Proof. unfold room_for, roomy. pose proof page_pos. nia. Qed.
Lemma room_for_spacious s n : room_for s (S n) -> spacious s.
Proof. unfold room_for, spacious. pose proof page_pos. nia. Qed.

#[export, refine] Instance byte_store : KVStore store := {
  kv_holds s M := exists l, Rep s l /\ contents l = M;
  kv_room := room_for;
  kv_get := store_get;
  kv_put := store_put;
  kv_del := store_del;
  kv_next := store_get_next;
  kv_size s := length (index s);
  kv_fails := exists n, 0 < n /\ mmap_ok n = false \/ realloc_ok n = false
}.
Proof.
  - intros s M key (l & Hrep & <-). by apply get_ok.
  - intros s n. unfold room_for. pose proof page_pos. lia.
  - intros s M kv n (l & Hrep & <-) Hr Hkv.
    destruct (put_ok fallocate_succeeds ftruncate_succeeds s l kv Hrep (room_for_spacious s n Hr) Hkv)
      as (r & s' & l' & E & Hrep' & Hfz & Hc).
    exists r, s', (contents l'). split_and!; [done|by exists l'|unfold room_for in *; lia|].
    destruct Hc as [(-> & -> & -> & H)|[(? & ? & ?)|(? & ? & ?)]]; eauto 10.
  - intros s M key n (l & Hrep & <-) Hr.
    destruct (del_ok fallocate_succeeds ftruncate_succeeds s l key Hrep (room_for_roomy s n Hr))
      as (s' & l' & E & Hrep' & Hc & Hn & Hfz). exists s'.
    split_and!; [done|by exists l'|unfold room_for in *; lia|done].
  - intros s M (l & Hrep & <-). exists l.*2.
    split_and!; [by eapply rep_sorted|by rewrite contents_kvmap| | |].
    + by apply (rep_wf s).
    + destruct Hrep as (rs & tl & _ & (Hi & _)). by rewrite Hi, !length_fmap.
    + intros ix. rewrite (next_ok s l ix Hrep), length_fmap. done.
Defined.

(** Putting fails only when there is no memory. *)
Lemma put_never_fails (Hmm : forall n, 0 < n -> mmap_ok n = true) (Hre : forall n, realloc_ok n = true) s M kv n r s' :
  kv_holds s M -> kv_room s (S n) -> wf_kv kv -> kv_put s (zlen kv) kv = Done (r, s') -> r <> -1.
Proof.
  intros (l & Hrep & _) Hr Hkv E ->.
  destruct (put_ok fallocate_succeeds ftruncate_succeeds s l kv Hrep (room_for_spacious s n Hr) Hkv)
    as (r & s1 & l' & E' & _ & _ & Hc). change (store_put s (zlen kv) kv = Done (-1, s')) in E.
  rewrite E' in E. injection E as -> _.
  destruct Hc as [(? & _)|[(? & _)|(_ & (m & [[H0 Hm]|Hm]) & _)]]; [done|done| |]; by rewrite ?Hmm, ?Hre in Hm.
Qed.

End Update.

(** C28: iterating with [store_get_first] and [store_get_next] visits every record exactly
    once, in strict key order, and then returns NULL. *)
Theorem store_iterates s l :
  Rep s l -> key_sorted l.*2 /\ kvmap l.*2 = contents l /\
  store_get_first s = store_get_next s 0 /\
  forall ix, store_get_next s ix = Done (l.*2 !! ix, if decide (ix < length l)%nat then S ix else ix).
Proof.
  intros Hrep. split_and!; [by eapply rep_sorted|by rewrite contents_kvmap|done|].
  intros ix. by apply next_ok.
Qed.

(** C15: closing a healthy store and opening its file again gives a healthy store with the same
    contents, unless a system call fails, in which case no store is returned. *)
Theorem store_reopen s l :
  Rep s l -> filesz s + getpagesize <= 2 ^ 32 ->
  exists r, store_open (Some (store_close s)) true = Done r /\
    match r with
    | None => exists n, ftruncate_ok n = false \/ 0 < n /\ mmap_ok n = false \/ realloc_ok n = false
    | Some s' => exists l', Rep s' l' /\ contents l' = contents l
    end.
Proof. apply reopen_ok. Qed.

(** C16: opening any file of well-formed records, in any order and with repeated keys, gives a
    healthy store with exactly one of the records of each key. *)
Theorem store_open_dedups rs :
  Forall wf_rec rs -> has_keys (data_offs 0 rs) -> zlen (encs rs) + getpagesize <= 2 ^ 32 ->
  exists r, store_open (Some (encs rs)) true = Done r /\
    match r with
    | None => exists n, ftruncate_ok n = false \/ 0 < n /\ mmap_ok n = false \/ realloc_ok n = false
    | Some s => exists l, Rep s l /\ one_per_key (data_offs 0 rs).*2 l.*2 /\ NoDup (cstr <$> l.*2)
    end.
Proof.
  intros Hwf Hk Hmax. destruct (file_open_ok rs Hwf Hk Hmax) as (r & E & Hr).
  exists r. split; [done|]. destruct r as [s|]; [|done]. destruct Hr as (l & Hrep & Hone & _).
  exists l. split_and!; [done|done|]. destruct Hrep as (rs' & tl' & _ & Hidx). by eapply index_nodup.
Qed.

(** ** When things go wrong *)

Lemma scan_stuck fuel m fsz o n :
  record_get_size m o = Done 0 -> record_is_gap m o = Done true -> 0 <= o < fsz -> fsz < 2 ^ 32 ->
  scan_loop fuel m fsz o n = Crash OutOfFuel.
Proof.
  intros Hs Hg Ho Hf. revert n. induction fuel as [|fuel IH]; intros n; cbn [scan_loop];
    (destruct (Z.ltb_spec o fsz); [|lia]); [done|].
  rewrite Hs. ostep. rewrite Z.sub_0_r, u32_small by lia. destruct (Z.ltb_spec fsz o); [lia|].
  rewrite Hg. ostep. rewrite Z.add_0_r, u32_small by lia. apply IH.
Qed.

(** C36: the scan of [store_file_open] does not end on a file that starts with a gap of size
    0xfffffff8, however long it runs: the size of the record wraps around to 0, passes the
    "too big" test and moves the scan nowhere. *)
Theorem scan_never_ends fuel rest n :
  8 + zlen rest < 2 ^ 32 ->
  scan_loop fuel (enc16 0 ++ enc16 0 ++ enc32 (2 ^ 32 - 8) ++ rest) (8 + zlen rest) 0 n =
    Crash OutOfFuel.
Proof.
  intros Hmax. pose proof (zlen_nonneg rest). set (m := enc16 0 ++ _).
  assert (Hg : record_is_gap m 0 = Done true).
  { unfold record_is_gap. assert (rd16 m 0 = Done 0) as -> by (apply (rd16_at [] 0); done). done. }
  apply scan_stuck; [|done|lia|done]. unfold record_get_size. rewrite Hg. ostep.
  unfold rd32, m. rewrite (app_assoc (enc16 0) (enc16 0)).
  rewrite (mread_app _ (enc32 (2 ^ 32 - 8))) by (by rewrite ?zlen_app, ?zlen_enc16, ?zlen_enc32).
  ostep. rewrite dec32_enc32 by lia. rewrite roundup_8 by (lia || by exists 536870911). done.
Qed.

Section DiskFull.
Context (err : Z).
Hypothesis fallocate_fails : forall a b, posix_fallocate a b = err.
Hypothesis error_number : err <> 0 /\ err <> -1.
Hypothesis mmap_succeeds : forall n, mmap_ok n = true.
Hypothesis realloc_succeeds : forall n, realloc_ok n = true.

Lemma mwrite_outside m o bs : zlen m < o + zlen bs -> mwrite m o bs = None.
Proof.
  intros H. unfold mwrite. rewrite (bool_decide_false (o + _ <= _)) by lia. by rewrite andb_false_r.
Qed.

Lemma gap8 a b : (8 | a) -> (8 | b) -> a < b -> a + 8 <= b.
Proof.
  intros H1 H2 Hlt. enough (8 <= b - a) by lia. apply Z.divide_pos_le; [lia|].
  by apply Z.divide_sub_r.
Qed.

(** The file "grows" to hold the record, but the mapping does not: the allocation crashes, or
    returns a record whose content does not fit in the mapping. *)
Lemma alloc_disk_full s l rs tl sz :
  Image s rs tl -> Index s l rs -> 0 < sz < 2 ^ 16 -> roomy s ->
  filesz s < zlen (encs (datas rs)) + info_size sz ->
  store_file_alloc s sz = Crash OutOfBounds \/
  exists o s', store_file_alloc s sz = Done (Some o, s') /\ zlen (filebase s') < o + 2 + sz.
Proof.
  intros Himg Hidx Hsz Hroom Hfull. destruct (info_size_bounds sz) as [Hal Hal8]; [lia|].
  destruct (info_size_spec sz) as [Hal' _]; [lia|]. pose proof page_pos as [Hpp _].
  pose proof (datas_zlen rs). pose proof (Image_room _ _ _ Himg) as [Hsp0 _].
  pose proof (img_space _ _ _ Himg) as Hs0. unfold roomy in Hroom.
  destruct (store_repack_ok s l rs tl Himg Hidx) as (s1 & l1 & tl1 & E & Himg1 & _ & _ & Hfz & _).
  unfold store_file_alloc. rewrite (u32_small (filesz s - space s)) by lia.
  destruct (Z.ltb_spec (filesz s - space s) (info_size sz)); [|lia]. rewrite E. ostep.
  pose proof (Image_room _ _ _ Himg1) as [Hsp Hrm]. pose proof (img_space _ _ _ Himg1) as Hs1.
  rewrite (u32_small (filesz s1 - space s1)) by lia.
  destruct (Z.ltb_spec (filesz s1 - space s1) (info_size sz)) as [Hlt|]; [|lia].
  unfold UINT32_MAX. rewrite (u32_small (2 ^ 32 - 1 - info_size sz)) by lia.
  destruct (Z.leb_spec (2 ^ 32 - 1 - info_size sz) (filesz s1)); [lia|].
  rewrite (u32_small (space s1 + info_size sz)) by lia.
  destruct (roundup_page (space s1 + info_size sz)) as [Hr Hn8%page_div8]; [lia..|].
  assert (Hs8 : (8 | space s1 + info_size sz)).
  { apply Z.divide_add_r; [|done]. rewrite Hs1. apply encs_aligned, Himg1. }
  pose proof (gap8 _ _ (page_div8 _ (img_page _ _ _ Himg1)) Hs8 ltac:(lia)) as Hgap8.
  set (n := roundup _ getpagesize) in *. pose proof (img_filesz _ _ _ Himg1) as Hfb.
  unfold store_file_setsize. destruct (Z.ltb_spec (filesz s1) n); [|lia].
  rewrite fallocate_fails, mmap_succeeds. destruct error_number as [Hne Hne'].
  rewrite (proj2 (Z.eqb_neq err (-1)) Hne'), (proj2 (Z.eqb_neq err 0) Hne). cbn [negb andb].
  destruct (Z.ltb_spec n (filesz s1)); [lia|]. cbn [andb Z.eqb].
  rewrite take_ge by (unfold zlen in Hfb; lia). unfold store_file_carve. cbn [filesz space filebase].
  rewrite (u32_small (n - space s1)), (u32_small (space s1 + info_size sz)) by lia.
  destruct (Z.leb_spec (info_size sz) (n - space s1)); [|lia].
  cbn [assert_c]. ostep. unfold set_space. cbn [filesz space filebase].
  destruct (Z.ltb_spec (space s1 + info_size sz) n) as [Hgap|Hgap].
  - left. unfold record_init_gap. pose proof (gap8 _ _ Hs8 Hn8 Hgap).
    rewrite (u32_small (n - (space s1 + info_size sz))) by lia.
    unfold INFO_ALIGN. destruct (Z.leb_spec 8 (n - (space s1 + info_size sz))); [|lia]. cbn [assert_c]. ostep.
    rewrite mwrite_outside; [done|]. rewrite !zlen_app, !zlen_enc16, zlen_enc32. lia.
  - ostep. unfold wr16. destruct (mwrite _ _ _) as [m'|] eqn:Em; ostep; [right|by left].
    eexists _, _. split; [done|]. cbn [set_filebase filebase]. rewrite (mwrite_zlen _ _ _ _ Em). lia.
Qed.

(** C34: when posix_fallocate reports an error, storing a new key that does not fit in the file
    kills the daemon with an access outside the file: the error number the call returns is
    compared with -1, so that the failure goes unnoticed. *)
Theorem put_disk_full s l rs tl kv :
  Image s rs tl -> Index s l rs -> wf_kv kv -> roomy s -> contents l !! cstr kv = None ->
  filesz s < zlen (encs (datas rs)) + info_size (zlen kv) ->
  store_put s (zlen kv) kv = Crash OutOfBounds.
Proof.
  intros Himg Hidx Hwf Hroom Hnew Hfull. unfold store_put.
  destruct (locate s l rs tl kv Himg Hidx)
    as [(l1 & o & old & l2 & -> & Hk & _ & _)|(l1 & l2 & -> & _ & _ & _ & -> & He)].
  { exfalso. rewrite contents_kvmap, <- Hk, (kvmap_elem old) in Hnew; [done|by eapply index_nodup|].
    rewrite fmap_app, fmap_cons. set_solver. }
  ostep. rewrite He. ostep.
  destruct (alloc_disk_full s _ rs tl (zlen kv) Himg Hidx (wf_kv_pos kv Hwf) Hroom Hfull)
    as [->|(o & s' & -> & Hout)]; ostep; [done|].
  unfold store_index_insert, store_index_ensure. rewrite realloc_succeeds.
  replace (Z.to_nat (zlen kv)) with (length kv) by (unfold zlen; lia).
  assert (Hfill : forall s2, filebase s2 = filebase s' -> info_fill s2 o (zlen kv) kv = Crash OutOfBounds).
  { intros s2 E. unfold info_fill. rewrite take_ge by (unfold zlen; lia).
    rewrite mwrite_outside by (rewrite E; lia). done. }
  destruct (_ <? max s')%Z; cbn [Z.eqb];
    (destruct (Z.eqb_spec (Z.of_nat (length l1)) (-1)); [lia|]); by rewrite Hfill.
Qed.

End DiskFull.
End Theorems.

(** ** Witnesses *)

Lemma store_get_refines_witness : store_get demo_store [98] = Done (Some demo_b).
Proof. rewrite (store_get_refines _ demo_l _ demo_rep). reflexivity. Defined.

Lemma store_put_refines_witness :
  exists r s' l', store_put demo_store (zlen [98; 0]) [98; 0] = Done (r, s') /\ Rep s' l' /\
    (r = 0 /\ s' = demo_store /\ contents l' = contents demo_l /\ contents demo_l !! [98] = Some [98; 0] \/
     r = 1 /\ contents demo_l !! [98] <> Some [98; 0] /\
       contents l' = <[[98] := [98; 0]]> (contents demo_l) \/
     r = -1 /\ (exists n, 0 < n /\ mmap_ok n = false \/ realloc_ok n = false) /\
       contents l' = delete [98] (contents demo_l)).
Proof.
  apply (store_put_refines (os:=quiet_os) (fun _ _ => eq_refl) (fun _ => eq_refl) demo_store demo_l [98; 0]
    demo_rep demo_spacious).
  split; [done|right; left].
Defined.

Lemma store_del_refines_witness :
  exists s' l', store_del demo_store (Some [97]) = Done (1, s') /\ Rep s' l' /\
    contents l' = delete [97] (contents demo_l).
Proof.
  exact (store_del_refines (os:=quiet_os) (fun _ _ => eq_refl) (fun _ => eq_refl) demo_store demo_l [97]
    demo_rep (spacious_roomy _ demo_spacious)).
Defined.

Lemma store_iterates_witness :
  store_get_next demo_store 1 = Done (Some demo_b, 2%nat) /\
  store_get_next demo_store 2 = Done (None, 2%nat).
Proof. split; apply (store_iterates demo_store demo_l demo_rep). Defined.

Lemma store_reopen_witness :
  exists r, store_open (Some (store_close demo_store)) true = Done r /\
    match r with
    | None => exists n, ftruncate_ok n = false \/ 0 < n /\ mmap_ok n = false \/ realloc_ok n = false
    | Some s' => exists l', Rep s' l' /\ contents l' = contents demo_l
    end.
Proof. apply (store_reopen demo_store demo_l demo_rep). vm_compute. discriminate. Defined.

(** Two records of the key ["a"] and an empty gap. *)
Definition demo_dup : list rec := [RData demo_a [0]; RGap []; RData [97; 0] [0; 0; 0; 0]].

Lemma store_open_dedups_witness :
  exists r, store_open (Some (encs demo_dup)) true = Done r /\
    match r with
    | None => exists n, ftruncate_ok n = false \/ 0 < n /\ mmap_ok n = false \/ realloc_ok n = false
    | Some s => exists l, Rep s l /\ one_per_key [demo_a; [97; 0]] l.*2 /\ NoDup (cstr <$> l.*2)
    end.
Proof.
  apply (store_open_dedups demo_dup).
  - repeat constructor; try (vm_compute; intuition congruence). exists 0. done.
  - repeat constructor; right; left.
  - vm_compute. discriminate.
Defined.

(** A disk without room: pages are 8 bytes, so that one small record fills the file. *)
Definition full_disk : OS.
Proof.
  refine {| page_log := 3; mmap_ok _ := true; posix_fallocate _ _ := 28; ftruncate_ok _ := true;
            realloc_ok _ := true |}. lia.
Defined.

Definition full_store : store := mk_store (encs [RData demo_a [0]]) 8 8 [Some 0] 64.

Lemma put_disk_full_witness :
  store_put (os:=full_disk) full_store 5 demo_b = Crash OutOfBounds.
Proof.
  apply (put_disk_full (os:=full_disk) 28 (fun _ _ => eq_refl) ltac:(lia) (fun _ => eq_refl)
    (fun _ => eq_refl) full_store [(0, demo_a)] [RData demo_a [0]] [] demo_b).
  - split; try done; try (by left); try (by exists 1); repeat constructor; vm_compute; congruence.
  - split_and!; [done|done|repeat constructor|done|]. repeat constructor.
  - split; [done|right; left].
  - vm_compute. discriminate.
  - reflexivity.
  - reflexivity.
Defined.

(** A system on which no bigger file can be mapped. *)
Definition no_mmap : OS.
Proof.
  refine {| page_log := 3; mmap_ok _ := false; posix_fallocate _ _ := 0; ftruncate_ok _ := true;
            realloc_ok _ := true |}. lia.
Defined.

(** A [store_put] that fails to replace a value by a longer one does not leave the old value
    in place: the key is gone, although the routine that resizes the record is documented not
    to lose data. *)
Theorem failed_put_loses_value :
  exists s', store_put (os:=no_mmap) full_store 9 [97; 0; 1; 2; 3; 4; 5; 6; 7] = Done (-1, s') /\
    store_get full_store [97] = Done (Some demo_a) /\ store_get s' [97] = Done None.
Proof. eexists. split; [vm_compute; reflexivity|]. split; vm_compute; reflexivity. Qed.

Lemma scan_never_ends_witness :
  scan_loop 1000 (enc16 0 ++ enc16 0 ++ enc32 (2 ^ 32 - 8) ++ replicate 4088 0) 4096 0 0 =
    Crash OutOfFuel.
Proof. apply (scan_never_ends 1000 (replicate 4088 0) 0). vm_compute. reflexivity. Defined.
