(* ===== verification/Rxbuf.v ===== *)
(** * Receive buffers (src/lib/rxbuf.c)

    A growable buffer of bytes. The field [len] of the source is the length of [buf]; bytes of
    the allocation past it are not represented. A write past [max] is a crash. *)
From S2P Require Import Prelude StoreDefs.

Definition SIZECHUNK : Z := 1024.

Record rxbuf := mk_rxbuf {
  rx_buf : bytes;    (* the first len bytes of the allocation *)
  rx_max : Z         (* size of the allocation *)
}.

Section Rxbuf.
Context {os : OS}.

Definition rx_roundup (n align : Z) : Z :=
  let remainder := n mod align in
  if remainder =? 0 then n else n + (align - remainder).

Definition rxbuf_init : rxbuf := mk_rxbuf [] 0.

(** Resize the rxbuf in increments of SIZECHUNK. *)
Definition rxbuf_resize (rx : rxbuf) (sz : Z) : outcome (Z * rxbuf) :=
  if 0x10000 <=? sz then Done (-1, rx)       (* ENOSPC *)
  else
    let sz := rx_roundup sz SIZECHUNK in
    _ ← assert_c (zlen (rx_buf rx) <=? sz);
    if rx_max rx =? sz then Done (0, rx)
    else if negb (realloc_ok sz) then Done (-1, rx)
    else Done (0, mk_rxbuf (rx_buf rx) sz).

(** [memcpy(rx->buf + rx->len, p, n); rx->len += n] *)
Definition rx_store (rx : rxbuf) (p : bytes) : outcome rxbuf :=
  if zlen (rx_buf rx) + zlen p <=? rx_max rx then Done (mk_rxbuf (rx_buf rx ++ p) (rx_max rx))
  else Crash OutOfBounds.

Definition rxbuf_addc (rx : rxbuf) (ch : byte) : outcome (Z * rxbuf) :=
  '(r, rx1) ← (if rx_max rx <=? zlen (rx_buf rx) then rxbuf_resize rx (zlen (rx_buf rx) + 1)
               else Done (0, rx));
  if r =? -1 then Done (-1, rx1)
  else rx2 ← rx_store rx1 [ch]; Done (0, rx2).

Definition rxbuf_add (rx : rxbuf) (p : bytes) : outcome (Z * rxbuf) :=
  '(r, rx1) ← rxbuf_resize rx (zlen (rx_buf rx) + zlen p);
  if r =? -1 then Done (-1, rx1)
  else rx2 ← rx_store rx1 p; Done (0, rx2).

(** Clears the buffer, and ensures it has space for sz chars. *)
Definition rxbuf_clear (rx : rxbuf) (sz : Z) : outcome (Z * rxbuf) :=
  rxbuf_resize (mk_rxbuf [] (rx_max rx)) sz.

(** The loop pops spaces from the end of the buffer. *)
Fixpoint drop_spaces (l : bytes) : bytes :=
  match l with
  | c :: l' => if c =? 32 then drop_spaces l' else l
  | [] => []
  end.
Definition rxbuf_trimspace (rx : rxbuf) : rxbuf :=
  mk_rxbuf (reverse (drop_spaces (reverse (rx_buf rx)))) (rx_max rx).

(** Ensure a NUL follows the active buffer region. *)
Definition rxbuf_zeropad (rx : rxbuf) : outcome (Z * rxbuf) :=
  '(r, rx1) ← rxbuf_add rx [0];
  if r =? -1 then Done (-1, rx1)
  else Done (0, mk_rxbuf (rx_buf rx) (rx_max rx1)).

(** ** Properties *)

(** The content fits in the allocation, which is a whole number of chunks. *)
Definition rx_ok (rx : rxbuf) : Prop :=
  zlen (rx_buf rx) <= rx_max rx <= 65536 /\ (1024 | rx_max rx).

Lemma rx_roundup_spec n :
  0 <= n -> n <= rx_roundup n SIZECHUNK < n + 1024 /\ (1024 | rx_roundup n SIZECHUNK).
Proof.
  intros Hn. unfold rx_roundup, SIZECHUNK. pose proof (Z.mod_pos_bound n 1024).
  pose proof (Z.div_mod n 1024). destruct (Z.eqb_spec (n mod 1024) 0) as [E|E].
  - split; [lia|]. apply Z.mod_divide; lia.
  - split; [lia|]. exists (n / 1024 + 1). lia.
Qed.

Lemma rxbuf_resize_ok rx sz :
  rx_ok rx -> zlen (rx_buf rx) <= sz ->
  exists r rx', rxbuf_resize rx sz = Done (r, rx') /\ rx_buf rx' = rx_buf rx /\ rx_ok rx' /\
    (r = 0 /\ sz < 65536 /\ sz <= rx_max rx' \/
     r = -1 /\ rx' = rx /\ (65536 <= sz \/ exists n, realloc_ok n = false)).
Proof.
  intros Hok Hsz. destruct (Hok) as [[H1 H2] H3]. pose proof (zlen_nonneg (rx_buf rx)).
  unfold rxbuf_resize. destruct (Z.leb_spec 0x10000 sz) as [Hbig|Hbig].
  { exists (-1), rx. split_and!; [done|done|done|]. right. split_and!; auto. }
  destruct (rx_roundup_spec sz) as [Hr [q Hq]]; [lia|]. set (sz' := rx_roundup sz SIZECHUNK) in *.
  destruct (Z.leb_spec (zlen (rx_buf rx)) sz'); [|lia]. ostep.
  destruct (Z.eqb_spec (rx_max rx) sz') as [E|E].
  { exists 0, rx. split_and!; [done|done|done|]. left. split_and!; [done|lia|lia]. }
  destruct (realloc_ok sz') eqn:Er; cbn [negb].
  - exists 0, (mk_rxbuf (rx_buf rx) sz'). split_and!; [done|done| |].
    + split; cbn; [lia|by exists q].
    + left. split_and!; [done|lia|cbn; lia].
  - exists (-1), rx. split_and!; [done|done|done|]. right. split_and!; [done|done|]. right; eauto.
Qed.

Lemma rxbuf_add_ok rx p :
  rx_ok rx ->
  exists r rx', rxbuf_add rx p = Done (r, rx') /\ rx_ok rx' /\
    (r = 0 /\ rx_buf rx' = rx_buf rx ++ p /\ zlen (rx_buf rx ++ p) < 65536 \/
     r = -1 /\ rx' = rx /\
       (65536 <= zlen (rx_buf rx ++ p) \/ exists n, realloc_ok n = false)).
Proof.
  intros Hok. pose proof (zlen_nonneg p).
  destruct (rxbuf_resize_ok rx (zlen (rx_buf rx) + zlen p) Hok) as (r & rx' & E & Hb & Hok' & Hc); [lia|].
  unfold rxbuf_add. rewrite E. ostep. destruct Hc as [(-> & Hlt & Hmx)|(-> & -> & Hf)]; cbn [Z.eqb].
  - unfold rx_store. rewrite Hb. destruct (Z.leb_spec (zlen (rx_buf rx) + zlen p) (rx_max rx')); [|lia].
    ostep. exists 0, (mk_rxbuf (rx_buf rx ++ p) (rx_max rx')). destruct Hok' as [? ?].
    rewrite zlen_app. split_and!; [done|split; cbn; [rewrite zlen_app; lia|done]|]. by left.
  - exists (-1), rx. rewrite zlen_app. split_and!; [done|done|]. by right.
Qed.

Lemma rxbuf_addc_ok rx c :
  rx_ok rx ->
  exists r rx', rxbuf_addc rx c = Done (r, rx') /\ rx_ok rx' /\
    (r = 0 /\ rx_buf rx' = rx_buf rx ++ [c] \/
     r = -1 /\ rx' = rx /\ (65535 <= zlen (rx_buf rx) \/ exists n, realloc_ok n = false)).
Proof.
  intros Hok. unfold rxbuf_addc. destruct (Z.leb_spec (rx_max rx) (zlen (rx_buf rx))) as [Hle|Hlt].
  - destruct (rxbuf_resize_ok rx (zlen (rx_buf rx) + 1) Hok) as (r & rx' & E & Hb & Hok' & Hc); [lia|].
    rewrite E. ostep. destruct Hc as [(-> & Hlt & Hmx)|(-> & -> & Hf)]; cbn [Z.eqb].
    + unfold rx_store. rewrite Hb, zlen_one.
      destruct (Z.leb_spec (zlen (rx_buf rx) + 1) (rx_max rx')); [|lia]. ostep.
      exists 0, (mk_rxbuf (rx_buf rx ++ [c]) (rx_max rx')). destruct Hok' as [? ?].
      split_and!; [done|split; cbn; [rewrite zlen_app, zlen_one; lia|done]|]. by left.
    + exists (-1), rx. split_and!; [done|done|]. right. split_and!; [done|done|].
      destruct Hf; [left; lia|by right].
  - ostep. cbn [Z.eqb]. unfold rx_store. rewrite zlen_one.
    destruct (Z.leb_spec (zlen (rx_buf rx) + 1) (rx_max rx)); [|lia]. ostep.
    exists 0, (mk_rxbuf (rx_buf rx ++ [c]) (rx_max rx)). destruct Hok as [? ?].
    split_and!; [done|split; cbn; [rewrite zlen_app, zlen_one; lia|done]|]. by left.
Qed.

Lemma rxbuf_clear_ok rx sz :
  rx_ok rx -> 0 <= sz < 65536 ->
  exists r rx', rxbuf_clear rx sz = Done (r, rx') /\ rx_buf rx' = [] /\ rx_ok rx' /\
    (r = 0 \/ r = -1 /\ exists n, realloc_ok n = false).
Proof.
  intros [[H1 H2] H3] Hsz. pose proof (zlen_nonneg (rx_buf rx)). unfold rxbuf_clear.
  destruct (rxbuf_resize_ok (mk_rxbuf [] (rx_max rx)) sz) as (r & rx' & -> & Hb & Hok & Hc).
  - split; cbn [rx_buf rx_max]; [rewrite zlen_nil; lia|done].
  - cbn [rx_buf]. rewrite zlen_nil. lia.
  - exists r, rx'. split_and!; [done|done|done|].
    destruct Hc as [[-> _]|(-> & _ & [?|?])]; [by left|lia|by right].
Qed.

Lemma rxbuf_zeropad_ok rx :
  rx_ok rx ->
  exists r rx', rxbuf_zeropad rx = Done (r, rx') /\ rx_buf rx' = rx_buf rx /\ rx_ok rx' /\
    (r = 0 \/ r = -1 /\ (65535 <= zlen (rx_buf rx) \/ exists n, realloc_ok n = false)).
Proof.
  intros Hok. destruct (rxbuf_add_ok rx [0] Hok) as (r & rx' & E & Hok' & Hc).
  unfold rxbuf_zeropad. rewrite E. ostep. rewrite zlen_app, zlen_one in Hc.
  destruct Hc as [(-> & Hb & Hlt)|(-> & -> & Hf)]; cbn [Z.eqb].
  - eexists _, _. split; [done|]. split_and!; [done| |by left].
    destruct Hok' as [Hm ?]. rewrite Hb, zlen_app, zlen_one in Hm. split; cbn; [lia|done].
  - exists (-1), rx. split_and!; [done|done|done|]. right. split; [done|].
    destruct Hf; [left; lia|by right].
Qed.

(** There is room for the NUL. *)
Lemma rxbuf_zeropad_fits rx rx' : rxbuf_zeropad rx = Done (0, rx') -> zlen (rx_buf rx) < 65535.
Proof.
  unfold rxbuf_zeropad, rxbuf_add, rxbuf_resize. rewrite zlen_one.
  destruct (Z.leb_spec 0x10000 (zlen (rx_buf rx) + 1)); [done|lia].
Qed.

Lemma rxbuf_trimspace_ok rx : rx_ok rx -> rx_ok (rxbuf_trimspace rx).
Proof.
  intros [[H1 H2] H3]. split; cbn; [|done]. split; [|done].
  etransitivity; [|exact H1]. unfold zlen. rewrite length_reverse.
  rewrite <- (length_reverse (rx_buf rx)). generalize (reverse (rx_buf rx)). intros l.
  induction l as [|c l IH]; cbn [drop_spaces]; [done|]. destruct (c =? 32); cbn [length]; lia.
Qed.

End Rxbuf.
