(* ===== verification/Sock.v ===== *)
(** * Sockets (src/lib/sockunix.c, src/lib/socktcp.c)

    How the addresses of the server are made, and the error paths around the system calls. The
    environment is an argument; [Sockets] are the calls, which act on a state [K]. *)
From S2P Require Import Prelude StoreDefs.
Local Open Scope infod_scope.

(** ** Local sockets (sockunix.c) *)

(** [sizeof sun->sun_path] and [offsetof(struct sockaddr_un, sun_path)] *)
Definition SUN_PATH_SIZE : Z := 108.
Definition SUN_PATH_OFFSET : Z := 2.
(** ["\0INFOD"] *)
Definition INFOD_SOCKET : bytes := 0 :: $"INFOD".

(** The content of [sun_path], and the length of the address. [env] is
    [getenv("INFOD_SOCKET")]. *)
Definition init_address (env : option bytes) : outcome (bytes * Z) :=
  let '(path, len) :=
    match option_map cstr env with
    | Some (c :: path) =>
        let len := zlen (c :: path) in
        (c :: path, if SUN_PATH_SIZE <? len then SUN_PATH_SIZE else len)
    | _ => (INFOD_SOCKET, zlen INFOD_SOCKET)
    end in
  sun_path ← of_option OutOfBounds
    (mwrite (replicate (Z.to_nat SUN_PATH_SIZE) 0) 0 (take (Z.to_nat len) path));
  Done (sun_path, SUN_PATH_OFFSET + len).

(** The system calls; an address of a local socket is its path and length. *)
Class Sockets (K : Type) := {
  unix_socket : K -> option Z * K;
  unix_bind : K -> Z -> bytes * Z -> bool * K;
  unix_listen : K -> Z -> bool * K;
  unix_connect : K -> Z -> bytes * Z -> bool * K;
  unix_close : K -> Z -> K
}.

Section Unix.
Context {K : Type} {sk : Sockets K}.

(** [None] stands for -1. *)
Definition sockunix_listen (k : K) (env : option bytes) : outcome (option Z * K) :=
  match unix_socket k with
  | (None, k1) => Done (None, k1)
  | (Some s, k1) =>
      sun ← init_address env;
      match unix_bind k1 s sun with
      | (false, k2) => Done (None, unix_close k2 s)
      | (true, k2) =>
          match unix_listen k2 s with
          | (false, k3) => Done (None, unix_close k3 s)
          | (true, k3) => Done (Some s, k3)
          end
      end
  end.

Definition sockunix_connect (k : K) (env : option bytes) : outcome (option Z * K) :=
  match unix_socket k with
  | (None, k1) => Done (None, k1)
  | (Some s, k1) =>
      sun ← init_address env;
      match unix_connect k1 s sun with
      | (false, k2) => Done (None, unix_close k2 s)
      | (true, k2) => Done (Some s, k2)
      end
  end.

End Unix.

(** ** TCP (socktcp.c) *)

Definition INFOD3_PORT : bytes := $"26931".

(** [strrchr(s, ':')]: what is before and after the last colon. *)
Fixpoint split_colon (s : bytes) : option (bytes * bytes) :=
  match s with
  | [] => None
  | c :: s' =>
      match split_colon s' with
      | Some (a, b) => Some (c :: a, b)
      | None => if c =? 58 then Some ([], s') else None
      end
  end.

(** The node and service given to getaddrinfo(); [env] is [getenv(INFOD_SERVER)]. A node is cut
    to 255 bytes by snprintf(). *)
Definition client_addr (hostport env : option bytes) : outcome (option bytes * bytes) :=
  hp ← match hostport with
       | Some hp => Done (Some (cstr hp))
       | None =>
           e ← of_option NullDeref env;
           Done (match cstr e with [] => None | e' => Some e' end)
       end;
  let hp := default INFOD3_PORT hp in
  Done (match split_colon hp with
        | Some (host, port) => (Some (take 255 host), port)
        | None => (None, hp)
        end).

Definition server_addr (port : option bytes) : option bytes * bytes := (None, default INFOD3_PORT port).

(** ** Properties *)

Lemma prefix_write (n : Z) (b : bytes) :
  zlen b <= n -> mwrite (replicate (Z.to_nat n) 0) 0 b = Some (b ++ replicate (Z.to_nat (n - zlen b)) 0).
Proof.
  intros Hn. pose proof (zlen_nonneg b).
  replace (replicate (Z.to_nat n) 0) with ([] ++ replicate (length b) 0 ++ replicate (Z.to_nat (n - zlen b)) 0).
  - rewrite (mwrite_app [] (replicate (length b) 0) _ b 0); [done|done|unfold zlen; by rewrite length_replicate].
  - cbn [app]. rewrite <- replicate_add. f_equal. unfold zlen in *. lia.
Qed.

(** The path that the address is made of. *)
Definition socket_path (env : option bytes) : bytes :=
  match option_map cstr env with Some (c :: path) => c :: path | _ => INFOD_SOCKET end.

(** C33: the address of the local socket stays within its structure whatever the environment
    says: it is the path, cut to the 108 bytes of [sun_path] and filled up with NULs, and its
    length counts the bytes of the path. *)
Theorem address_in_bounds env :
  let path := take 108 (socket_path env) in
  init_address env = Done (path ++ replicate (108 - length path) 0, 2 + zlen path).
Proof.
  intros path. unfold init_address. set (pl := match option_map cstr env with Some (c :: path) => _ | _ => _ end).
  set (sp := socket_path env) in *. assert (E : pl = (sp, Z.min 108 (zlen sp))).
  { unfold pl, sp, socket_path. destruct (option_map cstr env) as [[|c l]|]; [done| |done].
    unfold SUN_PATH_SIZE. destruct (Z.ltb_spec 108 (zlen (c :: l))); f_equal; lia. }
  rewrite E.
  assert (Et : take (Z.to_nat (Z.min 108 (zlen sp))) sp = path).
  { unfold path, zlen. destruct (Nat.le_gt_cases (length sp) 108).
    - rewrite !take_ge by lia. done.
    - f_equal. lia. }
  assert (Hl : zlen path = Z.min 108 (zlen sp)) by (unfold path, zlen; rewrite length_take; lia).
  rewrite Et. unfold SUN_PATH_SIZE, SUN_PATH_OFFSET. rewrite prefix_write by lia. ostep. rewrite <- Hl.
  replace (Z.to_nat (108 - zlen path)) with (108 - length path)%nat by (unfold zlen; lia). done.
Qed.

Lemma split_colon_app a b : 58 ∉ b -> split_colon (a ++ 58 :: b) = Some (a, b).
Proof.
  intros Hb. induction a as [|c a IH]; cbn [app split_colon]; [|by rewrite IH].
  enough (split_colon b = None) as ->; [done|]. induction b as [|c b IHb]; [done|]. cbn [split_colon].
  apply not_elem_of_cons in Hb as [Hc Hb]. rewrite (IHb Hb).
  by destruct (Z.eqb_spec c 58) as [->|].
Qed.

(** The host and the port of a [host:port] are found again. *)
Lemma client_addr_roundtrip host port env :
  nul_free (host ++ 58 :: port) -> 58 ∉ port -> zlen host <= 255 ->
  client_addr (Some (host ++ 58 :: port)) env = Done (Some host, port).
Proof.
  intros Hn Hp Hl. unfold client_addr. ostep. rewrite cstr_id by done. cbn [default from_option id].
  rewrite split_colon_app by done. by rewrite take_ge by (unfold zlen in Hl; lia).
Qed.

(** Without an argument, [*hostport] is read even when the environment has no such variable. *)
Example no_server_variable : client_addr None None = Crash NullDeref.
Proof. reflexivity. Qed.
