(* ===== verification/ProtoDefs.v ===== *)
(** * The protocol translator: definitions
      (src/lib/proto.c, protofram.c, protobin.c, prototext.c, protopriv.h)

    [struct proto] translates between the network and an application. Its three callbacks are
    functions over a state [W] of whoever owns the translator: [on_input] takes a decoded
    message, [on_sendv] bytes for the network (one list per iovec), [on_error] a diagnostic
    (its [errno] and tag; the text made by [vsnprintf] is not modelled). A callback reads the
    translator and does not change it. *)
From S2P Require Import Prelude StoreDefs Rxbuf.
Local Open Scope infod_scope.

(** ** Message and command IDs (proto.h) *)

Definition CMD_HELLO : Z := 0x00.
Definition CMD_SUB : Z := 0x01.
Definition CMD_UNSUB : Z := 0x02.
Definition CMD_READ : Z := 0x03.
Definition CMD_WRITE : Z := 0x04.
Definition CMD_BEGIN : Z := 0x05.
Definition CMD_COMMIT : Z := 0x06.
Definition CMD_PING : Z := 0x07.
Definition MSG_VERSION : Z := 0x80.
Definition MSG_INFO : Z := 0x81.
Definition MSG_PONG : Z := 0x82.
Definition MSG_ERROR : Z := 0x83.
Definition MSG_EOF : Z := 0xff.
Definition PSEUDO_HELP : Z := 0xfe.

Definition PROTO_ERROR_BAD_MSG : Z := 100.
Definition PROTO_ERROR_BAD_ARG : Z := 101.
Definition PROTO_ERROR_TOO_BIG : Z := 102.
Definition PROTO_ERROR_BAD_SEQ : Z := 103.
Definition PROTO_ERROR_INTERNAL : Z := 255.

Definition PROTO_MODE_UNKNOWN : Z := 0.
Definition PROTO_MODE_BINARY : Z := 1.
Definition PROTO_MODE_TEXT : Z := 2.
Definition PROTO_MODE_FRAMED : Z := 3.

(** ** State (protopriv.h) *)

Inductive tstate :=
  | T_ERROR      (* discard until EOL *)
  | T_BOL        (* skip space until cmd *)
  | T_CMD        (* consume command word *)
  | T_ARGSP      (* skip space until arg *)
  | T_INT        (* consume decimal integer *)
  | T_STRBEG     (* expect a quote or unquoted string *)
  | T_STR        (* consume unquoted string *)
  | T_QSTR       (* consume quoted string *)
  | T_QOCT.      (* consume \ooo octal code *)

#[export] Instance tstate_eq_dec : EqDecision tstate.
Proof. solve_decision. Defined.

(** [struct textproto]; [cmd] is an array of 16 bytes, [fmt] the rest of a format string. *)
Record textproto := mk_text {
  state : tstate;
  fmt : bytes;
  intval : Z;
  cmd : bytes;
  cmdlen : Z;
  counter : Z;
  optional : bool
}.

Record proto := mk_proto {
  mode : Z;
  rx : rxbuf;
  t : textproto
}.

Definition set_mode (p : proto) (m : Z) : proto := mk_proto m (rx p) (t p).
Definition set_rx (p : proto) (r : rxbuf) : proto := mk_proto (mode p) r (t p).
Definition set_t (p : proto) (x : textproto) : proto := mk_proto (mode p) (rx p) x.
Definition set_state (p : proto) (st : tstate) : proto :=
  set_t p (mk_text st (fmt (t p)) (intval (t p)) (cmd (t p)) (cmdlen (t p)) (counter (t p))
                   (optional (t p))).
Definition set_fmt (p : proto) (f : bytes) : proto :=
  set_t p (mk_text (state (t p)) f (intval (t p)) (cmd (t p)) (cmdlen (t p)) (counter (t p))
                   (optional (t p))).
Definition set_intval (p : proto) (v : Z) : proto :=
  set_t p (mk_text (state (t p)) (fmt (t p)) v (cmd (t p)) (cmdlen (t p)) (counter (t p))
                   (optional (t p))).
Definition set_cmd (p : proto) (c : bytes) (n : Z) : proto :=
  set_t p (mk_text (state (t p)) (fmt (t p)) (intval (t p)) c n (counter (t p)) (optional (t p))).
Definition set_counter (p : proto) (n : Z) : proto :=
  set_t p (mk_text (state (t p)) (fmt (t p)) (intval (t p)) (cmd (t p)) (cmdlen (t p)) n
                   (optional (t p))).
Definition set_optional (p : proto) (b : bool) : proto :=
  set_t p (mk_text (state (t p)) (fmt (t p)) (intval (t p)) (cmd (t p)) (cmdlen (t p))
                   (counter (t p)) b).

(** [malloc] leaves arbitrary content in the text decoder; only [state] is initialised. *)
Definition proto_new (junk : textproto) : proto :=
  set_state (mk_proto PROTO_MODE_UNKNOWN (mk_rxbuf [] 0) junk) T_BOL.

Definition proto_set_mode (p : proto) (m : Z) : Z * proto := (0, set_mode p m).
Definition proto_get_mode (p : proto) : Z := mode p.

(** The command (and message) table of prototext.c. *)
Definition cmdtab : list (bytes * Z * bytes) :=
  [ ($"HELLO",   CMD_HELLO,   $"i|t");
    ($"SUB",     CMD_SUB,     $"t");
    ($"S",       CMD_SUB,     $"t");
    ($"UNSUB",   CMD_UNSUB,   $"t");
    ($"U",       CMD_UNSUB,   $"t");
    ($"READ",    CMD_READ,    $"t");
    ($"R",       CMD_READ,    $"t");
    ($"WRITE",   CMD_WRITE,   $"t|0t");
    ($"W",       CMD_WRITE,   $"t|0t");
    ($"BEGIN",   CMD_BEGIN,   $"");
    ($"B",       CMD_BEGIN,   $"");
    ($"COMMIT",  CMD_COMMIT,  $"");
    ($"C",       CMD_COMMIT,  $"");
    ($"PING",    CMD_PING,    $"|t");
    ($"P",       CMD_PING,    $"|t");
    ($"VERSION", MSG_VERSION, $"i|t");
    ($"INFO",    MSG_INFO,    $"t|0t");
    ($"PONG",    MSG_PONG,    $"|t");
    ($"ERROR",   MSG_ERROR,   $"it");
    ($"HELP",    PSEUDO_HELP, $"");
    ($"H",       PSEUDO_HELP, $"") ].

(** A line of the help text; [Q] is the double quote. *)
Definition Q : bytes := [34].
Definition CRLF : bytes := [13; 10].
Definition line (parts : list bytes) : bytes := concat parts ++ CRLF.

Definition help_text : bytes := concat
  [ line [$"Commands:"];
    line [$" hello <int> [<clientid>]   - negotiate protocol"];
    line [$" sub <pattern>              - subscribe to pattern"];
    line [$" unsub <pattern>            - remove previous subscription"];
    line [$" read <key>                 - read from store, request INFO"];
    line [$" write <key> [<value>]      - write to store"];
    line [$" begin                      - begin command group"];
    line [$" commit                     - execute command group"];
    line [$" ping [<string>]            - request a PONG reply"];
    line [$" help                       - this help text"];
    line [];
    line [$"Most commands may be abbreviated to their first letter"];
    line [];
    line [$"Reply messages:"];
    line [$" VERSION <int> [<serverid>] - server's selected protocol"];
    line [$" INFO <key> [<value>]       - store content; no <value> deleted"];
    line [$" PONG [<string>]            - reply to PING"];
    line [$" ERROR <int> <text>         - error message"];
    line [];
    line [$"Quoting:"];
    line [$" Quoted strings begin and end with "; Q; $"."];
    line [$" Quoted strings never contain an unescaped LF CR "; Q; $" \ or NUL."];
    line [$" Escapes are always octal, eg \134 for \ and \042 for "; Q; $"."];
    line [$" If a client's string doesn't start with "; Q; $" then it's assumed"];
    line [$" literal and continues without escape processing until next SPC,"];
    line [$" or EOL. If it's the last arg then it's to EOL ignoring trailing"];
    line [$" spaces. The server will always quote its strings."];
    line [];
    line [$"Patterns:"];
    line [$" x       Any char except ( | ) * \ matches itself"];
    line [$" *x      Matches shortest substring up to and including an x"];
    line [$" *       Wildcard at end of pattern matches rest of string"];
    line [$" (a|b|c) Matches first branch a b or c then resumes at )"];
    line [$" \x      Matches char x which may be a metachar."];
    line [$"End of help."] ].

(** ** Variable arguments *)

(** What [va_arg] can fetch: an [int], or a pointer to an object. *)
Inductive arg := AInt (n : Z) | APtr (b : bytes).

Definition va_int (ap : list arg) : outcome (Z * list arg) :=
  match ap with AInt n :: ap' => Done (n, ap') | _ => Crash OutOfBounds end.
Definition va_ptr (ap : list arg) : outcome (bytes * list arg) :=
  match ap with APtr b :: ap' => Done (b, ap') | _ => Crash OutOfBounds end.

Definition is_eol (ch : byte) : bool := (ch =? 10) || (ch =? 13).

Section Proto.
Context {os : OS} {W : Type}.

Record callbacks := mk_callbacks {
  on_input : option (proto -> W -> Z -> bytes -> outcome (Z * W));
  on_sendv : option (proto -> W -> list bytes -> outcome (Z * W));
  on_error : option (proto -> W -> errno -> bytes -> W)
}.
Context (cb : callbacks).

(** Common function for sending a message to on_error. *)
Definition proto_errorv (p : proto) (w : W) (err : errno) (tag : bytes) : W :=
  match on_error cb with
  | Some f => f p w err tag
  | None => w
  end.

(** [p->on_sendv ? p->on_sendv(p, iov, n) : 0] *)
Definition sendv (p : proto) (w : W) (iov : list bytes) : outcome (Z * W) :=
  match on_sendv cb with
  | Some f => f p w iov
  | None => Done (0, w)
  end.

(** ** Binary encoding (protofram.c, protobin.c) *)

Definition output_binary_error (p : proto) (w : W) (err : errno) : W :=
  proto_errorv p w err $"proto_output() binary".

(** Convert the format string into an iov list: [None] stands for -1. [niov] iovs and
    [worklen] bytes of the work buffer have been used. *)
Fixpoint to_binary_iov (p : proto) (w : W) (maxiov worksz : Z) (fmt : bytes) (ap : list arg)
    (niov worklen : Z) : outcome (option (list bytes) * W) :=
  let emit iov fmt' ap' wl :=
    '(r, w') ← to_binary_iov p w maxiov worksz fmt' ap' (niov + 1) wl;
    Done (option_map (cons iov) r, w') in
  match fmt with
  | [] => Done (Some [], w)
  | f :: fmt1 =>
      if f =? 32 then to_binary_iov p w maxiov worksz fmt1 ap niov worklen
      else if negb (f =? 37) then Done (None, output_binary_error p w EINVAL)
      else if maxiov <=? niov then Done (None, w)                    (* too many % args *)
      else match fmt1 with
      | [] => Done (None, output_binary_error p w EINVAL)
      | c :: fmt2 =>
          if c =? 42 (* * *) then
            match fmt2 with
            | s :: fmt3 =>
                if s =? 115 then
                  '(len, ap1) ← va_int ap;
                  '(base, ap2) ← va_ptr ap1;
                  iov ← of_option OutOfBounds (mread base 0 len);
                  emit iov fmt3 ap2 worklen
                else Crash Aborted
            | [] => Crash Aborted
            end
          else if c =? 115 (* s *) then
            '(str, ap1) ← va_ptr ap;
            emit (cstr str) fmt2 ap1 worklen
          else if c =? 99 (* c *) then
            if worksz <=? worklen then Done (None, w)                (* too many %c *)
            else
              '(n, ap1) ← va_int ap;
              emit [Z.land n 0xff] fmt2 ap1 (worklen + 1)
          else Done (None, output_binary_error p w EINVAL)
      end
  end.

Definition output_framed (p : proto) (w : W) (msg : Z) (fmt : bytes) (ap : list arg)
    : outcome (Z * W) :=
  '(r, w1) ← to_binary_iov p w 7 8 fmt ap 0 0;
  match r with
  | None => Done (-1, w1)
  | Some iov => sendv p w1 ([msg] :: iov)
  end.

Definition iov_size (iov : list bytes) : Z := foldr (fun i n => zlen i + n) 0 iov.

Definition output_binary (p : proto) (w : W) (msg : Z) (fmt : bytes) (ap : list arg)
    : outcome (Z * W) :=
  '(r, w1) ← to_binary_iov p w 9 16 fmt ap 0 0;
  match r with
  | None => Done (-1, w1)
  | Some iov =>
      let sz := iov_size iov in
      if 0xffff <? sz then Done (-1, output_binary_error p w1 ENOMEM)
      else
        let tl := [msg; Z.land (Z.shiftr sz 8) 0xff; Z.land sz 0xff] in
        sendv p w1 (tl :: iov)
  end.

(** ** Text encoding (prototext.c)

    The output buffer is a static array of 4096 bytes; [ob] is its content up to
    [outbuf_len]. A result is the return value, the buffer and the owner's state. *)

Definition OUTBUF_SIZE : Z := 4096.

Definition outbuf_flush (p : proto) (ob : bytes) (w : W) : outcome (Z * bytes * W) :=
  if zlen ob =? 0 then Done (0, ob, w)
  else
    '(r, w') ← sendv p w [ob];
    Done (r, [], w').

(** [sizeof sizeof outbuf] is the size of a [size_t]: 8 bytes. The difference is truncated to
    an [unsigned int]. *)
Definition proto_outbuf (p : proto) (ob : bytes) (w : W) (data : bytes)
    : outcome (Z * bytes * W) :=
  let space := u32 (8 - zlen ob) in
  let datasz := zlen data in
  if datasz <=? space then
    (* Small writes: append to buffer *)
    if zlen ob + datasz <=? OUTBUF_SIZE then Done (0, ob ++ data, w) else Crash OutOfBounds
  else if OUTBUF_SIZE <=? datasz then
    (* Huge writes: send buffer current data immediately *)
    '(r, w') ← sendv p w [ob; data];
    Done (r, [], w')
  else
    (* Medium writes: pack buffer, drain, start new fill *)
    '(r, _, w') ← outbuf_flush p (ob ++ take (Z.to_nat space) data) w;
    if r =? -1 then Done (-1, [], w')
    else Done (0, drop (Z.to_nat space) data, w').

Definition outbuf_putc (p : proto) (ob : bytes) (w : W) (ch : byte) : outcome (Z * bytes * W) :=
  if zlen ob <? OUTBUF_SIZE then
    let ob1 := ob ++ [ch] in
    if zlen ob1 =? OUTBUF_SIZE then outbuf_flush p ob1 w else Done (0, ob1, w)
  else Crash OutOfBounds.

Definition output_text_error (p : proto) (w : W) (err : errno) : W :=
  proto_errorv p w err $"proto_output() text".

Definition needs_escape (ch : byte) : bool :=
  (ch =? 10) || (ch =? 13) || (ch =? 34) || (ch =? 92) || (ch =? 0).

Definition escape (ch : byte) : bytes :=
  [92; Z.lor 48 (Z.land (Z.shiftr ch 6) 7); Z.lor 48 (Z.land (Z.shiftr ch 3) 7);
   Z.lor 48 (Z.land ch 7)].

Fixpoint output_text_chars (p : proto) (ob : bytes) (w : W) (str : bytes)
    : outcome (Z * bytes * W) :=
  match str with
  | [] => Done (0, ob, w)
  | ch :: str' =>
      '(r, ob1, w1) ← (if needs_escape ch then proto_outbuf p ob w (escape ch)
                       else outbuf_putc p ob w ch);
      if r =? -1 then Done (-1, ob1, w1) else output_text_chars p ob1 w1 str'
  end.

(** Sends a quoted string argument. *)
Definition output_text_string (p : proto) (ob : bytes) (w : W) (str : bytes)
    : outcome (Z * bytes * W) :=
  if 0xffff <? zlen str then Done (-1, ob, output_text_error p w EINVAL)
  else
    '(r, ob1, w1) ← outbuf_putc p ob w 34;
    if r =? -1 then Done (-1, ob1, w1)
    else
      '(r, ob2, w2) ← output_text_chars p ob1 w1 str;
      if r =? -1 then Done (-1, ob2, w2) else outbuf_putc p ob2 w2 34.

(** [snprintf(ibuf, sizeof ibuf, "%u", ch & 0xff)] *)
Definition print_byte (n : Z) : bytes :=
  if n <? 10 then [48 + n]
  else if n <? 100 then [48 + n / 10; 48 + n mod 10]
  else [48 + n / 100; 48 + n / 10 mod 10; 48 + n mod 10].

(** [t = *tfmt++; while (t == '|') { optional = 1; t = *tfmt++; }] *)
Fixpoint next_tfmt (tfmt : bytes) (optional : bool) : byte * bytes * bool :=
  match tfmt with
  | [] => (0, [], optional)
  | c :: tfmt' => if c =? 124 then next_tfmt tfmt' true else (c, tfmt', optional)
  end.

(** [while ( *fmt == ' ') fmt++; !*fmt] *)
Fixpoint blank (fmt : bytes) : bool :=
  match fmt with
  | [] => true
  | c :: fmt' => if c =? 32 then blank fmt' else false
  end.

Definition bytes_eqb (a b : bytes) : bool := bool_decide (a = b).

(** The case of a [%*s] in [output_text]; [Some] holds the new [tfmt] and [optional]. *)
Definition output_star (p : proto) (ob : bytes) (w : W) (str : bytes) (tfmt : bytes)
    (optional last : bool) : outcome (Z * bytes * W * bytes * bool) :=
  if bytes_eqb tfmt $"|0t" && last && bool_decide (0 ∈ str) then
    '(r, ob1, w1) ← output_text_string p ob w (cstr str);
    if r =? -1 then Done (-1, ob1, w1, tfmt, optional)
    else
      '(r, ob2, w2) ← outbuf_putc p ob1 w1 32;
      if r =? -1 then Done (-1, ob2, w2, tfmt, optional)
      else
        '(r, ob3, w3) ← output_text_string p ob2 w2 (drop (S (length (cstr str))) str);
        Done (r, ob3, w3, [], true)
  else
    '(r, ob1, w1) ← output_text_string p ob w str;
    Done (r, ob1, w1, tfmt, optional).

(** The loop over the arguments; the spaces that the source skips after a [%*s] are skipped
    by the next turn. *)
Fixpoint output_text_args (p : proto) (ob : bytes) (w : W) (fmt : bytes) (ap : list arg)
    (tfmt : bytes) (optional : bool) : outcome (Z * bytes * W * bytes * bool) :=
  let fail ob w := Done (-1, ob, output_text_error p w EINVAL, tfmt, optional) in
  match fmt with
  | [] => Done (0, ob, w, tfmt, optional)
  | f :: fmt1 =>
      if f =? 32 then output_text_args p ob w fmt1 ap tfmt optional
      else if negb (f =? 37) then fail ob w
      else
        let f := hd0 fmt1 in
        let '(t, tfmt1, optional1) := next_tfmt tfmt optional in
        '(r, ob1, w1) ← (if negb (t =? 48) then outbuf_putc p ob w 32 else Done (0, ob, w));
        if r =? -1 then Done (-1, ob1, w1, tfmt, optional)
        else if t =? 0 then fail ob1 w1
        else if t =? 105 (* i *) then
          if negb (f =? 99) then fail ob1 w1
          else
            '(ch, ap1) ← va_int ap;
            '(r, ob2, w2) ← proto_outbuf p ob1 w1 (print_byte (Z.land ch 0xff));
            if r =? -1 then Done (-1, ob2, w2, tfmt, optional)
            else match fmt1 with
                 | _ :: fmt2 => output_text_args p ob2 w2 fmt2 ap1 tfmt1 optional1
                 | [] => fail ob2 w2
                 end
        else if t =? 48 (* 0 *) then
          if negb (f =? 99) then fail ob1 w1
          else
            '(ch, ap1) ← va_int ap;
            if negb (ch =? 0) then fail ob1 w1
            else match fmt1 with
                 | _ :: fmt2 => output_text_args p ob1 w1 fmt2 ap1 tfmt1 optional1
                 | [] => fail ob1 w1
                 end
        else if t =? 116 (* t *) then
          match fmt1 with
          | c :: fmt2 =>
              if c =? 42 (* * *) then
                match fmt2 with
                | s :: fmt3 =>
                    if negb (s =? 115) then fail ob1 w1
                    else
                      '(len, ap1) ← va_int ap;
                      '(base, ap2) ← va_ptr ap1;
                      str ← of_option OutOfBounds (mread base 0 len);
                      '(r, ob2, w2, tfmt2, optional2) ←
                        output_star p ob1 w1 str tfmt1 optional1 (blank fmt3);
                      if r =? -1 then Done (-1, ob2, w2, tfmt, optional)
                      else output_text_args p ob2 w2 fmt3 ap2 tfmt2 optional2
                | [] => fail ob1 w1
                end
              else if negb (c =? 115) then fail ob1 w1
              else
                '(str, ap1) ← va_ptr ap;
                '(r, ob2, w2) ← output_text_string p ob1 w1 (cstr str);
                if r =? -1 then Done (-1, ob2, w2, tfmt, optional)
                else output_text_args p ob2 w2 fmt2 ap1 tfmt1 optional1
          | [] => fail ob1 w1
          end
        else Crash Aborted
  end.

Definition output_text (p : proto) (w : W) (msg : Z) (fmt : bytes) (ap : list arg)
    : outcome (Z * W) :=
  match find (fun e : bytes * Z * bytes => e.1.2 =? msg) cmdtab with
  | None => Done (-1, output_text_error p w EINVAL)
  | Some (word, _, tfmt) =>
      '(r, ob1, w1) ← proto_outbuf p [] w word;
      if r =? -1 then Done (-1, w1)
      else
        '(r, ob2, w2, tfmt2, optional2) ← output_text_args p ob1 w1 fmt ap tfmt false;
        if r =? -1 then Done (-1, w2)
        else if negb optional2 && negb (hd0 tfmt2 =? 0) && negb (hd0 tfmt2 =? 124)
        then Done (-1, output_text_error p w2 EINVAL)
        else
          '(r, ob3, w3) ← proto_outbuf p ob2 w2 CRLF;
          if r =? -1 then Done (-1, w3)
          else
            '(r, _, w4) ← outbuf_flush p ob3 w3;
            Done (r, w4)
  end.

(** ** Output (proto.c) *)

Definition output_error (p : proto) (w : W) (err : errno) : W :=
  proto_errorv p w err $"proto_output".

Definition proto_outputv (p : proto) (w : W) (msg : Z) (fmt : bytes) (ap : list arg)
    : outcome (Z * proto * W) :=
  let p1 := if mode p =? PROTO_MODE_UNKNOWN then set_mode p PROTO_MODE_BINARY else p in
  '(r, w1) ←
    (if mode p1 =? PROTO_MODE_BINARY then output_binary p1 w msg fmt ap
     else if mode p1 =? PROTO_MODE_TEXT then output_text p1 w msg fmt ap
     else if mode p1 =? PROTO_MODE_FRAMED then output_framed p1 w msg fmt ap
     else Done (-1, output_error p1 w EINVAL));
  Done (r, p1, w1).

Definition proto_output := proto_outputv.

(** [text] is the message formatted by [vsnprintf]. *)
Definition proto_output_error (p : proto) (w : W) (code : Z) (text : bytes)
    : outcome (Z * proto * W) :=
  '(r, p1, w1) ← proto_output p w MSG_ERROR $"%c%s" [AInt code; APtr (take (Z.to_nat 16383) text)];
  if r <? 0 then Done (-1, p1, w1)
  else if (mode p1 =? PROTO_MODE_TEXT) && negb (code =? PROTO_ERROR_INTERNAL)
  then Done (1, p1, w1)
  else Done (-1, p1, w1).

(** ** Framed and binary decoding *)

(** [net] holds [netlen] bytes; a NUL follows them. *)
Definition recv_framed (p : proto) (w : W) (net : bytes) : outcome (Z * proto * W) :=
  match on_input cb with
  | None => Done (zlen net, p, w)
  | Some f =>
      match net with
      | [] => '(r, w1) ← f p w MSG_EOF []; Done (r, p, w1)
      | c :: data => '(r, w1) ← f p w c data; Done (r, p, w1)
      end
  end.

(** The length field (bytes 1 and 2) of the buffer, or [~0] if not available. *)
Definition binary_pkt_len (rx : rxbuf) : Z :=
  match rx_buf rx with
  | _ :: a :: b :: _ => Z.lor (Z.shiftl (Z.land a 0xff) 8) (Z.land b 0xff)
  | _ => 0xffff
  end.

(** One PDU is complete: it is passed up and the buffer cleared. The result is the return
    value of [recv_binary], or [None] when the loop goes on with the given [ret]. *)
Definition binary_deliver (p : proto) (w : W) (ret : Z)
    : outcome (option Z * Z * proto * W) :=
  let sz := binary_pkt_len (rx p) in
  if (3 <=? zlen (rx_buf (rx p))) && (zlen (rx_buf (rx p)) =? 3 + sz) then
    '(stop, ret1, p1, w1) ←
      match on_input cb with
      | None => Done (None, ret, p, w)
      | Some f =>
          '(r, rx1) ← rxbuf_zeropad (rx p);
          let p1 := set_rx p rx1 in
          if r =? -1 then Done (Some (-1), ret, p1, w)
          else
            '(n, w1) ← f p1 w (Z.land (hd0 (rx_buf rx1)) 0xff) (drop 3 (rx_buf rx1));
            if n <=? 0 then Done (Some n, ret, p1, w1) else Done (None, ret + n, p1, w1)
      end;
    match stop with
    | Some n => Done (Some n, ret1, p1, w1)
    | None =>
        '(r, rx1) ← rxbuf_clear (rx p1) 3;
        let p2 := set_rx p1 rx1 in
        if r =? -1 then Done (Some (-1), ret1, p2, w1) else Done (None, ret1, p2, w1)
    end
  else Done (None, ret, p, w).

(** The loop of [recv_binary]. A turn takes a byte from [net] or delivers a PDU that was left
    in the buffer, so that [S (length net)] turns are enough. The result of [rxbuf_add] is
    ignored, as in the source. *)
Fixpoint recv_binary_loop (fuel : nat) (p : proto) (w : W) (net : bytes) (ret : Z)
    : outcome (Z * proto * W) :=
  match net with
  | [] => Done (ret, p, w)
  | _ :: _ =>
      match fuel with
      | O => Crash OutOfFuel
      | S fuel' =>
          let netlen := zlen net in
          let len := zlen (rx_buf (rx p)) in
          let need := if len <? 3 then 3 else 3 + binary_pkt_len (rx p) in
          '(r, rx1) ← rxbuf_resize (rx p) need;
          let p1 := set_rx p rx1 in
          if r =? -1 then Done (-1, p1, w)
          else
            let want := u32 (need - len) in
            let n := if netlen <? want then netlen else want in
            '(_, rx2) ← rxbuf_add (rx p1) (take (Z.to_nat n) net);
            '(stop, ret2, p2, w2) ← binary_deliver (set_rx p1 rx2) w (ret + n);
            match stop with
            | Some v => Done (v, p2, w2)
            | None => recv_binary_loop fuel' p2 w2 (drop (Z.to_nat n) net) ret2
            end
      end
  end.

Definition recv_binary (p : proto) (w : W) (net : bytes) : outcome (Z * proto * W) :=
  match net with
  | [] =>
      match on_input cb with
      | Some f => '(r, w1) ← f p w MSG_EOF []; Done (r, p, w1)
      | None => Done (0, p, w)
      end
  | _ => recv_binary_loop (S (length net)) p w net 0
  end.

(** ** Text decoding (prototext.c) *)

Definition text_input (p : proto) (w : W) (msg : Z) (data : bytes) : outcome (Z * W) :=
  if msg =? PSEUDO_HELP then
    match on_sendv cb with
    | Some f => f p w [help_text]
    | None => Done (1, w)
    end
  else
    match on_input cb with
    | Some f => f p w msg data
    | None => Crash NullDeref
    end.

(** [strcasecmp(a, b) == 0] in the C locale *)
Definition tolower (c : byte) : byte := if (65 <=? c) && (c <=? 90) then c + 32 else c.
Definition strcaseeq (a b : bytes) : bool :=
  bytes_eqb (tolower <$> cstr a) (tolower <$> cstr b).

(** How a pass over the [switch] ends: with [goto again] or by returning. *)
Inductive pass := Again (p : proto) (w : W) | Ret (r : Z) (p : proto) (w : W).

(** [proto_output_error(...); t->state = st; goto again;] *)
Definition text_error (p : proto) (w : W) (code : Z) (text : bytes) : outcome pass :=
  '(_, p1, w1) ← proto_output_error p w code text;
  Done (Again (set_state p1 T_ERROR) w1).

(** [if (rxbuf_addc(&p->rx, ch) == -1) return -1;] and then [k] *)
Definition add_char (p : proto) (w : W) (ch : byte) (k : proto -> outcome pass) : outcome pass :=
  '(r, rx1) ← rxbuf_addc (rx p) ch;
  if r =? -1 then Done (Ret (-1) (set_rx p rx1) w) else k (set_rx p rx1).

Definition case_argsp (p : proto) (w : W) (ch : byte) : outcome pass :=
  if ch =? 32 then Done (Ret 1 p w)
  else
    let p := if hd0 (fmt (t p)) =? 124
             then set_optional (set_fmt p (drop 1 (fmt (t p)))) true else p in
    if is_eol ch then
      (* end of command line *)
      if negb (optional (t p)) && negb (hd0 (fmt (t p)) =? 0) then
        '(_, p1, w1) ← proto_output_error p w PROTO_ERROR_BAD_ARG
                          ($"missing arg for '" ++ cstr (cmd (t p)) ++ $"'");
        Done (Ret 1 (set_state p1 T_BOL) w1)
      else
        match on_input cb with
        | None => Done (Ret 1 (set_state p T_BOL) w)
        | Some _ =>
            '(r, rx1) ← rxbuf_zeropad (rx p);
            let p1 := set_rx p rx1 in
            if r =? -1 then Done (Ret (-1) p1 w)
            else
              '(ret, w1) ← text_input p1 w (Z.land (hd0 (rx_buf rx1)) 0xff) (drop 1 (rx_buf rx1));
              if ret <=? 0 then Done (Ret ret p1 w1) else Done (Ret 1 (set_state p1 T_BOL) w1)
        end
    else
      match fmt (t p) with
      | [] => text_error p w PROTO_ERROR_BAD_ARG
                ($"unexpected arg for '" ++ cstr (cmd (t p)) ++ $"'")
      | f :: fmt' =>
          let p1 := set_fmt p fmt' in
          if f =? 105 (* i *) then Done (Again (set_intval (set_state p1 T_INT) 0) w)
          else if f =? 116 (* t *) then Done (Again (set_state p1 T_STRBEG) w)
          else if f =? 48 (* 0 *) then
            '(r, rx1) ← rxbuf_addc (rx p1) 0;
            let p2 := set_rx p1 rx1 in
            Done (Again (if r =? -1 then set_state p2 T_ERROR else p2) w)
          else Crash Aborted
      end.

Definition case_cmd (p : proto) (w : W) (ch : byte) : outcome pass :=
  if negb (ch =? 32) && negb (is_eol ch) then
    (* accumulate command word characters *)
    c ← of_option OutOfBounds (mwrite (cmd (t p)) (cmdlen (t p)) [ch]);
    let p1 := set_cmd p c (u8 (cmdlen (t p) + 1)) in
    if 16 <=? cmdlen (t p1) then text_error p1 w PROTO_ERROR_BAD_MSG $"long command"
    else Done (Ret 1 p1 w)
  else
    (* end of command word; look it up *)
    c ← of_option OutOfBounds (mwrite (cmd (t p)) (cmdlen (t p)) [0]);
    let p1 := set_cmd p c (cmdlen (t p)) in
    match find (fun e : bytes * Z * bytes => strcaseeq e.1.1 c) cmdtab with
    | None => text_error p1 w PROTO_ERROR_BAD_MSG
                ($"unknown command '" ++ cstr c ++ $"', try 'help'")
    | Some (_, id, f) =>
        '(r, rx1) ← rxbuf_clear (rx p1) 1;
        let p2 := set_rx p1 rx1 in
        if r =? -1 then Done (Ret (-1) p2 w)
        else add_char p2 w id (fun p3 =>
          case_argsp (set_state (set_optional (set_fmt p3 f) false) T_ARGSP) w ch)
    end.

Definition case_bol (p : proto) (w : W) (ch : byte) : outcome pass :=
  if (ch =? 32) || is_eol ch then Done (Ret 1 p w)
  else case_cmd (set_state (set_cmd p (cmd (t p)) 0) T_CMD) w ch.

Definition case_error (p : proto) (w : W) (ch : byte) : outcome pass :=
  if negb (is_eol ch) then Done (Ret 1 p w) else case_bol (set_state p T_BOL) w ch.

Definition case_int (p : proto) (w : W) (ch : byte) : outcome pass :=
  if (48 <=? ch) && (ch <=? 57) then
    let v := u16 (intval (t p) * 10 + ch - 48) in
    let p1 := set_intval p v in
    if 255 <? v then text_error p1 w PROTO_ERROR_BAD_MSG $"integer overflow"
    else Done (Ret 1 p1 w)
  else add_char p w (u8 (intval (t p))) (fun p1 => Done (Again (set_state p1 T_ARGSP) w)).

Definition case_str (p : proto) (w : W) (ch : byte) : outcome pass :=
  if is_eol ch || (negb (hd0 (fmt (t p)) =? 0) && (ch =? 32)) then
    let p1 := if hd0 (fmt (t p)) =? 0 then set_rx p (rxbuf_trimspace (rx p)) else p in
    Done (Again (set_state p1 T_ARGSP) w)
  else add_char p w ch (fun p1 => Done (Ret 1 p1 w)).

Definition case_strbeg (p : proto) (w : W) (ch : byte) : outcome pass :=
  if ch =? 34 then Done (Ret 1 (set_state p T_QSTR) w)
  else case_str (set_state p T_STR) w ch.

Definition case_qstr (p : proto) (w : W) (ch : byte) : outcome pass :=
  if is_eol ch then
    '(_, p1, w1) ← proto_output_error p w PROTO_ERROR_BAD_MSG ($"unclosed " ++ Q);
    Done (Ret 1 (set_state p1 T_BOL) w1)
  else if ch =? 92 then Done (Ret 1 (set_state (set_intval (set_counter p 3) 0) T_QOCT) w)
  else if ch =? 34 then Done (Ret 1 (set_state p T_ARGSP) w)
  else add_char p w ch (fun p1 => Done (Ret 1 p1 w)).

Definition case_qoct (p : proto) (w : W) (ch : byte) : outcome pass :=
  if (ch <? 48) || (55 <? ch) then
    text_error p w PROTO_ERROR_BAD_MSG $"expected octal after backslash"
  else
    let p1 := set_intval p (u16 (Z.lor (Z.shiftl (intval (t p)) 3) (ch - 48))) in
    let p2 := set_counter p1 (u8 (counter (t p1) - 1)) in
    if counter (t p2) =? 0 then
      add_char p2 w (u8 (intval (t p2))) (fun p3 => Done (Ret 1 (set_state p3 T_QSTR) w))
    else Done (Ret 1 p2 w).

Definition text_pass (p : proto) (w : W) (ch : byte) : outcome pass :=
  match state (t p) with
  | T_ERROR => case_error p w ch
  | T_BOL => case_bol p w ch
  | T_CMD => case_cmd p w ch
  | T_ARGSP => case_argsp p w ch
  | T_INT => case_int p w ch
  | T_STRBEG => case_strbeg p w ch
  | T_STR => case_str p w ch
  | T_QSTR => case_qstr p w ch
  | T_QOCT => case_qoct p w ch
  end.

Fixpoint text_passes (fuel : nat) (p : proto) (w : W) (ch : byte) : outcome (Z * proto * W) :=
  match fuel with
  | O => Crash OutOfFuel
  | S fuel' =>
      r ← text_pass p w ch;
      match r with
      | Again p1 w1 => text_passes fuel' p1 w1 ch
      | Ret r p1 w1 => Done (r, p1, w1)
      end
  end.

(** Decode one byte from the text protocol. Sixteen passes are always enough: a pass that ends
    with [goto again] uses up a part of the format ([text_pass_total]). *)
Definition recv_text_1ch (p : proto) (w : W) (ch : byte) : outcome (Z * proto * W) :=
  text_passes 16 p w ch.

Fixpoint recv_text_loop (p : proto) (w : W) (net : bytes) (ret : Z) : outcome (Z * proto * W) :=
  match net with
  | [] => Done (ret, p, w)
  | ch :: net' =>
      '(n, p1, w1) ← recv_text_1ch p w ch;
      if n <=? 0 then Done (n, p1, w1) else recv_text_loop p1 w1 net' (ret + n)
  end.

Definition recv_text (p : proto) (w : W) (net : bytes) : outcome (Z * proto * W) :=
  match net with
  | [] =>
      '(r, p1, w1) ← recv_text_1ch p w 10;
      if r =? -1 then Done (-1, p1, w1)
      else
        match on_input cb with
        | Some f => '(ret, w2) ← f p1 w1 MSG_EOF []; Done (ret, p1, w2)
        | None => Done (0, p1, w1)
        end
  | _ => recv_text_loop p w net 0
  end.

(** ** Input (proto.c) *)

Definition recv_error (p : proto) (w : W) (err : errno) : W :=
  proto_errorv p w err $"proto_recv".

(** Autodetect text/binary mode based on first byte. *)
Definition detect_mode (ch : byte) : Z :=
  if (ch =? 10) || (ch =? 13) || (ch =? 32) || ((0x40 <=? ch) && (ch <=? 126))
  then PROTO_MODE_TEXT else PROTO_MODE_BINARY.

(** [pad] is the byte [net[netlen]]. *)
Definition proto_recv (p : proto) (w : W) (net : bytes) (pad : byte) : outcome (Z * proto * W) :=
  match net with
  | [] =>
      match on_input cb with
      | Some f => '(_, w1) ← f p w MSG_EOF []; Done (0, p, w1)
      | None => Done (0, p, w)
      end
  | ch :: _ =>
      if negb (pad =? 0) then Done (-1, p, recv_error p w EINVAL)
      else
        let p1 := if mode p =? PROTO_MODE_UNKNOWN then set_mode p (detect_mode ch) else p in
        if mode p1 =? PROTO_MODE_BINARY then recv_binary p1 w net
        else if mode p1 =? PROTO_MODE_TEXT then recv_text p1 w net
        else if mode p1 =? PROTO_MODE_FRAMED then recv_framed p1 w net
        else Done (-1, p1, w)
  end.

End Proto.
Arguments callbacks : clear implicits.
Arguments pass : clear implicits.

(** ** User data (proto.c)

    The owner can leave a pointer in the translator, with the function that frees it. *)
Section Udata.
Context {U W : Type}.

Record userdata := mk_userdata {
  udata : option U;
  udata_free : option (option U -> W -> W)
}.

Definition udata_new : userdata := mk_userdata None None.

Definition proto_set_udata (p : userdata) (w : W) (u : option U) (free : option (option U -> W -> W))
    : userdata * W :=
  (mk_userdata u free, match udata_free p with Some f => f (udata p) w | None => w end).

Definition proto_get_udata (p : userdata) : option U := udata p.

(** Before the memory is freed, the user data is. *)
Definition proto_free (p : userdata) (w : W) : W := (proto_set_udata p w None None).2.

End Udata.
Arguments userdata : clear implicits.
