(* ===== verification/ProtoKeep.v ===== *)
(** * The translator and its owner

    An output reaches the state of the owner only through the callbacks: what they preserve, it
    preserves, in every mode and for any format. *)
From S2P Require Import Prelude StoreDefs Rxbuf ProtoDefs.
Local Open Scope infod_scope.

Section Keep.
Context {W : Type} (cb : callbacks W) (P : W -> Prop).
Hypothesis send_keeps : forall f p w iov, on_sendv cb = Some f -> P w -> ensures (fun x => P x.2) (f p w iov).
Hypothesis error_keeps : forall f p w e tag, on_error cb = Some f -> P w -> P (f p w e tag).
Implicit Types (p : proto) (w : W) (ob fmt : bytes) (ap : list arg).

Lemma errorv_keeps p w e tag : P w -> P (proto_errorv cb p w e tag).
Proof using error_keeps. unfold proto_errorv. destruct (on_error cb) eqn:E; eauto. Qed.

Lemma sendv_keeps p w iov : P w -> ensures (fun x => P x.2) (sendv cb p w iov).
Proof using send_keeps. intros Hw. unfold sendv. destruct (on_sendv cb) eqn:E; eauto with ensures. Qed.

#[local] Hint Resolve errorv_keeps sendv_keeps : ensures.

Lemma va_int_any ap : ensures (fun _ => True) (va_int ap).
Proof. by intros ? ?. Qed.
Lemma va_ptr_any ap : ensures (fun _ => True) (va_ptr ap).
Proof. by intros ? ?. Qed.
Lemma of_option_any {A} c (o : option A) : ensures (fun _ => True) (of_option c o).
Proof. by intros ? ?. Qed.
#[local] Hint Resolve va_int_any va_ptr_any of_option_any : ensures.

(** The owner's state in the result of a function of the text encoder. *)
Definition keeps3 {A B} (x : A * B * W) : Prop := P x.2.
Definition keeps5 {A B C D} (x : A * B * W * C * D) : Prop := P x.1.1.2.

Ltac keep :=
  unfold keeps3, keeps5 in *; repeat (ensures_step || (progress cbn [fst snd] in * )); eauto with ensures.

Lemma iov_keeps p w maxiov worksz fmt ap niov wl :
  P w -> ensures (fun x => P x.2) (to_binary_iov cb p w maxiov worksz fmt ap niov wl).
Proof using error_keeps.
  intros Hw. remember (length fmt) as n eqn:Hn. assert (Hle : (length fmt <= n)%nat) by lia. clear Hn.
  revert fmt ap niov wl Hle. induction n as [|n IH]; intros [|f1 fmt] ap niov wl Hle; cbn in Hle |- *;
    try lia; [keep..|]. keep.
  1: apply IH; lia.
  all: (eapply ensures_bind; [apply IH; cbn in Hle; lia|]); intros [r w'] ?; keep.
Qed.
#[local] Hint Resolve iov_keeps : ensures.

Lemma output_framed_keeps p w msg fmt ap : P w -> ensures (fun x => P x.2) (output_framed cb p w msg fmt ap).
Proof using send_keeps error_keeps. intros Hw. unfold output_framed. keep. Qed.

Lemma output_binary_keeps p w msg fmt ap : P w -> ensures (fun x => P x.2) (output_binary cb p w msg fmt ap).
Proof using send_keeps error_keeps. intros Hw. unfold output_binary, output_binary_error. keep. Qed.

Lemma flush_keeps p ob w : P w -> ensures keeps3 (outbuf_flush cb p ob w).
Proof using send_keeps. intros Hw. unfold outbuf_flush. keep. Qed.
#[local] Hint Resolve flush_keeps : ensures.

Lemma outbuf_keeps p ob w data : P w -> ensures keeps3 (proto_outbuf cb p ob w data).
Proof using send_keeps. intros Hw. unfold proto_outbuf. keep. Qed.

Lemma putc_keeps p ob w ch : P w -> ensures keeps3 (outbuf_putc cb p ob w ch).
Proof using send_keeps. intros Hw. unfold outbuf_putc. keep. Qed.
#[local] Hint Resolve outbuf_keeps putc_keeps : ensures.

Lemma chars_keep p str : forall ob w, P w -> ensures keeps3 (output_text_chars cb p ob w str).
Proof using send_keeps.
  induction str as [|ch str IH]; intros ob w Hw; cbn [output_text_chars]; [keep|].
  apply (ensures_bind keeps3); [keep|]. intros [[r ob1] w1] Hw1. keep.
Qed.
#[local] Hint Resolve chars_keep : ensures.

Lemma string_keeps p ob w str : P w -> ensures keeps3 (output_text_string cb p ob w str).
Proof using send_keeps error_keeps. intros Hw. unfold output_text_string, output_text_error. keep. Qed.
#[local] Hint Resolve string_keeps : ensures.

Lemma star_keeps p ob w str tfmt opt lst : P w -> ensures keeps5 (output_star cb p ob w str tfmt opt lst).
Proof using send_keeps error_keeps. intros Hw. unfold output_star. keep. Qed.
#[local] Hint Resolve star_keeps : ensures.

Lemma args_keep p fmt ob w ap tfmt opt :
  P w -> ensures keeps5 (output_text_args cb p ob w fmt ap tfmt opt).
Proof using send_keeps error_keeps.
  remember (length fmt) as n eqn:Hn. assert (Hle : (length fmt <= n)%nat) by lia. clear Hn.
  revert fmt ob w ap tfmt opt Hle.
  induction n as [|n IH]; intros [|f1 fmt] ob w ap tfmt opt Hle Hw; cbn [length] in Hle; try lia;
    cbn [output_text_args]; [by apply ensures_done..|].
  destruct (f1 =? 32); [apply IH; done || lia|]. unfold output_text_error.
  destruct (next_tfmt tfmt opt) as [[tf tfmt1] opt1].
  destruct (negb (f1 =? 37)); [keep|].
  apply (ensures_bind keeps3); [keep|]. intros [[r ob1] w1] Hw1. unfold keeps3 in Hw1.
  keep; apply IH; unfold keeps3, keeps5 in *; cbn in *; done || lia.
Qed.
#[local] Hint Resolve args_keep : ensures.

Lemma output_text_keeps p w msg fmt ap : P w -> ensures (fun x => P x.2) (output_text cb p w msg fmt ap).
Proof using send_keeps error_keeps. intros Hw. unfold output_text, output_text_error. keep. Qed.
#[local] Hint Resolve output_text_keeps output_binary_keeps output_framed_keeps : ensures.

(** An output leaves the receive buffer and the text decoder as they are, and whatever the
    callbacks keep. *)
Definition talked p (x : Z * proto * W) : Prop :=
  rx x.1.2 = rx p /\ t x.1.2 = t p /\
  mode x.1.2 = (if mode p =? PROTO_MODE_UNKNOWN then PROTO_MODE_BINARY else mode p) /\ P x.2.

Lemma proto_output_keeps p w msg fmt ap : P w -> ensures (talked p) (proto_output cb p w msg fmt ap).
Proof using send_keeps error_keeps.
  intros Hw. unfold proto_output, proto_outputv; set (p1 := if mode p =? _ then _ else p).
  apply (ensures_bind (fun x : Z * W => P x.2)); [unfold output_error; keep|]. intros [r w1] Hw1.
  apply ensures_done. unfold talked, p1. cbn in *. by destruct (Z.eqb_spec (mode p) PROTO_MODE_UNKNOWN).
Qed.

Lemma proto_output_error_keeps p w code text : P w -> ensures (talked p) (proto_output_error cb p w code text).
Proof using send_keeps error_keeps.
  intros Hw. unfold proto_output_error. eapply ensures_bind; [by apply proto_output_keeps|].
  intros [[r p1] w1] Ht. keep; exact Ht.
Qed.

End Keep.
