(* ===== verification/ProtoBin.v ===== *)
(** * The binary protocol: encoding, decoding, fragmentation

    The decoder of protobin.c is fed by a stream cut into arbitrary fragments. It passes up
    exactly the messages that were encoded into the stream, in order. *)
From S2P Require Import Prelude StoreDefs Rxbuf ProtoDefs.
Local Open Scope infod_scope.

(** A message of the binary protocol: its ID and its payload. *)
Definition pdu : Type := Z * bytes.

Definition enc_pdu (m : pdu) : bytes :=
  [m.1; u8 (zlen m.2 / 256); u8 (zlen m.2)] ++ m.2.

(** The payloads that the receive buffer has room for, with the NUL that follows them. *)
Definition wf_pdu (m : pdu) : Prop := 0 <= m.1 < 256 /\ zlen m.2 <= 65531.

Lemma zlen_enc_pdu m : zlen (enc_pdu m) = 3 + zlen m.2.
Proof. unfold enc_pdu. by rewrite zlen_app. Qed.

Lemma pkt_len_field n :
  0 <= n < 65536 ->
  Z.lor (Z.shiftl (Z.land (u8 (n / 256)) 255) 8) (Z.land (u8 n) 255) = n.
Proof.
  intros Hn. rewrite !land_255. unfold u8. change (2 ^ 8) with 256. rewrite !Zmod_mod.
  rewrite lor_shiftl by (change (2 ^ 8) with 256; divlia). change (2 ^ 8) with 256. divlia.
Qed.

(** Once the mode is known, input and output are those of the mode. *)
Section Modes.
Context {os : OS} {W : Type} (cb : callbacks W).

Lemma proto_recv_binary p w c net :
  mode p = PROTO_MODE_BINARY -> proto_recv cb p w (c :: net) 0 = recv_binary cb p w (c :: net).
Proof. intros H. unfold proto_recv. by rewrite H; cbn; rewrite H. Qed.

Lemma proto_recv_text p w c net :
  mode p = PROTO_MODE_TEXT -> proto_recv cb p w (c :: net) 0 = recv_text cb p w (c :: net).
Proof. intros H. unfold proto_recv. by rewrite H; cbn; rewrite H. Qed.

Lemma proto_recv_framed p w c net :
  mode p = PROTO_MODE_FRAMED -> proto_recv cb p w (c :: net) 0 = recv_framed cb p w (c :: net).
Proof. intros H. unfold proto_recv. by rewrite H; cbn; rewrite H. Qed.

Lemma proto_output_mode p w msg fmt ap :
  mode p <> PROTO_MODE_UNKNOWN ->
  proto_output cb p w msg fmt ap =
  ('(r, w1) ← (if mode p =? PROTO_MODE_BINARY then output_binary cb p w msg fmt ap
     else if mode p =? PROTO_MODE_TEXT then output_text cb p w msg fmt ap
     else if mode p =? PROTO_MODE_FRAMED then output_framed cb p w msg fmt ap
     else Done (-1, output_error cb p w EINVAL)); Done (r, p, w1)).
Proof.
  intros H. unfold proto_output, proto_outputv.
  by rewrite (proj2 (Z.eqb_neq (mode p) PROTO_MODE_UNKNOWN) H).
Qed.

End Modes.

Section Decode.
Context {os : OS} {W : Type} (cb : callbacks W).
(** The application takes every message: it changes its state by [serve] and returns a positive
    value. *)
Context (serve : W -> Z -> bytes -> W) (answer : W -> Z -> bytes -> Z).
Context (f : proto -> W -> Z -> bytes -> outcome (Z * W)).
Hypothesis takes_input : on_input cb = Some f.
Hypothesis accepts : forall p w m d, f p w m d = Done (answer w m d, serve w m d).
Hypothesis answers : forall w m d, 0 < answer w m d.
Hypothesis realloc_succeeds : forall n, realloc_ok n = true.

Implicit Types (p : proto) (w : W) (net got fut : bytes) (ps : list pdu).

Definition serve_pdu (w : W) (m : pdu) : W := serve w m.1 m.2.
Definition stream ps : bytes := concat (enc_pdu <$> ps).

Lemma stream_cons m ps : stream (m :: ps) = enc_pdu m ++ stream ps.
Proof. done. Qed.

Lemma pkt_len_prefix m got k mx :
  zlen m.2 < 65536 -> enc_pdu m = got ++ k -> 3 <= zlen got ->
  binary_pkt_len (mk_rxbuf got mx) = zlen m.2.
Proof.
  intros Hm E Hg. pose proof (zlen_nonneg m.2). unfold enc_pdu in E. unfold binary_pkt_len. cbn [rx_buf].
  destruct got as [|a [|b [|c got]]]; try (unfold zlen in Hg; cbn in Hg; lia).
  cbn in E. injection E as <- <- <- _. by apply pkt_len_field.
Qed.

(** What has been received of a message is passed up when it is all of it. *)
Lemma binary_deliver_ok p w ret m got k :
  wf_pdu m -> rx_ok (rx p) -> rx_buf (rx p) = got -> enc_pdu m = got ++ k ->
  exists p', rx_ok (rx p') /\ mode p' = mode p /\
    ((k = [] /\ rx_buf (rx p') = [] /\ exists ret', ret < ret' /\
        binary_deliver cb p w ret = Done (None, ret', p', serve_pdu w m)) \/
     (k <> [] /\ rx_buf (rx p') = got /\ binary_deliver cb p w ret = Done (None, ret, p', w))).
Proof.
  intros [Hid Hm] Hok Hgot E. pose proof (zlen_enc_pdu m) as Hlen. rewrite E, zlen_app in Hlen.
  pose proof (zlen_nonneg k). pose proof (zlen_nonneg m.2). unfold binary_deliver.
  destruct (rx p) as [buf mx] eqn:Erx. cbn [rx_buf] in *. subst buf.
  destruct (Z.leb_spec 3 (zlen got)) as [H3|H3]; cbn [andb].
  2:{ exists p. rewrite Erx. split_and!; [done|done|]. right. split_and!; [|done|done].
      intros ->. rewrite zlen_nil in Hlen. lia. }
  rewrite (pkt_len_prefix m got k mx) by (done || lia).
  destruct (Z.eqb_spec (zlen got) (3 + zlen m.2)) as [Ec|Ec].
  2:{ exists p. rewrite Erx. split_and!; [done|done|]. right. split_and!; [|done|done].
      intros ->. rewrite zlen_nil in Hlen. lia. }
  assert (k = []) as -> by (apply zlen_zero; lia). rewrite app_nil_r in E. subst got.
  rewrite takes_input.
  destruct (rxbuf_zeropad_ok (mk_rxbuf (enc_pdu m) mx) Hok) as (r & rx1 & -> & Hb & Hok1 & Hr).
  destruct Hr as [->|[-> [?|[n Hn]]]]; [|cbn in *; lia|by rewrite realloc_succeeds in Hn].
  ostep. cbn [Z.eqb]. rewrite Hb, accepts. cbn [rx_buf]. ostep.
  replace (Z.land (hd0 (enc_pdu m)) 255) with m.1.
  2:{ cbn. rewrite land_255. symmetry. apply u8_small. lia. }
  change (drop 3 (enc_pdu m)) with m.2.
  pose proof (answers w m.1 m.2). destruct (Z.leb_spec (answer w m.1 m.2) 0); [lia|]. ostep.
  destruct (rxbuf_clear_ok rx1 3 Hok1) as (r & rx2 & Ecl & Hb2 & Hok2 & Hr2); [lia|].
  cbn [set_rx rx]. rewrite Ecl. ostep.
  destruct Hr2 as [->|[_ [n Hn]]]; [|by rewrite realloc_succeeds in Hn]. cbn [Z.eqb].
  eexists (set_rx (set_rx p rx1) rx2). split_and!; [done|done|]. left.
  split_and!; [done|done|]. exists (ret + answer w m.1 m.2). split; [lia|done].
Qed.

(** The state between two fragments: [got] is the part of the next message that has come. *)
Definition partial ps got : Prop :=
  match ps with [] => got = [] | m :: _ => zlen got < zlen (enc_pdu m) end.

Lemma app_prefix {A} (a b c d : list A) : a ++ b = c ++ d -> zlen a <= zlen c -> exists k, c = a ++ k.
Proof.
  intros E Hl. apply app_eq_inv in E as [(k & -> & ->)|(k & -> & ->)]; [|by eauto].
  rewrite zlen_app in Hl. assert (k = []) as -> by (apply zlen_zero; pose proof (zlen_nonneg k); lia).
  exists []. by rewrite !app_nil_r.
Qed.

(** How many bytes a turn of the loop takes. *)
Lemma turn_size m got net rest :
  wf_pdu m -> got ++ net = enc_pdu m ++ rest -> zlen got < zlen (enc_pdu m) ->
  forall mx, let need := if zlen got <? 3 then 3 else 3 + binary_pkt_len (mk_rxbuf got mx) in
  zlen got < need <= zlen (enc_pdu m) /\ need < 65536.
Proof.
  intros [_ Hm] E Hg mx need. subst need. rewrite zlen_enc_pdu in *. pose proof (zlen_nonneg m.2).
  destruct (Z.ltb_spec (zlen got) 3) as [H3|H3]; [lia|].
  destruct (app_prefix got net (enc_pdu m) rest E) as [k Hk]; [rewrite zlen_enc_pdu; lia|].
  rewrite (pkt_len_prefix m got k mx) by (done || lia). lia.
Qed.

(** One turn of the loop, up to the delivery. *)
Lemma binary_turn fuel p w net ret :
  let got := rx_buf (rx p) in
  let need := if zlen got <? 3 then 3 else 3 + binary_pkt_len (rx p) in
  let n := Z.min (zlen net) (need - zlen got) in
  net <> [] -> rx_ok (rx p) -> zlen got < need < 65536 ->
  exists p1, rx_ok (rx p1) /\ (mode p1 = mode p /\ t p1 = t p) /\
    rx_buf (rx p1) = got ++ take (Z.to_nat n) net /\
    recv_binary_loop cb (S fuel) p w net ret =
      ('(stop, ret2, p2, w2) ← binary_deliver cb p1 w (ret + n);
       match stop with
       | Some v => Done (v, p2, w2)
       | None => recv_binary_loop cb fuel p2 w2 (drop (Z.to_nat n) net) ret2
       end).
Proof.
  intros got need n Hne Hok Hneed. pose proof (zlen_nonneg got). pose proof (zlen_nonneg net).
  assert (Hn : n = Z.min (zlen net) (need - zlen got)) by done. clearbody n.
  destruct net as [|c net0] eqn:Enet; [done|]. rewrite <- Enet in *. cbn [recv_binary_loop].
  rewrite Enet. rewrite <- Enet. fold got. fold need.
  destruct (rxbuf_resize_ok (rx p) need Hok) as (r & rx1 & -> & Hb1 & Hok1 & Hr); [fold got; lia|].
  destruct Hr as [(-> & _ & _)|(_ & _ & [?|[x Hx]])]; [|lia|by rewrite realloc_succeeds in Hx].
  ostep. cbn [Z.eqb set_rx rx]. rewrite (u32_small (need - zlen got)) by lia.
  assert (En : (if zlen net <? need - zlen got then zlen net else need - zlen got) = n).
  { destruct (Z.ltb_spec (zlen net) (need - zlen got)); lia. }
  rewrite En. assert (Htk : zlen (take (Z.to_nat n) net) = n).
  { unfold zlen in *. rewrite length_take. lia. }
  destruct (rxbuf_add_ok rx1 (take (Z.to_nat n) net) Hok1) as (r & rx2 & -> & Hok2 & Hr).
  rewrite Hb1, zlen_app, Htk in Hr. fold got in Hr.
  destruct Hr as [(-> & Hb2 & _)|(_ & _ & [?|[x Hx]])]; [|lia|by rewrite realloc_succeeds in Hx].
  ostep. by exists (set_rx (set_rx p rx1) rx2).
Qed.

Lemma recv_binary_loop_ok fuel : forall p w net ret ps got fut,
  (length net < fuel)%nat -> Forall wf_pdu ps -> rx_ok (rx p) -> rx_buf (rx p) = got ->
  partial ps got -> got ++ net ++ fut = stream ps ->
  exists ret' p' ps1 ps2 got', recv_binary_loop cb fuel p w net ret =
      Done (ret', p', foldl serve_pdu w ps1) /\ ret + zlen net <= ret' /\ ps = ps1 ++ ps2 /\
    rx_ok (rx p') /\ mode p' = mode p /\ rx_buf (rx p') = got' /\ partial ps2 got' /\
    got' ++ fut = stream ps2.
Proof.
  induction fuel as [|fuel IH]; intros p w net ret ps got fut Hfuel Hwf Hok Hgot Hpart Hs; [lia|].
  destruct (decide (net = [])) as [->|Hne].
  { exists ret, p, [], ps, got. split_and!; done || (rewrite zlen_nil; lia). }
  destruct ps as [|m ps]; [exfalso; by destruct got, net|].
  apply Forall_cons in Hwf as [Hm Hwf]. rewrite stream_cons in Hs. unfold partial in Hpart.
  destruct (binary_turn fuel p w net ret Hne Hok) as (p1 & Hok1 & [Hm1 Ht1] & Hb1 & ->).
  { rewrite Hgot. destruct (rx p) as [buf mx]. cbn in Hgot. subst buf.
    pose proof (turn_size m got (net ++ fut) (stream ps) Hm Hs Hpart mx) as H. cbv zeta in H. lia. }
  rewrite Hgot in *. set (n := Z.min _ _) in *.
  assert (Hn : 1 <= n <= zlen net /\ zlen got + n <= zlen (enc_pdu m)).
  { destruct (rx p) as [buf mx]. cbn in Hgot. subst buf.
    pose proof (turn_size m got (net ++ fut) (stream ps) Hm Hs Hpart mx) as H. cbv zeta in H.
    assert (1 <= zlen net) by (destruct net; [done|rewrite zlen_cons; pose proof (zlen_nonneg net); lia]).
    lia. }
  assert (Hdr : zlen (drop (Z.to_nat n) net) = zlen net - n) by (unfold zlen in *; rewrite length_drop; lia).
  assert (Htk : zlen (take (Z.to_nat n) net) = n) by (unfold zlen in *; rewrite length_take; lia).
  set (got2 := got ++ take (Z.to_nat n) net) in *.
  assert (Hs2 : got2 ++ drop (Z.to_nat n) net ++ fut = enc_pdu m ++ stream ps).
  { rewrite <- Hs. unfold got2. rewrite <- !app_assoc. f_equal. by rewrite app_assoc, take_drop. }
  destruct (app_prefix _ _ _ _ Hs2) as [k Hk]; [unfold got2; rewrite zlen_app; lia|].
  destruct (binary_deliver_ok p1 w (ret + n) m got2 k Hm Hok1 Hb1 Hk)
    as (p' & Hok' & Hmode & [(-> & Hb' & ret' & Hret & ->)|(Hk0 & Hb' & ->)]); ostep.
  - rewrite app_nil_r in Hk. rewrite Hk in Hs2. apply app_inv_head in Hs2.
    destruct (IH p' (serve_pdu w m) (drop (Z.to_nat n) net) ret' ps [] fut)
      as (ret2 & p2 & ps1 & ps2 & got' & -> & Hr2 & -> & ? & Hm2 & ? & ? & ?); try done.
    + unfold zlen in *. lia.
    + destruct ps as [|m' ps]; [done|]. unfold partial. rewrite zlen_enc_pdu, zlen_nil.
      pose proof (zlen_nonneg m'.2). lia.
    + exists ret2, p2, (m :: ps1), ps2, got'. split_and!; try done; [lia|congruence].
  - destruct (IH p' w (drop (Z.to_nat n) net) (ret + n) (m :: ps) got2 fut)
      as (ret2 & p2 & ps1 & ps2 & got' & -> & Hr2 & Eps & ? & Hm2 & ? & ? & ?); try done.
    + unfold zlen in *. lia.
    + by constructor.
    + unfold partial. rewrite Hk, zlen_app. destruct k as [|x k]; [done|]. rewrite zlen_cons.
      pose proof (zlen_nonneg k). lia.
    + exists ret2, p2, ps1, ps2, got'. split_and!; try done; [lia|congruence].
Qed.

Lemma recv_binary_ok p w net ps got fut :
  net <> [] -> Forall wf_pdu ps -> rx_ok (rx p) -> rx_buf (rx p) = got -> partial ps got ->
  got ++ net ++ fut = stream ps -> mode p = PROTO_MODE_BINARY ->
  exists ret p' ps1 ps2 got', proto_recv cb p w net 0 = Done (ret, p', foldl serve_pdu w ps1) /\
    0 < ret /\ ps = ps1 ++ ps2 /\ rx_ok (rx p') /\ mode p' = PROTO_MODE_BINARY /\
    rx_buf (rx p') = got' /\ partial ps2 got' /\ got' ++ fut = stream ps2.
Proof.
  intros Hne Hwf Hok Hgot Hpart Hs Hmode. destruct net as [|c net]; [done|].
  rewrite proto_recv_binary by done. unfold recv_binary.
  destruct (recv_binary_loop_ok (S (length (c :: net))) p w (c :: net) 0 ps got fut)
    as (ret & p' & ps1 & ps2 & got' & -> & Hret & ? & ? & Hm & ? & ? & ?); try done; [lia|].
  exists ret, p', ps1, ps2, got'. rewrite zlen_cons in Hret. pose proof (zlen_nonneg net).
  split_and!; try done; [lia|by rewrite Hm].
Qed.

(** Feeding fragment after fragment, for as long as the translator asks for more. *)
Fixpoint recv_all p w (frags : list bytes) : outcome (bool * proto * W) :=
  match frags with
  | [] => Done (true, p, w)
  | fr :: frags' =>
      '(r, p1, w1) ← proto_recv cb p w fr 0;
      if r <=? 0 then Done (false, p1, w1) else recv_all p1 w1 frags'
  end.

Lemma recv_all_ok frags : forall p w ps got,
  Forall (fun fr => fr <> []) frags -> Forall wf_pdu ps -> rx_ok (rx p) -> rx_buf (rx p) = got ->
  partial ps got -> got ++ concat frags = stream ps -> mode p = PROTO_MODE_BINARY ->
  exists p', recv_all p w frags = Done (true, p', foldl serve_pdu w ps) /\ rx_buf (rx p') = [].
Proof.
  induction frags as [|fr frags IH]; intros p w ps got Hne Hwf Hok Hgot Hpart Hs Hmode.
  - cbn in Hs |- *. rewrite app_nil_r in Hs. destruct ps as [|m ps].
    + exists p. split; [done|]. by rewrite Hgot.
    + exfalso. cbn [partial] in Hpart. rewrite Hs, stream_cons, zlen_app in Hpart.
      pose proof (zlen_nonneg (stream ps)). lia.
  - apply Forall_cons in Hne as [Hf Hne]. cbn [concat] in Hs.
    destruct (recv_binary_ok p w fr ps got (concat frags) Hf Hwf Hok Hgot Hpart Hs Hmode)
      as (ret & p1 & ps1 & ps2 & got' & E & Hret & -> & Hok1 & Hm1 & Hg1 & Hp1 & Hs1).
    cbn [recv_all]. rewrite E. ostep. destruct (Z.leb_spec ret 0); [lia|].
    apply Forall_app in Hwf as [_ Hwf]. rewrite foldl_app. by eapply IH.
Qed.

(** C13: for a stream of messages whose payloads have at most 65531 bytes, and while there is
    memory, the messages that come out of the binary decoder are exactly those encoded into the
    stream, whatever the fragments the network cuts it into, and at the end nothing is left in the
    buffer. Larger payloads are the subject of [binary_too_big]. *)
Theorem binary_fragments frags p w ps :
  Forall (fun fr => fr <> []) frags -> Forall wf_pdu ps -> concat frags = stream ps ->
  mode p = PROTO_MODE_BINARY -> rx_ok (rx p) -> rx_buf (rx p) = [] ->
  exists p', recv_all p w frags = Done (true, p', foldl serve_pdu w ps) /\ rx_buf (rx p') = [].
Proof.
  intros Hne Hwf Hs Hmode Hok Hb. eapply recv_all_ok; try done. destruct ps as [|m ps]; [done|].
  unfold partial. rewrite zlen_enc_pdu, zlen_nil. pose proof (zlen_nonneg m.2). lia.
Qed.

(** ** What the encoder sends *)

Lemma iov_size_concat iov : iov_size iov = zlen (concat iov).
Proof.
  induction iov as [|b iov IH]; [done|]. cbn [concat]. rewrite zlen_app, <- IH. done.
Qed.

Lemma output_binary_sends {W'} (cb' : callbacks W') q v v' msg fmt ap iov :
  to_binary_iov cb' q v 9 16 fmt ap 0 0 = Done (Some iov, v') -> zlen (concat iov) <= 65535 ->
  exists iovs, output_binary cb' q v msg fmt ap = sendv cb' q v' iovs /\
    concat iovs = enc_pdu (msg, concat iov).
Proof.
  intros E Hsz. unfold output_binary. rewrite E. ostep. rewrite iov_size_concat.
  destruct (Z.ltb_spec 0xffff (zlen (concat iov))); [lia|]. eexists. split; [done|].
  unfold enc_pdu. cbn [concat fst snd app]. rewrite !land_255. do 3 f_equal.
  rewrite Z.shiftr_div_pow2 by lia. done.
Qed.

(** C22: a message with a payload of at most 65531 bytes that [proto_output] sends in binary mode,
    with any format and arguments, is decoded by a peer that has memory into the same message ID
    and the bytes of its arguments. Larger payloads are the subject of [binary_too_big]. *)
Theorem binary_roundtrip {W'} (cb' : callbacks W') q v v' msg fmt ap iov p w :
  to_binary_iov cb' q v 9 16 fmt ap 0 0 = Done (Some iov, v') ->
  0 <= msg < 256 -> zlen (concat iov) <= 65531 ->
  mode q = PROTO_MODE_BINARY -> mode p = PROTO_MODE_BINARY -> rx_ok (rx p) -> rx_buf (rx p) = [] ->
  exists iovs ret p', proto_output cb' q v msg fmt ap =
      ('(r, w1) ← sendv cb' q v' iovs; Done (r, q, w1)) /\
    proto_recv cb p w (concat iovs) 0 = Done (ret, p', serve w msg (concat iov)) /\ 0 < ret.
Proof.
  intros E Hmsg Hsz Hq Hp Hok Hb. destruct (output_binary_sends cb' q v v' msg fmt ap iov E)
    as (iovs & Hout & Hc); [lia|].
  destruct (recv_binary_ok p w (concat iovs) [(msg, concat iov)] [] [])
    as (ret & p' & ps1 & ps2 & got' & Hr & Hret & Hps & _ & _ & _ & Hp2 & Hs); try done.
  - by rewrite Hc.
  - apply Forall_singleton. by split.
  - cbn [app]. rewrite app_nil_r, Hc, stream_cons. symmetry. apply app_nil_r.
  - exists iovs, ret, p'. split_and!; [|rewrite Hr|done].
    + rewrite proto_output_mode by (by rewrite Hq). rewrite Hq, Hout. done.
    + rewrite app_nil_r in Hs. destruct ps1 as [|m1 ps1]; cbn in Hps.
      * exfalso. subst ps2. unfold partial in Hp2. rewrite Hs, stream_cons, app_nil_r in Hp2.
        lia.
      * injection Hps as <- Hps. by destruct ps1.
Qed.

Lemma binary_refused fuel p w net ret :
  net <> [] -> 3 <= zlen (rx_buf (rx p)) -> 65536 <= 3 + binary_pkt_len (rx p) ->
  recv_binary_loop cb (S fuel) p w net ret = Done (-1, set_rx p (rx p), w).
Proof.
  intros Hne H3 Hbig. destruct net as [|c net]; [done|]. cbn [recv_binary_loop].
  destruct (Z.ltb_spec (zlen (rx_buf (rx p))) 3); [lia|]. unfold rxbuf_resize.
  destruct (Z.leb_spec 0x10000 (3 + binary_pkt_len (rx p))); [done|lia].
Qed.

(** C40: a payload of 65532 to 65535 bytes, which the encoder accepts, is refused by the decoder:
    the connection fails and the application never sees the message. *)
Theorem binary_too_big m p w :
  0 <= m.1 < 256 -> 65532 <= zlen m.2 <= 65535 ->
  mode p = PROTO_MODE_BINARY -> rx_ok (rx p) -> rx_buf (rx p) = [] ->
  exists p', proto_recv cb p w (enc_pdu m) 0 = Done (-1, p', w).
Proof.
  intros Hid Hm Hmode Hok Hb. unfold enc_pdu. cbn [app]. rewrite proto_recv_binary by done.
  unfold recv_binary. cbn [length].
  set (h := [m.1; u8 (zlen m.2 / 256); u8 (zlen m.2)]).
  change (m.1 :: u8 (zlen m.2 / 256) :: u8 (zlen m.2) :: m.2) with (h ++ m.2).
  assert (Hh : zlen h = 3) by done.
  destruct (binary_turn (S (S (S (length m.2)))) p w (h ++ m.2) 0) as (p1 & Hok1 & [Hm1 Ht1] & Hb1 & ->);
    [done|done|by rewrite Hb|].
  rewrite Hb in *. change (zlen (@nil Z)) with 0 in *. cbn [Z.ltb Z.compare] in *.
  rewrite Z.min_r in * by (rewrite zlen_app; pose proof (zlen_nonneg m.2); lia).
  change (Z.to_nat (3 - 0)) with 3%nat in *. change (drop 3 (h ++ m.2)) with m.2.
  change ([] ++ take 3 (h ++ m.2)) with h in Hb1.
  assert (Hlen : binary_pkt_len (rx p1) = zlen m.2).
  { destruct (rx p1) as [buf mx]. cbn in Hb1. subst buf. apply (pkt_len_prefix m h m.2); [lia|done|lia]. }
  unfold binary_deliver at 1. rewrite Hb1, Hlen, Hh.
  destruct (Z.eqb_spec 3 (3 + zlen m.2)); [lia|]. rewrite andb_false_r. ostep.
  assert (Hne : m.2 <> []) by (intros E; rewrite E, zlen_nil in Hm; lia).
  destruct (Z.leb_spec 65533 (zlen m.2)) as [Hbig|Hbig].
  - rewrite binary_refused; [by eexists|done|by rewrite Hb1|lia].
  - destruct (binary_turn (S (S (length m.2))) p1 w m.2 (0 + (3 - 0)) Hne Hok1)
      as (p2 & Hok2 & Hm2 & Hb2 & ->); rewrite Hb1, Hh, Hlen in *; change (3 <? 3) with false in *; cbv iota in *; [lia|].
    rewrite take_ge in Hb2 by (unfold zlen in *; lia).
    unfold binary_deliver. assert (Hl2 : binary_pkt_len (rx p2) = zlen m.2).
    { destruct (rx p2) as [buf mx]. cbn in Hb2. subst buf.
      apply (pkt_len_prefix m (h ++ m.2) []); [lia|by rewrite app_nil_r|rewrite zlen_app; lia]. }
    rewrite Hl2, Hb2, zlen_app, Hh, Z.eqb_refl. destruct (Z.leb_spec 3 (3 + zlen m.2)); [|lia].
    cbn [andb]. rewrite takes_input. unfold rxbuf_zeropad, rxbuf_add, rxbuf_resize.
    rewrite Hb2, zlen_app, Hh, zlen_one. destruct (Z.leb_spec 0x10000 (3 + zlen m.2 + 1)); [|lia].
    ostep. cbn [Z.eqb]. ostep. by eexists.
Qed.

End Decode.

(** ** Framed mode and mode detection *)

(** A message sent in framed mode reaches the peer's application as the same message ID and
    the bytes of its arguments, and the application's answer is the result of [proto_recv]. *)
Theorem framed_roundtrip {os : OS} {W W'} (cb' : callbacks W') (cb : callbacks W) g
    q v v' msg fmt ap iov p w :
  to_binary_iov cb' q v 7 8 fmt ap 0 0 = Done (Some iov, v') -> on_input cb = Some g ->
  mode q = PROTO_MODE_FRAMED -> mode p = PROTO_MODE_FRAMED ->
  exists iovs, proto_output cb' q v msg fmt ap = ('(r, w1) ← sendv cb' q v' iovs; Done (r, q, w1)) /\
    proto_recv cb p w (concat iovs) 0 = ('(r, w1) ← g p w msg (concat iov); Done (r, p, w1)).
Proof.
  intros E Hg Hq Hp. exists ([msg] :: iov). split.
  - rewrite proto_output_mode by (by rewrite Hq). rewrite Hq. unfold output_framed. by rewrite E.
  - cbn [concat app]. rewrite proto_recv_framed by done. unfold recv_framed. by rewrite Hg.
Qed.

(** A peer is taken for a text peer on the first letter of any command word, in either case,
    and for a binary peer on any message ID. *)
Theorem mode_detection e :
  e ∈ cmdtab ->
  detect_mode e.1.2 = PROTO_MODE_BINARY /\ detect_mode (hd0 e.1.1) = PROTO_MODE_TEXT /\
  detect_mode (tolower (hd0 e.1.1)) = PROTO_MODE_TEXT.
Proof.
  intros He. assert (H : Forall (fun e : bytes * Z * bytes => detect_mode e.1.2 = PROTO_MODE_BINARY /\
    detect_mode (hd0 e.1.1) = PROTO_MODE_TEXT /\
    detect_mode (tolower (hd0 e.1.1)) = PROTO_MODE_TEXT) cmdtab) by (repeat constructor).
  rewrite Forall_forall in H. by apply H.
Qed.

(** ** Witnesses *)

(** An application that keeps a log of its messages. *)
Definition log_message (p : proto) (w : list pdu) (m : Z) (d : bytes) : outcome (Z * list pdu) :=
  Done (1, w ++ [(m, d)]).
Definition log_cb : callbacks (list pdu) := mk_callbacks (Some log_message) None None.
Definition demo_text : textproto := mk_text T_BOL [] 0 (replicate 16 0) 0 0 false.
Definition demo_proto (m : Z) : proto := mk_proto m (mk_rxbuf [] 0) demo_text.

Lemma demo_rx m : rx_ok (rx (demo_proto m)).
Proof. split; cbn; [done|by exists 0]. Qed.

Lemma binary_fragments_witness :
  exists p', recv_all log_cb (demo_proto 1) [] [[3; 0]; [1; 97; 4]; [0; 0]] =
    Done (true, p', [(3, [97]); (4, [])]) /\ rx_buf (rx p') = [].
Proof.
  apply (binary_fragments (os:=quiet_os) log_cb (fun w m d => w ++ [(m, d)]) (fun _ _ _ => 1) log_message eq_refl
    (fun _ _ _ _ => eq_refl) (fun _ _ _ => eq_refl) (fun _ => eq_refl)
    [[3; 0]; [1; 97; 4]; [0; 0]] (demo_proto 1) [] [(3, [97]); (4, [])]).
  - repeat constructor; discriminate.
  - repeat constructor; cbn; lia || discriminate.
  - reflexivity.
  - reflexivity.
  - apply demo_rx.
  - reflexivity.
Defined.

Lemma binary_roundtrip_witness :
  exists iovs ret p', proto_output log_cb (demo_proto 1) [] MSG_VERSION $"%c%s" [AInt 1; APtr [105; 0]] =
      ('(r, w1) ← sendv log_cb (demo_proto 1) [] iovs; Done (r, demo_proto 1, w1)) /\
    proto_recv log_cb (demo_proto 1) [] (concat iovs) 0 = Done (ret, p', [(128, [1; 105])]) /\ 0 < ret.
Proof.
  apply (binary_roundtrip (os:=quiet_os) log_cb (fun w m d => w ++ [(m, d)]) (fun _ _ _ => 1) log_message eq_refl
    (fun _ _ _ _ => eq_refl) (fun _ _ _ => eq_refl) (fun _ => eq_refl)
    log_cb (demo_proto 1) [] [] MSG_VERSION $"%c%s" [AInt 1; APtr [105; 0]] [[1]; [105]]
    (demo_proto 1) []);
  try reflexivity; try apply demo_rx; vm_compute; intuition discriminate.
Defined.

Lemma binary_too_big_witness :
  exists p', proto_recv log_cb (demo_proto 1) [] (enc_pdu (4, replicate (Z.to_nat 65532) 97)) 0 =
    Done (-1, p', []).
Proof.
  apply (binary_too_big (os:=quiet_os) log_cb log_message eq_refl (fun _ => eq_refl)
    (4, replicate (Z.to_nat 65532) 97) (demo_proto 1) []); try reflexivity; try apply demo_rx.
  - cbn [fst]; lia.
  - cbn [snd]. rewrite zlen_replicate; lia.
Defined.

Lemma framed_roundtrip_witness :
  exists iovs, proto_output log_cb (demo_proto 3) [] CMD_READ $"%s" [APtr [107; 0]] =
      ('(r, w1) ← sendv log_cb (demo_proto 3) [] iovs; Done (r, demo_proto 3, w1)) /\
    proto_recv log_cb (demo_proto 3) [] (concat iovs) 0 = Done (1, demo_proto 3, [(3, [107])]).
Proof.
  apply (framed_roundtrip log_cb log_cb log_message (demo_proto 3) [] [] CMD_READ $"%s"
    [APtr [107; 0]] [[107]] (demo_proto 3) []); reflexivity.
Defined.

Lemma mode_detection_witness : detect_mode 104 = PROTO_MODE_TEXT.
Proof. apply (mode_detection ($"HELLO", CMD_HELLO, $"i|t")). left. Defined.
