(* ===== verification/ProtoTyped.v ===== *)
(** * What the translator passes up is well typed

    The application's handler relies on the types of its arguments: a message ID that is a byte,
    data of at most 65535 bytes. [checked] adds the test for them to a handler; the theorem says
    that the test never fails, in any mode and for any input, so that it changes nothing. *)
From S2P Require Import Prelude StoreDefs Rxbuf ProtoDefs ProtoKeep ProtoBin.
Local Open Scope infod_scope.

Definition well_typed (msg : Z) (data : bytes) : Prop :=
  is_byte msg /\ zlen data <= 65535 /\ Forall is_byte data.
#[export] Instance well_typed_dec msg data : Decision (well_typed msg data).
Proof. unfold well_typed. apply _. Defined.

Definition checked {W} (cb : callbacks W) : callbacks W :=
  mk_callbacks
    (match on_input cb with
     | Some f => Some (fun p w msg data =>
         if bool_decide (well_typed msg data) then f p w msg data else Crash AssertFailed)
     | None => None
     end)
    (on_sendv cb) (on_error cb).

(** The receive buffer of a translator. *)
Definition rx_typed (r : rxbuf) : Prop := rx_ok r /\ Forall is_byte (rx_buf r).

(** [agree P m n]: [m] and [n] do the same, and the result satisfies [P]. *)
Definition agree {A} (P : A -> Prop) (m n : outcome A) : Prop := m = n /\ ensures P m.

Lemma agree_refl {A} (P : A -> Prop) m : ensures P m -> agree P m m.
Proof. done. Qed.
Lemma agree_done {A} (P : A -> Prop) a : P a -> agree P (Done a) (Done a).
Proof. intros H. split; [done|by apply ensures_done]. Qed.
Lemma agree_bind {A B} (Q : A -> Prop) (P : B -> Prop) m n k1 k2 :
  agree Q m n -> (forall a, Q a -> agree P (k1 a) (k2 a)) -> agree P (m ≫= k1) (n ≫= k2).
Proof.
  intros [-> Hm] Hk. destruct n as [a|c]; cbn; [|by split]. by apply Hk, Hm.
Qed.
Lemma agree_weaken {A} (Q P : A -> Prop) m n : agree Q m n -> (forall a, Q a -> P a) -> agree P m n.
Proof. intros [-> H] HQ. split; [done|]. by eapply ensures_weaken. Qed.

(** ** Receive buffers *)

Section Buffers.
Context {os : OS}.

Lemma resize_typed r sz : 0 <= sz -> rx_typed r -> ensures (fun x => rx_typed x.2) (rxbuf_resize r sz).
Proof.
  intros Hsz [Hok Hb]. destruct (Z.leb_spec (zlen (rx_buf r)) sz) as [Hle|Hgt].
  - destruct (rxbuf_resize_ok r sz Hok Hle) as (n & r' & -> & Hb' & Hok' & _).
    apply ensures_done. split; [done|]. by cbn; rewrite Hb'.
  - unfold rxbuf_resize. destruct (Z.leb_spec 0x10000 sz); [by apply ensures_done|].
    destruct (rx_roundup_spec sz Hsz) as [Hr [q Hq]]. set (sz' := rx_roundup sz SIZECHUNK) in *.
    destruct (Z.leb_spec (zlen (rx_buf r)) sz'); ostep; [|apply ensures_crash].
    destruct (rx_max r =? sz'); [by apply ensures_done|]. destruct (negb _); [by apply ensures_done|].
    apply ensures_done. split; [|done]. split; cbn; [lia|by exists q].
Qed.

Lemma addc_typed r c : is_byte c -> rx_typed r -> ensures (fun x => rx_typed x.2) (rxbuf_addc r c).
Proof.
  intros Hc [Hok Hb]. destruct (rxbuf_addc_ok r c Hok) as (n & r' & -> & Hok' & Hr). apply ensures_done.
  split; [done|]. cbn. destruct Hr as [(_ & ->)|(_ & -> & _)]; [|done]. apply Forall_app. by split; [|constructor].
Qed.

Lemma add_typed r b : Forall is_byte b -> rx_typed r -> ensures (fun x => rx_typed x.2) (rxbuf_add r b).
Proof.
  intros Hc [Hok Hb]. destruct (rxbuf_add_ok r b Hok) as (n & r' & -> & Hok' & Hr). apply ensures_done.
  split; [done|]. cbn. destruct Hr as [(_ & -> & _)|(_ & -> & _)]; [|done]. by apply Forall_app.
Qed.

Lemma zeropad_typed r : rx_typed r -> ensures (fun x => rx_typed x.2 /\ rx_buf x.2 = rx_buf r) (rxbuf_zeropad r).
Proof.
  intros [Hok Hb]. destruct (rxbuf_zeropad_ok r Hok) as (n & r' & -> & Hb' & Hok' & _). apply ensures_done.
  cbn. split; [|done]. split; [done|]. by rewrite Hb'.
Qed.

Lemma clear_typed r sz : 0 <= sz < 65536 -> rx_typed r -> ensures (fun x => rx_typed x.2) (rxbuf_clear r sz).
Proof.
  intros Hsz [Hok Hb]. destruct (rxbuf_clear_ok r sz Hok Hsz) as (n & r' & -> & Hb' & Hok' & _).
  apply ensures_done. split; [done|]. cbn. by rewrite Hb'.
Qed.

Lemma trimspace_typed r : rx_typed r -> rx_typed (rxbuf_trimspace r).
Proof.
  intros [Hok Hb]. split; [by apply rxbuf_trimspace_ok|]. cbn. apply Forall_reverse.
  apply Forall_reverse in Hb. induction Hb as [|c l Hc Hl IH]; cbn; [done|].
  destruct (c =? 32); [done|]. by constructor.
Qed.

End Buffers.
#[export] Hint Resolve resize_typed addc_typed add_typed zeropad_typed clear_typed trimspace_typed : ensures.

Lemma byte_land x : is_byte (Z.land x 255).
Proof. rewrite land_255. apply Z.mod_pos_bound. done. Qed.
Lemma byte_u8 x : is_byte (u8 x).
Proof. apply Z.mod_pos_bound. done. Qed.
Lemma zero_byte : is_byte 0.
Proof. done. Qed.
#[export] Hint Resolve byte_land byte_u8 zero_byte : ensures.

(** ** The decoders *)

Section Typed.
Context {os : OS} {W : Type} (cb : callbacks W).
Abbreviation cb' := (checked cb).
Implicit Types (p : proto) (w : W).

Definition typed p : Prop := rx_typed (rx p).

(** The handler is called with well-typed arguments. *)
Lemma input_agree f p w msg data :
  on_input cb = Some f -> well_typed msg data ->
  exists f', on_input cb' = Some f' /\ f' p w msg data = f p w msg data.
Proof.
  intros Hf Ht. cbn. rewrite Hf. eexists. split; [done|]. cbn. by rewrite bool_decide_true.
Qed.

(** An output does not look at the handler, and leaves the receive buffer alone. *)
Lemma error_agree p w code text :
  agree (fun x => rx x.1.2 = rx p) (proto_output_error cb' p w code text) (proto_output_error cb p w code text).
Proof.
  split; [reflexivity|]. eapply ensures_weaken; [by apply (proto_output_error_keeps cb' (fun _ => True))|].
  by intros [[r p1] w1] (H & _).
Qed.

(** The result of a pass over the text decoder. *)
Definition pass_typed (x : pass W) : Prop := match x with Again p _ => typed p | Ret _ p _ => typed p end.

Lemma text_error_agree p w code text :
  typed p -> agree pass_typed (text_error cb' p w code text) (text_error cb p w code text).
Proof.
  intros Hp. unfold text_error. eapply agree_bind; [apply error_agree|]. intros [[r p1] w1] H. cbn in H.
  apply agree_done. unfold pass_typed, typed in *. cbn. by rewrite H.
Qed.

Lemma add_char_agree p w ch k k' :
  is_byte ch -> typed p -> (forall p, typed p -> agree pass_typed (k p) (k' p)) ->
  agree pass_typed (add_char p w ch k) (add_char p w ch k').
Proof.
  intros Hc Hp Hk. unfold add_char. eapply agree_bind; [apply agree_refl; by apply addc_typed|].
  intros [r rx1] H. cbn in H. destruct (r =? -1); [by apply agree_done|]. by apply Hk.
Qed.

Ltac typed_done := apply agree_done; unfold pass_typed, typed in *; cbn; eauto with ensures.

Lemma case_argsp_agree p w ch :
  typed p -> agree pass_typed (case_argsp cb' p w ch) (case_argsp cb p w ch).
Proof.
  intros Hp0. unfold case_argsp. destruct (ch =? 32); [typed_done|].
  set (p1 := if hd0 _ =? 124 then _ else p).
  assert (Hp : typed p1) by (unfold p1; destruct (_ =? 124); done). clearbody p1. clear Hp0 p. rename p1 into p.
  destruct (is_eol ch); [destruct (negb _ && _)|].
  - eapply agree_bind; [apply error_agree|]. intros [[r p1] w1] H. cbn in H. apply agree_done.
    unfold pass_typed, typed in *. cbn. by rewrite H.
  - destruct (on_input cb) as [f|] eqn:Hf; cbn [on_input checked]; rewrite Hf; [|typed_done].
    eapply agree_bind; [apply agree_refl; by apply zeropad_typed|]. intros [r rx1] [H Hb]. cbn in H, Hb.
    destruct (r =? -1); [typed_done|].
    assert (Ht : well_typed (Z.land (hd0 (rx_buf rx1)) 255) (drop 1 (rx_buf rx1))).
    { destruct H as [[[Hl Hm] _] Hall]. split_and!; [apply byte_land| |by apply Forall_drop].
      unfold zlen in *. rewrite length_drop. lia. }
    apply (agree_bind (fun _ => True)).
    + split; [|by intros ? ?]. unfold text_input. destruct (_ =? PSEUDO_HELP); [done|].
      cbn [on_input checked]. rewrite Hf. by rewrite bool_decide_true.
    + intros [ret w1] _. destruct (ret <=? 0); typed_done.
  - destruct (fmt (t p)) as [|f fmt']; [by apply text_error_agree|].
    destruct (f =? 105); [typed_done|]. destruct (f =? 116); [typed_done|].
    destruct (f =? 48); [|by split]. eapply agree_bind; [apply agree_refl; apply addc_typed; [apply zero_byte|done]|].
    intros [r rx1] H. cbn in H. destruct (r =? -1); typed_done.
Qed.

Lemma cmdtab_bytes : Forall (fun e : bytes * Z * bytes => is_byte e.1.2) cmdtab.
Proof. by repeat constructor. Qed.

Lemma case_cmd_agree p w ch :
  typed p -> agree pass_typed (case_cmd cb' p w ch) (case_cmd cb p w ch).
Proof.
  intros Hp. unfold case_cmd. destruct (negb _ && _).
  - apply (agree_bind (fun _ => True)); [by split|]. intros c _.
    destruct (16 <=? _); [by apply text_error_agree|typed_done].
  - apply (agree_bind (fun _ => True)); [by split|]. intros c _.
    destruct (find _ cmdtab) as [[[word id] f]|] eqn:Hfind; [|by apply text_error_agree].
    assert (Hid : is_byte id).
    { apply find_some in Hfind as [Hin _]. apply list_elem_of_In in Hin.
      pose proof cmdtab_bytes as H. rewrite Forall_forall in H. by apply (H _ Hin). }
    eapply agree_bind; [apply agree_refl; apply clear_typed; [lia|exact Hp]|]. intros [r rx1] H. cbn in H.
    destruct (r =? -1); [typed_done|]. apply add_char_agree; [done|done|]. intros p3 H3.
    by apply case_argsp_agree.
Qed.

Lemma case_bol_agree p w ch :
  typed p -> agree pass_typed (case_bol cb' p w ch) (case_bol cb p w ch).
Proof. intros Hp. unfold case_bol. destruct (_ || _); [typed_done|]. by apply case_cmd_agree. Qed.

Lemma case_str_agree p w ch :
  is_byte ch -> typed p -> agree pass_typed (case_str p w ch) (case_str p w ch).
Proof.
  intros Hc Hp. unfold case_str. destruct (_ || _); [destruct (_ =? 0); typed_done|].
  apply add_char_agree; [done|done|]. intros p1 H1. typed_done.
Qed.

Lemma text_pass_agree p w ch :
  is_byte ch -> typed p -> agree pass_typed (text_pass cb' p w ch) (text_pass cb p w ch).
Proof.
  intros Hc Hp. unfold text_pass. destruct (state (t p)).
  - unfold case_error. destruct (negb _); [typed_done|]. by apply case_bol_agree.
  - by apply case_bol_agree.
  - by apply case_cmd_agree.
  - by apply case_argsp_agree.
  - unfold case_int. destruct (_ && _).
    + destruct (255 <? _); [by apply text_error_agree|typed_done].
    + apply add_char_agree; [apply byte_u8|done|]. intros p1 H1. typed_done.
  - unfold case_strbeg. destruct (ch =? 34); [typed_done|]. by apply case_str_agree.
  - by apply case_str_agree.
  - unfold case_qstr. destruct (is_eol ch).
    + eapply agree_bind; [apply error_agree|]. intros [[r p1] w1] H. cbn in H. apply agree_done.
      unfold pass_typed, typed in *. cbn. by rewrite H.
    + destruct (ch =? 92); [typed_done|]. destruct (ch =? 34); [typed_done|].
      apply add_char_agree; [done|done|]. intros p1 H1. typed_done.
  - unfold case_qoct. destruct (_ || _); [by apply text_error_agree|].
    destruct (_ =? 0); [|typed_done]. apply add_char_agree; [apply byte_u8|done|]. intros p1 H1. typed_done.
Qed.

(** The translator in the result of a decoder. *)
Definition result_typed (x : Z * proto * W) : Prop := typed x.1.2.

Lemma text_passes_agree fuel : forall p w ch, is_byte ch -> typed p ->
  agree result_typed (text_passes cb' fuel p w ch) (text_passes cb fuel p w ch).
Proof.
  induction fuel as [|fuel IH]; intros p w ch Hc Hp; cbn [text_passes]; [by split|].
  eapply agree_bind; [by apply text_pass_agree|]. intros [p1 w1|r p1 w1] H; [by apply IH|by apply agree_done].
Qed.

Lemma text_loop_agree net : forall p w ret, Forall is_byte net -> typed p ->
  agree result_typed (recv_text_loop cb' p w net ret) (recv_text_loop cb p w net ret).
Proof.
  induction net as [|ch net IH]; intros p w ret Hb Hp; cbn [recv_text_loop]; [by apply agree_done|].
  apply Forall_cons in Hb as [Hc Hb]. eapply agree_bind; [by apply text_passes_agree|].
  intros [[n p1] w1] H. destruct (n <=? 0); [by apply agree_done|]. by apply IH.
Qed.

(** A message of the binary protocol. *)
Definition deliver_typed (x : option Z * Z * proto * W) : Prop := typed x.1.2.

Lemma deliver_agree p w ret :
  typed p -> agree deliver_typed (binary_deliver cb' p w ret) (binary_deliver cb p w ret).
Proof.
  intros Hp. unfold binary_deliver. destruct (_ && _); [|by apply agree_done].
  apply (agree_bind deliver_typed).
  - destruct (on_input cb) as [f|] eqn:Hf; cbn [on_input checked]; rewrite Hf; [|by apply agree_done].
    eapply agree_bind; [apply agree_refl; by apply zeropad_typed|]. intros [r rx1] [H Hb]. cbn in H, Hb.
    destruct (r =? -1); [by apply agree_done|].
    assert (Ht : well_typed (Z.land (hd0 (rx_buf rx1)) 255) (drop 3 (rx_buf rx1))).
    { destruct H as [[[Hl Hm] _] Hall]. split_and!; [apply byte_land| |by apply Forall_drop].
      unfold zlen in *. rewrite length_drop. lia. }
    apply (agree_bind (fun _ => True)); [split; [by rewrite bool_decide_true|by intros ? ?]|].
    intros [n w1] _. destruct (n <=? 0); by apply agree_done.
  - intros [[[stop ret1] p1] w1] H. unfold deliver_typed in H. cbn in H. destruct stop; [by apply agree_done|].
    eapply agree_bind; [apply agree_refl; apply clear_typed; [lia|exact H]|]. intros [r rx1] H1. cbn in H1.
    destruct (r =? -1); by apply agree_done.
Qed.

Lemma binary_loop_agree fuel : forall p w net ret, Forall is_byte net -> typed p ->
  agree result_typed (recv_binary_loop cb' fuel p w net ret) (recv_binary_loop cb fuel p w net ret).
Proof.
  induction fuel as [|fuel IH]; intros p w net ret Hb Hp; cbn [recv_binary_loop].
  { destruct net; [by apply agree_done|by split]. }
  destruct net as [|c net0] eqn:En; [by apply agree_done|]. rewrite <- En in *.
  eapply agree_bind; [apply agree_refl; apply resize_typed; [|exact Hp]|].
  { destruct (_ <? 3); [lia|]. unfold binary_pkt_len. destruct (rx_buf (rx p)) as [|? [|? [|? ?]]]; try lia.
    change 0xff with 255. rewrite !land_255. unfold u8. change (2 ^ 8) with 256.
    rewrite lor_shiftl by (change (2 ^ 8) with 256; divlia). divlia. }
  intros [r rx1] H. cbn in H. destruct (r =? -1); [by apply agree_done|].
  eapply agree_bind; [apply agree_refl; apply add_typed; [by apply Forall_take|exact H]|].
  intros [r2 rx2] H2. cbn in H2. eapply agree_bind; [by apply deliver_agree|].
  intros [[[stop ret2] p2] w2] H3. destruct stop; [by apply agree_done|].
  apply IH; [by apply Forall_drop|exact H3].
Qed.

(** C7: whatever bytes are received, in any mode and in any state of the decoder, the handler is
    only ever called with a message ID that is a byte and with at most 65535 bytes of data: a
    handler that tests its arguments never finds them wrong. The receive buffer holds bytes, and
    fits its memory, again. *)
Theorem upcalls_well_typed p w net :
  typed p -> Forall is_byte net -> zlen net <= 65536 ->
  proto_recv cb' p w net 0 = proto_recv cb p w net 0 /\
  forall r p' w', proto_recv cb p w net 0 = Done (r, p', w') -> typed p'.
Proof.
  intros Hp Hb Hsz. assert (H : agree result_typed (proto_recv cb' p w net 0) (proto_recv cb p w net 0)).
  2:{ destruct H as [E H]. split; [done|]. rewrite E in H. intros r p' w' E'. by apply (H (r, p', w')). }
  unfold proto_recv. destruct net as [|ch net].
  { destruct (on_input cb) as [f|] eqn:Hf; cbn [on_input checked]; rewrite Hf; [|by apply agree_done].
    apply (agree_bind (fun _ => True)); [split; [|by intros ? ?]|].
    - rewrite bool_decide_true; [done|]. by split_and!.
    - intros [r w1] _. by apply agree_done. }
  cbn [Z.eqb negb]. set (p1 := if mode p =? _ then _ else p).
  assert (H1 : typed p1) by (unfold p1; by destruct (_ =? _)).
  destruct (_ =? PROTO_MODE_BINARY); [by apply binary_loop_agree|].
  destruct (_ =? PROTO_MODE_TEXT); [by apply text_loop_agree|].
  destruct (_ =? PROTO_MODE_FRAMED); [|by apply agree_done]. unfold recv_framed.
  destruct (on_input cb) as [f|] eqn:Hf; cbn [on_input checked]; rewrite Hf; [|by apply agree_done].
  apply Forall_cons in Hb as [Hc Hb]. rewrite zlen_cons in Hsz.
  apply (agree_bind (fun _ => True)); [split; [|by intros ? ?]|].
  - rewrite bool_decide_true; [done|]. split_and!; [done|lia|done].
  - intros [r w1] _. by apply agree_done.
Qed.

End Typed.

(** The text command PING with an octal escape that is out of range. *)
Lemma upcalls_well_typed_witness :
  proto_recv (os:=quiet_os) (checked log_cb) (demo_proto 0) [] ($"ping " ++ [34; 92; 55; 55; 55; 34; 10]) 0 =
    proto_recv (os:=quiet_os) log_cb (demo_proto 0) [] ($"ping " ++ [34; 92; 55; 55; 55; 34; 10]) 0 /\
  forall r p' w', proto_recv (os:=quiet_os) log_cb (demo_proto 0) [] ($"ping " ++ [34; 92; 55; 55; 55; 34; 10]) 0 =
    Done (r, p', w') -> typed p'.
Proof.
  apply (upcalls_well_typed (os:=quiet_os) log_cb).
  - split; [apply demo_rx|constructor].
  - by repeat constructor.
  - vm_compute. discriminate.
Defined.
