(* ===== verification/ProtoStream.v ===== *)
(** * The binary protocol: any bytes, any application

    ProtoBin.v follows a well-formed stream through the decoder, to an application that takes
    every message. Here the bytes are arbitrary and the application may refuse a message, which
    ends the connection. [Stream] says what becomes of the bytes. *)
From S2P Require Import Prelude StoreDefs Rxbuf ProtoDefs ProtoBin.
Local Open Scope infod_scope.

(** The length field of a message that begins with [b]. *)
Definition pkt_len (b : bytes) : Z := binary_pkt_len (mk_rxbuf b 0).

(** The message is not complete, and the decoder may wait for the rest of it: it has looked at
    the length field once the first byte of the payload is there. *)
Definition waiting (b : bytes) : Prop :=
  zlen b < 3 \/ (zlen b < 3 + pkt_len b /\ (zlen b = 3 \/ pkt_len b <= 65532)).

(** The message is larger than the receive buffer can hold with the NUL behind it. *)
Definition oversize (b : bytes) : Prop :=
  (3 < zlen b /\ 65532 < pkt_len b) \/ (3 + pkt_len b <= zlen b /\ pkt_len b = 65532).

Section Streams.
Context {W : Type} (R : W -> pdu -> bool -> W -> Prop).

(** What becomes of the bytes [b] of a stream: complete messages are passed to the application,
    one after the other, until it refuses one or a message is too large. The boolean says if the
    connection goes on, the last argument what is kept for the next time. *)
Inductive Stream (w : W) : bytes -> bool -> W -> bytes -> Prop :=
  | str_wait b : waiting b -> Stream w b true w b
  | str_next m b w1 ok w' rest :
      wf_pdu m -> R w m true w1 -> Stream w1 b ok w' rest ->
      Stream w (enc_pdu m ++ b) ok w' rest
  | str_end m b w' : wf_pdu m -> R w m false w' -> Stream w (enc_pdu m ++ b) false w' []
  | str_big b : oversize b -> Stream w b false w [].

End Streams.

(** ** Length fields *)

Lemma pkt_len_app a b : 3 <= zlen a -> pkt_len (a ++ b) = pkt_len a.
Proof.
  intros H. destruct a as [|x [|y [|z a]]]; try (unfold zlen in H; cbn in H; lia). done.
Qed.

Lemma pkt_len_any b mx : binary_pkt_len (mk_rxbuf b mx) = pkt_len b.
Proof. done. Qed.

Lemma pkt_len_rx r : binary_pkt_len r = pkt_len (rx_buf r).
Proof. done. Qed.

Lemma pkt_len_range b : 0 <= pkt_len b < 65536.
Proof.
  unfold pkt_len, binary_pkt_len. cbn [rx_buf].
  destruct b as [|x [|y [|z b]]]; try lia. change 0xff with 255. rewrite !land_255. unfold u8.
  change (2 ^ 8) with 256. rewrite lor_shiftl by (change (2 ^ 8) with 256; divlia).
  change (2 ^ 8) with 256. divlia.
Qed.

(** Bytes that are one message. *)
Lemma complete_pdu b :
  Forall is_byte b -> 3 <= zlen b -> zlen b = 3 + pkt_len b ->
  b = enc_pdu (hd0 b, drop 3 b) /\ is_byte (hd0 b) /\ zlen (drop 3 b) = pkt_len b.
Proof.
  intros Hb H3 Hl. destruct b as [|x [|y [|z b]]]; try (unfold zlen in H3; cbn in H3; lia).
  apply Forall_cons in Hb as [Hx [Hy [Hz Hb]%Forall_cons]%Forall_cons].
  change (drop 3 (x :: y :: z :: b)) with b. rewrite !zlen_cons in Hl. unfold pkt_len, binary_pkt_len in *. cbn [rx_buf hd0] in *.
  change 0xff with 255 in *. rewrite !land_255 in *. unfold is_byte in *. change (2 ^ 8) with 256 in *.
  rewrite !u8_small in * by (change (2 ^ 8) with 256; lia).
  rewrite lor_shiftl in * by (change (2 ^ 8) with 256; lia). change (2 ^ 8) with 256 in *.
  split_and!; [|lia..]. unfold enc_pdu. cbn [fst snd app]. assert (zlen b = y * 256 + z) as -> by lia.
  unfold u8. change (2 ^ 8) with 256. repeat f_equal; divlia.
Qed.

Lemma waiting_nil : waiting [].
Proof. left. done. Qed.

(** ** The loop of [recv_binary] *)

Section Decode.
Context {os : OS} {W : Type} (cb : callbacks W).
Context (f : proto -> W -> Z -> bytes -> outcome (Z * W)) (R : W -> pdu -> bool -> W -> Prop).
(** [I k] holds while the application can take [k] more messages, [J k] after it refused one. *)
Context (I J : nat -> W -> Prop) (m0 : Z) (t0 : textproto).
Hypothesis takes_input : on_input cb = Some f.
Hypothesis realloc_succeeds : forall n, realloc_ok n = true.
Hypothesis I_mono : forall k w, I (S k) w -> I k w.
Hypothesis I_J : forall k w, I k w -> J k w.
Hypothesis J_mono : forall k w, J (S k) w -> J k w.
(** What is known of the messages in the bytes. *)
Context (good : pdu -> Prop) (goods : bytes -> Prop).
Hypothesis goods_next : forall m b, wf_pdu m -> goods (enc_pdu m ++ b) -> good m /\ goods b.
Hypothesis handles : forall k p w m, I (S k) w -> mode p = m0 -> wf_pdu m -> good m ->
  exists r w', f p w m.1 m.2 = Done (r, w') /\ R w m (bool_decide (0 < r)) w' /\
    if bool_decide (0 < r) then I k w' else J k w'.

Implicit Types (p : proto) (w : W) (net got : bytes).

Lemma I_le n m w : (n <= m)%nat -> I m w -> I n w.
Proof using I_mono. induction 1; auto. Qed.
Lemma J_le n m w : (n <= m)%nat -> J m w -> J n w.
Proof using J_mono. induction 1; auto. Qed.

(** What the decoder never changes in this mode. *)
Definition ours p : Prop := mode p = m0 /\ t p = t0.

(** What the decoder is between two calls. *)
Record resting p : Prop := {
  rs_mode : ours p;
  rs_rx : rx_ok (rx p);
  rs_bytes : Forall is_byte (rx_buf (rx p));
  rs_wait : waiting (rx_buf (rx p))
}.

Definition decoded (k : nat) w (b : bytes) (res : outcome (Z * proto * W)) : Prop :=
  exists r p' w' rest, res = Done (r, p', w') /\ Stream R w b (bool_decide (0 < r)) w' rest /\
    ours p' /\
    if bool_decide (0 < r) then resting p' /\ rx_buf (rx p') = rest /\ I k w' else J k w'.

(** A message is complete. *)
Lemma deliver_message p w ret k :
  let b := rx_buf (rx p) in
  ours p -> rx_ok (rx p) -> Forall is_byte b -> 3 <= zlen b -> zlen b = 3 + pkt_len b ->
  (wf_pdu (hd0 b, drop 3 b) -> good (hd0 b, drop 3 b)) -> I (S k) w ->
  exists stop ret' p' w', binary_deliver cb p w ret = Done (stop, ret', p', w') /\ ours p' /\
    ((stop = Some (-1) /\ oversize b /\ w' = w) \/
     (exists r, stop = Some r /\ r <= 0 /\ wf_pdu (hd0 b, drop 3 b) /\
        R w (hd0 b, drop 3 b) false w' /\ J k w') \/
     (stop = None /\ ret < ret' /\ wf_pdu (hd0 b, drop 3 b) /\ R w (hd0 b, drop 3 b) true w' /\
        resting p' /\ rx_buf (rx p') = [] /\ I k w')).
Proof using takes_input realloc_succeeds handles.
  intros b Hm Hok Hb H3 Hl Hgood HI. destruct (complete_pdu b Hb H3 Hl) as (_ & Hh & Hd).
  unfold binary_deliver. rewrite pkt_len_rx. fold b.
  rewrite (proj2 (Z.leb_le _ _) H3), (proj2 (Z.eqb_eq _ _) Hl). cbn [andb]. rewrite takes_input.
  destruct (rxbuf_zeropad_ok (rx p) Hok) as (r & rx1 & Ez & Hb1 & Hok1 & Hr). rewrite Ez. ostep. fold b in Hb1, Hr.
  destruct Hr as [->|[-> [Hbig|[n Hn]]]]; [|cbn [Z.eqb]; ostep|by rewrite realloc_succeeds in Hn].
  2:{ eexists _, _, _, _. split; [done|]. split; [done|]. left. split_and!; [done| |done].
      pose proof (pkt_len_range b). unfold oversize. lia. }
  apply rxbuf_zeropad_fits in Ez. fold b in Ez.
  assert (Hwf : wf_pdu (hd0 b, drop 3 b)).
  { unfold wf_pdu. cbn [fst snd]. rewrite Hd. unfold is_byte in Hh. lia. }
  cbn [Z.eqb]. rewrite Hb1, land_255, u8_small by done.
  destruct (handles k (set_rx p rx1) w (hd0 b, drop 3 b) HI (proj1 Hm) Hwf (Hgood Hwf)) as (n & w' & E & HR & HIJ).
  cbn [fst snd] in E. rewrite E. ostep. destruct (Z.leb_spec n 0) as [Hn|Hn].
  { rewrite bool_decide_false in HR, HIJ by lia. ostep. eexists _, _, _, _. split; [done|].
    split; [done|]. right. left. exists n. split_and!; done. }
  rewrite bool_decide_true in HR, HIJ by lia. ostep.
  destruct (rxbuf_clear_ok rx1 3 Hok1) as (r & rx2 & Ecl & Hb2 & Hok2 & Hr2); [lia|].
  cbn [set_rx rx]. rewrite Ecl. ostep.
  destruct Hr2 as [->|[_ [m Hm']]]; [|by rewrite realloc_succeeds in Hm']. cbn [Z.eqb].
  eexists _, _, _, _. split; [done|]. split; [done|]. right. right. split_and!; try done; [lia|].
  split; cbn; rewrite ?Hb2; done || apply waiting_nil.
Qed.

(** A turn brings the decoder closer to a whole message, or to the end of the fragment. *)
Lemma waiting_step got net :
  let need := if zlen got <? 3 then 3 else 3 + pkt_len got in
  let n := Z.min (zlen net) (need - zlen got) in
  let b := got ++ take (Z.to_nat n) net in
  waiting got -> net <> [] -> (3 <= zlen got -> pkt_len got <= 65532) ->
  1 <= n <= zlen net /\ zlen b = zlen got + n /\ zlen got < need < 65536 /\
  (waiting b \/ 3 <= zlen b /\ zlen b = 3 + pkt_len b).
Proof.
  intros need n b Hw Hne Hp. pose proof (zlen_nonneg got).
  assert (1 <= zlen net) by (destruct net; [done|rewrite zlen_cons; pose proof (zlen_nonneg net); lia]).
  assert (Hneed : zlen got < need < 65536).
  { subst need. destruct (Z.ltb_spec (zlen got) 3); [lia|]. destruct Hw as [?|[? _]]; lia. }
  assert (Hn : 1 <= n <= zlen net) by (subst n; lia).
  assert (Hb : zlen b = zlen got + n).
  { unfold b. rewrite zlen_app. f_equal. unfold zlen in *. rewrite length_take. lia. }
  assert (Hmin : zlen got + n <= need) by (subst n; lia).
  split_and!; try lia. destruct (Z.ltb_spec (zlen b) 3) as [?|H3]; [by left; left|].
  pose proof (pkt_len_range b). subst need. destruct (Z.ltb_spec (zlen got) 3).
  - destruct (decide (pkt_len b = 0)); [right; lia|]. left. right. lia.
  - assert (E : pkt_len b = pkt_len got) by (by apply pkt_len_app).
    destruct (decide (zlen b = 3 + pkt_len b)); [right; lia|]. left. right. lia.
Qed.

Lemma deliver_waits p w ret :
  waiting (rx_buf (rx p)) -> binary_deliver cb p w ret = Done (None, ret, p, w).
Proof.
  intros Hw. unfold binary_deliver. rewrite pkt_len_rx.
  destruct Hw as [H|[H _]]; bool_cases; try lia; done.
Qed.

Lemma loop_decodes fuel : forall p w net ret k,
  (length net < fuel)%nat -> resting p -> Forall is_byte net -> 0 <= ret -> (net = [] -> 0 < ret) ->
  goods (rx_buf (rx p) ++ net) -> I (length net + k) w ->
  decoded k w (rx_buf (rx p) ++ net) (recv_binary_loop cb fuel p w net ret).
Proof using takes_input realloc_succeeds goods_next handles I_mono I_J J_mono.
  induction fuel as [|fuel IH]; intros p w net ret k Hfuel Hp Hnet Hret Hpos Hgs HI; [lia|].
  set (got := rx_buf (rx p)). destruct (Hp) as [Hm Hok Hb Hw]. fold got in Hb, Hw.
  destruct (decide (net = [])) as [->|Hne].
  { exists ret, p, w, got. rewrite app_nil_r, bool_decide_true by auto.
    split_and!; [done|by apply str_wait|done|done|done|done]. }
  assert (Hbig : (3 <= zlen got /\ 65532 < pkt_len got) \/ (3 <= zlen got -> pkt_len got <= 65532)) by lia.
  destruct Hbig as [[H3 Hbig]|Hsmall].
  { rewrite binary_refused by (rewrite ?pkt_len_rx; fold got; done || lia).
    eexists (-1), _, w, []. rewrite bool_decide_false by lia. split_and!; [done| |done|].
    - apply str_big. left. rewrite pkt_len_app by done. split; [|done]. rewrite zlen_app.
      destruct net; [done|]. rewrite zlen_cons. pose proof (zlen_nonneg net). lia.
    - apply I_J. eapply I_le; [|exact HI]. lia. }
  destruct (waiting_step got net Hw Hne Hsmall) as (Hn & Hlen & Hneed & Hcase).
  destruct (binary_turn cb realloc_succeeds fuel p w net ret Hne Hok) as (p1 & Hok1 & Ho1 & Hb1 & ->);
    [rewrite pkt_len_rx; exact Hneed|].
  rewrite pkt_len_rx in *. fold got in Hb1 |- *. set (n := Z.min _ _) in *.
  set (b := got ++ take (Z.to_nat n) net) in *. set (net' := drop (Z.to_nat n) net).
  assert (Hnet' : Forall is_byte net') by (by apply Forall_drop).
  assert (Hb' : Forall is_byte b) by (apply Forall_app; split; [done|by apply Forall_take]).
  assert (Hl' : (S (length net') <= length net)%nat) by (unfold net', zlen in *; rewrite length_drop; lia).
  assert (Hs : got ++ net = b ++ net') by (unfold b, net'; by rewrite <- app_assoc, take_drop).
  assert (Hm1 : ours p1) by (destruct Hm, Ho1; split; congruence).
  fold got in Hgs. rewrite Hs in *. destruct Hcase as [Hwait|[H3 Hc]].
  { rewrite deliver_waits by (by rewrite Hb1). ostep. rewrite <- Hb1. apply IH; try done; try lia.
    - by split; rewrite ?Hb1.
    - by rewrite Hb1.
    - eapply I_le; [|exact HI]. lia. }
  destruct (complete_pdu b Hb' H3 Hc) as (Hpdu & _).
  assert (Hgn : wf_pdu (hd0 b, drop 3 b) -> good (hd0 b, drop 3 b) /\ goods net').
  { intros Hwf. apply goods_next; [done|]. by rewrite <- Hpdu. }
  destruct (deliver_message p1 w (ret + n) (length net' + k)) as (stop & ret' & p' & w' & -> & Hm' & Hd);
    rewrite ?Hb1; try done; [apply Hgn|eapply I_le; [|exact HI]; lia|]. rewrite Hb1 in Hd. ostep.
  destruct Hd as [(-> & Ho & ->)|[(r & -> & Hr & Hwf & HR & HJ)|(-> & Hr & Hwf & HR & Hp' & Hb2 & HI')]].
  - exists (-1), p', w, []. rewrite bool_decide_false by lia. split_and!; [done| |done|].
    + apply str_big. unfold oversize in *. rewrite pkt_len_app, zlen_app by done.
      pose proof (zlen_nonneg net'). lia.
    + apply I_J. eapply I_le; [|exact HI]. lia.
  - exists r, p', w', []. rewrite bool_decide_false by lia. split_and!; [done| |done|].
    + rewrite Hpdu at 1. by apply str_end.
    + eapply J_le; [|exact HJ]. lia.
  - destruct (IH p' w' net' ret' k) as (r & p2 & w2 & rest & -> & Hst & Hm2 & Hend); try done; try lia.
    { rewrite Hb2. by apply Hgn. }
    exists r, p2, w2, rest. split_and!; [done| |done|done]. rewrite Hpdu at 1. rewrite Hb2 in Hst.
    by eapply str_next.
Qed.

(** Whatever bytes arrive in binary mode, [proto_recv] returns, and the messages they complete
    have been passed up in order. *)
Lemma binary_decodes p w net k :
  m0 = PROTO_MODE_BINARY -> resting p -> net <> [] -> Forall is_byte net -> goods (rx_buf (rx p) ++ net) ->
  I (length net + k) w -> decoded k w (rx_buf (rx p) ++ net) (proto_recv cb p w net 0).
Proof using takes_input realloc_succeeds goods_next handles I_mono I_J J_mono.
  intros Hm Hp Hne Hb Hgs HI. destruct net as [|c net]; [done|].
  rewrite proto_recv_binary by (by rewrite (proj1 (rs_mode p Hp))). unfold recv_binary.
  apply loop_decodes; done || lia.
Qed.

End Decode.
