(* ===== verification/ProtoTextOut.v ===== *)
(** * The text protocol: encoding

    A message is written as a line: a command word and arguments, strings quoted. Lines of up
    to 4095 bytes are sent exactly as specified by [text_line]; longer ones can overrun the
    output buffer. *)
From S2P Require Import Prelude StoreDefs Rxbuf ProtoDefs ProtoBin.
Local Open Scope infod_scope.

(** ** Lines *)

Definition qchar (c : byte) : bytes := if needs_escape c then escape c else [c].
Definition qchars (s : bytes) : bytes := concat (qchar <$> s).
Definition quote (s : bytes) : bytes := 34 :: qchars s ++ [34].

(** An argument: a byte, or a string that is passed to [proto_output] as a C string or as a
    length and a pointer. *)
Inductive targ := TI (n : Z) | TT (star : bool) (s : bytes).

Definition print_targ (a : targ) : bytes :=
  match a with TI n => print_byte n | TT _ s => quote s end.
Definition text_line (word : bytes) (args : list targ) : bytes :=
  word ++ concat ((fun a => 32 :: print_targ a) <$> args) ++ CRLF.

(** The payload that a list of arguments stands for, by the format of the command table: [i] is
    a byte, [t] a string, [0] a NUL before the next argument, [|] makes the rest optional. *)
Fixpoint pack (opt : bool) (tf : bytes) (args : list targ) : option bytes :=
  match tf with
  | [] => match args with [] => Some [] | _ => None end
  | c :: tf' =>
      if c =? 124 then pack true tf' args
      else match args with
      | [] => if opt then Some [] else None
      | a :: args' =>
          if c =? 48 then (cons 0) <$> pack opt tf' args
          else match a with
          | TI n => if c =? 105 then (cons n) <$> pack opt tf' args' else None
          | TT _ s => if c =? 116 then (fun d => s ++ d) <$> pack opt tf' args' else None
          end
      end
  end.

(** The format and the arguments of the call of [proto_output] that sends them. *)
Fixpoint spell (tf : bytes) (args : list targ) : bytes * list arg :=
  match tf with
  | [] => ([], [])
  | c :: tf' =>
      if c =? 124 then spell tf' args
      else match args with
      | [] => ([], [])
      | a :: args' =>
          if c =? 48 then let '(f, ap) := spell tf' args in ($"%c" ++ f, AInt 0 :: ap)
          else let '(f, ap) := spell tf' args' in
            match a with
            | TI n => ($"%c" ++ f, AInt n :: ap)
            | TT true s => ($"%*s" ++ f, AInt (zlen s) :: APtr s :: ap)
            | TT false s => ($"%s" ++ f, APtr (s ++ [0]) :: ap)
            end
      end
  end.

(** Bytes are bytes, C strings hold no NUL, no string is longer than 65535 bytes. *)
Definition wf_targ (a : targ) : Prop :=
  match a with
  | TI n => 0 <= n < 256
  | TT star s => zlen s <= 0xffff /\ (star = false -> nul_free s)
  end.

Lemma zlen_print_byte n : 0 <= n < 256 -> 1 <= zlen (print_byte n) <= 3.
Proof. intros Hn. unfold print_byte. bool_cases; unfold zlen; cbn; lia. Qed.

Lemma zlen_qchars s : zlen (qchars s) <= 4 * zlen s.
Proof.
  induction s as [|c s IH]; [done|]. unfold qchars in *. cbn [fmap list_fmap concat].
  rewrite zlen_app, zlen_cons. unfold qchar at 1. destruct (needs_escape c);
    [change (zlen (escape c)) with 4|rewrite zlen_one]; lia.
Qed.

Lemma zlen_quote s : zlen s + 2 <= zlen (quote s).
Proof.
  unfold quote. rewrite zlen_cons, zlen_app, zlen_one. enough (zlen s <= zlen (qchars s)) by lia.
  induction s as [|c s IH]; [done|]. unfold qchars in *. cbn [fmap list_fmap concat].
  rewrite zlen_app, zlen_cons. unfold qchar at 1. destruct (needs_escape c);
    [change (zlen (escape c)) with 4|rewrite zlen_one]; lia.
Qed.

(** A record [key\0value] as one [%*s] argument is split in two; everything else is sent as
    the argument it is. *)
Fixpoint star_ok (tf : bytes) (args : list targ) : Prop :=
  match tf with
  | [] => True
  | c :: tf' =>
      if c =? 124 then star_ok tf' args
      else match args with
      | [] => True
      | a :: args' =>
          if c =? 48 then star_ok tf' args
          else (match a with
                | TT true s => tf' = $"|0t" -> args' = [] -> nul_free s
                | _ => True
                end) /\ star_ok tf' args'
      end
  end.

(** The argument that the next format character asks for. *)
Lemma pack_next tf : forall opt a args d,
  pack opt tf (a :: args) = Some d -> star_ok tf (a :: args) ->
  exists t tf1 opt1, next_tfmt tf opt = (t, tf1, opt1) /\ (length tf1 < length tf)%nat /\
  ((t = 48 /\ exists d', pack opt1 tf1 (a :: args) = Some d' /\ star_ok tf1 (a :: args) /\
      spell tf (a :: args) = (let '(f, ap) := spell tf1 (a :: args) in ($"%c" ++ f, AInt 0 :: ap))) \/
   (t = 105 /\ exists n d', a = TI n /\ pack opt1 tf1 args = Some d' /\ star_ok tf1 args /\
      spell tf (a :: args) = (let '(f, ap) := spell tf1 args in ($"%c" ++ f, AInt n :: ap))) \/
   (t = 116 /\ exists star s d', a = TT star s /\ pack opt1 tf1 args = Some d' /\ star_ok tf1 args /\
      (star = true -> tf1 = $"|0t" -> args = [] -> nul_free s) /\
      spell tf (a :: args) = (let '(f, ap) := spell tf1 args in
        if star then ($"%*s" ++ f, AInt (zlen s) :: APtr s :: ap)
        else ($"%s" ++ f, APtr (s ++ [0]) :: ap)))).
Proof.
  induction tf as [|c tf IH]; intros opt a args d Hp Hst; [done|]. cbn [pack star_ok next_tfmt spell] in *.
  destruct (Z.eqb_spec c 124) as [->|Hc].
  { destruct (IH true a args d Hp Hst) as (t & tf1 & opt1 & E & Hlt & H).
    exists t, tf1, opt1. split_and!; [done|cbn; lia|done]. }
  exists c, tf, opt. split_and!; [done|cbn; lia|]. destruct (Z.eqb_spec c 48) as [->|Hc0].
  { left. split; [done|]. destruct (pack opt tf (a :: args)) as [d'|] eqn:E; [|done]. eauto. }
  right. destruct a as [n|star s].
  - destruct (Z.eqb_spec c 105) as [->|]; [left|done]. split; [done|].
    destruct (pack opt tf args) as [d'|] eqn:E; [|done]. exists n, d'. by destruct Hst.
  - destruct (Z.eqb_spec c 116) as [->|]; [right|done]. split; [done|].
    destruct (pack opt tf args) as [d'|] eqn:E; [|done]. exists star, s, d'. destruct Hst as [Hs Hst].
    split_and!; [done|done|done|by intros ->|]. destruct (spell tf args) as [f ap]. by destruct star.
Qed.

(** A call spelled for some arguments ends where its arguments end. *)
Lemma spell_blank tf opt args d :
  pack opt tf args = Some d -> blank (spell tf args).1 = bool_decide (args = []).
Proof.
  revert opt args d. induction tf as [|c tf IH]; intros opt args d Hp; cbn [pack spell] in *.
  { by destruct args. }
  destruct (Z.eqb_spec c 124); [by eapply IH|]. destruct args as [|a args]; [done|].
  destruct (c =? 48); [by destruct (spell tf (a :: args))|].
  destruct (spell tf args) as [f ap]. by destruct a as [x|[] s].
Qed.

Section Encode.
Context {W : Type} (cb : callbacks W).
Hypothesis sendv_total : forall p w iov, exists r w', sendv cb p w iov = Done (r, w').

(** A peer that takes what it is sent: [out w b w'] says that the bytes [b] lead from [w] to [w'],
    in however many pieces. It reports at least [least] for every piece. *)
Context (least : Z) (out : W -> bytes -> W -> Prop).
Record stream_peer : Prop := {
  peer_takes p w iov : exists r w', sendv cb p w iov = Done (r, w') /\
    0 <= r /\ (concat iov <> [] -> least <= r) /\ out w (concat iov) w';
  peer_app w a w1 b w2 : out w a w1 -> out w1 b w2 -> out w (a ++ b) w2;
  peer_nil w : out w [] w
}.

(** From [w] with [ob] in the buffer to [w'] with [ob'], the bytes [data] were written. *)
Definition wrote (w : W) (ob data : bytes) (w' : W) (ob' : bytes) : Prop :=
  exists sent, out w sent w' /\ sent ++ ob' = ob ++ data.

Lemma wrote_nothing w ob data : stream_peer -> wrote w ob data w (ob ++ data).
Proof. intros Hs. exists []. split; [by apply peer_nil|done]. Qed.

Lemma wrote_app w ob d1 w1 ob1 d2 w2 ob2 :
  stream_peer -> wrote w ob d1 w1 ob1 -> wrote w1 ob1 d2 w2 ob2 -> wrote w ob (d1 ++ d2) w2 ob2.
Proof.
  intros Hs (s1 & O1 & E1) (s2 & O2 & E2). exists (s1 ++ s2). split; [by eapply peer_app|].
  by rewrite <- app_assoc, E2, !app_assoc, E1.
Qed.

(** What an operation on the output buffer guarantees: it ends, [n] bytes at most are added to
    the buffer, and a peer that takes everything gets [data] after what was buffered. *)
Definition sends (ob : bytes) (w : W) (data : bytes) (res : outcome (Z * bytes * W)) : Prop :=
  exists r ob' w', res = Done (r, ob', w') /\ zlen ob' <= zlen ob + zlen data /\
    (stream_peer -> r <> -1 /\ wrote w ob data w' ob').

(** Doing one operation after another, when the first did not fail. *)
Lemma sends_bind ob w d1 d2 res k :
  sends ob w d1 res ->
  (forall ob1 w1, zlen ob1 <= zlen ob + zlen d1 -> sends ob1 w1 d2 (k ob1 w1)) ->
  sends ob w (d1 ++ d2)
    ('(r, ob1, w1) ← res; if r =? -1 then Done (-1, ob1, w1) else k ob1 w1).
Proof.
  intros (r & ob1 & w1 & -> & Hl & Hp) Hk. ostep. pose proof (zlen_nonneg d2).
  destruct (Z.eqb_spec r (-1)) as [->|Hr].
  - exists (-1), ob1, w1. rewrite zlen_app. split_and!; [done|lia|]. intros Hs. by destruct (Hp Hs).
  - destruct (Hk ob1 w1 Hl) as (r2 & ob2 & w2 & -> & Hl2 & Hp2). exists r2, ob2, w2.
    rewrite zlen_app. split_and!; [done|lia|]. intros Hs. destruct (Hp Hs) as [_ E1].
    destruct (Hp2 Hs) as [? E2]. split; [done|]. by eapply wrote_app.
Qed.

Lemma flush_ok p ob w :
  exists r w', outbuf_flush cb p ob w = Done (r, [], w') /\
    (stream_peer -> 0 <= r /\ out w ob w' /\ (ob <> [] -> least <= r)).
Proof.
  unfold outbuf_flush. destruct (Z.eqb_spec (zlen ob) 0) as [E|E].
  - apply zlen_zero in E as ->. exists 0, w. split; [done|]. intros Hs. by split_and!; [|apply (peer_nil Hs)|].
  - destruct (sendv_total p w [ob]) as (r & w' & Es). rewrite Es. ostep. exists r, w'. split; [done|].
    intros Hs. destruct (peer_takes Hs p w [ob]) as (r' & w2 & E' & Hr & Hl & Ho).
    rewrite Es in E'. injection E' as -> ->. cbn [concat] in *. by rewrite app_nil_r in *.
Qed.

Lemma flush_wrote p ob w data :
  exists r w', outbuf_flush cb p (ob ++ data) w = Done (r, [], w') /\
    (stream_peer -> 0 <= r /\ wrote w ob data w' []).
Proof.
  destruct (flush_ok p (ob ++ data) w) as (r & w' & E & Hf). exists r, w'. split; [done|]. intros Hs.
  destruct (Hf Hs) as (Hr & Ho & _). split; [done|]. exists (ob ++ data). by rewrite app_nil_r.
Qed.

Lemma outbuf_ok p ob w data :
  zlen ob + zlen data <= 4096 -> zlen data < 4096 -> sends ob w data (proto_outbuf cb p ob w data).
Proof.
  intros Hl Hd. pose proof (zlen_nonneg ob). pose proof (zlen_nonneg data).
  unfold proto_outbuf, OUTBUF_SIZE. destruct (Z.leb_spec (zlen data) (u32 (8 - zlen ob))) as [Hs|Hs].
  { destruct (Z.leb_spec (zlen ob + zlen data) 4096); [|lia].
    exists 0, (ob ++ data), w. rewrite zlen_app. split_and!; [done|lia|]. split; [done|]. by apply wrote_nothing. }
  destruct (Z.leb_spec 4096 (zlen data)); [lia|].
  assert (Hsp : u32 (8 - zlen ob) = 8 - zlen ob).
  { destruct (Z.leb_spec (zlen ob) 8); [apply u32_small; lia|].
    exfalso. unfold u32 in Hs. rewrite <- (Z.mod_add _ 1), Z.mod_small in Hs by lia. lia. }
  rewrite Hsp in *. destruct (flush_wrote p ob w (take (Z.to_nat (8 - zlen ob)) data)) as (r & w' & -> & Hf).
  ostep. destruct (Z.eqb_spec r (-1)) as [->|Hr].
  { exists (-1), [], w'. split_and!; [done|rewrite zlen_nil; lia|]. intros Hp. by destruct (Hf Hp). }
  eexists _, _, w'. split_and!; [done|unfold zlen in *; rewrite length_drop; lia|].
  intros Hp. split; [done|]. destruct (Hf Hp) as [_ Hw]. rewrite <- (take_drop (Z.to_nat (8 - zlen ob)) data) at 1.
  eapply wrote_app; [done|exact Hw|]. by apply (wrote_nothing w' []).
Qed.

(** What does not fit in the buffer stays there for the next flush. *)
Lemma outbuf_rest p ob w data r ob' w' :
  proto_outbuf cb p ob w data = Done (r, ob', w') -> r <> -1 -> data <> [] -> zlen data < 4096 -> ob' <> [].
Proof.
  intros E Hr Hd Hl. assert (0 < zlen data) by (destruct data; [done|rewrite zlen_cons; pose proof (zlen_nonneg data); lia]).
  unfold proto_outbuf, OUTBUF_SIZE in E. destruct (Z.leb_spec (zlen data) (u32 (8 - zlen ob))) as [Hs|Hs].
  { destruct (_ <=? _); [|done]. injection E as <- <- <-. intros [_ ?]%app_eq_nil. done. }
  destruct (Z.leb_spec 4096 (zlen data)); [lia|].
  destruct (flush_ok p (ob ++ take (Z.to_nat (u32 (8 - zlen ob))) data) w) as (r1 & w1 & E1 & _).
  rewrite E1 in E. cbn [mbind outcome_bind] in E. destruct (Z.eqb_spec r1 (-1)); [by injection E as <- <- <-|].
  injection E as <- <- <-. intros E0. apply (f_equal zlen) in E0. rewrite zlen_nil in E0.
  unfold zlen in E0, Hs. rewrite length_drop in E0. unfold zlen in *. lia.
Qed.

Lemma putc_ok p ob w c : zlen ob < 4096 -> sends ob w [c] (outbuf_putc cb p ob w c).
Proof.
  intros Hl. unfold outbuf_putc, OUTBUF_SIZE. destruct (Z.ltb_spec (zlen ob) 4096); [|lia].
  pose proof (zlen_nonneg ob). rewrite zlen_app, zlen_one.
  destruct (Z.eqb_spec (zlen ob + 1) 4096) as [E|E].
  - destruct (flush_wrote p ob w [c]) as (r & w' & -> & Hf). exists r, [], w'.
    split_and!; [done|rewrite zlen_nil, zlen_one; lia|]. intros Hp. destruct (Hf Hp). by split; [lia|].
  - exists 0, (ob ++ [c]), w. rewrite zlen_app, zlen_one. split_and!; [done|lia|]. split; [done|]. by apply wrote_nothing.
Qed.

Lemma chars_ok p s : forall ob w,
  zlen ob + zlen (qchars s) <= 4095 -> sends ob w (qchars s) (output_text_chars cb p ob w s).
Proof.
  induction s as [|c s IH]; intros ob w Hl.
  - exists 0, ob, w. pose proof (zlen_nonneg (qchars [])). split_and!; [done|lia|].
    intros Hs. split; [done|]. change (qchars []) with (@nil Z). rewrite <- (app_nil_r ob) at 2. by apply wrote_nothing.
  - unfold qchars in *. cbn [fmap list_fmap concat output_text_chars] in *.
    rewrite zlen_app in Hl. fold (qchars s) in *. pose proof (zlen_nonneg (qchars s)).
    apply sends_bind.
    + unfold qchar in *. destruct (needs_escape c).
      * change (zlen (escape c)) with 4 in Hl. apply outbuf_ok; change (zlen (escape c)) with 4; lia.
      * rewrite zlen_one in Hl. apply putc_ok. lia.
    + intros ob1 w1 H1. apply IH. lia.
Qed.

Lemma string_ok p ob w s :
  zlen s <= 0xffff -> zlen ob + zlen (quote s) <= 4095 ->
  sends ob w (quote s) (output_text_string cb p ob w s).
Proof.
  intros Hs Hl. unfold output_text_string, quote in *. rewrite zlen_cons, zlen_app, zlen_one in Hl.
  destruct (Z.ltb_spec 0xffff (zlen s)); [lia|]. pose proof (zlen_nonneg (qchars s)).
  apply (sends_bind ob w [34] (qchars s ++ [34])); [apply putc_ok; lia|].
  intros ob1 w1 H1. rewrite zlen_one in H1.
  apply sends_bind; [apply chars_ok; lia|]. intros ob2 w2 H2. apply putc_ok. lia.
Qed.

(** The same for the loop over the arguments, whose result says if more are needed. *)
Definition sends_args (ob : bytes) (w : W) (data : bytes)
    (res : outcome (Z * bytes * W * bytes * bool)) : Prop :=
  exists r ob' w' tf' opt', res = Done (r, ob', w', tf', opt') /\
    zlen ob' <= zlen ob + zlen data /\
    (r = -1 \/ opt' = true \/ hd0 tf' = 0 \/ hd0 tf' = 124) /\
    (stream_peer -> r <> -1 /\ wrote w ob data w' ob').

Lemma sends_args_bind ob w d1 d2 res k tf opt :
  sends ob w d1 res ->
  (forall ob1 w1, zlen ob1 <= zlen ob + zlen d1 -> sends_args ob1 w1 d2 (k ob1 w1)) ->
  sends_args ob w (d1 ++ d2)
    ('(r, ob1, w1) ← res; if r =? -1 then Done (-1, ob1, w1, tf, opt) else k ob1 w1).
Proof.
  intros (r & ob1 & w1 & -> & Hl & Hp) Hk. ostep. pose proof (zlen_nonneg d2).
  destruct (Z.eqb_spec r (-1)) as [->|Hr].
  - exists (-1), ob1, w1, tf, opt. rewrite zlen_app. split_and!; [done|lia|by left|].
    intros Hs. by destruct (Hp Hs).
  - destruct (Hk ob1 w1 Hl) as (r2 & ob2 & w2 & tf2 & opt2 & -> & Hl2 & Hm & Hp2).
    exists r2, ob2, w2, tf2, opt2. rewrite zlen_app. split_and!; [done|lia|done|]. intros Hs.
    destruct (Hp Hs) as [_ E1]. destruct (Hp2 Hs) as [? E2]. split; [done|]. by eapply wrote_app.
Qed.

Definition printed (args : list targ) : bytes := concat ((fun a => 32 :: print_targ a) <$> args).

Lemma printed_cons a args : printed (a :: args) = [32] ++ print_targ a ++ printed args.
Proof. done. Qed.

Lemma pack_nil opt tf d : pack opt tf [] = Some d -> opt = true \/ hd0 tf = 0 \/ hd0 tf = 124.
Proof.
  destruct tf as [|c tf]; cbn; [by auto|]. destruct (Z.eqb_spec c 124); [auto|]. destruct opt; [auto|done].
Qed.

Lemma sends_args_star {A} (res : outcome (Z * bytes * W)) tf1 opt1 
    (k : bytes -> bool -> bytes -> W -> outcome A) fail :
  ('(r, ob2, w2, tf2, opt2) ← ('(r, ob1, w1) ← res; Done (r, ob1, w1, tf1, opt1));
   if r =? -1 then fail ob2 w2 else k tf2 opt2 ob2 w2) =
  ('(r, ob2, w2) ← res; if r =? -1 then fail ob2 w2 else k tf1 opt1 ob2 w2).
Proof. by destruct res as [[[? ?] ?]|]. Qed.

Lemma sends_args_id ob w d res tf opt :
  sends_args ob w d res ->
  sends_args ob w d
    ('(r, ob2, w2, tf2, opt2) ← res;
     if r =? -1 then Done (-1, ob2, w2, tf, opt) else Done (0, ob2, w2, tf2, opt2)).
Proof.
  intros (r & ob' & w' & tf' & opt' & -> & Hl & Hm & Hp). ostep.
  destruct (Z.eqb_spec r (-1)) as [->|Hr].
  - exists (-1), ob', w', tf, opt. split_and!; [done|done|by left|]. intros Hs. by destruct (Hp Hs).
  - exists 0, ob', w', tf', opt'. split_and!; [done|done| |].
    + destruct Hm; [done|by right].
    + intros Hs. by destruct (Hp Hs).
Qed.

Lemma sends_args_done ob w d res tf :
  sends ob w d res -> sends_args ob w d ('(r, ob1, w1) ← res; Done (r, ob1, w1, tf, true)).
Proof.
  intros (r & ob' & w' & -> & Hl & Hp). ostep. exists r, ob', w', tf, true. split_and!; auto.
Qed.

Lemma args_ok p : forall n tf opt args ob w d,
  (length tf <= n)%nat -> pack opt tf args = Some d -> Forall wf_targ args -> star_ok tf args ->
  zlen ob + zlen (printed args) <= 4095 ->
  sends_args ob w (printed args)
    (output_text_args cb p ob w (spell tf args).1 (spell tf args).2 tf opt).
Proof.
  induction n as [|n IH]; intros tf opt args ob w d Hn Hp Hwf Hst Hl;
    (destruct args as [|a args];
    [assert (spell tf [] = ([], [])) as -> by (clear; induction tf as [|c tf IH]; cbn; [done|];
       destruct (c =? 124); done);
     exists 0, ob, w, tf, opt; change (printed []) with (@nil Z);
     split_and!; [done|rewrite zlen_nil; lia|right; by eapply pack_nil|intros Hs; split; [done|];
       rewrite <- (app_nil_r ob) at 2; by apply wrote_nothing]|]).
  { destruct tf; [done|cbn in Hn; lia]. }
  destruct (pack_next tf opt a args d Hp Hst) as (t & tf1 & opt1 & Et & Hlt & Hcase).
  pose proof (zlen_nonneg (printed args)).
  destruct Hcase as [(-> & d' & Hp' & Hst' & ->)|[(-> & x & d' & -> & Hp' & Hst' & ->)|
    (-> & star & s & d' & -> & Hp' & Hst' & Hnul & ->)]].
  - pose proof (IH tf1 opt1 (a :: args) ob w d' ltac:(lia) Hp' Hwf Hst' Hl) as H1.
    destruct (spell tf1 (a :: args)) as [f ap]. cbn in H1. cbn. rewrite Et. cbn. exact H1.
  - apply Forall_cons in Hwf as [Hx Hwf]. rewrite printed_cons in *. cbn [print_targ] in *.
    pose proof (zlen_print_byte x Hx). rewrite !zlen_app, zlen_one in Hl.
    pose proof (IH tf1 opt1 args) as H1. destruct (spell tf1 args) as [f ap]. cbn [fst snd] in *.
    change ($"%c" ++ f) with (37 :: 99 :: f).
    cbn [output_text_args Z.eqb Pos.eqb negb hd0]. rewrite Et.
    cbn [Z.eqb Pos.eqb negb]. apply sends_args_bind; [apply putc_ok; lia|]. intros ob1 w1 L1.
    rewrite zlen_one in L1. cbn [va_int]. ostep. rewrite land_255, u8_small by (cbn in Hx; lia).
    apply sends_args_bind; [apply outbuf_ok; lia|]. intros ob2 w2 L2. eapply H1; [lia|done|done|done|lia].
  - apply Forall_cons in Hwf as [[Hx Hnf] Hwf]. rewrite printed_cons in *. cbn [print_targ] in *.
    rewrite !zlen_app, zlen_one in Hl. pose proof (zlen_nonneg (quote s)). pose proof (spell_blank tf1 opt1 args d' Hp') as Hbl.
    pose proof (IH tf1 opt1 args) as H1. destruct (spell tf1 args) as [f ap]. cbn [fst snd] in *.
    destruct star; cbn [fst snd]; [change ($"%*s" ++ f) with (37 :: 42 :: 115 :: f)|
                    change ($"%s" ++ f) with (37 :: 115 :: f)];
      cbn [output_text_args Z.eqb Pos.eqb negb hd0]; rewrite Et; cbn [Z.eqb Pos.eqb negb];
      (apply sends_args_bind; [apply putc_ok; lia|]; intros ob1 w1 L1; rewrite zlen_one in L1);
      cbn [va_int va_ptr]; ostep; cbn [va_ptr]; ostep.
    + rewrite mread_all. ostep. rewrite Hbl. unfold output_star.
      assert (bytes_eqb tf1 $"|0t" && bool_decide (args = []) && bool_decide (0 ∈ s) = false) as ->.
      { apply not_true_is_false. intros [[E1 E2]%andb_true_iff Hin]%andb_true_iff.
        apply bool_decide_eq_true in E1, E2, Hin.
        specialize (Hnul eq_refl E1 E2). unfold nul_free in Hnul. rewrite Forall_forall in Hnul.
        by apply (Hnul 0). }
      rewrite sends_args_star.
      apply sends_args_bind; [apply string_ok; lia|]. intros ob2 w2 L2. eapply H1; [lia|done|done|done|lia].
    + rewrite cstr_app_nul by auto.
      apply sends_args_bind; [apply string_ok; lia|]. intros ob2 w2 L2. eapply H1; [lia|done|done|done|lia].
Qed.

(** ** Whole messages *)

Definition entry_of (msg : Z) : option (bytes * Z * bytes) :=
  find (fun e : bytes * Z * bytes => e.1.2 =? msg) cmdtab.

Lemma entry_word msg word id tf : entry_of msg = Some (word, id, tf) -> zlen word <= 8.
Proof.
  intros H. apply find_some in H as [H _].
  assert (Hall : Forall (fun e : bytes * Z * bytes => zlen e.1.1 <= 8) cmdtab)
    by (repeat constructor; vm_compute; discriminate).
  rewrite Forall_forall in Hall. apply (Hall (word, id, tf)). by apply list_elem_of_In.
Qed.

(** The end of [output_text], after the arguments. *)
Lemma finish_ok p (word : bytes) args w ob (res : outcome (Z * bytes * W * bytes * bool)) w0 d :
  sends_args ob w (printed args) res -> zlen ob <= zlen word ->
  (stream_peer -> wrote w0 [] d w ob) -> zlen word + zlen (printed args) + 2 <= 4095 ->
  exists r w', ('(r, ob2, w2, tfmt2, optional2) ← res;
      if r =? -1 then Done (-1, w2)
      else if negb optional2 && negb (hd0 tfmt2 =? 0) && negb (hd0 tfmt2 =? 124)
      then Done (-1, output_text_error cb p w2 EINVAL)
      else
        '(r, ob3, w3) ← proto_outbuf cb p ob2 w2 CRLF;
        if r =? -1 then Done (-1, w3)
        else ('(r, _, w4) ← outbuf_flush cb p ob3 w3; Done (r, w4))) = Done (r, w') /\
    (stream_peer -> least <= r /\ out w0 (d ++ printed args ++ CRLF) w').
Proof.
  intros (r & ob2 & w2 & tf2 & opt2 & -> & L2 & Hm & Hp) Hob Hd Hl. ostep.
  destruct (Z.eqb_spec r (-1)) as [->|Hr].
  { exists (-1), w2. split; [done|]. intros Hs. by destruct (Hp Hs). }
  assert (negb opt2 && negb (hd0 tf2 =? 0) && negb (hd0 tf2 =? 124) = false) as ->.
  { destruct Hm as [?|[->|[->| ->]]]; [done|done|by rewrite andb_false_r|by rewrite !andb_false_r]. }
  destruct (outbuf_ok p ob2 w2 CRLF) as (r3 & ob3 & w3 & E3 & L3 & Hp3);
    [change (zlen CRLF) with 2; lia|done|]. rewrite E3. ostep.
  destruct (Z.eqb_spec r3 (-1)) as [->|Hr3].
  { exists (-1), w3. split; [done|]. intros Hs. by destruct (Hp3 Hs). }
  destruct (flush_ok p ob3 w3) as (r4 & w4 & -> & Hf). ostep. exists r4, w4. split; [done|].
  intros Hs. destruct (Hf Hs) as (_ & Ho & Hr4). split; [apply Hr4; by eapply outbuf_rest|].
  destruct (Hp Hs) as [_ E]. destruct (Hp3 Hs) as [_ E'].
  destruct (wrote_app _ _ _ _ _ _ _ _ Hs (Hd Hs) (wrote_app _ _ _ _ _ _ _ _ Hs E E')) as (sent & O & E0).
  cbn [app] in E0. rewrite <- E0. by eapply peer_app.
Qed.

Lemma output_text_ok p w msg word id tf args d :
  entry_of msg = Some (word, id, tf) -> pack false tf args = Some d -> Forall wf_targ args ->
  star_ok tf args -> zlen (text_line word args) <= 4095 ->
  exists r w', output_text cb p w msg (spell tf args).1 (spell tf args).2 = Done (r, w') /\
    (stream_peer -> least <= r /\ out w (text_line word args) w').
Proof.
  intros He Hp Hwf Hst Hl. pose proof (entry_word _ _ _ _ He) as Hw.
  unfold text_line in *. fold (printed args) in *. rewrite !zlen_app in Hl. change (zlen CRLF) with 2 in Hl.
  pose proof (zlen_nonneg (printed args)). unfold output_text. unfold entry_of in He. rewrite He.
  destruct (outbuf_ok p [] w word) as (r & ob & w1 & -> & L1 & H1); [rewrite zlen_nil; lia|lia|].
  ostep. rewrite zlen_nil in L1. destruct (Z.eqb_spec r (-1)) as [->|Hr].
  { exists (-1), w1. split; [done|]. intros Hs. by destruct (H1 Hs). }
  apply (finish_ok p word args w1 ob); [|lia| |lia].
  - eapply args_ok; [reflexivity|done|done|done|lia].
  - intros Hs. by destruct (H1 Hs).
Qed.

(** A record [key\0value] sent with one [%*s] is sent as two strings. *)
Lemma output_record_ok p w msg word id k v :
  entry_of msg = Some (word, id, $"t|0t") -> nul_free k ->
  zlen (text_line word [TT true k; TT true v]) <= 4095 ->
  exists r w', output_text cb p w msg $"%*s" [AInt (zlen (k ++ 0 :: v)); APtr (k ++ 0 :: v)] =
      Done (r, w') /\
    (stream_peer -> least <= r /\ out w (text_line word [TT true k; TT true v]) w').
Proof.
  intros He Hk Hl. pose proof (entry_word _ _ _ _ He) as Hw.
  set (args := [TT true k; TT true v]) in *.
  assert (Hpr : printed args = [32] ++ quote k ++ [32] ++ quote v) by (unfold args; cbn; by rewrite app_nil_r).
  unfold text_line in *. fold (printed args) in *. rewrite !zlen_app in Hl. change (zlen CRLF) with 2 in Hl.
  rewrite Hpr, !zlen_app, !zlen_one in Hl. pose proof (zlen_quote k). pose proof (zlen_quote v).
  pose proof (zlen_nonneg k). pose proof (zlen_nonneg v). pose proof (zlen_nonneg word).
  unfold output_text. unfold entry_of in He. rewrite He.
  destruct (outbuf_ok p [] w word) as (r & ob & w1 & -> & L1 & Hsent); [rewrite zlen_nil; lia|lia|].
  ostep. rewrite zlen_nil in L1. destruct (Z.eqb_spec r (-1)) as [->|Hr].
  { exists (-1), w1. split; [done|]. intros Hs. by destruct (Hsent Hs). }
  apply (finish_ok p word args w1 ob); [|lia| |rewrite Hpr, !zlen_app, !zlen_one; lia].
  2:{ intros Hs. by destruct (Hsent Hs). }
  rewrite Hpr. change $"%*s" with [37; 42; 115]. change $"t|0t" with (116 :: $"|0t").
  cbn [output_text_args Z.eqb Pos.eqb negb hd0 next_tfmt].
  apply sends_args_bind; [apply putc_ok; lia|]. intros ob1 w2 L2. rewrite zlen_one in L2.
  cbn [va_int]. ostep. cbn [va_ptr]. ostep. rewrite mread_all. ostep. apply sends_args_id.
  unfold output_star. rewrite (bool_decide_true (0 ∈ k ++ 0 :: v)) by set_solver.
  cbn [blank bytes_eqb]. unfold bytes_eqb. rewrite bool_decide_true by done. cbn [andb].
  rewrite cstr_app_nul by done.
  replace (drop (S (length k)) (k ++ 0 :: v)) with v
    by (rewrite drop_app_ge by lia; by replace (S (length k) - length k)%nat with 1%nat by lia).
  apply sends_args_bind; [apply string_ok; lia|]. intros ob2 w3 L3.
  apply sends_args_bind; [apply putc_ok; lia|]. intros ob3 w4 L4. rewrite zlen_one in L4.
  apply sends_args_done, string_ok; lia.
Qed.

(** ** Lines that are too long *)

Lemma chars_plain p s1 s2 : forall ob w,
  Forall (fun c => needs_escape c = false) s1 -> zlen ob + zlen s1 < 4096 ->
  output_text_chars cb p ob w (s1 ++ s2) = output_text_chars cb p (ob ++ s1) w s2.
Proof.
  induction s1 as [|c s1 IH]; intros ob w Hpl Hl; cbn [app]; [by rewrite app_nil_r|].
  apply Forall_cons in Hpl as [Hc Hpl]. cbn [output_text_chars]. rewrite Hc.
  rewrite zlen_cons in Hl. pose proof (zlen_nonneg s1). unfold outbuf_putc, OUTBUF_SIZE.
  destruct (Z.ltb_spec (zlen ob) 4096); [|lia]. rewrite zlen_app, zlen_one.
  destruct (Z.eqb_spec (zlen ob + 1) 4096); [lia|]. ostep. cbn [Z.eqb].
  rewrite IH by (done || rewrite zlen_app, zlen_one; lia). by rewrite <- app_assoc.
Qed.

Lemma outbuf_over p ob w data :
  8 < zlen ob <= 4096 -> zlen data < 4096 -> 4096 < zlen ob + zlen data ->
  proto_outbuf cb p ob w data = Crash OutOfBounds.
Proof.
  intros Hob Hd Hl. unfold proto_outbuf, OUTBUF_SIZE.
  assert (u32 (8 - zlen ob) = 2 ^ 32 + 8 - zlen ob) as ->.
  { unfold u32. rewrite <- (Z.mod_add _ 1), Z.mod_small by lia. lia. }
  destruct (Z.leb_spec (zlen data) (2 ^ 32 + 8 - zlen ob)); [|lia].
  by destruct (Z.leb_spec (zlen ob + zlen data) 4096); [lia|].
Qed.

(** An escape that starts in the last four bytes of the buffer runs over its end. *)
Lemma escape_over p ob w c s :
  4092 <= zlen ob < 4096 -> needs_escape c = true ->
  ('(r, ob2, w2) ← output_text_chars cb p ob w (c :: s);
   if r =? -1 then Done (-1, ob2, w2) else outbuf_putc cb p ob2 w2 34) = Crash OutOfBounds.
Proof.
  intros Hob Hc. cbn [output_text_chars]. rewrite Hc.
  destruct (Z.eqb_spec (zlen ob) 4092) as [E|E].
  2:{ rewrite outbuf_over; [done|lia|done|change (zlen (escape c)) with 4; lia]. }
  assert (Hput : proto_outbuf cb p ob w (escape c) = Done (0, ob ++ escape c, w)).
  { unfold proto_outbuf, OUTBUF_SIZE. rewrite E. change (zlen (escape c)) with 4. done. }
  rewrite Hput. ostep. cbn [Z.eqb]. set (ob1 := ob ++ escape c).
  assert (Hob1 : zlen ob1 = 4096) by (unfold ob1; rewrite zlen_app; change (zlen (escape c)) with 4; lia).
  assert (Hpc : forall ch, outbuf_putc cb p ob1 w ch = Crash OutOfBounds).
  { intros ch. unfold outbuf_putc, OUTBUF_SIZE. by rewrite Hob1. }
  destruct s as [|c' s]; cbn [output_text_chars]; ostep; [apply Hpc|].
  destruct (needs_escape c'); [|by rewrite Hpc].
  by rewrite outbuf_over by (rewrite ?Hob1; change (zlen (escape c')) with 4; done || lia).
Qed.

(** ** Long lines without escapes

    A string of plain characters is sent whole whatever its length, since the buffer is
    flushed when it is full: after the string it holds the rest modulo its size. *)

Lemma putc_mod p ob w c :
  stream_peer -> zlen ob < 4096 -> exists r ob' w', outbuf_putc cb p ob w c = Done (r, ob', w') /\ r <> -1 /\
    wrote w ob [c] w' ob' /\ zlen ob' = (zlen ob + 1) mod 4096.
Proof.
  intros Hs Hl. pose proof (zlen_nonneg ob). destruct (putc_ok p ob w c Hl) as (r & ob' & w' & E & _ & Hp).
  destruct (Hp Hs) as [Hr Ho]. exists r, ob', w'. split_and!; [done|done|done|].
  unfold outbuf_putc, OUTBUF_SIZE in E. destruct (Z.ltb_spec (zlen ob) 4096); [|lia].
  rewrite zlen_app, zlen_one in E. destruct (Z.eqb_spec (zlen ob + 1) 4096) as [E1|E1].
  - destruct (flush_ok p (ob ++ [c]) w) as (r2 & w2 & E2 & _). rewrite E2 in E. injection E as <- <- <-. by rewrite E1.
  - injection E as <- <- <-. rewrite zlen_app, zlen_one, Z.mod_small; lia.
Qed.

Lemma chars_mod p s : forall ob w,
  stream_peer -> zlen ob < 4096 -> Forall (fun c => needs_escape c = false) s ->
  exists r ob' w', output_text_chars cb p ob w s = Done (r, ob', w') /\ r <> -1 /\
    wrote w ob s w' ob' /\ zlen ob' = (zlen ob + zlen s) mod 4096.
Proof.
  induction s as [|c s IH]; intros ob w Hs Hl Hpl; pose proof (zlen_nonneg ob).
  - exists 0, ob, w. split_and!; [done|done|rewrite <- (app_nil_r ob) at 2; by apply wrote_nothing|]. change (zlen []) with 0. rewrite Z.mod_small; lia.
  - apply Forall_cons in Hpl as [Hc Hpl]. cbn [output_text_chars]. rewrite Hc.
    destruct (putc_mod p ob w c Hs Hl) as (r & ob1 & w1 & -> & Hr & Ho & Hz). ostep.
    destruct (Z.eqb_spec r (-1)); [done|].
    destruct (IH ob1 w1 Hs) as (r2 & ob2 & w2 & -> & Hr2 & Ho2 & Hz2); [rewrite Hz; apply Z.mod_pos_bound; lia|done|].
    exists r2, ob2, w2. split_and!; [done|done| |].
    + by eapply (wrote_app _ _ [c]).
    + rewrite Hz2, Hz, Zplus_mod_idemp_l, zlen_cons. f_equal. lia.
Qed.

(** The only length that does not fit is one where a single byte is left for the line end. *)
Lemma output_ping_plain p w s :
  stream_peer -> Forall (fun c => needs_escape c = false) s -> zlen s <= 0xffff ->
  (zlen s + 7) mod 4096 <> 4095 ->
  exists r w', output_text cb p w CMD_PING $"%*s" [AInt (zlen s); APtr s] = Done (r, w') /\ 0 <= r /\
    out w ($"PING " ++ [34] ++ s ++ [34] ++ CRLF) w'.
Proof.
  intros Hs Hpl Hlen Hfit. unfold output_text. change (find _ cmdtab) with (Some ($"PING", CMD_PING, $"|t")). cbv beta iota.
  rewrite (eq_refl : proto_outbuf cb p [] w $"PING" = Done (0, $"PING", w)). ostep. cbn [Z.eqb].
  change $"%*s" with [37; 42; 115]. change $"|t" with ([124; 116] : bytes).
  cbn [output_text_args Z.eqb Pos.eqb negb hd0 next_tfmt].
  rewrite (eq_refl : outbuf_putc cb p $"PING" w 32 = Done (0, $"PING ", w)). ostep.
  cbn [Z.eqb va_int va_ptr]. ostep. cbn [va_ptr]. ostep. rewrite mread_all. ostep.
  unfold output_star. cbn [bytes_eqb andb]. change (bytes_eqb [] $"|0t") with false. cbn [andb].
  unfold output_text_string. destruct (Z.ltb_spec 0xffff (zlen s)); [lia|].
  rewrite (eq_refl : outbuf_putc cb p $"PING " w 34 = Done (0, $"PING " ++ [34], w)). ostep. cbn [Z.eqb].
  destruct (chars_mod p s ($"PING " ++ [34]) w Hs) as (r1 & ob1 & w1 & -> & Hr1 & Ho1 & Hz1); [done|done|]. ostep.
  destruct (Z.eqb_spec r1 (-1)); [done|]. change (zlen ($"PING " ++ [34])) with 6 in Hz1.
  destruct (putc_mod p ob1 w1 34 Hs) as (r2 & ob2 & w2 & -> & Hr2 & Ho2 & Hz2); [rewrite Hz1; apply Z.mod_pos_bound; lia|]. ostep.
  destruct (Z.eqb_spec r2 (-1)); [done|]. cbn [output_text_args]. ostep. cbn [Z.eqb negb andb].
  rewrite Hz1, Zplus_mod_idemp_l in Hz2. replace (6 + zlen s + 1) with (zlen s + 7) in Hz2 by lia.
  pose proof (Z.mod_pos_bound (zlen s + 7) 4096).
  destruct (outbuf_ok p ob2 w2 CRLF) as (r3 & ob3 & w3 & -> & _ & Hp3); [change (zlen CRLF) with 2; lia|done|].
  destruct (Hp3 Hs) as [Hr3 Ho3]. ostep. destruct (Z.eqb_spec r3 (-1)); [done|].
  destruct (flush_ok p ob3 w3) as (r4 & w4 & -> & Hp4). destruct (Hp4 Hs) as (Hr4 & Ho4 & _). ostep.
  exists r4, w4. split_and!; [done|done|].
  destruct (wrote_app _ _ _ _ _ _ _ _ Hs Ho1 (wrote_app _ _ _ _ _ _ _ _ Hs Ho2 Ho3)) as (sent & O & E0).
  rewrite <- !app_assoc in E0. rewrite (app_assoc $"PING " [34]), <- app_assoc. cbn [app] in E0 |- *. rewrite <- E0.
  by eapply peer_app.
Qed.

End Encode.
