(* ===== verification/ProtoTextIn.v ===== *)
(** * The text protocol: decoding

    The lines of the text protocol ([line_of]), as PROTOCOL describes them, with the lines that the
    encoder writes among them. The decoder of prototext.c reads one byte at a time; a line is
    passed up as the message it stands for, and the decoder is at the beginning of a line again. *)
From S2P Require Import Prelude StoreDefs Rxbuf ProtoDefs ProtoBin ProtoTextOut.
Local Open Scope infod_scope.

(** Characters of a command word. *)
Definition word_char (c : byte) : Prop := c <> 32 /\ c <> 10 /\ c <> 13 /\ c <> 0.

(** The table entry that a command word names, in upper or lower case. *)
Definition lookup_word (word : bytes) : option (bytes * Z * bytes) :=
  find (fun e : bytes * Z * bytes => strcaseeq e.1.1 word) cmdtab.

(** ** Lines *)

Definition spaces (l : bytes) : Prop := Forall (fun c => c = 32) l.
Definition blanks (l : bytes) : Prop := Forall (fun c => (c =? 32) || is_eol c = true) l.

(** The value of a row of digits stays in a byte. *)
Fixpoint value (v : Z) (ds : bytes) : option Z :=
  match ds with
  | [] => Some v
  | c :: ds' =>
      if (48 <=? c) && (c <=? 57) && (v * 10 + c - 48 <=? 255)
      then value (v * 10 + c - 48) ds' else None
  end.

(** What stands between double quotes for a string: any byte but CR, LF, the quote and the
    backslash for itself, and any byte as a backslash and three octal digits. *)
Definition octal (a b d : byte) : Z := 64 * (a - 48) + 8 * (b - 48) + (d - 48).
Inductive in_quotes : bytes -> bytes -> Prop :=
  | iq_nil : in_quotes [] []
  | iq_plain c s l : is_eol c = false -> c <> 34 -> c <> 92 -> in_quotes s l -> in_quotes (c :: s) (c :: l)
  | iq_octal a b d s l : 48 <= a <= 51 -> 48 <= b <= 55 -> 48 <= d <= 55 -> in_quotes s l ->
      in_quotes (octal a b d :: s) (92 :: a :: b :: d :: l).

(** A string that needs no quotes. *)
Definition bare (s : bytes) : Prop :=
  s <> [] /\ hd0 s <> 34 /\ Forall (fun c => (c =? 32) || is_eol c = false) s.

(** The bytes [l] are the argument [a]: digits, leading zeros included, or a string, in quotes or
    without. *)
Definition spelled (a : targ) (l : bytes) : Prop :=
  match a with
  | TI n => l <> [] /\ value 0 l = Some n
  | TT _ s => (exists l', l = 34 :: l' ++ [34] /\ in_quotes s l') \/ l = s /\ bare s
  end.

(** Arguments, each after one or more spaces. *)
Inductive spelled_args : list targ -> bytes -> Prop :=
  | sa_nil : spelled_args [] []
  | sa_cons a args sp l l' : spaces sp -> sp <> [] -> spelled a l -> spelled_args args l' ->
      spelled_args (a :: args) (sp ++ l ++ l').

(** A line of the protocol: a command word and its arguments, with blank lines and spaces before,
    spaces behind, and ended by CR, LF or both, with which further blank lines may come. *)
Definition line_of (word : bytes) (args : list targ) (l : bytes) : Prop :=
  exists lead body trail e rest, l = lead ++ word ++ body ++ trail ++ e :: rest /\
    blanks lead /\ spelled_args args body /\ spaces trail /\ is_eol e = true /\ blanks rest.

Lemma octal_byte a b d : 48 <= a <= 51 -> 48 <= b <= 55 -> 48 <= d <= 55 -> 0 <= octal a b d < 256.
Proof. unfold octal. lia. Qed.

(** *** Lines of the encoder *)

Lemma escape_digits c :
  needs_escape c = true ->
  exists a b d, escape c = [92; a; b; d] /\ (48 <= a <= 51 /\ 48 <= b <= 55 /\ 48 <= d <= 55) /\
    octal a b d = c.
Proof.
  intros Ee. unfold needs_escape in Ee.
  assert (Hcs : c = 10 \/ c = 13 \/ c = 34 \/ c = 92 \/ c = 0).
  { repeat (apply orb_true_iff in Ee as [Ee|Ee]); apply Z.eqb_eq in Ee; lia. }
  unfold escape. eexists _, _, _. split; [done|].
  destruct Hcs as [->|[->|[->|[->| ->]]]]; vm_compute; intuition congruence.
Qed.

Lemma qchars_in_quotes s : in_quotes s (qchars s).
Proof.
  induction s as [|c s IH]; [constructor|]. unfold qchars in *. cbn [fmap list_fmap concat]. unfold qchar at 1.
  destruct (needs_escape c) eqn:Ee.
  - destruct (escape_digits c Ee) as (a & b & d & -> & (Ha & Hb & Hd) & <-). by constructor.
  - unfold needs_escape in Ee. constructor; [..|done]; unfold is_eol;
      destruct (Z.eqb_spec c 10), (Z.eqb_spec c 13), (Z.eqb_spec c 34), (Z.eqb_spec c 92); done.
Qed.

Lemma print_byte_value n : 0 <= n < 256 -> print_byte n <> [] /\ value 0 (print_byte n) = Some n.
Proof.
  intros Hn.
  assert (H : forallb (fun n => bool_decide (print_byte n <> [] /\ value 0 (print_byte n) = Some n)) (seqZ 0 256) = true)
    by (vm_compute; reflexivity).
  rewrite forallb_forall in H. specialize (H n). rewrite <- list_elem_of_In, elem_of_seqZ in H.
  apply bool_decide_eq_true in H; [done|lia].
Qed.

Lemma print_targ_spelled a : wf_targ a -> spelled a (print_targ a).
Proof.
  destruct a as [n|star s]; cbn; [apply print_byte_value|]. intros _. left.
  exists (qchars s). split; [done|apply qchars_in_quotes].
Qed.

Lemma printed_spelled args : Forall wf_targ args -> spelled_args args (printed args).
Proof.
  induction 1 as [|a args Ha _ IH]; [constructor|]. rewrite printed_cons. constructor; [by constructor|done| |done].
  by apply print_targ_spelled.
Qed.

Lemma text_line_of word args : Forall wf_targ args -> line_of word args (text_line word args).
Proof.
  intros Hwf. exists [], (printed args), [], 13, [10]. split_and!; try done; [constructor|by apply printed_spelled|constructor|by constructor].
Qed.

Section Decode.
Context {os : OS} {W : Type} (cb : callbacks W).
Context (f : proto -> W -> Z -> bytes -> outcome (Z * W)).
Hypothesis takes_input : on_input cb = Some f.
Hypothesis realloc_succeeds : forall n, realloc_ok n = true.

Implicit Types (p : proto) (w : W) (l buf tf : bytes) (opt : bool).

(** The decoder takes the bytes [l] without passing anything else up than what leads from [w]
    to [w']. *)
Definition Fed p w l p' w' : Prop :=
  forall ret rest, recv_text_loop cb p w (l ++ rest) ret = recv_text_loop cb p' w' rest (ret + zlen l).

Lemma fed_nil p w : Fed p w [] p w.
Proof. intros ret rest. by rewrite zlen_nil, Z.add_0_r. Qed.

Lemma fed_app p w l1 p1 w1 l2 p2 w2 :
  Fed p w l1 p1 w1 -> Fed p1 w1 l2 p2 w2 -> Fed p w (l1 ++ l2) p2 w2.
Proof.
  intros H1 H2 ret rest. rewrite <- app_assoc, H1, H2, zlen_app. f_equal. lia.
Qed.

Lemma fed_1 p w c p' w' : recv_text_1ch cb p w c = Done (1, p', w') -> Fed p w [c] p' w'.
Proof. intros E ret rest. cbn [app recv_text_loop]. by rewrite E. Qed.

Lemma fed_cons p w c l p1 w1 p2 w2 :
  recv_text_1ch cb p w c = Done (1, p1, w1) -> Fed p1 w1 l p2 w2 -> Fed p w (c :: l) p2 w2.
Proof. intros E. apply (fed_app p w [c]). by apply fed_1. Qed.

(** ** Passes *)

Lemma passes_ret fuel p w c r p' w' :
  text_pass cb p w c = Done (Ret r p' w') -> text_passes cb (S fuel) p w c = Done (r, p', w').
Proof. intros E. cbn [text_passes]. by rewrite E. Qed.

Lemma passes_again fuel p w c p' w' :
  text_pass cb p w c = Done (Again p' w') ->
  text_passes cb (S fuel) p w c = text_passes cb fuel p' w' c.
Proof. intros E. cbn [text_passes]. by rewrite E. Qed.

(** What a line leaves alone: the mode, and a command word of sixteen bytes. *)
Definition base p : Prop :=
  mode p = PROTO_MODE_TEXT /\ rx_ok (rx p) /\ zlen (cmd (t p)) = 16.

Definition at_ p (st : tstate) tf opt buf : Prop :=
  base p /\ state (t p) = st /\ fmt (t p) = tf /\ optional (t p) = opt /\ rx_buf (rx p) = buf.

Lemma addc_room r c :
  rx_ok r -> zlen (rx_buf r) < 65535 ->
  exists r', rxbuf_addc r c = Done (0, r') /\ rx_ok r' /\ rx_buf r' = rx_buf r ++ [c].
Proof.
  intros Hok Hl. destruct (rxbuf_addc_ok r c Hok) as (x & r' & E & Hok' & [[-> Hb]|(_ & _ & [?|[n Hn]])]).
  - by exists r'.
  - lia.
  - by rewrite realloc_succeeds in Hn.
Qed.

(** ** Quoted strings *)

Lemma one_pass p w c r p' w' :
  text_pass cb p w c = Done (Ret r p' w') -> recv_text_1ch cb p w c = Done (r, p', w').
Proof. apply passes_ret. Qed.

(** [T_QOCT] with [k] digits to come. *)
Definition in_oct p tf opt buf (v k : Z) : Prop :=
  at_ p T_QOCT tf opt buf /\ intval (t p) = v /\ counter (t p) = k.

Definition oct (v c : Z) : Z := u16 (Z.lor (Z.shiftl v 3) (c - 48)).

Lemma qoct_begin p w tf opt buf :
  at_ p T_QSTR tf opt buf ->
  exists p', recv_text_1ch cb p w 92 = Done (1, p', w) /\ in_oct p' tf opt buf 0 3.
Proof.
  intros (Hbase & Hst & Hf & Ho & Hb). eexists. split.
  - apply one_pass. unfold text_pass. rewrite Hst. reflexivity.
  - by split_and!.
Qed.

Lemma qoct_digit p w tf opt buf v k c :
  in_oct p tf opt buf v k -> 48 <= c <= 55 -> 1 < k < 256 ->
  exists p', recv_text_1ch cb p w c = Done (1, p', w) /\ in_oct p' tf opt buf (oct v c) (k - 1).
Proof.
  intros ((Hbase & Hst & Hf & Ho & Hb) & Hv & Hk) Hc Hk1. eexists. split.
  - apply one_pass. unfold text_pass. rewrite Hst. unfold case_qoct.
    destruct (Z.ltb_spec c 48), (Z.ltb_spec 55 c); try lia. cbn [orb].
    cbn [set_counter set_intval set_t t counter intval]. rewrite Hk, u8_small by lia.
    destruct (Z.eqb_spec (k - 1) 0); [lia|]. reflexivity.
  - split_and!; try done. cbn. by rewrite Hv.
Qed.

Lemma qoct_end p w tf opt buf v c :
  in_oct p tf opt buf v 1 -> 48 <= c <= 55 -> zlen buf < 65535 ->
  exists p', recv_text_1ch cb p w c = Done (1, p', w) /\ at_ p' T_QSTR tf opt (buf ++ [u8 (oct v c)]).
Proof.
  intros (((Hm & Hok & H16) & Hst & Hf & Ho & Hb) & Hv & Hk) Hc Hl. subst buf.
  destruct (addc_room (rx p) (u8 (oct v c)) Hok Hl) as (r' & Ea & Hok' & Hb').
  eexists. split.
  - apply one_pass. unfold text_pass. rewrite Hst. unfold case_qoct.
    destruct (Z.ltb_spec c 48), (Z.ltb_spec 55 c); try lia. cbn [orb].
    cbn [set_counter set_intval set_t t counter intval]. rewrite Hk. change (u8 (1 - 1) =? 0) with true.
    cbv iota. unfold add_char. cbn [rx set_counter set_intval set_t t intval]. rewrite Hv.
    fold (oct v c). rewrite Ea. ostep. reflexivity.
  - by split_and!.
Qed.

Lemma oct_octal a b d : 48 <= a <= 51 -> 48 <= b <= 55 -> 48 <= d <= 55 ->
  u8 (oct (oct (oct 0 a) b) d) = octal a b d.
Proof.
  intros Ha Hb Hd.
  assert (H : forallb (fun a => forallb (fun b => forallb (fun d => u8 (oct (oct (oct 0 a) b) d) =? octal a b d)
    (seqZ 48 8)) (seqZ 48 8)) (seqZ 48 4) = true) by (vm_compute; reflexivity).
  rewrite forallb_forall in H. specialize (H a). rewrite <- list_elem_of_In, elem_of_seqZ in H.
  specialize (H ltac:(lia)). rewrite forallb_forall in H. specialize (H b).
  rewrite <- list_elem_of_In, elem_of_seqZ in H. specialize (H ltac:(lia)). rewrite forallb_forall in H. specialize (H d).
  rewrite <- list_elem_of_In, elem_of_seqZ in H. specialize (H ltac:(lia)). by apply Z.eqb_eq.
Qed.

Lemma octal_fed p w tf opt buf a b d :
  at_ p T_QSTR tf opt buf -> 48 <= a <= 51 -> 48 <= b <= 55 -> 48 <= d <= 55 -> zlen buf < 65535 ->
  exists p', Fed p w [92; a; b; d] p' w /\ at_ p' T_QSTR tf opt (buf ++ [octal a b d]).
Proof.
  intros Hat Ha Hb Hd Hl. destruct (qoct_begin p w tf opt buf Hat) as (p1 & E1 & A1).
  destruct (qoct_digit p1 w tf opt buf 0 3 a A1) as (p2 & E2 & A2); [lia..|].
  destruct (qoct_digit p2 w tf opt buf _ 2 b A2 Hb) as (p3 & E3 & A3); [lia|].
  destruct (qoct_end p3 w tf opt buf _ d A3 Hd Hl) as (p4 & E4 & A4). rewrite oct_octal in A4 by done.
  exists p4. split; [|done]. repeat (eapply fed_cons; [done|]). apply fed_nil.
Qed.

Lemma qplain_fed p w tf opt buf c :
  at_ p T_QSTR tf opt buf -> is_eol c = false -> c <> 34 -> c <> 92 -> zlen buf < 65535 ->
  exists p', Fed p w [c] p' w /\ at_ p' T_QSTR tf opt (buf ++ [c]).
Proof.
  intros ((Hm & Hok & H16) & Hst & Hf & Ho & Hb) He H34 H92 Hl. subst buf.
  destruct (addc_room (rx p) c Hok Hl) as (r' & Ea & Hok' & Hb'). exists (set_rx p r'). split; [|by split_and!].
  apply fed_1, one_pass. unfold text_pass. rewrite Hst. unfold case_qstr.
  rewrite He, (proj2 (Z.eqb_neq _ _) H34), (proj2 (Z.eqb_neq _ _) H92). unfold add_char. by rewrite Ea.
Qed.

Lemma quotes_fed s l : in_quotes s l -> forall p w tf opt buf,
  at_ p T_QSTR tf opt buf -> zlen buf + zlen s <= 65535 ->
  exists p', Fed p w l p' w /\ at_ p' T_QSTR tf opt (buf ++ s).
Proof.
  induction 1 as [|c s l He H34 H92 Hq IH|a b d s l Ha Hb Hd Hq IH]; intros p w tf opt buf Hat Hl.
  - exists p. rewrite app_nil_r. split; [apply fed_nil|done].
  - rewrite zlen_cons in Hl. pose proof (zlen_nonneg s).
    destruct (qplain_fed p w tf opt buf c Hat He H34 H92) as (p1 & F1 & A1); [lia|].
    destruct (IH p1 w tf opt (buf ++ [c]) A1) as (p2 & F2 & A2); [rewrite zlen_app, zlen_one; lia|].
    exists p2. rewrite <- app_assoc in A2. split; [|done]. by apply (fed_app p w [c] p1 w l).
  - rewrite zlen_cons in Hl. pose proof (zlen_nonneg s).
    destruct (octal_fed p w tf opt buf a b d Hat Ha Hb Hd) as (p1 & F1 & A1); [lia|].
    destruct (IH p1 w tf opt (buf ++ [octal a b d]) A1) as (p2 & F2 & A2); [rewrite zlen_app, zlen_one; lia|].
    exists p2. rewrite <- app_assoc in A2. split; [|done]. by apply (fed_app p w [92; a; b; d] p1 w l).
Qed.

(** ** Bare strings *)

Lemma str_char p w tf opt buf c :
  at_ p T_STR tf opt buf -> is_eol c = false -> (c = 32 -> hd0 tf = 0) -> zlen buf < 65535 ->
  exists p', text_pass cb p w c = Done (Ret 1 p' w) /\ at_ p' T_STR tf opt (buf ++ [c]).
Proof.
  intros ((Hm & Hok & H16) & Hst & Hf & Ho & Hb) He Hc Hl. subst buf.
  destruct (addc_room (rx p) c Hok Hl) as (r' & Ea & Hok' & Hb'). exists (set_rx p r'). split; [|by split_and!].
  unfold text_pass. rewrite Hst. unfold case_str. rewrite He, Hf.
  assert (negb (hd0 tf =? 0) && (c =? 32) = false) as ->.
  { destruct (Z.eqb_spec c 32) as [->|]; [by rewrite Hc|by rewrite andb_false_r]. }
  cbn [orb]. unfold add_char. by rewrite Ea.
Qed.

Lemma str_fed l : forall p w tf opt buf,
  at_ p T_STR tf opt buf -> Forall (fun c => is_eol c = false /\ (c = 32 -> hd0 tf = 0)) l -> zlen buf + zlen l <= 65535 ->
  exists p', Fed p w l p' w /\ at_ p' T_STR tf opt (buf ++ l).
Proof.
  induction l as [|c l IH]; intros p w tf opt buf Hat Hc Hl.
  - exists p. rewrite app_nil_r. split; [apply fed_nil|done].
  - apply Forall_cons in Hc as [[He H32] Hc]. rewrite zlen_cons in Hl. pose proof (zlen_nonneg l).
    destruct (str_char p w tf opt buf c Hat He H32) as (p1 & E1 & A1); [lia|].
    destruct (IH p1 w tf opt (buf ++ [c]) A1 Hc) as (p2 & F2 & A2); [rewrite zlen_app, zlen_one; lia|].
    exists p2. rewrite <- app_assoc in A2. split; [|done]. eapply fed_cons; [by apply one_pass|done].
Qed.

(** ** Command words *)

(** [T_CMD] with the characters [pre] in [cmd]. *)
Definition in_word p (pre : bytes) : Prop :=
  base p /\ state (t p) = T_CMD /\ cmdlen (t p) = zlen pre /\
  exists junk, cmd (t p) = pre ++ junk.

Lemma word_char_tests c : word_char c -> (c =? 32) = false /\ is_eol c = false.
Proof. intros (H1 & H2 & H3 & _). unfold is_eol. bool_cases; done. Qed.

Lemma cmd_char p w pre c :
  in_word p pre -> word_char c -> zlen pre < 15 ->
  exists p', text_pass cb p w c = Done (Ret 1 p' w) /\ in_word p' (pre ++ [c]).
Proof.
  intros ((Hm & Hok & H16) & Hst & Hcl & junk & Hcm) Hc Hl. destruct (word_char_tests c Hc) as [E1 E2].
  assert (Hj : zlen junk = 16 - zlen pre) by (rewrite Hcm, zlen_app in H16; lia).
  destruct junk as [|j junk]; [rewrite zlen_nil in Hj; lia|].
  eexists. split.
  - unfold text_pass. rewrite Hst. unfold case_cmd. rewrite E1, E2, Hcm, Hcl. cbn [negb andb].
    rewrite (mwrite_app pre [j] junk [c]) by done. ostep. cbn [set_cmd set_t t cmdlen].
    pose proof (zlen_nonneg pre). rewrite u8_small by lia.
    destruct (Z.leb_spec 16 (zlen pre + 1)); [lia|]. reflexivity.
  - split_and!; try done.
    + split; [done|]. split; [done|]. cbn [set_cmd set_t t cmd].
      rewrite !zlen_app, zlen_one. rewrite zlen_cons in Hj. lia.
    + cbn. by rewrite zlen_app, zlen_one.
    + exists junk. cbn. by rewrite <- app_assoc.
Qed.

Lemma cmd_fed l : forall p w pre,
  in_word p pre -> Forall word_char l -> zlen pre + zlen l <= 15 ->
  exists p', Fed p w l p' w /\ in_word p' (pre ++ l).
Proof.
  induction l as [|c l IH]; intros p w pre Hin Hc Hl.
  - exists p. rewrite app_nil_r. split; [apply fed_nil|done].
  - apply Forall_cons in Hc as [Hc Hcs]. rewrite zlen_cons in Hl. pose proof (zlen_nonneg l).
    destruct (cmd_char p w pre c Hin Hc) as (p1 & E1 & A1); [lia|].
    destruct (IH p1 w (pre ++ [c]) A1 Hcs) as (p2 & F2 & A2); [rewrite zlen_app, zlen_one; lia|].
    exists p2. rewrite <- app_assoc in A2. split; [|done]. eapply fed_cons; [|done]. by apply one_pass.
Qed.

Lemma word_fed p w word :
  base p -> state (t p) = T_BOL -> word <> [] -> Forall word_char word -> zlen word <= 15 ->
  exists p', Fed p w word p' w /\ in_word p' word.
Proof.
  intros (Hm & Hok & H16) Hst Hne Hw Hl. destruct word as [|c word]; [done|].
  apply Forall_cons in Hw as [Hc Hw]. rewrite zlen_cons in Hl. pose proof (zlen_nonneg word).
  set (p0 := set_state (set_cmd p (cmd (t p)) 0) T_CMD).
  destruct (cmd_char p0 w [] c) as (p1 & E1 & A1); [|done|done|].
  { split_and!; try done. by exists (cmd (t p)). }
  destruct (cmd_fed word p1 w [c] A1 Hw) as (p2 & F2 & A2); [rewrite zlen_one; lia|].
  exists p2. split; [|done]. eapply fed_cons; [|done]. apply one_pass. rewrite <- E1.
  unfold text_pass. rewrite Hst. cbn [p0 set_state set_t t state]. unfold case_bol.
  destruct (word_char_tests c Hc) as [-> ->]. done.
Qed.

(** ** Arguments *)

(** The decoder has seen the arguments packed in [buf] and is before a space or the end of the
    line: after the command word, in a number, or after a string in quotes. *)
Definition settled p tf opt buf : Prop :=
  at_ p T_ARGSP tf opt buf \/
  (exists buf', at_ p T_INT tf opt buf' /\ buf = buf' ++ [u8 (intval (t p))] /\ zlen buf' < 65535) \/
  (exists word name id, in_word p word /\ Forall word_char word /\ zlen word <= 15 /\
     lookup_word word = Some (name, id, tf) /\ opt = false /\ buf = [id]).

(** Or in a bare string. When the format asks for nothing more, spaces are taken for a part of it
    until the end of the line, where they are trimmed. *)
Definition open_str p tf opt buf (sp : bytes) : Prop :=
  at_ p T_STR tf opt (buf ++ sp) /\ spaces sp /\ (sp <> [] -> hd0 tf = 0) /\ last buf <> Some 32.
Definition ready p tf opt buf (sp : bytes) : Prop :=
  settled p tf opt buf /\ sp = [] \/ open_str p tf opt buf sp.

Lemma strcaseeq_cstr a b : strcaseeq a b = strcaseeq a (cstr b).
Proof. unfold strcaseeq. by rewrite cstr_cstr. Qed.

Lemma find_ext {A} (g h : A -> bool) (xs : list A) :
  (forall x, g x = h x) -> find g xs = find h xs.
Proof. intros H. induction xs as [|x xs IH]; cbn; [done|]. by rewrite H, IH. Qed.

(** Both ends of an argument lead to the case [T_ARGSP] on the same byte. *)
Lemma settled_argsp p w tf opt buf c :
  settled p tf opt buf -> (c = 32 \/ is_eol c = true) ->
  exists p', at_ p' T_ARGSP tf opt buf /\
    forall r p2 w2, case_argsp cb p' w c = Done (Ret r p2 w2) ->
      recv_text_1ch cb p w c = Done (r, p2, w2).
Proof.
  intros [Hat|[(buf' & Hat & -> & Hl)|(word & name & id & Hin & Hw & Hwl & Hlk & -> & ->)]] Hc.
  - exists p. split; [done|]. intros r p2 w2 E. apply one_pass. unfold text_pass.
    destruct Hat as (_ & -> & _). done.
  - destruct Hat as ((Hm & Hok & H16) & Hst & Hf & Ho & Hb). subst buf'.
    destruct (addc_room (rx p) (u8 (intval (t p))) Hok Hl) as (r' & Ea & Hok' & Hb').
    exists (set_state (set_rx p r') T_ARGSP). split; [by split_and!|]. intros r p2 w2 E.
    unfold recv_text_1ch. rewrite (passes_again _ _ _ _ (set_state (set_rx p r') T_ARGSP) w).
    + apply passes_ret. done.
    + unfold text_pass. rewrite Hst. unfold case_int.
      assert ((48 <=? c) && (c <=? 57) = false) as ->.
      { unfold is_eol in Hc. destruct Hc as [->|[->%Z.eqb_eq| ->%Z.eqb_eq]%orb_true_iff]; done. }
      unfold add_char. by rewrite Ea.
  - destruct Hin as ((Hm & Hok & H16) & Hst & Hcl & junk & Hcm).
    assert (Hj : zlen junk = 16 - zlen word) by (rewrite Hcm, zlen_app in H16; lia).
    destruct junk as [|j junk]; [rewrite zlen_nil in Hj; lia|].
    assert (Hnf : nul_free word). { eapply Forall_impl; [exact Hw|]. by intros ? (_ & _ & _ & ?). }
    set (c2 := word ++ [0] ++ junk). set (p1 := set_cmd p c2 (zlen word)).
    destruct (rxbuf_clear_ok (rx p) 1 Hok) as (r1 & rx1 & E1 & Hb1 & Hok1 & Hr1); [lia|].
    destruct Hr1 as [->|[_ [n Hn]]]; [|by rewrite realloc_succeeds in Hn].
    destruct (addc_room rx1 id Hok1) as (rx2 & E2 & Hok2 & Hb2); [by rewrite Hb1|].
    exists (set_state (set_optional (set_fmt (set_rx (set_rx p1 rx1) rx2) tf) false) T_ARGSP). split.
    { split_and!; try done; [|cbn; by rewrite Hb2, Hb1]. split; [done|]. split; [done|].
      cbn. unfold c2. rewrite !zlen_app, zlen_one. rewrite zlen_cons in Hj. lia. }
    intros r p2 w2 E. apply one_pass. unfold text_pass. rewrite Hst. unfold case_cmd.
    assert (negb (c =? 32) && negb (is_eol c) = false) as ->.
    { destruct Hc as [->| ->]; [done|by rewrite andb_false_r]. }
    rewrite Hcm, Hcl, (mwrite_app word [j] junk [0]) by done. ostep. fold c2.
    rewrite (find_ext _ (fun e : bytes * Z * bytes => strcaseeq e.1.1 word)).
    2:{ intros e. rewrite strcaseeq_cstr. unfold c2. cbn [app]. by rewrite cstr_app_nul. }
    unfold lookup_word in Hlk. rewrite Hlk. fold p1. change (rx p1) with (rx p). rewrite E1. ostep.
    cbn [Z.eqb]. unfold add_char. cbn [set_rx rx]. rewrite E2. ostep. exact E.
Qed.

Lemma drop_spaces_rev buf sp : spaces sp -> last buf <> Some 32 ->
  reverse (drop_spaces (reverse (buf ++ sp))) = buf.
Proof.
  intros Hsp Hlast. rewrite reverse_app. assert (Hr : spaces (reverse sp)) by (by apply Forall_reverse).
  induction Hr as [|c l -> _ IH]; [|done]. cbn [app]. rewrite <- head_reverse in Hlast.
  destruct (reverse buf) as [|c l] eqn:E; [by rewrite <- (reverse_involutive buf), E|].
  cbn [drop_spaces]. destruct (Z.eqb_spec c 32) as [->|]; [done|]. by rewrite <- E, reverse_involutive.
Qed.

Lemma open_argsp p w tf opt buf sp c :
  open_str p tf opt buf sp -> (c = 32 /\ hd0 tf <> 0 \/ is_eol c = true) ->
  exists p', at_ p' T_ARGSP tf opt buf /\
    forall r p2 w2, case_argsp cb p' w c = Done (Ret r p2 w2) ->
      recv_text_1ch cb p w c = Done (r, p2, w2).
Proof.
  intros (((Hm & Hok & H16) & Hst & Hf & Ho & Hb) & Hsp & Hs0 & Hlast) Hc.
  set (p1 := if hd0 (fmt (t p)) =? 0 then set_rx p (rxbuf_trimspace (rx p)) else p).
  assert (H1 : at_ (set_state p1 T_ARGSP) T_ARGSP tf opt buf).
  { unfold p1. rewrite Hf. destruct (Z.eqb_spec (hd0 tf) 0) as [E|E].
    - split_and!; try done; [by split_and!; [|apply rxbuf_trimspace_ok|]|]. cbn. rewrite Hb. by apply drop_spaces_rev.
    - destruct sp as [|x sp]; [|by exfalso; apply E, Hs0]. rewrite app_nil_r in Hb. by split_and!. }
  exists (set_state p1 T_ARGSP). split; [done|]. intros r p2 w2 E. unfold recv_text_1ch.
  rewrite (passes_again _ _ _ _ (set_state p1 T_ARGSP) w); [by apply passes_ret|].
  unfold text_pass. rewrite Hst. unfold case_str. fold p1. rewrite Hf.
  destruct Hc as [[-> H0]| ->]; [|done]. by rewrite (proj2 (Z.eqb_neq _ _) H0).
Qed.

Lemma argsp_spaces sp : forall p w tf opt buf, spaces sp -> at_ p T_ARGSP tf opt buf -> Fed p w sp p w.
Proof.
  induction sp as [|c sp IH]; intros p w tf opt buf Hsp Hat; [apply fed_nil|].
  apply Forall_cons in Hsp as [-> Hsp]. eapply fed_cons; [|by eapply IH]. apply one_pass.
  unfold text_pass. by destruct Hat as (_ & -> & _).
Qed.

(** Spaces before another argument. *)
Lemma ready_spaces p w tf opt buf sp :
  ready p tf opt buf [] -> hd0 tf <> 0 -> spaces sp -> sp <> [] ->
  exists p', Fed p w sp p' w /\ at_ p' T_ARGSP tf opt buf.
Proof.
  intros Hr H0 Hsp Hne. destruct sp as [|c sp]; [done|]. apply Forall_cons in Hsp as [-> Hsp].
  assert (H : exists p', at_ p' T_ARGSP tf opt buf /\ recv_text_1ch cb p w 32 = Done (1, p', w)).
  { destruct Hr as [[Hr _]|Hr]; [destruct (settled_argsp p w tf opt buf 32 Hr) as (p' & Hat & Hk)|
      destruct (open_argsp p w tf opt buf [] 32 Hr) as (p' & Hat & Hk)]; auto; exists p'; (split; [done|by apply Hk]). }
  destruct H as (p' & Hat & E). exists p'. split; [|done]. eapply fed_cons; [done|by eapply argsp_spaces].
Qed.

(** Spaces at the end of the line. *)
Lemma ready_trail p w tf opt buf sp :
  ready p tf opt buf [] -> spaces sp -> zlen buf + zlen sp <= 65535 ->
  exists p' sp', Fed p w sp p' w /\ ready p' tf opt buf sp'.
Proof.
  intros Hr Hsp Hl. destruct sp as [|c sp]; [exists p, []; split; [apply fed_nil|done]|].
  destruct (decide (hd0 tf = 0)) as [H0|H0].
  2:{ destruct (ready_spaces p w tf opt buf (c :: sp) Hr H0 Hsp) as (p' & F' & A'); [done|].
      exists p', []. split; [done|]. left. split; [by left|done]. }
  destruct Hr as [[Hr _]|(Hat & _ & _ & Hlast)].
  - destruct (settled_argsp p w tf opt buf 32 Hr) as (p' & Hat & Hk); [by left|].
    apply Forall_cons in Hsp as [-> Hsp]. exists p', []. split; [|left; split; [by left|done]].
    eapply fed_cons; [by apply Hk|by eapply argsp_spaces].
  - rewrite app_nil_r in Hat. destruct (str_fed (c :: sp) p w tf opt buf Hat) as (p' & F' & A'); [|done|].
    { eapply Forall_impl; [exact Hsp|]. by intros x ->. }
    exists p', (c :: sp). split; [done|]. by right.
Qed.

(** One step of [T_ARGSP] on a byte that begins an argument, by the format character. *)
Section ArgStart.
Context (c : byte) (w : W).
Hypothesis not_space : (c =? 32) = false.
Hypothesis not_eol : is_eol c = false.

Lemma start_bar p tf opt buf :
  at_ p T_ARGSP (124 :: tf) opt buf -> hd0 tf <> 124 ->
  exists p0, at_ p0 T_ARGSP tf true buf /\ text_pass cb p w c = text_pass cb p0 w c.
Proof.
  intros (Hbase & Hst & Hf & Ho & Hb) Hx. exists (set_optional (set_fmt p tf) true).
  split; [by split_and!|]. unfold text_pass. cbn [set_optional set_fmt set_t t state]. rewrite Hst.
  unfold case_argsp. rewrite not_space, Hf. cbn [set_optional set_fmt set_t t fmt].
  change (hd0 (124 :: tf) =? 124) with true. cbn [drop].
  destruct (Z.eqb_spec (hd0 tf) 124); [done|]. reflexivity.
Qed.

Lemma start_int p tf opt buf :
  at_ p T_ARGSP (105 :: tf) opt buf ->
  exists p1, at_ p1 T_INT tf opt buf /\ intval (t p1) = 0 /\
    text_pass cb p w c = Done (Again p1 w).
Proof.
  intros (Hbase & Hst & Hf & Ho & Hb). exists (set_intval (set_state (set_fmt p tf) T_INT) 0).
  split; [by split_and!|]. split; [done|]. unfold text_pass. rewrite Hst.
  unfold case_argsp. rewrite not_space, Hf. change (hd0 (105 :: tf) =? 124) with false. cbv iota.
  by rewrite not_eol, Hf.
Qed.

Lemma start_str p tf opt buf :
  at_ p T_ARGSP (116 :: tf) opt buf ->
  exists p1, at_ p1 T_STRBEG tf opt buf /\ text_pass cb p w c = Done (Again p1 w).
Proof.
  intros (Hbase & Hst & Hf & Ho & Hb). exists (set_state (set_fmt p tf) T_STRBEG).
  split; [by split_and!|]. unfold text_pass. rewrite Hst.
  unfold case_argsp. rewrite not_space, Hf. change (hd0 (116 :: tf) =? 124) with false. cbv iota.
  by rewrite not_eol, Hf.
Qed.

Lemma start_nul p tf opt buf :
  at_ p T_ARGSP (48 :: tf) opt buf -> zlen buf < 65535 ->
  exists p1, at_ p1 T_ARGSP tf opt (buf ++ [0]) /\ text_pass cb p w c = Done (Again p1 w).
Proof.
  intros ((Hm & Hok & H16) & Hst & Hf & Ho & Hb) Hl. subst buf.
  destruct (addc_room (rx p) 0 Hok Hl) as (r' & Ea & Hok' & Hb').
  exists (set_rx (set_fmt p tf) r'). split; [by split_and!|]. unfold text_pass. rewrite Hst.
  unfold case_argsp. rewrite not_space, Hf. change (hd0 (48 :: tf) =? 124) with false. cbv iota.
  rewrite not_eol, Hf. cbn [Z.eqb Pos.eqb]. change (rx (set_fmt p tf)) with (rx p). by rewrite Ea.
Qed.

(** A format has no two bars in a row. *)
Fixpoint no_bars (tf : bytes) : Prop :=
  match tf with [] => True | x :: tf' => (x = 124 -> hd0 tf' <> 124) /\ no_bars tf' end.

(** Before an argument, the decoder skips the bar and stores the NUL of the format, and enters
    the state of the argument that is next. *)
Lemma arg_start tf : forall p opt buf a args d,
  at_ p T_ARGSP tf opt buf -> pack opt tf (a :: args) = Some d -> no_bars tf ->
  zlen buf + zlen tf < 65535 ->
  exists p1 tf1 opt1 z k d', (1 <= k <= length tf)%nat /\
    (forall fuel, text_passes cb (k + fuel) p w c = text_passes cb fuel p1 w c) /\
    pack opt1 tf1 args = Some d' /\ no_bars tf1 /\ (length tf1 <= length tf)%nat /\ zlen z <= zlen tf /\
    match a with
    | TI n => at_ p1 T_INT tf1 opt1 (buf ++ z) /\ intval (t p1) = 0 /\ d = z ++ n :: d'
    | TT _ s => at_ p1 T_STRBEG tf1 opt1 (buf ++ z) /\ d = z ++ s ++ d'
    end.
Proof.
  induction tf as [|x tf IH]; intros p opt buf a args d Hat Hp Hnb Hl; [done|].
  destruct Hnb as [Hx Hnb].
  rewrite zlen_cons in *. pose proof (zlen_nonneg tf). cbn [pack] in Hp.
  destruct (Z.eqb_spec x 124) as [->|Hx124].
  { destruct (start_bar p tf opt buf Hat (Hx eq_refl)) as (p0 & A0 & E0).
    destruct (IH p0 true buf a args d A0 Hp Hnb) as (p1 & tf1 & opt1 & z & k & d' & Hk & E & H1 & H2 & H3 & H4 & H5);
      [lia|]. exists p1, tf1, opt1, z, k, d'. cbn [length]. split_and!; [lia|lia| |done|done|lia|lia|done].
    intros fuel. rewrite <- E. destruct k as [|k]; [lia|]. cbn [Nat.add text_passes]. by rewrite E0. }
  destruct (Z.eqb_spec x 48) as [->|Hx48].
  { destruct (pack opt tf (a :: args)) as [d0|] eqn:Ep; [|done]. injection Hp as <-.
    destruct (start_nul p tf opt buf Hat) as (p0 & A0 & E0); [lia|].
    destruct (IH p0 opt (buf ++ [0]) a args d0 A0 Ep Hnb)
      as (p1 & tf1 & opt1 & z & k & d' & Hk & E & H1 & H2 & H3 & H4 & H5);
      [rewrite zlen_app, zlen_one; lia|].
    exists p1, tf1, opt1, (0 :: z), (S k), d'. cbn [length]. rewrite zlen_cons.
    split_and!; [lia|lia| |done|done|lia|lia|].
    - intros fuel. rewrite <- E. cbn [Nat.add]. by apply passes_again.
    - rewrite <- app_assoc in H5. destruct a as [n|star s].
      + destruct H5 as (? & ? & ->). done.
      + destruct H5 as (? & ->). done. }
  destruct a as [n|star s].
  - destruct (Z.eqb_spec x 105) as [->|]; [|done]. destruct (pack opt tf args) as [d0|] eqn:Ep; [|done].
    injection Hp as <-. destruct (start_int p tf opt buf Hat) as (p1 & A1 & I1 & E1).
    exists p1, tf, opt, [], 1%nat, d0. rewrite app_nil_r, zlen_nil. cbn [length].
    split_and!; try done; [lia|intros fuel; by apply passes_again|lia|lia].
  - destruct (Z.eqb_spec x 116) as [->|]; [|done]. destruct (pack opt tf args) as [d0|] eqn:Ep; [|done].
    injection Hp as <-. destruct (start_str p tf opt buf Hat) as (p1 & A1 & E1).
    exists p1, tf, opt, [], 1%nat, d0. rewrite app_nil_r, zlen_nil. cbn [length].
    split_and!; try done; [lia|intros fuel; by apply passes_again|lia|lia].
Qed.

End ArgStart.

(** ** Numbers *)

Lemma digit_pass p w tf opt buf c :
  at_ p T_INT tf opt buf -> 48 <= c <= 57 -> 0 <= intval (t p) * 10 + c - 48 <= 255 ->
  exists p', text_pass cb p w c = Done (Ret 1 p' w) /\ at_ p' T_INT tf opt buf /\
    intval (t p') = intval (t p) * 10 + c - 48.
Proof.
  intros (Hbase & Hst & Hf & Ho & Hb) Hc Hv.
  exists (set_intval p (intval (t p) * 10 + c - 48)). split; [|by split_and!].
  unfold text_pass. rewrite Hst. unfold case_int.
  destruct (Z.leb_spec 48 c), (Z.leb_spec c 57); try lia. cbn [andb]. rewrite u16_small by lia.
  destruct (Z.ltb_spec 255 (intval (t p) * 10 + c - 48)); [lia|]. done.
Qed.

Lemma digits_fed ds : forall p w tf opt buf v,
  at_ p T_INT tf opt buf -> 0 <= intval (t p) < 256 -> value (intval (t p)) ds = Some v ->
  exists p', Fed p w ds p' w /\ at_ p' T_INT tf opt buf /\ intval (t p') = v /\ 0 <= v < 256.
Proof.
  induction ds as [|c ds IH]; intros p w tf opt buf v Hat H0 Hv; cbn [value] in Hv.
  - injection Hv as <-. exists p. split; [apply fed_nil|done].
  - destruct (Z.leb_spec 48 c), (Z.leb_spec c 57); try done.
    destruct (Z.leb_spec (intval (t p) * 10 + c - 48) 255); [|done].
    destruct (digit_pass p w tf opt buf c Hat) as (p1 & E1 & A1 & I1); [lia..|]. cbn [andb] in Hv.
    rewrite <- I1 in Hv. destruct (IH p1 w tf opt buf v A1) as (p2 & F2 & A2); [lia|done|].
    exists p2. split; [|done]. eapply fed_cons; [by apply one_pass|done].
Qed.

(** ** One argument *)

(** A number. *)
Lemma int_fed p w tf opt buf n l args d :
  at_ p T_ARGSP tf opt buf -> pack opt tf (TI n :: args) = Some d -> no_bars tf -> (length tf <= 4)%nat ->
  spelled (TI n) l -> zlen buf + zlen d + 8 <= 65535 ->
  exists p' tf' opt' x d', Fed p w l p' w /\ ready p' tf' opt' (buf ++ x) [] /\
    d = x ++ d' /\ pack opt' tf' args = Some d' /\ no_bars tf' /\ (length tf' <= 4)%nat.
Proof.
  intros Hat Hp Hnb Htf [Hne Hv] Hl. pose proof (zlen_nonneg d). assert (Hz : zlen tf <= 4) by (unfold zlen; lia).
  destruct l as [|c ds]; [done|]. cbn [value] in Hv. destruct (Z.leb_spec 48 c), (Z.leb_spec c 57); try done.
  destruct (Z.leb_spec (0 * 10 + c - 48) 255); [|done]. cbn [andb] in Hv.
  assert (Hc1 : (c =? 32) = false) by lia. assert (Hc2 : is_eol c = false) by (unfold is_eol; lia).
  destruct (arg_start c w Hc1 Hc2 tf p opt buf (TI n) args d Hat Hp Hnb)
    as (p1 & tf1 & opt1 & z & k & d' & Hk & E & Hp1 & Hnb1 & Hlt & Hzz & A1 & I1 & ->); [lia|].
  destruct (digit_pass p1 w tf1 opt1 (buf ++ z) c A1) as (p2 & E2 & A2 & I2); [lia|rewrite I1; lia|].
  rewrite I1 in I2. rewrite <- I2 in Hv.
  destruct (digits_fed ds p2 w tf1 opt1 (buf ++ z) n A2) as (p3 & F3 & A3 & I3 & Hn); [lia|done|].
  exists p3, tf1, opt1, (z ++ [n]), d'. rewrite zlen_app, zlen_cons in Hl. pose proof (zlen_nonneg d').
  split_and!; [| |by rewrite <- app_assoc|done|done|lia].
  - eapply fed_cons; [|done]. unfold recv_text_1ch.
    replace 16%nat with (k + S (15 - k))%nat by lia. rewrite E. by apply passes_ret.
  - left. split; [|done]. right. left. exists (buf ++ z). rewrite I3, u8_small by lia. rewrite app_assoc.
    split_and!; [done|done|rewrite zlen_app; lia].
Qed.

(** A string in quotes. *)
Lemma quoted_fed p w tf opt buf star s l args d :
  at_ p T_ARGSP tf opt buf -> pack opt tf (TT star s :: args) = Some d -> no_bars tf -> (length tf <= 4)%nat ->
  in_quotes s l -> zlen buf + zlen d + 8 <= 65535 ->
  exists p' tf' opt' x d', Fed p w (34 :: l ++ [34]) p' w /\ ready p' tf' opt' (buf ++ x) [] /\
    d = x ++ d' /\ pack opt' tf' args = Some d' /\ no_bars tf' /\ (length tf' <= 4)%nat.
Proof.
  intros Hat Hp Hnb Htf Hq Hl. pose proof (zlen_nonneg d). assert (Hz : zlen tf <= 4) by (unfold zlen; lia).
  destruct (arg_start 34 w eq_refl eq_refl tf p opt buf (TT star s) args d Hat Hp Hnb)
    as (p1 & tf1 & opt1 & z & k & d' & Hk & E & Hp1 & Hnb1 & Hlt & Hzz & A1 & ->); [lia|].
  rewrite !zlen_app in Hl. pose proof (zlen_nonneg d'). pose proof (zlen_nonneg z).
  destruct (A1) as (Hbase & Hst & Hf & Ho & Hb).
  assert (E0 : recv_text_1ch cb p w 34 = Done (1, set_state p1 T_QSTR, w)).
  { unfold recv_text_1ch. replace 16%nat with (k + S (15 - k))%nat by lia. rewrite E.
    apply passes_ret. unfold text_pass. by rewrite Hst. }
  destruct (quotes_fed s l Hq (set_state p1 T_QSTR) w tf1 opt1 (buf ++ z)) as (p2 & F2 & A2);
    [by split_and!|rewrite zlen_app; lia|].
  destruct (A2) as (Hbase2 & Hst2 & Hf2 & Ho2 & Hb2).
  exists (set_state p2 T_ARGSP), tf1, opt1, (z ++ s), d'.
  split_and!; [| |by rewrite <- app_assoc|done|done|lia].
  - eapply fed_cons; [done|]. eapply fed_app; [done|]. apply fed_1, one_pass. unfold text_pass. by rewrite Hst2.
  - left. split; [|done]. left. rewrite app_assoc. by split_and!.
Qed.

(** A bare string. *)
Lemma bare_fed p w tf opt buf star s args d :
  at_ p T_ARGSP tf opt buf -> pack opt tf (TT star s :: args) = Some d -> no_bars tf -> (length tf <= 4)%nat ->
  bare s -> zlen buf + zlen d + 8 <= 65535 ->
  exists p' tf' opt' x d', Fed p w s p' w /\ ready p' tf' opt' (buf ++ x) [] /\
    d = x ++ d' /\ pack opt' tf' args = Some d' /\ no_bars tf' /\ (length tf' <= 4)%nat.
Proof.
  intros Hat Hp Hnb Htf (Hne & H34 & Hs) Hl. pose proof (zlen_nonneg d). assert (Hz : zlen tf <= 4) by (unfold zlen; lia).
  assert (Hlast : last s <> Some 32).
  { intros E. rewrite Forall_forall in Hs. by specialize (Hs 32 (last_Some_elem_of _ _ E)). }
  destruct s as [|c s]; [done|]. pose proof Hs as [[Hc1 Hc2]%orb_false_iff Hs']%Forall_cons. cbn [hd0] in H34.
  destruct (arg_start c w Hc1 Hc2 tf p opt buf (TT star (c :: s)) args d Hat Hp Hnb)
    as (p1 & tf1 & opt1 & z & k & d' & Hk & E & Hp1 & Hnb1 & Hlt & Hzz & A1 & ->); [lia|].
  rewrite !zlen_app, zlen_cons in Hl. pose proof (zlen_nonneg d'). pose proof (zlen_nonneg z). pose proof (zlen_nonneg s).
  destruct (A1) as (Hbase & Hst & Hf & Ho & Hb).
  destruct (str_char (set_state p1 T_STR) w tf1 opt1 (buf ++ z) c) as (p2 & E2 & A2);
    [by split_and!|done|lia|rewrite zlen_app; lia|].
  destruct (str_fed s p2 w tf1 opt1 ((buf ++ z) ++ [c]) A2) as (p3 & F3 & A3).
  { eapply Forall_impl; [exact Hs'|]. intros x [Hx Hx2]%orb_false_iff. split; [done|lia]. }
  { rewrite !zlen_app, zlen_one. lia. }
  exists p3, tf1, opt1, (z ++ c :: s), d'. split_and!; [| |by rewrite <- app_assoc|done|done|lia].
  - eapply fed_cons; [|done]. unfold recv_text_1ch. replace 16%nat with (k + S (15 - k))%nat by lia. rewrite E.
    apply passes_ret. rewrite <- E2. unfold text_pass. rewrite Hst. cbn [set_state set_t t state].
    unfold case_strbeg. by rewrite (proj2 (Z.eqb_neq _ _) H34).
  - right. split_and!; [|constructor|done|].
    + rewrite app_nil_r, app_assoc. by rewrite <- app_assoc in A3.
    + rewrite app_assoc, last_app_cons. exact Hlast.
Qed.

Lemma arg_fed p w tf opt buf a l args d :
  at_ p T_ARGSP tf opt buf -> pack opt tf (a :: args) = Some d -> no_bars tf -> (length tf <= 4)%nat ->
  spelled a l -> zlen buf + zlen d + 8 <= 65535 ->
  exists p' tf' opt' x d', Fed p w l p' w /\ ready p' tf' opt' (buf ++ x) [] /\
    d = x ++ d' /\ pack opt' tf' args = Some d' /\ no_bars tf' /\ (length tf' <= 4)%nat.
Proof.
  intros Hat Hp Hnb Htf Hs Hl. destruct a as [n|star s]; [by eapply int_fed|].
  destruct Hs as [(l' & -> & Hq)|[-> Hb]]; [by eapply quoted_fed|by eapply bare_fed].
Qed.

(** ** Whole lines *)

Lemma pack_more opt tf a args d : pack opt tf (a :: args) = Some d -> hd0 tf <> 0.
Proof. destruct tf as [|c tf]; cbn; [done|]. intros Hp ->. by destruct a. Qed.

Lemma args_fed args l : spelled_args args l -> forall p w tf opt buf d,
  ready p tf opt buf [] -> pack opt tf args = Some d -> no_bars tf -> (length tf <= 4)%nat ->
  zlen buf + zlen d + 8 <= 65535 ->
  exists p' tf' opt', Fed p w l p' w /\ ready p' tf' opt' (buf ++ d) [] /\
    (opt' = true \/ hd0 tf' = 0 \/ hd0 tf' = 124).
Proof.
  induction 1 as [|a args sp l l' Hsp Hne Ha Hargs IH]; intros p w tf opt buf d Hr Hp Hnb Htf Hl.
  - exists p, tf, opt. assert (d = []) as ->.
    { clear -Hp. revert opt Hp. induction tf as [|x tf IH]; intros opt Hp; cbn in Hp; [by injection Hp|].
      destruct (x =? 124); [by eapply IH|]. destruct opt; [by injection Hp|done]. }
    rewrite app_nil_r. split_and!; [apply fed_nil|done|by eapply pack_nil].
  - destruct (ready_spaces p w tf opt buf sp Hr (pack_more _ _ _ _ _ Hp) Hsp Hne) as (p1 & F1 & A1).
    destruct (arg_fed p1 w tf opt buf a l args d A1 Hp Hnb Htf Ha Hl)
      as (p2 & tf2 & opt2 & x & d' & F2 & R2 & -> & Hp2 & Hnb2 & Htf2).
    rewrite zlen_app in Hl.
    destruct (IH p2 w tf2 opt2 (buf ++ x) d' R2 Hp2 Hnb2 Htf2) as (p3 & tf3 & opt3 & F3 & R3 & H3);
      [rewrite zlen_app; lia|]. rewrite <- app_assoc in R3.
    exists p3, tf3, opt3. split_and!; [|done|done]. eapply fed_app; [done|]. by eapply fed_app.
Qed.

(** The bytes [l] end with the call of the handler [f q w id d]: when it returns a positive number
    the decoder goes on behind them, and otherwise it returns what the handler returned. *)
Definition Calls p w l q id d : Prop :=
  base q /\ forall a w', f q w id d = Done (a, w') ->
    (0 < a -> Fed p w l (set_state q T_BOL) w') /\
    (a <= 0 -> forall ret rest, recv_text_loop cb p w (l ++ rest) ret = Done (a, q, w')).

Lemma eol_ok p w tf opt id d sp e :
  ready p tf opt (id :: d) sp -> (opt = true \/ hd0 tf = 0 \/ hd0 tf = 124) -> is_eol e = true ->
  0 <= id < 256 -> id <> PSEUDO_HELP -> zlen d < 65534 -> exists q, Calls p w [e] q id d.
Proof.
  intros Hr Hopt He Hid Hh Hl.
  assert (H : exists p', at_ p' T_ARGSP tf opt (id :: d) /\
    forall r p2 w2, case_argsp cb p' w e = Done (Ret r p2 w2) -> recv_text_1ch cb p w e = Done (r, p2, w2)).
  { destruct Hr as [[Hr _]|Hr]; [apply (settled_argsp p w tf opt _ e Hr)|apply (open_argsp p w tf opt _ sp e Hr)]; by right. }
  destruct H as (p1 & Hat & Hk).
  destruct Hat as ((Hm & Hok & H16) & Hst & Hf & Ho & Hb).
  set (p2 := if hd0 (fmt (t p1)) =? 124
             then set_optional (set_fmt p1 (drop 1 (fmt (t p1)))) true else p1).
  assert (H2 : rx p2 = rx p1 /\ mode p2 = mode p1 /\ cmd (t p2) = cmd (t p1) /\
    negb (optional (t p2)) && negb (hd0 (fmt (t p2)) =? 0) = false).
  { unfold p2. rewrite Hf. destruct (Z.eqb_spec (hd0 tf) 124) as [E|E]; [done|].
    split_and!; try done. rewrite Ho, Hf. destruct Hopt as [->|[->|?]]; [done|by rewrite andb_false_r|done]. }
  destruct H2 as (Hrx & Hmd & Hcm & Hcond).
  destruct (rxbuf_zeropad_ok (rx p1) Hok) as (r & rx1 & Ez & Hbz & Hokz & Hrz).
  destruct Hrz as [->|[_ [Hbig|[n Hn]]]]; [|rewrite Hb, zlen_cons in Hbig; lia|by rewrite realloc_succeeds in Hn].
  exists (set_rx p2 rx1). split; [split_and!; [by cbn; rewrite Hmd|done|by cbn; rewrite Hcm]|].
  intros a w' Ea. assert (Hp : case_argsp cb p1 w e =
    Done (if a <=? 0 then Ret a (set_rx p2 rx1) w' else Ret 1 (set_state (set_rx p2 rx1) T_BOL) w')).
  { unfold case_argsp. assert ((e =? 32) = false) as -> by (unfold is_eol in He; lia). fold p2.
    rewrite He. rewrite Hcond, takes_input, Hrx, Ez. ostep. cbn [Z.eqb].
    rewrite Hbz, Hb. change (drop 1 (id :: d)) with d. cbn [hd0]. rewrite land_255, u8_small by lia. unfold text_input.
    destruct (Z.eqb_spec id PSEUDO_HELP); [done|]. rewrite takes_input, Ea. ostep. by destruct (a <=? 0). }
  split; intros Ha; [rewrite (proj2 (Z.leb_gt _ _) Ha) in Hp|rewrite (proj2 (Z.leb_le _ _) Ha) in Hp].
  - by apply fed_1, Hk.
  - intros ret rest. cbn [app recv_text_loop]. rewrite (Hk _ _ _ Hp). ostep. by rewrite (proj2 (Z.leb_le _ _) Ha).
Qed.

(** Blanks at the beginning of a line. *)
Lemma blanks_fed l : forall p w, state (t p) = T_BOL -> blanks l -> Fed p w l p w.
Proof.
  induction l as [|c l IH]; intros p w Hst Hl; [apply fed_nil|]. apply Forall_cons in Hl as [Hc Hl].
  eapply fed_cons; [|by apply IH]. apply one_pass. unfold text_pass. rewrite Hst. unfold case_bol. by rewrite Hc.
Qed.

(** A line is passed up as the message it stands for. *)
Lemma line_calls p w word name id tf args d l :
  base p -> state (t p) = T_BOL -> word <> [] -> Forall word_char word -> zlen word <= 15 ->
  lookup_word word = Some (name, id, tf) -> 0 <= id < 256 -> id <> PSEUDO_HELP ->
  no_bars tf -> (length tf <= 4)%nat -> pack false tf args = Some d -> line_of word args l ->
  zlen d + zlen l <= 65526 -> exists q, Calls p w l q id d.
Proof.
  intros Hbase Hst Hne Hw Hwl Hlk Hid Hh Hnb Htf Hp (lead & body & trail & e & rest & -> & Hlead & Hbody & Htr & He & Hrest) Hl.
  assert (Htl : zlen trail <= 65526 - zlen d) by (rewrite !zlen_app in Hl; pose proof (zlen_nonneg lead);
    pose proof (zlen_nonneg word); pose proof (zlen_nonneg body); pose proof (zlen_nonneg (e :: rest)); lia).
  pose proof (zlen_nonneg trail). pose proof (blanks_fed lead p w Hst Hlead) as F0.
  destruct (word_fed p w word Hbase Hst Hne Hw Hwl) as (p1 & F1 & A1).
  destruct (args_fed args body Hbody p1 w tf false [id] d) as (p2 & tf2 & opt2 & F2 & R2 & H2); try done.
  { left. split; [|done]. right. right. by exists word, name, id. }
  { rewrite zlen_one. lia. }
  destruct (ready_trail p2 w tf2 opt2 ([id] ++ d) trail R2 Htr) as (p3 & sp & F3 & R3); [rewrite zlen_app, zlen_one; lia|].
  destruct (eol_ok p3 w tf2 opt2 id d sp e R3 H2 He Hid Hh) as (q & Hq & Hc); [lia|].
  exists q. split; [done|]. intros a w' E. destruct (Hc a w' E) as [H3 H4]. split; intros Ha.
  - eapply fed_app; [done|]. eapply fed_app; [done|]. eapply fed_app; [done|]. eapply fed_app; [done|].
    eapply (fed_app _ _ [e]); [by apply H3|]. by apply blanks_fed.
  - intros ret more. rewrite <- !app_assoc, F0, F1, F2, F3. apply (H4 Ha _ (rest ++ more)).
Qed.

(** With a handler that takes every message. *)
Section Served.
Context (serve : W -> Z -> bytes -> W) (answer : W -> Z -> bytes -> Z).
Hypothesis accepts : forall p w m d, f p w m d = Done (answer w m d, serve w m d).
Hypothesis answers : forall w m d, 0 < answer w m d.

Lemma line_fed p w word name id tf args d :
  base p -> state (t p) = T_BOL -> word <> [] -> Forall word_char word -> zlen word <= 15 ->
  lookup_word word = Some (name, id, tf) -> 0 <= id < 256 -> id <> PSEUDO_HELP ->
  no_bars tf -> (length tf <= 4)%nat -> pack false tf args = Some d -> Forall wf_targ args ->
  zlen d + zlen (text_line word args) <= 65526 ->
  exists p', Fed p w (text_line word args) p' (serve w id d) /\ base p' /\ state (t p') = T_BOL.
Proof.
  intros. destruct (line_calls p w word name id tf args d (text_line word args)) as (q & Hq & Hc); try done.
  { by apply text_line_of. }
  exists (set_state q T_BOL). split; [|done]. eapply Hc; [apply accepts|apply answers].
Qed.

End Served.

End Decode.
