(* ===== verification/ProtoTextAny.v ===== *)
(** * The text protocol: any bytes, any application

    The decoder of prototext.c on arbitrary input, to an application that may refuse a message,
    which ends the connection. A pass over its state machine is one of three actions ([act]),
    whatever the application. [text_talk] is what the bytes alone determine: the messages that are
    passed up and the replies of the decoder itself (error lines, the help text), in their order.
    [Chat] says that an application got just these, up to a message that it refused, which is the
    only way a connection ends while there is memory. The decoder stays within its buffers, and no
    message is longer than the line it came in. *)
From S2P Require Import Prelude StoreDefs Rxbuf ProtoDefs ProtoBin ProtoTextOut ProtoTextIn.
Local Open Scope infod_scope.

(** ** The command table *)

Definition good_entry (e : bytes * Z * bytes) : Prop :=
  let '(word, id, tf) := e in
  lookup_word word = Some e /\ word <> [] /\ Forall word_char word /\ zlen word <= 15 /\
  0 <= id < 256 /\ no_bars tf /\ (length tf <= 4)%nat /\
  Forall (fun c => c = 105 \/ c = 116 \/ c = 48 \/ c = 124) tf.

Lemma table_good : Forall good_entry cmdtab.
Proof.
  repeat (apply Forall_cons; split); [..|by apply Forall_nil];
    (unfold good_entry; split_and!; [vm_compute; reflexivity|discriminate| |vm_compute; discriminate|
      vm_compute; discriminate|vm_compute; reflexivity| |vm_compute; lia|]).
  all: vm_compute; repeat (apply Forall_cons; split); try apply Forall_nil; done || lia || (repeat split; discriminate).
Qed.

Lemma entry_good msg word id tf :
  entry_of msg = Some (word, id, tf) -> id = msg /\ good_entry (word, id, tf).
Proof.
  intros H. apply find_some in H as [Hin Hid]. cbn in Hid. apply Z.eqb_eq in Hid. split; [done|].
  pose proof table_good as Hg. rewrite Forall_forall in Hg. apply Hg. by apply list_elem_of_In.
Qed.

Lemma lookup_good word e : lookup_word word = Some e -> good_entry e.
Proof.
  intros H. apply find_some in H as [Hin _].
  pose proof table_good as Hg. rewrite Forall_forall in Hg. apply Hg. by apply list_elem_of_In.
Qed.

(** ** The states of the decoder *)

(** The format characters that [T_ARGSP] knows. *)
Definition good_fmt (tf : bytes) : Prop :=
  Forall (fun c => c = 105 \/ c = 116 \/ c = 48 \/ c = 124) tf /\ no_bars tf /\ (length tf <= 4)%nat.

(** The states between two bytes of input. *)
Definition text_inv (p : proto) : Prop :=
  base p /\
  match state (t p) with
  | T_ERROR | T_BOL => True
  | T_CMD => 0 <= cmdlen (t p) <= 15
  | _ => good_fmt (fmt (t p))
  end.

(** How many more passes a byte can cause. *)
Definition passes_left (p : proto) : nat :=
  match state (t p) with
  | T_ERROR => 1
  | T_BOL | T_CMD => 12
  | T_ARGSP => 2 * length (fmt (t p)) + 2
  | _ => 2 * length (fmt (t p)) + 3
  end.

(** How long the message of the current line can be so far: the bytes in the buffer, and one for
    each format character that is still to come. *)
Definition text_load (p : proto) : Z :=
  match state (t p) with
  | T_ERROR | T_BOL | T_CMD => 5
  | T_INT => zlen (rx_buf (rx p)) + zlen (fmt (t p)) + 1
  | _ => zlen (rx_buf (rx p)) + zlen (fmt (t p))
  end.

(** From [n] on no line gets longer than [lim]. *)
Fixpoint short_lines (lim n : Z) (net : bytes) : Prop :=
  n <= lim /\
  match net with
  | [] => True
  | c :: net' => short_lines lim (if is_eol c then 5 else n + 1) net'
  end.

(** ** Passes *)

(** What a pass over the state machine does: it only changes the decoder, it replies with an error
    line, or it comes to the end of a command line. *)
Inductive act :=
  | Quiet (r : option Z) (p : proto)
  | Report (again : bool) (p : proto) (code : Z) (text : bytes)
  | EndLine (p : proto).

Section Acts.
Context {os : OS}.

(** The message of the line is passed up. *)
Definition end_line {W} (cb : callbacks W) (p : proto) (w : W) : outcome (pass W) :=
  match on_input cb with
  | None => Done (Ret 1 (set_state p T_BOL) w)
  | Some _ =>
      '(r, rx1) ← rxbuf_zeropad (rx p);
      let p1 := set_rx p rx1 in
      if r =? -1 then Done (Ret (-1) p1 w)
      else
        '(ret, w1) ← text_input cb p1 w (Z.land (hd0 (rx_buf rx1)) 0xff) (drop 1 (rx_buf rx1));
        if ret <=? 0 then Done (Ret ret p1 w1) else Done (Ret 1 (set_state p1 T_BOL) w1)
  end.

Definition run_act {W} (cb : callbacks W) (w : W) (a : act) : outcome (pass W) :=
  match a with
  | Quiet None p => Done (Again p w)
  | Quiet (Some r) p => Done (Ret r p w)
  | Report again p code text =>
      '(_, p1, w1) ← proto_output_error cb p w code text;
      Done (if again then Again (set_state p1 T_ERROR) w1 else Ret 1 (set_state p1 T_BOL) w1)
  | EndLine p => end_line cb p w
  end.

(** A receive buffer can fail to grow: [realloc] may fail, or lines may be too long for it. *)
Definition scarce (lim : Z) : Prop := (exists n, realloc_ok n = false) \/ 65535 <= lim.

(** No line is longer than [lim]; the current one has at most [n] bytes, and [m] passes are left
    for the byte [ch]. *)
Context (lim : Z).
Definition act_ok (n : Z) (ch : byte) (m : nat) (a : act) : Prop :=
  match a with
  | Quiet None p => text_inv p /\ (passes_left p < m)%nat /\ text_load p <= n
  | Quiet (Some r) p => text_inv p /\ (r = -1 /\ scarce lim \/ r = 1 /\ text_load p <= if is_eol ch then 5 else n + 1)
  | Report again p code text => base p /\ 0 <= code < 256 /\ zlen text <= 100 /\ 5 <= n /\
      if again then (1 < m)%nat else is_eol ch = true
  | EndLine p => base p /\ state (t p) = T_ARGSP /\ good_fmt (fmt (t p)) /\ is_eol ch = true /\
      zlen (rx_buf (rx p)) <= lim
  end.

(** A part of the decoder that performs such an action for every application. *)
Definition does (n : Z) (ch : byte) (m : nat) (T : forall W, callbacks W -> W -> outcome (pass W)) : Prop :=
  exists a, act_ok n ch m a /\ forall W (cb : callbacks W) w, T W cb w = run_act cb w a.

Lemma does_mono n ch m m' T : (m <= m')%nat -> does n ch m T -> does n ch m' T.
Proof.
  intros Hle (a & Ha & HT). exists a. split; [|done]. destruct a as [[r|] p|[|] p code text|p]; cbn in *; intuition lia.
Qed.

(** The byte was taken. *)
Lemma does_ret n ch m p :
  text_inv p -> text_load p <= (if is_eol ch then 5 else n + 1) -> does n ch m (fun _ _ w => Done (Ret 1 p w)).
Proof. intros. exists (Quiet (Some 1) p). cbn. auto. Qed.

(** The byte is looked at again. *)
Lemma does_again n ch m p :
  text_inv p -> (passes_left p < m)%nat -> text_load p <= n -> does n ch m (fun _ _ w => Done (Again p w)).
Proof. intros. by exists (Quiet None p). Qed.

(** There was no memory, or no room. *)
Lemma does_fail n ch m p : text_inv p -> scarce lim -> does n ch m (fun _ _ w => Done (Ret (-1) p w)).
Proof. intros. exists (Quiet (Some (-1)) p). cbn. auto. Qed.

Lemma does_error n ch m p code text :
  base p -> 0 <= code < 256 -> zlen text <= 100 -> (1 < m)%nat -> 5 <= n ->
  does n ch m (fun _ cb w => text_error cb p w code text).
Proof. intros. by exists (Report true p code text). Qed.

(** An error reply at the end of a line. *)
Lemma does_eol_error n ch m p code text :
  base p -> 0 <= code < 256 -> zlen text <= 100 -> is_eol ch = true -> 5 <= n ->
  does n ch m (fun _ cb w =>
    '(_, p1, w1) ← proto_output_error cb p w code text; Done (Ret 1 (set_state p1 T_BOL) w1)).
Proof. intros. by exists (Report false p code text). Qed.

Lemma does_add_char n ch m p c (go : proto -> forall W, callbacks W -> W -> outcome (pass W)) :
  base p -> zlen (rx_buf (rx p)) <= lim -> (forall rx', rx_ok rx' -> text_inv (set_rx p rx')) ->
  (forall rx', rx_ok rx' -> rx_buf rx' = rx_buf (rx p) ++ [c] -> does n ch m (go (set_rx p rx'))) ->
  does n ch m (fun W cb w => add_char p w c (fun p' => go p' W cb w)).
Proof.
  intros (Hm & Hok & H16) Hl Hinv Hk. unfold add_char.
  destruct (rxbuf_addc_ok (rx p) c Hok) as (r & rx1 & -> & Hok1 & [[-> Hb]|(-> & -> & Hs)]); ostep; cbn [Z.eqb].
  - by apply Hk.
  - apply does_fail; [by apply Hinv|]. unfold scarce. destruct Hs; [right; lia|by left].
Qed.

(** The command word in an error message. *)
Lemma quoted_cmd p a b : base p -> zlen a + zlen b <= 80 -> zlen (a ++ cstr (cmd (t p)) ++ b) <= 100.
Proof. intros (_ & _ & H16) Hl. pose proof (zlen_cstr (cmd (t p))). rewrite !zlen_app. lia. Qed.

Lemma good_fmt_tail c tf : good_fmt (c :: tf) -> good_fmt tf.
Proof. intros ([_ ?]%Forall_cons & [_ ?] & Hl). split_and!; [done|done|cbn in Hl; lia]. Qed.

(** [T_ARGSP] at the end of a line. *)
Lemma does_argsp_eol n ch p m :
  base p -> state (t p) = T_ARGSP -> good_fmt (fmt (t p)) -> is_eol ch = true -> zlen (rx_buf (rx p)) <= lim -> 5 <= n ->
  does n ch m (fun _ cb w =>
    if negb (optional (t p)) && negb (hd0 (fmt (t p)) =? 0) then
      '(_, p1, w1) ← proto_output_error cb p w PROTO_ERROR_BAD_ARG
                        ($"missing arg for '" ++ cstr (cmd (t p)) ++ $"'");
      Done (Ret 1 (set_state p1 T_BOL) w1)
    else end_line cb p w).
Proof.
  intros Hb Hst Hf He Hl Hn. destruct (negb _ && negb _).
  - apply does_eol_error; try done. by apply quoted_cmd.
  - by exists (EndLine p).
Qed.

(** [T_ARGSP] with a byte of the next argument. *)
Lemma does_argsp_arg n ch p :
  base p -> state (t p) = T_ARGSP -> good_fmt (fmt (t p)) -> hd0 (fmt (t p)) <> 124 ->
  text_load p <= n -> 5 <= n ->
  does n ch (2 * length (fmt (t p)) + 2) (fun _ cb w =>
    match fmt (t p) with
    | [] => text_error cb p w PROTO_ERROR_BAD_ARG
              ($"unexpected arg for '" ++ cstr (cmd (t p)) ++ $"'")
    | f :: fmt' =>
        let p1 := set_fmt p fmt' in
        if f =? 105 then Done (Again (set_intval (set_state p1 T_INT) 0) w)
        else if f =? 116 then Done (Again (set_state p1 T_STRBEG) w)
        else if f =? 48 then
          '(r, rx1) ← rxbuf_addc (rx p1) 0;
          let p2 := set_rx p1 rx1 in
          Done (Again (if r =? -1 then set_state p2 T_ERROR else p2) w)
        else Crash Aborted
    end).
Proof.
  intros Hb Hst Hf Hbar Hld Hn. destruct (Hb) as (Hm & Hok & H16). unfold text_load in Hld. rewrite Hst in Hld.
  destruct (fmt (t p)) as [|x tf] eqn:Ef.
  { apply does_error; [done|done|by apply quoted_cmd|cbn; lia|done]. }
  pose proof (good_fmt_tail _ _ Hf) as Hf'. destruct Hf as ([Hx _]%Forall_cons & _ & _). cbn [hd0] in Hbar.
  rewrite zlen_cons in Hld. cbv zeta.
  destruct (Z.eqb_spec x 105) as [->|H1].
  { apply does_again; [split; [done|exact Hf']|cbn; lia|cbn; lia]. }
  destruct (Z.eqb_spec x 116) as [->|H2].
  { apply does_again; [split; [done|exact Hf']|cbn; lia|cbn; lia]. }
  destruct (Z.eqb_spec x 48) as [->|H3]; [|lia].
  destruct (rxbuf_addc_ok (rx p) 0 Hok) as (r & rx1 & Ea & Hok1 & Hr). cbn [set_fmt set_t rx]. rewrite Ea. ostep.
  destruct Hr as [[-> Hbf]|(-> & _)]; cbn [Z.eqb]; apply does_again; try done.
  - split; [by split_and!|]. cbn. by rewrite Hst.
  - unfold passes_left. cbn. rewrite Hst. cbn. lia.
  - unfold text_load. cbn. rewrite Hst, Hbf, zlen_app, zlen_one. lia.
  - cbn. lia.
Qed.

Lemma load_rx p : state (t p) = T_ARGSP -> zlen (rx_buf (rx p)) <= text_load p.
Proof. intros Hst. unfold text_load. rewrite Hst. pose proof (zlen_nonneg (fmt (t p))). lia. Qed.

Lemma does_case_argsp n ch p :
  base p -> state (t p) = T_ARGSP -> good_fmt (fmt (t p)) -> text_load p <= n -> 5 <= n <= lim ->
  does n ch (2 * length (fmt (t p)) + 2) (fun _ cb w => case_argsp cb p w ch).
Proof.
  intros Hb Hst Hf Hld Hn. unfold case_argsp. destruct (Z.eqb_spec ch 32) as [->|_].
  { apply does_ret; [split; [done|by rewrite Hst]|change (is_eol 32) with false; cbv iota; lia]. }
  pose proof (load_rx p Hst).
  destruct (Z.eqb_spec (hd0 (fmt (t p))) 124) as [E1|E1].
  - destruct (fmt (t p)) as [|x tf] eqn:Ef; [done|]. cbn in E1. subst x. change (drop 1 (124 :: tf)) with tf.
    set (p1 := set_optional (set_fmt p tf) true). pose proof (good_fmt_tail _ _ Hf) as Hf'.
    assert (Hb1 : base p1) by (by destruct Hb as (? & ? & ?); split_and!).
    assert (Hl1 : text_load p1 <= n).
    { unfold text_load in *. cbn. rewrite Hst in *. rewrite Ef, zlen_cons in Hld. lia. }
    eapply (does_mono _ _ (2 * length tf + 2)); [cbn; lia|].
    destruct (is_eol ch) eqn:He; [apply (does_argsp_eol n ch p1); try done; cbn; lia|].
    apply (does_argsp_arg n ch p1); try done; [|lia]. cbn. destruct Hf as (_ & [Hbar _] & _). by apply Hbar.
  - destruct (is_eol ch) eqn:He; [apply does_argsp_eol; done || lia|apply does_argsp_arg; done || lia].
Qed.

Lemma does_case_cmd n ch p :
  base p -> state (t p) = T_CMD -> 0 <= cmdlen (t p) <= 15 -> 5 <= n <= lim ->
  does n ch 12 (fun _ cb w => case_cmd cb p w ch).
Proof.
  intros Hb Hst Hcl Hn. destruct (Hb) as (Hm & Hok & H16). unfold case_cmd.
  assert (Hw : forall c, exists c', mwrite (cmd (t p)) (cmdlen (t p)) [c] = Some c' /\ zlen c' = 16).
  { intros c. unfold mwrite. rewrite zlen_one, !bool_decide_true by lia. cbn [andb]. eexists. split; [done|].
    unfold zlen in *. rewrite !length_app, length_take, length_drop. cbn [length]. lia. }
  destruct (negb (ch =? 32) && negb (is_eol ch)) eqn:Ech.
  - apply andb_true_iff in Ech as [_ He%negb_true_iff].
    destruct (Hw ch) as (c' & -> & Hc'). ostep. cbn [set_cmd set_t t cmdlen].
    rewrite u8_small by lia. destruct (Z.leb_spec 16 (cmdlen (t p) + 1)).
    + apply does_error; [by split_and!|done|done|lia|lia].
    + apply does_ret; [|rewrite He].
      * split; [by split_and!|]. cbn. rewrite Hst. lia.
      * unfold text_load. cbn. rewrite Hst. lia.
  - destruct (Hw 0) as (c' & -> & Hc'). ostep.
    assert (Hb1 : base (set_cmd p c' (cmdlen (t p)))) by (by split_and!).
    destruct (find _ cmdtab) as [[[name id] tf]|] eqn:Ef.
    2:{ apply does_error; [done|done| |lia|lia].
        apply (quoted_cmd (set_cmd p c' (cmdlen (t p))) $"unknown command '" $"', try 'help'" Hb1). done. }
    apply (lookup_good c') in Ef as (_ & _ & _ & _ & _ & Hnb & Hlen & Hch). cbn [set_cmd set_t rx].
    destruct (rxbuf_clear_ok (rx p) 1 Hok) as (r & rx1 & -> & Hcl1 & Hok1 & Hcr); [lia|]. ostep.
    assert (Hin : forall rx2, rx_ok rx2 -> text_inv (set_rx (set_cmd p c' (cmdlen (t p))) rx2)).
    { intros rx2 Hok2. split; [by split_and!|]. cbn. rewrite Hst. lia. }
    destruct Hcr as [->|[-> Hs]]; cbn [Z.eqb]; [|apply does_fail; [by apply Hin|by left]].
    apply does_add_char; [by split_and!|cbn; rewrite Hcl1; unfold zlen; cbn; lia|intros; by apply Hin|].
    intros rx2 Hok2 Hbf. cbn in Hbf. rewrite Hcl1 in Hbf. eapply does_mono; [|apply does_case_argsp].
    + cbn. lia.
    + by split_and!.
    + done.
    + by split_and!.
    + unfold text_load. cbn. rewrite Hbf. change (zlen ([] ++ [id])) with 1. unfold zlen. lia.
    + done.
Qed.

Lemma does_case_bol n ch p :
  base p -> state (t p) = T_BOL -> 5 <= n <= lim -> does n ch 12 (fun _ cb w => case_bol cb p w ch).
Proof.
  intros Hb Hst Hn. unfold case_bol. destruct ((ch =? 32) || is_eol ch).
  - apply does_ret; [split; [done|by rewrite Hst]|unfold text_load; rewrite Hst; destruct (is_eol ch); lia].
  - apply does_case_cmd; [by destruct Hb as (? & ? & ?); split_and!|done|cbn; lia|done].
Qed.

Lemma text_inv_fmt p : text_inv p ->
  match state (t p) with T_ERROR | T_BOL | T_CMD => True | _ => good_fmt (fmt (t p)) end.
Proof. intros [_ H]. by destruct (state (t p)). Qed.

Lemma set_state_id p st : state (t p) = st -> set_state p st = p.
Proof. destruct p as [m r [s f i c l x o]]. cbn. by intros ->. Qed.

Lemma zlen_trimspace r : zlen (rx_buf (rxbuf_trimspace r)) <= zlen (rx_buf r).
Proof.
  cbn. unfold zlen. rewrite length_reverse. rewrite <- (length_reverse (rx_buf r)).
  generalize (reverse (rx_buf r)). intros l.
  enough (length (drop_spaces l) <= length l)%nat by lia.
  induction l as [|c l IH]; cbn [drop_spaces]; [done|]. destruct (c =? 32); cbn [length]; lia.
Qed.

Lemma does_case_str n ch p :
  base p -> good_fmt (fmt (t p)) -> zlen (rx_buf (rx p)) + zlen (fmt (t p)) <= n -> 5 <= n <= lim ->
  does n ch (2 * length (fmt (t p)) + 3) (fun _ cb w => case_str (set_state p T_STR) w ch).
Proof.
  intros Hb Hf Hld Hn. destruct (Hb) as (Hm & Hok & H16). unfold case_str.
  destruct (is_eol ch || _) eqn:Ech.
  - set (p1 := if hd0 (fmt (t (set_state p T_STR))) =? 0
      then set_rx (set_state p T_STR) (rxbuf_trimspace (rx (set_state p T_STR))) else set_state p T_STR).
    assert (H1 : base p1 /\ fmt (t p1) = fmt (t p) /\ zlen (rx_buf (rx p1)) <= zlen (rx_buf (rx p))).
    { unfold p1. destruct (_ =? 0); (split; [split_and!; cbn; try done; by apply rxbuf_trimspace_ok|]); (split; [done|]);
        [apply (zlen_trimspace (rx p))|cbn; lia]. }
    destruct H1 as (Hb1 & Hf1 & Hz1). apply does_again; [split; [done|]| | ].
    + cbn [set_state set_t t state]. cbn. by rewrite Hf1.
    + unfold passes_left. cbn. rewrite Hf1. lia.
    + unfold text_load. cbn. rewrite Hf1. lia.
  - apply orb_false_iff in Ech as [He _]. pose proof (zlen_nonneg (fmt (t p))).
    apply does_add_char; [done|cbn; lia|by split|].
    intros rx' Hok' Hbf. apply does_ret; [by split|rewrite He].
    unfold text_load. cbn in *. rewrite Hbf, zlen_app, zlen_one. lia.
Qed.

(** A pass ends without a crash, and one that ends with [goto again] gets closer to the end. *)
Lemma text_pass_does n ch p :
  text_inv p -> text_load p <= n -> 5 <= n <= lim ->
  does n ch (passes_left p) (fun _ cb w => text_pass cb p w ch).
Proof.
  intros Hinv Hld Hn. destruct (Hinv) as [Hb Hf]. destruct (Hb) as (Hm & Hok & H16).
  pose proof (zlen_nonneg (fmt (t p))) as Hz. unfold text_pass, passes_left, text_load in *. destruct (state (t p)) eqn:Hst.
  - unfold case_error. destruct (is_eol ch) eqn:Ee; cbn [negb].
    + unfold case_bol. rewrite Ee, orb_true_r. apply does_ret; [by split|by rewrite Ee].
    + apply does_ret; [done|rewrite Ee; unfold text_load; rewrite Hst; lia].
  - by apply does_case_bol.
  - by apply does_case_cmd.
  - apply does_case_argsp; try done. unfold text_load. by rewrite Hst.
  - unfold case_int. destruct ((48 <=? ch) && (ch <=? 57)) eqn:Ed.
    + assert (He : is_eol ch = false) by (unfold is_eol; lia).
      destruct (255 <? _); [apply does_error; [done|done|done|lia|lia]|].
      apply does_ret; [split; [done|cbn; by rewrite Hst]|rewrite He; unfold text_load; cbn; rewrite Hst; lia].
    + apply does_add_char; [done|lia|intros; split; [by split_and!|cbn; by rewrite Hst]|].
      intros rx' Hok' Hbf. apply does_again; [split; [by split_and!|exact Hf]|cbn; lia| ].
      unfold text_load. cbn. rewrite Hbf, zlen_app, zlen_one. lia.
  - unfold case_strbeg. destruct (Z.eqb_spec ch 34) as [->|]; [|by apply does_case_str].
    apply does_ret; [by split|change (is_eol 34) with false; cbn; lia].
  - pose proof (does_case_str n ch p Hb Hf Hld Hn) as H. by rewrite (set_state_id p T_STR Hst) in H.
  - unfold case_qstr. destruct (is_eol ch) eqn:He.
    { apply does_eol_error; done || lia. }
    destruct (ch =? 92); [apply does_ret; [by split|rewrite He; cbn; lia]|].
    destruct (ch =? 34); [apply does_ret; [by split|rewrite He; cbn; lia]|].
    apply does_add_char; [done|lia|intros; split; [by split_and!|cbn; by rewrite Hst]|].
    intros rx' Hok' Hbf. apply does_ret; [split; [by split_and!|cbn; by rewrite Hst]|rewrite He].
    unfold text_load. cbn. rewrite Hst, Hbf, zlen_app, zlen_one. lia.
  - unfold case_qoct. destruct ((ch <? 48) || (55 <? ch)) eqn:Eo.
    { apply does_error; [done|done|done|lia|lia]. }
    assert (He : is_eol ch = false) by (unfold is_eol; lia).
    cbv zeta. destruct (_ =? 0).
    + apply does_add_char; [done|cbn; lia|intros; split; [by split_and!|cbn; by rewrite Hst]|].
      intros rx' Hok' Hbf. apply does_ret; [by split|rewrite He].
      unfold text_load. cbn in *. rewrite Hbf, zlen_app, zlen_one. lia.
    + apply does_ret; [split; [done|cbn; by rewrite Hst]|rewrite He; unfold text_load; cbn; rewrite Hst; lia].
Qed.


End Acts.

(** ** The messages in the bytes *)

(** What the decoder makes of the bytes: a message for the application, or bytes that it writes to
    the peer itself. *)
Inductive talk := Request (m : pdu) | Reply (b : bytes).

(** An application that takes every message and writes it down, with what is sent. *)
Definition recorder : callbacks (list talk) :=
  mk_callbacks (Some (fun _ l msg data => Done (1, l ++ [Request (msg, data)])))
    (Some (fun _ l iovs => Done (zlen (concat iovs), l ++ [Reply (concat iovs)]))) None.

(** The messages that the decoder finds in [net] and its replies, going on from its state [p], and
    the state that it is left in. *)
Definition text_talk {os : OS} (p : proto) (net : bytes) : list talk :=
  match recv_text recorder p [] net with Done (_, _, l) => l | Crash _ => [] end.
Definition text_decoder {os : OS} (p : proto) (net : bytes) : proto :=
  match recv_text recorder p [] net with Done (_, p', _) => p' | Crash _ => p end.

Section Errors.
Context {os : OS} {W : Type} (cb : callbacks W) (least : Z) (out : W -> bytes -> W -> Prop).
Hypothesis sendv_total : forall p w iov, exists r w', sendv cb p w iov = Done (r, w').

(** Error replies are short lines. *)
Lemma error_total p w code text :
  mode p = PROTO_MODE_TEXT -> 0 <= code < 256 -> zlen text <= 100 ->
  exists r w', proto_output_error cb p w code text = Done (r, p, w') /\
    (stream_peer cb least out -> out w (text_line $"ERROR" [TI code; TT false (cstr text)]) w').
Proof.
  intros Hm Hc Hl. unfold proto_output_error. pose proof (zlen_nonneg text).
  rewrite take_ge by (unfold zlen in *; lia).
  rewrite proto_output_mode by (by rewrite Hm). rewrite Hm.
  change (PROTO_MODE_TEXT =? PROTO_MODE_BINARY) with false.
  change (PROTO_MODE_TEXT =? PROTO_MODE_TEXT) with true. cbv iota.
  assert (He : entry_of MSG_ERROR = Some ($"ERROR", MSG_ERROR, $"it")) by (vm_compute; reflexivity).
  pose proof (zlen_cstr text) as Hcl.
  destruct (output_text_ok cb sendv_total least out p w MSG_ERROR $"ERROR" MSG_ERROR $"it"
    [TI code; TT false (cstr text)] (code :: cstr text ++ []) He eq_refl) as (r & w' & E & Ho).
  - repeat constructor; try done; try lia. intros _. apply cstr_nul_free.
  - vm_compute. intuition discriminate.
  - unfold text_line. cbn [fmap list_fmap concat print_targ app].
    rewrite !zlen_app, zlen_cons, !zlen_app, zlen_cons, zlen_app, zlen_nil.
    unfold quote. rewrite zlen_cons, zlen_app, zlen_one. pose proof (zlen_qchars (cstr text)).
    pose proof (zlen_print_byte code Hc). change (zlen $"ERROR") with 5. change (zlen CRLF) with 2. lia.
  - assert (Eq : output_text cb p w MSG_ERROR $"%c%s" [AInt code; APtr text] =
      output_text cb p w MSG_ERROR (spell $"it" [TI code; TT false (cstr text)]).1
        (spell $"it" [TI code; TT false (cstr text)]).2).
    { change (spell $"it" [TI code; TT false (cstr text)]).1 with $"%c%s".
      change (spell $"it" [TI code; TT false (cstr text)]).2 with [AInt code; APtr (cstr text ++ [0])].
      unfold output_text. unfold entry_of in He. rewrite He.
      change $"%c%s" with [37; 99; 37; 115]. change $"it" with [105; 116].
      cbn [output_text_args Z.eqb Pos.eqb negb hd0 next_tfmt va_int va_ptr mbind outcome_bind].
      by rewrite cstr_app_nul by apply cstr_nul_free. }
    rewrite Eq, E. ostep. assert (Ho' : stream_peer cb least out -> out w (text_line $"ERROR" [TI code; TT false (cstr text)]) w')
      by (intros Hs; by destruct (Ho Hs)).
    destruct (r <? 0); [eauto|]. rewrite Hm.
    change (PROTO_MODE_TEXT =? PROTO_MODE_TEXT) with true. destruct (negb _); cbn [andb]; eauto.
Qed.

End Errors.

(** An error line of the decoder. *)
Definition error_line (code : Z) (text : bytes) : bytes := text_line $"ERROR" [TI code; TT false (cstr text)].

Lemma recorder_reports {os : OS} p l code text :
  mode p = PROTO_MODE_TEXT -> 0 <= code < 256 -> zlen text <= 100 ->
  exists r pieces, proto_output_error recorder p l code text = Done (r, p, l ++ (Reply <$> pieces)) /\
    concat pieces = error_line code text.
Proof.
  intros Hm Hc Hl.
  destruct (error_total recorder 0 (fun l b l' => exists pieces, l' = l ++ (Reply <$> pieces) /\ concat pieces = b))
    with (p := p) (w := l) (code := code) (text := text) as (r & l' & E & Ho); try done.
  { intros p' l' iov. by eexists _, _. }
  destruct Ho as (pieces & -> & Hp); [|by exists r, pieces]. split.
  - intros p' l1 iov. eexists (zlen (concat iov)), _. pose proof (zlen_nonneg (concat iov)). split_and!; try done.
    exists [concat iov]. cbn. by rewrite app_nil_r.
  - intros l1 a l2 b l3 (p1 & -> & <-) (p2 & -> & <-). exists (p1 ++ p2). by rewrite fmap_app, app_assoc, concat_app.
  - intros l1. exists []. by rewrite app_nil_r.
Qed.

(** ** What becomes of the bytes *)

Section Chats.
Context {W : Type} (R : W -> pdu -> bool -> W -> Prop) (E : W -> bytes -> W -> Prop).

(** The messages were passed up and the replies sent, up to the first message that was refused. A
    reply may be written in pieces. *)
Inductive Chat (w : W) : list talk -> bool -> W -> Prop :=
  | chat_done : Chat w [] true w
  | chat_message m ts w1 ok w' : R w m true w1 -> Chat w1 ts ok w' -> Chat w (Request m :: ts) ok w'
  | chat_end m w' : R w m false w' -> Chat w [Request m] false w'
  | chat_reply pieces w1 ts ok w' :
      E w (concat pieces) w1 -> Chat w1 ts ok w' -> Chat w ((Reply <$> pieces) ++ ts) ok w'.

Lemma chat_trans w ts1 w1 ts2 ok w' : Chat w ts1 true w1 -> Chat w1 ts2 ok w' -> Chat w (ts1 ++ ts2) ok w'.
Proof.
  intros H. remember true as b eqn:Eb. revert Eb. induction H; intros Eb; try done.
  - intros H'. eapply chat_message; eauto.
  - intros H'. rewrite <- app_assoc. eapply chat_reply; eauto.
Qed.

Lemma chat_one w m w' : R w m true w' -> Chat w [Request m] true w'.
Proof. intros. eapply chat_message; [done|constructor]. Qed.
Lemma chat_said w pieces w' : E w (concat pieces) w' -> Chat w (Reply <$> pieces) true w'.
Proof. intros. rewrite <- (app_nil_r (Reply <$> _)). eapply chat_reply; [done|constructor]. Qed.

End Chats.

Section Any.
Context {os : OS} {W : Type} (cb : callbacks W) (f : proto -> W -> Z -> bytes -> outcome (Z * W)).
Context (g : proto -> W -> list bytes -> outcome (Z * W)).
Context (R : W -> pdu -> bool -> W -> Prop) (E : W -> bytes -> W -> Prop).
(** [I k] holds while the application can take [k] more messages, [J k] after the end. *)
Context (I J : nat -> W -> Prop) (lim : Z).
Hypothesis takes_input : on_input cb = Some f.
Hypothesis takes_output : on_sendv cb = Some g.
Hypothesis enough : ~ scarce lim.
Hypothesis I_mono : forall k w, I (S k) w -> I k w.
Hypothesis J_mono : forall k w, J (S k) w -> J k w.
Hypothesis reports : forall k p w code text,
  I k w -> mode p = PROTO_MODE_TEXT -> 0 <= code < 256 -> zlen text <= 100 ->
  exists r w', proto_output_error cb p w code text = Done (r, p, w') /\ E w (error_line code text) w' /\ I k w'.
Hypothesis helps : forall k p w, I k w -> mode p = PROTO_MODE_TEXT ->
  exists r w', g p w [help_text] = Done (r, w') /\ E w help_text w' /\ 0 < r /\ I k w'.
Hypothesis handles : forall k p w (m : pdu), I (S k) w -> mode p = PROTO_MODE_TEXT ->
  0 <= m.1 < 256 -> zlen m.2 <= lim ->
  exists r w', f p w m.1 m.2 = Done (r, w') /\ R w m (bool_decide (0 < r)) w' /\
    if bool_decide (0 < r) then I k w' else J k w'.

Implicit Types (p : proto) (w : W) (l : list talk).
Abbreviation Chat := (Chat R E).

Lemma text_input_ok k p w l m d :
  I (S k) w -> mode p = PROTO_MODE_TEXT -> 0 <= m < 256 -> zlen d <= lim ->
  exists r w' ms r2, text_input cb p w m d = Done (r, w') /\ Chat w ms (bool_decide (0 < r)) w' /\
    (if bool_decide (0 < r) then I k w' else J k w') /\
    text_input recorder p l m d = Done (r2, l ++ ms) /\ 0 < r2.
Proof using takes_input takes_output I_mono helps handles.
  intros HI Hp Hm Hd. unfold text_input. destruct (m =? PSEUDO_HELP).
  - rewrite takes_output. destruct (helps (S k) p w HI Hp) as (r & w' & E1 & HE & Hr & HI').
    exists r, w', (Reply <$> [help_text]), (zlen (concat [help_text])). rewrite E1, bool_decide_true by done.
    split_and!; [done| |auto| |by vm_compute]; [apply chat_said; cbn [concat]; by rewrite app_nil_r|].
    cbn [on_sendv recorder concat fmap list_fmap]. by rewrite !app_nil_r.
  - rewrite takes_input. destruct (handles k p w (m, d) HI Hp Hm Hd) as (r & w' & E1 & HR & HI'). exists r, w', [Request (m, d)], 1.
    split_and!; [exact E1| |done|done|done]. case_bool_decide; [by eapply chat_one|by eapply chat_end].
Qed.

(** The decoder does the same for the application and for the recorder. *)
Definition in_step (k : nat) (n : Z) (ch : byte) (m : nat) w l (res : outcome (pass W)) (res2 : outcome (pass (list talk))) : Prop :=
  exists r, res = Done r /\
    match r with
    | Again p' w' => text_inv p' /\ (passes_left p' < m)%nat /\ text_load p' <= n /\
        exists ms, Chat w ms true w' /\ I (S k) w' /\ res2 = Done (Again p' (l ++ ms))
    | Ret r p' w' => text_inv p' /\ exists ms r2 p2, Chat w ms (bool_decide (0 < r)) w' /\ res2 = Done (Ret r2 p2 (l ++ ms)) /\
        if bool_decide (0 < r) then r2 = r /\ p2 = p' /\ text_load p' <= (if is_eol ch then 5 else n + 1) /\ I k w' else J k w'
    end.

Lemma end_line_ok k n ch m p w l :
  act_ok lim n ch m (EndLine p) -> I (S k) w -> in_step k n ch m w l (end_line cb p w) (end_line recorder p l).
Proof using takes_input takes_output enough I_mono helps handles.
  intros (Hb & Hst & Hf & He & Hl) HI. destruct (Hb) as (Hm & Hok & H16). unfold end_line. rewrite takes_input.
  cbn [on_input recorder]. destruct (rxbuf_zeropad_ok (rx p) Hok) as (r & rx1 & -> & Hb1 & Hok1 & Hr). ostep.
  assert (Hinv : text_inv (set_rx p rx1)) by (split; [by split_and!|cbn; by rewrite Hst]).
  assert (r = 0) as -> by (destruct Hr as [?|[_ Hr]]; [done|]; exfalso; apply enough; unfold scarce; destruct Hr; [right; lia|by left]).
  cbn [Z.eqb].
  destruct (text_input_ok k (set_rx p rx1) w l (Z.land (hd0 (rx_buf rx1)) 255) (drop 1 (rx_buf rx1)) HI Hm)
    as (ret & w1 & ms & r2 & -> & Hch & HIJ & -> & Hr2).
  { rewrite land_255. unfold u8. apply Z.mod_pos_bound. lia. }
  { rewrite Hb1. unfold zlen in *. rewrite length_drop. lia. }
  ostep. rewrite (proj2 (Z.leb_gt r2 0) Hr2).
  destruct (Z.leb_spec ret 0); eexists; (split; [done|]); cbv beta iota; (split; [done|]); exists ms.
  - rewrite bool_decide_false in * by lia. by eexists _, _.
  - rewrite bool_decide_true in * by lia. eexists _, _. split_and!; try done. by rewrite He.
Qed.

Lemma act_in_step k n ch m a w l :
  act_ok lim n ch m a -> I (S k) w -> in_step k n ch m w l (run_act cb w a) (run_act recorder l a).
Proof.
  intros Ha HI. destruct a as [[r|] p|again p code text|p]; [..|by apply (end_line_ok k n ch)]; cbn [run_act act_ok] in *.
  - destruct Ha as [Hinv Hr]. eexists. split; [done|]. cbv beta iota. split; [done|]. exists [], r, p. rewrite app_nil_r.
    destruct Hr as [[_ Hr]|[-> Hld]]; [done|]. rewrite bool_decide_true by lia. split_and!; [constructor|done|auto..].
  - destruct Ha as (H1 & H2 & H3). eexists. split; [done|]. cbv beta iota. split_and!; try done. exists [].
    rewrite app_nil_r. split_and!; [constructor|done|done].
  - destruct Ha as (Hb & Hc & Hl & Hn & Hag). destruct (reports (S k) p w code text HI (proj1 Hb) Hc Hl) as (r & w' & -> & HE & HI').
    destruct (recorder_reports p l code text (proj1 Hb) Hc Hl) as (r2 & pieces & -> & Hp). rewrite <- Hp in HE.
    ostep. eexists. split; [done|]. destruct again; cbv beta iota.
    + split_and!; [by split|done|done|]. exists (Reply <$> pieces). split_and!; [by apply chat_said|done|done].
    + split; [by split|]. exists (Reply <$> pieces), 1, (set_state p T_BOL). rewrite bool_decide_true by lia.
      split_and!; [by apply chat_said|done|done|done|by rewrite Hag|auto].
Qed.

(** ** Bytes *)

(** A byte was decoded: the line goes on within [n] bytes, or the connection is over. *)
Definition byte_ok (k : nat) (n : Z) w l (res : outcome (Z * proto * W)) (res2 : outcome (Z * proto * list talk)) : Prop :=
  exists r p' w' ms r2 p2, res = Done (r, p', w') /\ text_inv p' /\ Chat w ms (bool_decide (0 < r)) w' /\
    res2 = Done (r2, p2, l ++ ms) /\
    if bool_decide (0 < r) then r2 = r /\ p2 = p' /\ text_load p' <= n /\ I k w' else J k w'.

Lemma passes_ok fuel : forall k n ch p w l,
  text_inv p -> text_load p <= n -> 5 <= n <= lim -> I (S k) w -> (passes_left p <= fuel)%nat ->
  byte_ok k (if is_eol ch then 5 else n + 1) w l (text_passes cb fuel p w ch) (text_passes recorder fuel p l ch).
Proof.
  induction fuel as [|fuel IH]; intros k n ch p w l Hinv Hld Hn HI Hl.
  { unfold passes_left in Hl. destruct (state (t p)); lia. }
  destruct (text_pass_does lim n ch p Hinv Hld Hn) as (a & Ha & Hrun). cbn [text_passes].
  rewrite (Hrun W cb w), (Hrun (list talk) recorder l).
  destruct (act_in_step k n ch (passes_left p) a w l Ha HI) as (res & -> & Hres). ostep.
  destruct res as [p1 w1|r p1 w1].
  - destruct Hres as (Hinv1 & Hlt & Hld1 & ms1 & Hch & HI1 & ->). ostep.
    destruct (IH k n ch p1 w1 (l ++ ms1) Hinv1 Hld1 Hn HI1) as (r & p' & w' & ms & r2 & p2 & -> & H1 & H2 & -> & H3); [lia|].
    exists r, p', w', (ms1 ++ ms), r2, p2. split_and!; try done; [by apply (chat_trans R E w ms1 w1 ms)|by rewrite app_assoc].
  - destruct Hres as (Hinv1 & ms & r2 & p2 & Hch & -> & H3). ostep. by exists r, p1, w1, ms, r2, p2.
Qed.

Lemma text_1ch_ok k n ch p w l :
  text_inv p -> text_load p <= n -> 5 <= n <= lim -> I (S k) w ->
  byte_ok k (if is_eol ch then 5 else n + 1) w l (recv_text_1ch cb p w ch) (recv_text_1ch recorder p l ch).
Proof.
  intros Hinv Hld Hn HI. apply passes_ok; try done. pose proof (text_inv_fmt p Hinv) as Hf.
  unfold passes_left. destruct (state (t p)); try destruct Hf as (_ & _ & Hl); lia.
Qed.

Lemma ready_le n m w : (n <= m)%nat -> I m w -> I n w.
Proof using I_mono. induction 1; auto. Qed.
Lemma ended_le n m w : (n <= m)%nat -> J m w -> J n w.
Proof using J_mono. induction 1; auto. Qed.

(** A call of the decoder ended: it decoded the bytes up to [rest], which is nothing unless the
    connection is over. *)
Definition read_ok (k : nat) (n : Z) w l (net : bytes) (dec : bytes -> outcome (Z * proto * list talk))
    (res : outcome (Z * proto * W)) : Prop :=
  exists r p' w' ms used rest, res = Done (r, p', w') /\ text_inv p' /\ Chat w ms (bool_decide (0 < r)) w' /\
    net = used ++ rest /\ (net <> [] -> used <> []) /\ (exists r2 p2, dec used = Done (r2, p2, l ++ ms) /\ (0 < r -> p2 = p')) /\
    if bool_decide (0 < r) then rest = [] /\ text_load p' <= n /\ I k w' else J k w'.

Lemma text_loop_ok net : forall k n p w l ret,
  text_inv p -> text_load p <= n -> 5 <= n -> short_lines lim n net -> I (length net + k) w ->
  (net = [] -> 0 < ret) -> 0 <= ret ->
  read_ok k lim w l net (fun used => recv_text_loop recorder p l used ret) (recv_text_loop cb p w net ret).
Proof.
  induction net as [|c net IH]; intros k n p w l ret Hinv Hld Hn [Hlim Hsh] HI Hne Hret; cbn [recv_text_loop].
  { exists ret, p, w, [], [], []. rewrite bool_decide_true by auto.
    split_and!; [done|done|apply chat_done|done|done|exists ret, p; by rewrite app_nil_r|done|lia|done]. }
  destruct (text_1ch_ok (length net + k) n c p w l Hinv Hld) as (r & p1 & w1 & ms & r2 & p2 & -> & Hinv1 & Hch & E2 & Hr);
    [lia|done|]. ostep. case_bool_decide as Hr0.
  - destruct (Z.leb_spec r 0); [lia|]. destruct Hr as (-> & -> & Hld1 & HI1).
    destruct (IH k (if is_eol c then 5 else n + 1) p1 w1 (l ++ ms) (ret + r))
      as (r3 & p3 & w3 & ms3 & used & rest & -> & H1 & H2 & -> & _ & (r4 & p4 & H4 & Hp4) & H5); try done;
      [destruct (is_eol c); lia|lia|lia|].
    exists r3, p3, w3, (ms ++ ms3), (c :: used), rest.
    split_and!; [done|done|by apply (chat_trans R E w ms w1 ms3)|done|done| |done]. exists r4, p4. cbn [recv_text_loop]. rewrite E2. ostep.
    rewrite (proj2 (Z.leb_gt r 0) Hr0). by rewrite H4, app_assoc.
  - destruct (Z.leb_spec r 0); [|lia]. exists r, p1, w1, ms, [c], net. rewrite bool_decide_false by lia.
    split_and!; [done|done|done|done|done| |eapply ended_le; [|exact Hr]; lia].
    cbn [recv_text_loop]. rewrite E2. ostep. destruct (r2 <=? 0); eexists _, _; (split; [done|lia]).
Qed.

(** Whatever bytes a text client sends, in lines of at most [lim] bytes, the decoder returns. The
    application was given the messages of the bytes, all of them or up to one that it refused, and
    the replies in between were sent. *)
Lemma recv_text_ok k p w net :
  text_inv p -> net <> [] -> short_lines lim (Z.max 5 (text_load p)) net -> I (length net + k) w ->
  exists r p' w' used rest, recv_text cb p w net = Done (r, p', w') /\ text_inv p' /\ net = used ++ rest /\
    Chat w (text_talk p used) (bool_decide (0 < r)) w' /\
    if bool_decide (0 < r) then rest = [] /\ p' = text_decoder p net /\ text_load p' <= lim /\ I k w' else J k w'.
Proof.
  intros Hinv Hne Hsh HI. unfold recv_text. destruct net as [|c net]; [done|].
  destruct (text_loop_ok (c :: net) k (Z.max 5 (text_load p)) p w [] 0)
    as (r & p' & w' & ms & used & rest & -> & H1 & H2 & H3 & H4 & (r2 & p2 & H5 & Hp2) & H6); try done; [lia..|].
  destruct used as [|c' used]; [by specialize (H4 ltac:(done))|].
  exists r, p', w', (c' :: used), rest. split_and!; try done; [unfold text_talk, recv_text; by rewrite H5|].
  case_bool_decide as Hr; [|done]. destruct H6 as (-> & Hld & HI'). rewrite app_nil_r in H3. split_and!; try done.
  rewrite H3. unfold text_decoder, recv_text. rewrite H5. symmetry. by apply Hp2.
Qed.

End Any.
