(* ===== verification/ProtoLines.v ===== *)
(** * The text protocol: lines that are messages

    ProtoTextAny.v shows that the text decoder survives any bytes; here the bytes are lines of the
    protocol, and the application is given the messages that they stand for, one by one and in
    order, until it refuses one. *)
From S2P Require Import Prelude StoreDefs Rxbuf ProtoDefs ProtoBin ProtoTextOut ProtoTextIn ProtoTextAny.
Local Open Scope infod_scope.

(** The line [l] stands for the message [m]: a word of the command table in upper or lower case,
    or its one-letter alias, then the arguments, which fill the payload as the table says. The
    arguments are spelled and the line is laid out as PROTOCOL allows ([line_of]). The
    pseudo-command HELP is not a message. *)
Definition line_means (l : bytes) (m : pdu) : Prop :=
  exists word name tf args, line_of word args l /\ word <> [] /\ Forall word_char word /\ zlen word <= 15 /\
    lookup_word word = Some (name, m.1, tf) /\ m.1 <> PSEUDO_HELP /\ pack false tf args = Some m.2.

Lemma line_nonempty l m : line_means l m -> 0 < zlen l.
Proof.
  intros (word & name & tf & args & (lead & body & trail & e & rest & -> & _) & _). rewrite !zlen_app, zlen_cons.
  pose proof (zlen_nonneg lead). pose proof (zlen_nonneg word). pose proof (zlen_nonneg body).
  pose proof (zlen_nonneg trail). pose proof (zlen_nonneg rest). lia.
Qed.

Lemma line_id l m : line_means l m -> 0 <= m.1 < 256.
Proof. intros (word & name & tf & args & _ & _ & _ & _ & Hlk & _). apply lookup_good in Hlk as (_ & _ & _ & _ & ? & _). done. Qed.

(** The application takes the messages in turn, up to the first that it refuses. *)
Section Obeying.
Context {W : Type} (R : W -> pdu -> bool -> W -> Prop).
Inductive Obeys (w : W) : list pdu -> bool -> W -> Prop :=
  | obeys_all : Obeys w [] true w
  | obeys_next m ms w1 ok w' : R w m true w1 -> Obeys w1 ms ok w' -> Obeys w (m :: ms) ok w'
  | obeys_end m ms w' : R w m false w' -> Obeys w (m :: ms) false w'.
End Obeying.

Section Lines.
Context {os : OS} {W : Type} (cb : callbacks W) (f : proto -> W -> Z -> bytes -> outcome (Z * W)).
(** No payload is longer than [lim] and no line than [long]. *)
Context (R : W -> pdu -> bool -> W -> Prop) (I J : nat -> W -> Prop) (lim long : Z).
Hypothesis takes_input : on_input cb = Some f.
Hypothesis realloc_succeeds : forall n, realloc_ok n = true.
Hypothesis J_mono : forall k w, J (S k) w -> J k w.
Hypothesis lim_small : lim + long <= 65526.
Hypothesis handles : forall k p w (m : pdu), I (S k) w -> mode p = PROTO_MODE_TEXT -> 0 <= m.1 < 256 -> zlen m.2 <= lim ->
  exists r w', f p w m.1 m.2 = Done (r, w') /\ R w m (bool_decide (0 < r)) w' /\
    if bool_decide (0 < r) then I k w' else J k w'.
Implicit Types (p : proto) (w : W) (ms : list pdu).

(** The decoder is at the beginning of a line. *)
Definition at_bol p : Prop := base p /\ state (t p) = T_BOL.

Lemma ended_after n k w : J (n + k) w -> J k w.
Proof. induction n as [|n IH]; [done|]. intros H. by apply IH, J_mono. Qed.

Lemma lines_decode lines : forall ms k p w ret,
  at_bol p -> Forall2 line_means lines ms -> Forall (fun m : pdu => zlen m.2 <= lim) ms ->
  Forall (fun l => zlen l <= long) lines -> I (length ms + k) w ->
  0 < ret + zlen (concat lines) -> 0 <= ret ->
  exists r p' w', recv_text_loop cb p w (concat lines) ret = Done (r, p', w') /\ base p' /\
    Obeys R w ms (bool_decide (0 < r)) w' /\
    if bool_decide (0 < r) then at_bol p' /\ I k w' else J k w'.
Proof.
  induction lines as [|l lines IH]; intros ms k p w ret [Hb Hst] Hls Hsz Hlong HI Hpos Hret;
    inversion Hls as [|? m ? ms' Hm Hms]; subst.
  { cbn in *. exists ret, p, w. rewrite bool_decide_true by (unfold zlen in *; cbn in *; lia). split_and!; try done. constructor. }
  apply Forall_cons in Hsz as [Hl Hsz]. apply Forall_cons in Hlong as [Hll Hlong]. cbn [concat length Nat.add] in *. rewrite zlen_app in Hpos.
  pose proof (line_nonempty l m Hm) as Hpos1. pose proof (line_id l m Hm) as Hid.
  destruct Hm as (word & name & tf & args & Hof & Hne & Hw & Hwl & Hlk & Hh & Hp).
  pose proof (lookup_good _ _ Hlk) as (_ & _ & _ & _ & _ & Hnb & Htf & _).
  destruct (line_calls cb f takes_input realloc_succeeds p w word name m.1 tf args m.2 l) as (q & Hq & Hc); try done; [lia|].
  destruct (handles (length ms' + k) q w m HI (proj1 Hq) Hid Hl) as (a & w1 & Ea & HR & Hend).
  destruct (Hc a w1 Ea) as [Hgo Hstop]. case_bool_decide as Ha.
  - rewrite (Hgo Ha). destruct (IH ms' k (set_state q T_BOL) w1 (ret + zlen l))
      as (r & p' & w' & E & H1 & H2 & H3); try done; [lia| |].
    { pose proof (zlen_nonneg (concat lines)). lia. }
    exists r, p', w'. split_and!; try done. by eapply obeys_next.
  - rewrite Hstop by lia. exists a, q, w1. rewrite bool_decide_false by done.
    split_and!; [done|done|by apply obeys_end|by eapply ended_after].
Qed.

End Lines.

(** What [text_talk] makes of such lines is the messages that they stand for, and no replies. *)
Lemma lines_talk {os : OS} p lines ms :
  (forall n, realloc_ok n = true) -> at_bol p -> Forall2 line_means lines ms -> lines <> [] ->
  Forall (fun m : pdu => zlen m.2 <= 32000) ms -> Forall (fun l => zlen l <= 32000) lines ->
  text_talk p (concat lines) = Request <$> ms.
Proof.
  intros Hr Hb Hls Hne Hsz Hlong.
  assert (Hpos : 0 < zlen (concat lines)).
  { destruct Hls as [|l m ls ms Hl _]; [done|]. cbn [concat]. apply line_nonempty in Hl. rewrite zlen_app.
    pose proof (zlen_nonneg (concat ls)). lia. }
  destruct (lines_decode recorder _ (fun l m ok l' => ok = true /\ l' = l ++ [Request m]) (fun _ _ => True) (fun _ _ => False) 32000 32000
    eq_refl Hr) with (lines := lines) (ms := ms) (k := 0%nat) (p := p) (w := @nil talk) (ret := 0)
    as (r & p' & l & E & _ & Hob & Hend); try done.
  { intros k q l m _ _ _ _. by exists 1, (l ++ [Request (m.1, m.2)]); destruct m. }
  assert (Hl : forall l1 ms ok l2, Obeys (fun l m ok l' => ok = true /\ l' = l ++ [Request m]) l1 ms ok l2 -> l2 = l1 ++ (Request <$> ms)).
  { clear. induction 1 as [l1|l1 m ms l2 ok l3 [_ ->] _ ->|l1 m ms l2 [? _]]; [by rewrite app_nil_r|by rewrite <- app_assoc|done]. }
  apply Hl in Hob as ->. unfold text_talk, recv_text. destruct (concat lines); [done|]. by rewrite E.
Qed.
