(* ===== verification/ProtoText.v ===== *)
(** * The text protocol: round trips and safety

    What the encoder writes the decoder reads back; the decoder is safe for any application that
    returns; and a record that is too long overruns the encoder's buffer. *)
From S2P Require Import Prelude StoreDefs Rxbuf ProtoDefs ProtoBin ProtoTextOut ProtoTextIn ProtoTextAny.
Local Open Scope infod_scope.

(** What is packed is not much longer than what is printed. *)
Lemma pack_length tf : forall opt args d,
  Forall wf_targ args -> pack opt tf args = Some d -> zlen d <= zlen (printed args) + zlen tf.
Proof.
  induction tf as [|c tf IH]; intros opt args d Hwf Hp; cbn [pack] in Hp.
  { destruct args; [|done]. injection Hp as <-. done. }
  rewrite zlen_cons. pose proof (zlen_nonneg tf). destruct (c =? 124).
  { specialize (IH true args d Hwf Hp). lia. }
  destruct args as [|a args]; [destruct opt; [|done]; injection Hp as <-; cbn; lia|].
  destruct (c =? 48).
  { destruct (pack opt tf (a :: args)) as [d0|] eqn:E; [|done]. injection Hp as <-.
    specialize (IH opt (a :: args) d0 Hwf E). rewrite zlen_cons. lia. }
  apply Forall_cons in Hwf as [Ha Hwf]. rewrite printed_cons, !zlen_app, zlen_one.
  destruct (pack opt tf args) as [d0|] eqn:E; [|by destruct a, (c =? 105), (c =? 116)].
  specialize (IH opt args d0 Hwf E). destruct a as [n|star s].
  - destruct (c =? 105); [|done]. injection Hp as <-. rewrite zlen_cons. cbn [print_targ].
    pose proof (zlen_print_byte n Ha). lia.
  - destruct (c =? 116); [|done]. injection Hp as <-. rewrite zlen_app. cbn [print_targ].
    pose proof (zlen_quote s). lia.
Qed.

(** ** Round trips *)

Section Roundtrip.
(** The receiver takes every message; the sender's network takes every byte. *)
Context {os : OS} {W V : Type} (cb : callbacks W) (cb' : callbacks V).
Context (serve : W -> Z -> bytes -> W) (answer : W -> Z -> bytes -> Z).
Context (f : proto -> W -> Z -> bytes -> outcome (Z * W)) (out : V -> bytes -> V).
Hypothesis takes_input : on_input cb = Some f.
Hypothesis accepts : forall p w m d, f p w m d = Done (answer w m d, serve w m d).
Hypothesis answers : forall w m d, 0 < answer w m d.
Hypothesis realloc_succeeds : forall n, realloc_ok n = true.
Hypothesis peer : stream_peer cb' 0 (fun v b v' => v' = out v b).

Lemma peer_total p v iov : exists r v', sendv cb' p v iov = Done (r, v').
Proof. destruct (peer_takes _ _ _ peer p v iov) as (r & v' & -> & _). eauto. Qed.

Lemma recv_line p w word name id tf args d :
  base p -> state (t p) = T_BOL -> good_entry (word, id, tf) -> lookup_word word = Some (name, id, tf) ->
  id <> PSEUDO_HELP -> pack false tf args = Some d -> Forall wf_targ args ->
  zlen (text_line word args) <= 4095 ->
  exists ret p', proto_recv cb p w (text_line word args) 0 = Done (ret, p', serve w id d) /\
    0 < ret /\ base p' /\ state (t p') = T_BOL.
Proof.
  intros Hbase Hst (_ & Hne & Hw & Hwl & Hid & Hnb & Htf & _) Hlk Hh Hp Hwf Hl.
  assert (Hd : zlen d + zlen (text_line word args) <= 65526).
  { pose proof (pack_length _ _ _ _ Hwf Hp) as Hd. pose proof Hl as Hl'. unfold text_line in Hl. fold (printed args) in Hl.
    rewrite !zlen_app in Hl. pose proof (zlen_nonneg word). change (zlen CRLF) with 2 in Hl.
    assert (zlen tf <= 4) by (unfold zlen; lia). lia. }
  destruct (line_fed cb f takes_input realloc_succeeds serve answer accepts answers
    p w word name id tf args d) as (p' & Hfed & Hbase' & Hst'); try done.
  assert (Hc : exists c l, text_line word args = c :: l).
  { unfold text_line. destruct word as [|c word]; [done|]. by eexists _, _. }
  destruct Hc as (c & l & Hc). specialize (Hfed 0 []). rewrite app_nil_r in Hfed.
  exists (0 + zlen (text_line word args)), p'. split_and!; [| |done|done].
  - rewrite Hc, proto_recv_text by apply Hbase. rewrite <- Hc. unfold recv_text.
    rewrite Hc. rewrite <- Hc. by rewrite Hfed.
  - rewrite Hc, zlen_cons. pose proof (zlen_nonneg l). lia.
Qed.

(** C19: a message that [proto_output] sends in text mode, of any kind in the command table but
    HELP and with any arguments that fit it, on a line of at most 4095 bytes, comes out of the
    decoder of a peer that has memory as the same message with the bytes its arguments have in the
    binary protocol, and the decoder is ready for the next line. Longer lines are the subject of
    [text_overflow]. *)
Theorem text_roundtrip q v p w msg word tf args d :
  entry_of msg = Some (word, msg, tf) -> msg <> PSEUDO_HELP -> pack false tf args = Some d ->
  Forall wf_targ args -> star_ok tf args -> zlen (text_line word args) <= 4095 ->
  mode q = PROTO_MODE_TEXT -> base p -> state (t p) = T_BOL ->
  exists r ret p', proto_output cb' q v msg (spell tf args).1 (spell tf args).2 =
      Done (r, q, out v (text_line word args)) /\ 0 <= r /\
    proto_recv cb p w (text_line word args) 0 = Done (ret, p', serve w msg d) /\ 0 < ret /\
    base p' /\ state (t p') = T_BOL.
Proof.
  intros He Hh Hp Hwf Hst Hl Hq Hbase Hs.
  destruct (output_text_ok cb' peer_total 0 (fun v b v' => v' = out v b) q v msg word msg tf args d He Hp Hwf Hst Hl)
    as (r & v' & Eo & Ho). destruct (Ho peer) as [Hr ->].
  destruct (entry_good _ _ _ _ He) as [_ Hg].
  destruct (recv_line p w word word msg tf args d) as (ret & p' & Er & Hret & Hb & Hs'); try done;
    [apply Hg|].
  exists r, ret, p'. split_and!; try done. rewrite proto_output_mode by (by rewrite Hq).
  rewrite Hq. cbn [Z.eqb]. change (PROTO_MODE_TEXT =? PROTO_MODE_BINARY) with false.
  change (PROTO_MODE_TEXT =? PROTO_MODE_TEXT) with true. cbv iota. by rewrite Eo.
Qed.

(** C20: a record [key\0value] whose line has at most 4095 bytes, sent with one [%*s] the way the
    daemon sends INFO messages, comes out of the decoder of a peer that has memory unchanged,
    whatever bytes the value consists of. Longer lines are the subject of [text_overflow]. *)
Theorem text_roundtrip_record q v p w k x :
  nul_free k -> zlen (text_line $"INFO" [TT true k; TT true x]) <= 4095 ->
  mode q = PROTO_MODE_TEXT -> base p -> state (t p) = T_BOL ->
  exists r ret p', proto_output cb' q v MSG_INFO $"%*s"
        [AInt (zlen (k ++ 0 :: x)); APtr (k ++ 0 :: x)] =
      Done (r, q, out v (text_line $"INFO" [TT true k; TT true x])) /\ 0 <= r /\
    proto_recv cb p w (text_line $"INFO" [TT true k; TT true x]) 0 =
      Done (ret, p', serve w MSG_INFO (k ++ 0 :: x)) /\ 0 < ret.
Proof.
  intros Hk Hl Hq Hbase Hs.
  assert (He : entry_of MSG_INFO = Some ($"INFO", MSG_INFO, $"t|0t")) by (vm_compute; reflexivity).
  destruct (output_record_ok cb' peer_total 0 (fun v b v' => v' = out v b) q v MSG_INFO _ _ k x He Hk Hl) as (r & v' & Eo & Ho).
  destruct (Ho peer) as [Hr ->]. destruct (entry_good _ _ _ _ He) as [_ Hg].
  assert (Hargs : Forall wf_targ [TT true k; TT true x]).
  { unfold text_line in Hl. cbn [fmap list_fmap concat print_targ app] in Hl.
    rewrite !zlen_app, zlen_cons, !zlen_app in Hl. rewrite zlen_cons, zlen_app, zlen_nil in Hl.
    pose proof (zlen_quote k). pose proof (zlen_quote x). pose proof (zlen_nonneg k).
    pose proof (zlen_nonneg x). change (zlen $"INFO") with 4 in Hl. change (zlen CRLF) with 2 in Hl.
    repeat constructor; done || lia. }
  assert (Hp : pack false $"t|0t" [TT true k; TT true x] = Some (k ++ 0 :: x)).
  { cbn. by rewrite app_nil_r. }
  destruct (recv_line p w $"INFO" $"INFO" MSG_INFO $"t|0t" [TT true k; TT true x] (k ++ 0 :: x)
    Hbase Hs Hg (proj1 Hg) ltac:(done) Hp Hargs Hl) as (ret & p' & Er & Hret & _).
  exists r, ret, p'. split_and!; try done. rewrite proto_output_mode by (by rewrite Hq).
  rewrite Hq. change (PROTO_MODE_TEXT =? PROTO_MODE_BINARY) with false.
  change (PROTO_MODE_TEXT =? PROTO_MODE_TEXT) with true. cbv iota. by rewrite Eo.
Qed.

End Roundtrip.

(** ** The decoder survives any input *)

Section Safety.
Context {os : OS} {W : Type} (cb : callbacks W).
Hypothesis sendv_total : forall p w iov, exists r w', sendv cb p w iov = Done (r, w').
Hypothesis input_total : forall f, on_input cb = Some f ->
  forall p w m d, exists r w', f p w m d = Done (r, w').

(** Every action of a pass ends. *)
Lemma act_total lim n ch m a w : act_ok lim n ch m a ->
  exists r, run_act cb w a = Done r /\
    match r with Again p' _ => text_inv p' /\ (passes_left p' < m)%nat | Ret _ p' _ => text_inv p' end.
Proof.
  destruct a as [[r|] p|again p code text|p]; cbn [run_act act_ok].
  - intros [Hinv _]. by eexists.
  - intros (Hinv & Hm & _). by eexists.
  - intros (Hb & Hc & Hl & _ & Hag).
    destruct (error_total cb 0 (fun _ _ _ => True) sendv_total p w code text (proj1 Hb) Hc Hl) as (r & w' & -> & _). ostep.
    eexists. split; [done|]. destruct again; [split; [by split|done]|by split].
  - intros (Hb & Hst & Hf & _ & _). destruct (Hb) as (Hm & Hok & H16). unfold end_line.
    assert (Hg : on_input cb = None \/ exists g, on_input cb = Some g) by (clear; destruct (on_input cb); eauto).
    destruct Hg as [Eg|[g Eg]]; rewrite Eg; [eexists; (split; [done|by split])|].
    destruct (rxbuf_zeropad_ok (rx p) Hok) as (r & rx1 & -> & Hb1 & Hok1 & _). ostep.
    assert (Hinv : text_inv (set_rx p rx1)) by (split; [by split_and!|cbn; by rewrite Hst]).
    destruct (r =? -1); [by eexists|]. unfold text_input. rewrite Eg.
    set (d := drop 1 _). set (id := Z.land _ _).
    assert (Hin : exists r w', (if id =? PSEUDO_HELP then match on_sendv cb with Some f => f (set_rx p rx1) w [help_text] | None => Done (1, w) end
      else g (set_rx p rx1) w id d) = Done (r, w')).
    { destruct (id =? PSEUDO_HELP); [|by apply input_total]. pose proof (sendv_total (set_rx p rx1) w [help_text]) as Hs.
      unfold sendv in Hs. destruct (on_sendv cb); [done|eauto]. }
    destruct Hin as (r2 & w' & ->). ostep. destruct (r2 <=? 0); eexists; (split; [done|first [done|by split]]).
Qed.

Lemma passes_safe fuel : forall p w ch, text_inv p -> (passes_left p <= fuel)%nat ->
  exists r p' w', text_passes cb fuel p w ch = Done (r, p', w') /\ text_inv p'.
Proof.
  induction fuel as [|fuel IH]; intros p w ch Hinv Hl; [unfold passes_left in Hl; destruct (state (t p)); lia|].
  set (n := Z.max 5 (text_load p)). destruct (text_pass_does n n ch p Hinv) as (a & Ha & Hrun); [lia..|].
  cbn [text_passes]. rewrite (Hrun W cb w). destruct (act_total n n ch _ a w Ha) as (res & -> & Hres). ostep.
  destruct res as [p1 w1|r p1 w1]; [|eauto]. destruct Hres as [Hinv1 Hlt]. apply IH; [done|lia].
Qed.

Lemma byte_safe p w ch : text_inv p -> exists r p' w', recv_text_1ch cb p w ch = Done (r, p', w') /\ text_inv p'.
Proof.
  intros Hinv. apply passes_safe; [done|]. pose proof (text_inv_fmt p Hinv) as Hf.
  unfold passes_left. destruct (state (t p)); try destruct Hf as (_ & _ & Hl); lia.
Qed.

Lemma loop_safe net : forall p w ret, text_inv p ->
  exists r p' w', recv_text_loop cb p w net ret = Done (r, p', w') /\ text_inv p'.
Proof.
  induction net as [|c net IH]; intros p w ret Hinv; cbn [recv_text_loop]; [eauto|].
  destruct (byte_safe p w c Hinv) as (r & p1 & w1 & -> & Hinv1). ostep. destruct (r <=? 0); [eauto|by apply IH].
Qed.

(** C21: whatever bytes a text client sends, and whether or not memory can be had, the decoder
    returns: it never leaves its buffers, never aborts, never loops, and keeps its invariant.
    Every byte is decoded in a bounded number of passes. *)
Theorem text_decoder_safe p w net :
  text_inv p -> exists r p' w', recv_text cb p w net = Done (r, p', w') /\ text_inv p'.
Proof.
  intros Hinv. unfold recv_text. destruct net as [|c net]; [|by apply loop_safe].
  destruct (byte_safe p w 10 Hinv) as (r & p1 & w1 & -> & Hinv1). ostep. destruct (r =? -1); [eauto|].
  assert (Hg : on_input cb = None \/ exists g, on_input cb = Some g) by (clear; destruct (on_input cb); eauto).
  destruct Hg as [Eg|[g Eg]]; rewrite Eg; [eauto|].
  destruct (input_total g Eg p1 w1 MSG_EOF []) as (r2 & w2 & ->). ostep. eauto.
Qed.

End Safety.

(** ** Lines that overrun the output buffer *)

Section Overflow.
Context {W : Type} (cb : callbacks W).

Definition plain (s : bytes) : Prop := Forall (fun c => needs_escape c = false) s.

Lemma putc_plain p ob w c :
  zlen ob + 1 < 4096 -> outbuf_putc cb p ob w c = Done (0, ob ++ [c], w).
Proof.
  intros Hl. unfold outbuf_putc, OUTBUF_SIZE. destruct (Z.ltb_spec (zlen ob) 4096); [|lia].
  rewrite zlen_app, zlen_one. by destruct (Z.eqb_spec (zlen ob + 1) 4096); [lia|].
Qed.

Lemma string_plain p ob w s :
  plain s -> zlen ob + zlen s + 2 < 4096 ->
  output_text_string cb p ob w s = Done (0, (ob ++ [34]) ++ s ++ [34], w).
Proof.
  intros Hs Hl. pose proof (zlen_nonneg s). pose proof (zlen_nonneg ob). unfold output_text_string.
  destruct (Z.ltb_spec 0xffff (zlen s)); [lia|]. rewrite putc_plain by lia. ostep. cbn [Z.eqb].
  rewrite <- (app_nil_r s) at 1. rewrite chars_plain by (done || rewrite zlen_app, zlen_one; lia).
  cbn [output_text_chars]. ostep. cbn [Z.eqb].
  rewrite putc_plain by (rewrite !zlen_app, zlen_one; lia). by rewrite <- !app_assoc.
Qed.

(** C35: sending a text client a record whose value has a byte to escape in the last four bytes
    of the 4096-byte output buffer writes past the end of the buffer: the space that is left
    is computed with the size of a [size_t] in place of the size of the buffer. *)
Theorem text_overflow p w k v1 c v2 :
  mode p = PROTO_MODE_TEXT -> nul_free k -> plain k -> plain v1 -> needs_escape c = true ->
  4083 <= zlen k + zlen v1 <= 4086 -> zlen (v1 ++ c :: v2) <= 65535 ->
  proto_output cb p w MSG_INFO $"%*s"
    [AInt (zlen (k ++ 0 :: v1 ++ c :: v2)); APtr (k ++ 0 :: v1 ++ c :: v2)] = Crash OutOfBounds.
Proof.
  intros Hm Hk Hpk Hpv Hc Hl Hv. rewrite proto_output_mode by (by rewrite Hm). rewrite Hm.
  change (PROTO_MODE_TEXT =? PROTO_MODE_BINARY) with false.
  change (PROTO_MODE_TEXT =? PROTO_MODE_TEXT) with true. cbv iota.
  pose proof (zlen_nonneg k). pose proof (zlen_nonneg v1).
  assert (He : entry_of MSG_INFO = Some ($"INFO", MSG_INFO, $"t|0t")) by (vm_compute; reflexivity).
  unfold output_text. unfold entry_of in He. rewrite He.
  change (proto_outbuf cb p [] w $"INFO") with (@Done (Z * bytes * W) (0, $"INFO", w)). ostep. cbn [Z.eqb].
  change $"%*s" with [37; 42; 115]. change $"t|0t" with (116 :: $"|0t").
  cbn [output_text_args Z.eqb Pos.eqb negb hd0 next_tfmt].
  rewrite putc_plain by done. ostep. cbn [Z.eqb va_int]. ostep. cbn [va_ptr]. ostep.
  rewrite mread_all. ostep. unfold output_star.
  rewrite (bool_decide_true (0 ∈ k ++ _)) by set_solver. cbn [blank]. unfold bytes_eqb.
  rewrite bool_decide_true by done. cbn [andb]. rewrite cstr_app_nul by done.
  replace (drop (S (length k)) (k ++ 0 :: v1 ++ c :: v2)) with (v1 ++ c :: v2)
    by (rewrite drop_app_ge by lia; by replace (S (length k) - length k)%nat with 1%nat by lia).
  set (ob1 := $"INFO" ++ [32]). assert (Hob1 : zlen ob1 = 5) by done.
  rewrite string_plain by (done || lia). ostep. cbn [Z.eqb].
  set (ob2 := (ob1 ++ [34]) ++ k ++ [34]).
  assert (Hob2 : zlen ob2 = 7 + zlen k) by (unfold ob2; rewrite !zlen_app, !zlen_one; lia).
  rewrite putc_plain by lia. ostep. cbn [Z.eqb]. unfold output_text_string.
  destruct (Z.ltb_spec 0xffff (zlen (v1 ++ c :: v2))); [lia|].
  rewrite putc_plain by (rewrite zlen_app, zlen_one; lia). ostep. cbn [Z.eqb].
  set (ob3 := (ob2 ++ [32]) ++ [34]).
  assert (Hob3 : zlen ob3 = 9 + zlen k) by (unfold ob3; rewrite !zlen_app, !zlen_one; lia).
  rewrite chars_plain by (done || lia).
  rewrite escape_over; [done|rewrite zlen_app; lia|done].
Qed.

End Overflow.

(** ** Witnesses *)

(** A network that keeps what it is sent. *)
Definition wire_cb : callbacks bytes :=
  mk_callbacks None (Some (fun _ v iov => Done (0, v ++ concat iov))) None.

Lemma wire_peer : stream_peer wire_cb 0 (fun v b v' => v' = v ++ b).
Proof.
  split; [|by intros; subst; rewrite app_assoc|intros; by rewrite app_nil_r].
  intros p v iov. by exists 0, (v ++ concat iov).
Qed.

Lemma demo_base : base (demo_proto PROTO_MODE_TEXT).
Proof. split_and!; [done|apply demo_rx|done]. Qed.

Lemma text_roundtrip_witness :
  exists r ret p', proto_output wire_cb (demo_proto 2) [] CMD_HELLO $"%c%s" [AInt 17; APtr ([97; 34] ++ [0])] =
      Done (r, demo_proto 2, $"HELLO 17 " ++ [34; 97; 92; 48; 52; 50; 34; 13; 10]) /\ 0 <= r /\
    proto_recv log_cb (demo_proto 2) [] ($"HELLO 17 " ++ [34; 97; 92; 48; 52; 50; 34; 13; 10]) 0 =
      Done (ret, p', [(0, [17; 97; 34])]) /\ 0 < ret /\ base p' /\ state (t p') = T_BOL.
Proof.
  apply (text_roundtrip (os:=quiet_os) log_cb wire_cb (fun w m d => w ++ [(m, d)]) (fun _ _ _ => 1)
    log_message (fun v b => v ++ b) eq_refl (fun _ _ _ _ => eq_refl) (fun _ _ _ => eq_refl)
    (fun _ => eq_refl) wire_peer (demo_proto 2) [] (demo_proto 2) [] CMD_HELLO $"HELLO" $"i|t"
    [TI 17; TT false [97; 34]] [17; 97; 34]); try reflexivity.
  - discriminate.
  - repeat constructor; vm_compute; congruence.
  - vm_compute. intuition discriminate.
  - vm_compute. discriminate.
  - apply demo_base.
Defined.

Lemma text_roundtrip_record_witness :
  exists r ret p', proto_output wire_cb (demo_proto 2) [] MSG_INFO $"%*s" [AInt 4; APtr [107; 0; 10; 0]] =
      Done (r, demo_proto 2, text_line $"INFO" [TT true [107]; TT true [10; 0]]) /\ 0 <= r /\
    proto_recv log_cb (demo_proto 2) [] (text_line $"INFO" [TT true [107]; TT true [10; 0]]) 0 =
      Done (ret, p', [(129, [107; 0; 10; 0])]) /\ 0 < ret.
Proof.
  apply (text_roundtrip_record (os:=quiet_os) log_cb wire_cb (fun w m d => w ++ [(m, d)]) (fun _ _ _ => 1)
    log_message (fun v b => v ++ b) eq_refl (fun _ _ _ _ => eq_refl) (fun _ _ _ => eq_refl)
    (fun _ => eq_refl) wire_peer (demo_proto 2) [] (demo_proto 2) [] [107] [10; 0]); try reflexivity.
  - repeat constructor. discriminate.
  - vm_compute. discriminate.
  - apply demo_base.
Defined.

Lemma text_decoder_safe_witness :
  exists r p' w', recv_text log_cb (demo_proto 2) [] $"write " = Done (r, p', w') /\ text_inv p'.
Proof.
  apply (text_decoder_safe (os:=quiet_os) log_cb).
  - intros p w iov. by exists 0, w.
  - intros f [= <-] p w m d. by eexists _, _.
  - split; [apply demo_base|exact I].
Defined.

Lemma text_overflow_witness :
  proto_output wire_cb (demo_proto 2) [] MSG_INFO $"%*s"
    [AInt (zlen ([107] ++ 0 :: replicate 4083 97 ++ 10 :: [])); APtr ([107] ++ 0 :: replicate 4083 97 ++ 10 :: [])] =
    Crash OutOfBounds.
Proof.
  apply (text_overflow wire_cb (demo_proto 2) [] [107] (replicate 4083 97) 10 []); try reflexivity.
  - repeat constructor. discriminate.
  - repeat constructor.
  - apply Forall_replicate. reflexivity.
  - vm_compute. intuition discriminate.
  - vm_compute. discriminate.
Defined.
