(* ===== verification/Infod.v ===== *)
(** * The daemon: definitions (src/daemon/infod.c, list.h)

    The daemon keeps a store and a list of clients. A client's translator calls [on_app_input]
    with every message it decodes; the handler reads or changes the store and writes messages
    to sockets. The daemon is parametrised by a store with the interface [KVStore] and by the
    kernel's side of the sockets, [Net].

    A client is referred to by its socket's file descriptor, where the source has a pointer.
    Its translator is an object that [proto_recv] and the handler share: [on_app_input] first
    puts the translator it is called with into the client's record. The messages of the log
    are not modelled. *)
From S2P Require Import Prelude Match StoreDefs StoreLayout StoreTheorems Rxbuf ProtoDefs.
Import Match.
Local Open Scope infod_scope.

Definition MAX_SUBS : Z := 16.
Definition MAX_BUFCMDS : Z := 32.

(** What the daemon did to its sockets: the bytes a [writev] got rid of, [shutdown(SHUT_RD)]. *)
Inductive event := Sent (fd : Z) (b : bytes) | ShutdownRead (fd : Z).

#[export] Instance event_eq_dec : EqDecision event.
Proof. solve_decision. Defined.

(** The kernel and the allocator: the result of a [writev] (a count, or -1), whether a
    [malloc] succeeds, the text of the last error, all given what has happened so far. *)
Class Net := {
  writev : list event -> Z -> bytes -> Z;
  malloc_ok : list event -> Z -> bool;
  strerror : list event -> bytes
}.

(** [sizeof] of the structures (LP64). *)
Definition sizeof_subscription : Z := 24.
Definition sizeof_bufcmd : Z := 24.
Definition sizeof_client : Z := 80.
Definition sizeof_proto : Z := 112.

(** [struct client]. The lists are in the order of their links: subscriptions are inserted at
    the head, buffered commands (a message and its data) appended at the tail. [bufcmd_tail]
    counts the links from [&client->bufcmds] to the link it points to. *)
Record client := mk_client {
  c_fd : Z;
  c_proto : proto;
  nsubs : Z;
  nbufcmds : Z;
  begins : Z;
  subs : list bytes;
  bufcmds : list (Z * bytes);
  bufcmd_tail : nat
}.

Definition set_proto (c : client) (p : proto) : client :=
  mk_client (c_fd c) p (nsubs c) (nbufcmds c) (begins c) (subs c) (bufcmds c) (bufcmd_tail c).
Definition set_subs (c : client) (n : Z) (l : list bytes) : client :=
  mk_client (c_fd c) (c_proto c) n (nbufcmds c) (begins c) l (bufcmds c) (bufcmd_tail c).
Definition set_begins (c : client) (n : Z) : client :=
  mk_client (c_fd c) (c_proto c) (nsubs c) (nbufcmds c) n (subs c) (bufcmds c) (bufcmd_tail c).
Definition set_bufcmds (c : client) (l : list (Z * bytes)) (tail : nat) : client :=
  mk_client (c_fd c) (c_proto c) (nsubs c) (nbufcmds c) (begins c) (subs c) l tail.

(** [subscription_new] and [bufcmd_new] copy their argument, if there is memory. *)
Definition subscription_new {net : Net} (ev : list event) (pattern : bytes) : option bytes :=
  if malloc_ok ev (sizeof_subscription + zlen pattern + 1) then Some pattern else None.
Definition bufcmd_new {net : Net} (ev : list event) (msg : Z) (data : bytes) : option (Z * bytes) :=
  if malloc_ok ev (sizeof_bufcmd + zlen data + 1) then Some (msg, data) else None.

(** A new client; [junk] is what [malloc] left in the text decoder and the tail pointer. *)
Definition client_new {net : Net} (ev : list event) (fd : Z) (junk : textproto * nat)
    : option client :=
  if malloc_ok ev sizeof_client && malloc_ok ev sizeof_proto
  then Some (mk_client fd (proto_new junk.1) 0 0 0 [] [] junk.2) else None.

(** [memchr(data, 0, datalen)] *)
Definition contains_nul (data : bytes) : bool := bool_decide (0 ∈ data).

(** The key ends with an exclamation mark. *)
Definition is_ephemeral (data : bytes) : bool :=
  contains_nul data && match last (cstr data) with Some c => c =? 33 | None => false end.

(** The subscription with this pattern: its place in the list. *)
Fixpoint client_find_subscription (l : list bytes) (pattern : bytes) : option nat :=
  match l with
  | [] => None
  | sub :: l' => if bool_decide (sub = pattern) then Some O
                 else S <$> client_find_subscription l' pattern
  end.

(** [APPEND(p, tailp)] of list.h: the tail must point to a null link. *)
Definition APPEND {A} (l : list A) (tail : nat) (x : A) : outcome (list A * nat) :=
  if (tail <? length l)%nat then Crash Aborted
  else if (tail =? length l)%nat then Done (l ++ [x], S tail)
  else Crash OutOfBounds.

(** [%02x] *)
Definition hex_digit (n : Z) : byte := if n <? 10 then 48 + n else 87 + n.
Definition hex2 (n : Z) : bytes := [hex_digit (n / 16); hex_digit (n mod 16)].

Section Daemon.
Context {os : OS} {net : Net} {ST : Type} {KV : KVStore ST}.

(** The globals of infod.c. [all_clients] has the newest client first. *)
Record daemon := mk_daemon {
  the_store : ST;
  all_clients : list client;
  events : list event
}.

Definition set_store (d : daemon) (s : ST) : daemon := mk_daemon s (all_clients d) (events d).
Definition set_clients (d : daemon) (l : list client) : daemon := mk_daemon (the_store d) l (events d).
Definition log (d : daemon) (e : event) : daemon :=
  mk_daemon (the_store d) (all_clients d) (events d ++ [e]).

(** Reading and writing through a [struct client *]. *)
Definition get_client (d : daemon) (fd : Z) : outcome client :=
  of_option NullDeref (find (fun c => c_fd c =? fd) (all_clients d)).
Definition upd_client (d : daemon) (fd : Z) (f : client -> client) : daemon :=
  set_clients d ((fun c => if c_fd c =? fd then f c else c) <$> all_clients d).

(** ** Upcalls of the translator *)

(** Protocol output goes straight to the socket, which may take a part of it. *)
Definition on_net_sendv (fd : Z) (p : proto) (d : daemon) (iovs : list bytes) : outcome (Z * daemon) :=
  let r := writev (events d) fd (concat iovs) in
  Done (r, if r <? 0 then d else log d (Sent fd (take (Z.to_nat r) (concat iovs)))).

(** [shutdown_read(fd)] *)
Definition shutdown_read (d : daemon) (fd : Z) : daemon := log d (ShutdownRead fd).

Definition on_proto_error (p : proto) (d : daemon) (err : errno) (tag : bytes) : daemon := d.

(** The callbacks that an output uses. *)
Definition send_cb (fd : Z) : callbacks daemon :=
  mk_callbacks None (Some (on_net_sendv fd)) (Some on_proto_error).

(** [proto_output(c->proto, msg, fmt, ...)] *)
Definition client_output (d : daemon) (fd : Z) (msg : Z) (fmt : bytes) (ap : list arg)
    : outcome (Z * daemon) :=
  c ← get_client d fd;
  '(r, p, d1) ← proto_output (send_cb fd) (c_proto c) d msg fmt ap;
  Done (r, upd_client d1 fd (fun c => set_proto c p)).

(** [proto_output_error(c->proto, code, ...)] *)
Definition client_error (d : daemon) (fd : Z) (code : Z) (text : bytes) : outcome (Z * daemon) :=
  c ← get_client d fd;
  '(r, p, d1) ← proto_output_error (send_cb fd) (c_proto c) d code text;
  Done (r, upd_client d1 fd (fun c => set_proto c p)).

(** ** Commands *)

(** Sends every matching record of the store to a new subscriber. The loop ends with the
    records: [kv_size] turns are enough. *)
Fixpoint sub_loop (fuel : nat) (d : daemon) (fd : Z) (pattern : bytes) (ix : nat)
    : outcome (Z * daemon) :=
  '(info, ix') ← kv_next (the_store d) ix;
  match info with
  | None => Done (1, d)
  | Some kv =>
      match fuel with
      | O => Crash OutOfFuel
      | S fuel' =>
          if negb (match_ pattern kv =? 0) then
            '(r, d1) ← client_output d fd MSG_INFO $"%*s" [AInt (zlen kv); APtr kv];
            if r =? -1 then Done (-1, d1) else sub_loop fuel' d1 fd pattern ix'
          else sub_loop fuel' d fd pattern ix'
      end
  end.

Definition cmd_sub (d : daemon) (fd : Z) (data : bytes) : outcome (Z * daemon) :=
  c ← get_client d fd;
  if MAX_SUBS <? nsubs c then client_error d fd PROTO_ERROR_TOO_BIG $"sub: too many subscriptions"
  else if contains_nul data || negb (match_isvalid data)
  then client_error d fd PROTO_ERROR_BAD_ARG $"sub: invalid pattern"
  else
    match subscription_new (events d) data with
    | None => client_error d fd PROTO_ERROR_INTERNAL ($"sub: " ++ strerror (events d))
    | Some sub =>
        let d1 := upd_client d fd (fun c => set_subs c (u32 (nsubs c + 1)) (sub :: subs c)) in
        sub_loop (kv_size (the_store d1)) d1 fd data 0
    end.

Definition cmd_unsub (d : daemon) (fd : Z) (data : bytes) : outcome (Z * daemon) :=
  c ← get_client d fd;
  match client_find_subscription (subs c) data with
  | None => Done (1, d)
  | Some i => Done (1, upd_client d fd (fun c => set_subs c (u32 (nsubs c - 1)) (delete i (subs c))))
  end.

Definition cmd_read (d : daemon) (fd : Z) (data : bytes) : outcome (Z * daemon) :=
  if contains_nul data then client_error d fd PROTO_ERROR_BAD_ARG $"read: invalid key"
  else
    info ← kv_get (the_store d) data;
    match info with
    | Some kv => client_output d fd MSG_INFO $"%*s" [AInt (zlen kv); APtr kv]
    | None => client_output d fd MSG_INFO $"%s" [APtr data]
    end.

(** Notifies all subscribers; a client whose socket does not take the message is dropped. *)
Fixpoint notify_subs (d : daemon) (fd : Z) (l : list bytes) (data : bytes) : outcome daemon :=
  match l with
  | [] => Done d
  | sub :: l' =>
      if negb (match_ sub data =? 0) then
        '(r, d1) ← client_output d fd MSG_INFO $"%*s" [AInt (zlen data); APtr data];
        notify_subs (if r =? -1 then shutdown_read d1 fd else d1) fd l' data
      else notify_subs d fd l' data
  end.

Fixpoint notify_clients (d : daemon) (l : list client) (data : bytes) : outcome daemon :=
  match l with
  | [] => Done d
  | c :: l' =>
      d1 ← notify_subs d (c_fd c) (subs c) data;
      notify_clients d1 l' data
  end.

(** The change to the store: [Some r] when the handler returns at once. *)
Definition write_store (d : daemon) (fd : Z) (data : bytes) : outcome (option Z * daemon) :=
  if negb (contains_nul data) then
    (* Delete *)
    '(ret, s) ← kv_del (the_store d) (Some data);
    let d1 := set_store d s in
    if ret =? 0 then Done (Some 1, d1)
    else if ret =? -1 then
      '(r, d2) ← client_error d1 fd PROTO_ERROR_INTERNAL ($"del: " ++ strerror (events d1));
      Done (Some r, d2)
    else Done (None, d1)
  else if is_ephemeral data then Done (None, d)
  else
    (* Put *)
    '(ret, s) ← kv_put (the_store d) (u16 (zlen data)) data;   (* datalen is passed as a uint16_t *)
    let d1 := set_store d s in
    if ret =? 0 then Done (Some 1, d1)
    else if ret =? -1 then
      '(r, d2) ← client_error d1 fd PROTO_ERROR_INTERNAL ($"write: " ++ strerror (events d1));
      Done (Some r, d2)
    else Done (None, d1).

Definition cmd_write (d : daemon) (fd : Z) (data : bytes) : outcome (Z * daemon) :=
  '(r, d1) ← write_store d fd data;
  match r with
  | Some v => Done (v, d1)
  | None => d2 ← notify_clients d1 (all_clients d1) data; Done (1, d2)
  end.

Definition cmd_begin (d : daemon) (fd : Z) : outcome (Z * daemon) :=
  Done (1, upd_client d fd (fun c => set_begins (set_bufcmds c (bufcmds c) 0) 1)).

(** The [switch] of [on_app_input]. *)
Definition run_command (d : daemon) (fd : Z) (msg : Z) (data : bytes) : outcome (Z * daemon) :=
  if msg =? CMD_HELLO then client_output d fd MSG_VERSION $"%c%s" [AInt 0; APtr $"infod3"]
  else if msg =? CMD_SUB then cmd_sub d fd data
  else if msg =? CMD_UNSUB then cmd_unsub d fd data
  else if msg =? CMD_READ then cmd_read d fd data
  else if msg =? CMD_WRITE then cmd_write d fd data
  else if msg =? CMD_PING then client_output d fd MSG_PONG $"%*s" [AInt (zlen data); APtr data]
  else if msg =? CMD_BEGIN then cmd_begin d fd
  else if msg =? CMD_COMMIT then client_error d fd PROTO_ERROR_BAD_SEQ $"commit: no begin"
  else client_error d fd PROTO_ERROR_BAD_MSG ($"unexpected message " ++ hex2 msg).

(** ** Transactions *)

Section Buffer.
(** [on_app_input], which plays the buffered commands back. *)
Context (app_input : daemon -> Z -> Z -> bytes -> outcome (Z * daemon)).

(** The [while] loop of the playback; [fuel] bounds the length of the list. *)
Fixpoint playback (fuel : nat) (d : daemon) (fd : Z) : outcome (Z * daemon) :=
  c ← get_client d fd;
  match bufcmds c with
  | [] => Done (1, d)
  | (msg, data) :: l =>
      match fuel with
      | O => Crash OutOfFuel
      | S fuel' =>
          let d1 := upd_client d fd (fun c => set_bufcmds c l (bufcmd_tail c)) in
          '(ret, d2) ← app_input d1 fd msg data;
          if ret <=? 0 then Done (ret, d2) else playback fuel' d2 fd
      end
  end.

Definition buffer_command (d : daemon) (fd : Z) (msg : Z) (data : bytes) : outcome (Z * daemon) :=
  c ← get_client d fd;
  if msg =? CMD_BEGIN then
    (* push a nested BEGIN *)
    Done (1, upd_client d fd (fun c => set_begins c (u32 (begins c + 1))))
  else if msg =? CMD_COMMIT then
    let n := u32 (begins c - 1) in
    let d1 := upd_client d fd (fun c => set_begins c n) in
    if negb (n =? 0) then Done (1, d1) (* pop a nested BEGIN *)
    else playback (length (bufcmds c)) d1 fd
  else if MAX_BUFCMDS <=? nbufcmds c then client_error d fd PROTO_ERROR_TOO_BIG $"commit buffer overflow"
  else
    match bufcmd_new (events d) msg data with
    | None => client_error d fd PROTO_ERROR_INTERNAL ($"begin: " ++ strerror (events d))
    | Some bcmd =>
        '(l, tail) ← APPEND (bufcmds c) (bufcmd_tail c) bcmd;
        Done (1, upd_client d fd (fun c => set_bufcmds c l tail))
    end.

End Buffer.

(** [on_app_input] and [buffer_command] call each other. A buffered command is never a BEGIN or
    a COMMIT, so that the calls are at most two deep. *)
Fixpoint app_input (depth : nat) (d : daemon) (fd : Z) (msg : Z) (data : bytes) : outcome (Z * daemon) :=
  match depth with
  | O => Crash OutOfFuel
  | S depth' =>
      if msg =? MSG_EOF then Done (0, d)
      else
        c ← get_client d fd;
        if negb (begins c =? 0) then buffer_command (app_input depth') d fd msg data
        else run_command d fd msg data
  end.

Definition on_app_input (fd : Z) (p : proto) (d : daemon) (msg : Z) (data : bytes) : outcome (Z * daemon) :=
  app_input 2 (upd_client d fd (fun c => set_proto c p)) fd msg data.

(** ** Upcalls of the server *)

(** The callbacks that [on_net_accept] sets. *)
Definition client_cb (fd : Z) : callbacks daemon :=
  mk_callbacks (Some (on_app_input fd)) (Some (on_net_sendv fd)) (Some on_proto_error).

(** A new connection: the client's record, or [None] when there is no memory. *)
Definition on_net_accept (d : daemon) (fd : Z) (unix : bool) (junk : textproto * nat)
    : option Z * daemon :=
  match client_new (events d) fd junk with
  | None => (None, shutdown_read d fd)
  | Some c =>
      let c1 := if unix then set_proto c (proto_set_mode (c_proto c) PROTO_MODE_FRAMED).2 else c in
      (Some fd, set_clients d (c1 :: all_clients d))
  end.

(** [rd] is what [read] gave: at most [PROTO_RECVSZ] bytes, or [None] for an error. [c] is the
    client that the server keeps with the socket, or NULL. *)
Definition on_net_ready (d : daemon) (c : option Z) (rd : option bytes) : outcome (Z * daemon) :=
  match rd with
  | None => Done (-1, d)
  | Some buf =>
      fd ← of_option NullDeref c;
      cl ← get_client d fd;
      '(r, p, d1) ← proto_recv (client_cb fd) (c_proto cl) d buf 0;
      Done (r, upd_client d1 fd (fun c => set_proto c p))
  end.

(** The client's record is removed and freed, with its subscriptions and commands. *)
Definition on_net_close (d : daemon) (c : option Z) : outcome daemon :=
  fd ← of_option NullDeref c;
  cl ← get_client d fd;
  Done (set_clients d (filter (fun c => c_fd c <> fd) (all_clients d))).

End Daemon.
Arguments daemon : clear implicits.
