(* ===== verification/InfodSpec.v ===== *)
(** * The daemon: what it promises its clients

    An abstract server: a finite map, a list of clients that each have subscriptions and an
    open transaction, and messages that are sent to clients. [step] says what one command does,
    [accept] what a message does when transactions are taken into account. A request is refused
    with an internal error only where memory or the store fails, which the class [Faults] says.
    InfodSim.v proves that infod.c implements this server. *)
From S2P Require Import Prelude Match StoreDefs StoreLayout StoreOps StoreTheorems Rxbuf.
From S2P Require Import ProtoDefs ProtoBin ProtoTextOut Infod.
Import Match.
Local Open Scope infod_scope.

(** A client: the framing of its socket, its subscriptions (newest first), the depth of its
    nested BEGINs and the commands that wait for the COMMIT. *)
Record aclient := mk_aclient {
  a_fd : Z;
  a_mode : Z;
  a_subs : list bytes;
  a_begins : Z;
  a_queue : list (Z * bytes)
}.

(** A message to a client: its socket, the message ID, the payload. *)
Definition message : Type := Z * Z * bytes.

Definition a_find (cs : list aclient) (fd : Z) : option aclient := find (fun c => a_fd c =? fd) cs.
Definition a_upd (cs : list aclient) (fd : Z) (f : aclient -> aclient) : list aclient :=
  (fun c => if a_fd c =? fd then f c else c) <$> cs.

Definition with_subs (l : list bytes) (c : aclient) : aclient :=
  mk_aclient (a_fd c) (a_mode c) l (a_begins c) (a_queue c).
Definition with_mode (m : Z) (c : aclient) : aclient :=
  mk_aclient (a_fd c) m (a_subs c) (a_begins c) (a_queue c).
Definition with_txn (n : Z) (q : list (Z * bytes)) (c : aclient) : aclient :=
  mk_aclient (a_fd c) (a_mode c) (a_subs c) n q.

(** The line of a message in the text protocol: the word of its ID, then a number and a string, the
    key and the value of a record, or one string. The message [PSEUDO_HELP] is the help text. *)
Definition text_args (msg : Z) (payload : bytes) : list targ :=
  if (msg =? MSG_VERSION) || (msg =? MSG_ERROR) then
    match payload with [] => [] | n :: text => [TI n; TT false text] end
  else if (msg =? MSG_INFO) && bool_decide (0 ∈ payload) then
    [TT true (cstr payload); TT true (drop (S (length (cstr payload))) payload)]
  else [TT true payload].
Definition text_frame (msg : Z) (payload : bytes) : bytes :=
  if msg =? PSEUDO_HELP then help_text
  else text_line (from_option (fun e => e.1.1) [] (entry_of msg)) (text_args msg payload).

(** The bytes of a message on a socket. *)
Definition frame (m msg : Z) (payload : bytes) : bytes :=
  if m =? PROTO_MODE_FRAMED then msg :: payload
  else if m =? PROTO_MODE_TEXT then text_frame msg payload
  else enc_pdu (msg, payload).
Definition mode_of (cs : list aclient) (fd : Z) : Z := from_option a_mode 0 (a_find cs fd).
Definition wire (cs : list aclient) (m : message) : event :=
  Sent m.1.1 (frame (mode_of cs m.1.1) m.1.2 m.2).

(** The messages [outs] on the sockets. A message of the binary or the framed protocol is written
    at once, a line of the text protocol maybe in pieces. *)
Inductive on_wire (cs : list aclient) : list message -> list event -> Prop :=
  | ow_nil : on_wire cs [] []
  | ow_cons m pieces outs evs :
      concat pieces = frame (mode_of cs m.1.1) m.1.2 m.2 ->
      (mode_of cs m.1.1 <> PROTO_MODE_TEXT -> length pieces = 1%nat) ->
      on_wire cs outs evs -> on_wire cs (m :: outs) ((Sent m.1.1 <$> pieces) ++ evs).

(** Who hears of a change: every subscription whose pattern matches the key. *)
Definition hits (key : bytes) (sub : bytes) : Prop := match_ sub key <> 0.
#[export] Instance hits_dec key sub : Decision (hits key sub).
Proof. unfold hits. apply _. Defined.

Definition notices_to (data : bytes) (c : aclient) : list message :=
  (fun _ => (a_fd c, MSG_INFO, data)) <$> filter (hits data) (a_subs c).
Definition notices (cs : list aclient) (data : bytes) : list message :=
  concat (notices_to data <$> cs).

(** The records of the map that a pattern matches, in key order. *)
Definition snapshot (fd : Z) (pattern : bytes) (ks : list bytes) : list message :=
  (fun kv => (fd, MSG_INFO, kv)) <$> filter (fun kv => hits kv pattern) ks.

Definition error_to (fd code : Z) (text : bytes) : message := (fd, MSG_ERROR, code :: text).

(** What may fail around the server: putting a record into its store, the allocation of [n] bytes.
    Where nothing fails, no request is refused with an internal error. *)
Class Faults := {
  put_fault : Prop;
  malloc_fault : Z -> Prop
}.

(** The answer to a request that failed: what was tried, and the system's text [reason] for it. *)
Definition internal_error (fd : Z) (what reason : bytes) : message :=
  error_to fd PROTO_ERROR_INTERNAL (cstr (take (Z.to_nat 16383) (what ++ reason))).

Section Spec.
Context {F : Faults}.
Implicit Types (M : gmap bytes bytes) (cs : list aclient) (data text : bytes).

(** A mistake of a client ends its connection, unless it speaks the text protocol. *)
Definition forgiven (c : aclient) : bool := a_mode c =? PROTO_MODE_TEXT.

(** One command of the client [c] on [fd]. The boolean says if the connection goes on. *)
Inductive step M cs (fd : Z) (c : aclient) :
    Z -> bytes -> bool -> list message -> gmap bytes bytes -> list aclient -> Prop :=
  | st_hello data :
      step M cs fd c CMD_HELLO data true [(fd, MSG_VERSION, 0 :: $"infod3")] M cs
  | st_ping data :
      step M cs fd c CMD_PING data true [(fd, MSG_PONG, data)] M cs
  | st_read data kv :
      0 ∉ data -> M !! data = Some kv ->
      step M cs fd c CMD_READ data true [(fd, MSG_INFO, kv)] M cs
  | st_read_absent data :
      0 ∉ data -> M !! data = None ->
      step M cs fd c CMD_READ data true [(fd, MSG_INFO, data)] M cs
  | st_read_bad data :
      0 ∈ data ->
      step M cs fd c CMD_READ data (forgiven c) [error_to fd PROTO_ERROR_BAD_ARG $"read: invalid key"] M cs
  | st_write data :
      0 ∈ data -> is_ephemeral data = false -> M !! cstr data <> Some data ->
      step M cs fd c CMD_WRITE data true (notices cs data) (<[cstr data := data]> M) cs
  | st_write_same data :
      0 ∈ data -> is_ephemeral data = false -> M !! cstr data = Some data ->
      step M cs fd c CMD_WRITE data true [] M cs
  | st_write_fail data reason :
      0 ∈ data -> is_ephemeral data = false -> put_fault ->
      step M cs fd c CMD_WRITE data false [internal_error fd $"write: " reason]
        (delete (cstr data) M) cs
  | st_write_ephemeral data :
      0 ∈ data -> is_ephemeral data = true ->
      step M cs fd c CMD_WRITE data true (notices cs data) M cs
  | st_delete data kv :
      0 ∉ data -> M !! data = Some kv ->
      step M cs fd c CMD_WRITE data true (notices cs data) (delete data M) cs
  | st_delete_absent data :
      0 ∉ data -> M !! data = None ->
      step M cs fd c CMD_WRITE data true [] M cs
  | st_sub data ks :
      0 ∉ data -> match_isvalid data = true -> zlen (a_subs c) <= MAX_SUBS ->
      key_sorted ks -> kvmap ks = M ->
      step M cs fd c CMD_SUB data true (snapshot fd data ks) M
        (a_upd cs fd (with_subs (data :: a_subs c)))
  | st_sub_bad data :
      0 ∈ data \/ match_isvalid data = false -> zlen (a_subs c) <= MAX_SUBS ->
      step M cs fd c CMD_SUB data (forgiven c) [error_to fd PROTO_ERROR_BAD_ARG $"sub: invalid pattern"] M cs
  | st_sub_many data :
      MAX_SUBS < zlen (a_subs c) ->
      step M cs fd c CMD_SUB data (forgiven c)
        [error_to fd PROTO_ERROR_TOO_BIG $"sub: too many subscriptions"] M cs
  | st_sub_fail data reason :
      0 ∉ data -> match_isvalid data = true -> zlen (a_subs c) <= MAX_SUBS ->
      malloc_fault (sizeof_subscription + zlen data + 1) ->
      step M cs fd c CMD_SUB data false [internal_error fd $"sub: " reason] M cs
  | st_unsub data l1 l2 :
      a_subs c = l1 ++ data :: l2 -> data ∉ l1 ->
      step M cs fd c CMD_UNSUB data true [] M (a_upd cs fd (with_subs (l1 ++ l2)))
  | st_unsub_absent data :
      data ∉ a_subs c ->
      step M cs fd c CMD_UNSUB data true [] M cs
  | st_begin data :
      step M cs fd c CMD_BEGIN data true [] M (a_upd cs fd (with_txn 1 (a_queue c)))
  | st_commit data :
      step M cs fd c CMD_COMMIT data (forgiven c)
        [error_to fd PROTO_ERROR_BAD_SEQ $"commit: no begin"] M cs
  | st_unknown msg data :
      CMD_PING < msg ->
      step M cs fd c msg data (forgiven c)
        [error_to fd PROTO_ERROR_BAD_MSG ($"unexpected message " ++ hex2 msg)] M cs.

(** The commands of a transaction, one after the other, until one fails. *)
Inductive run_queue M cs (fd : Z) :
    list (Z * bytes) -> bool -> list message -> gmap bytes bytes -> list aclient -> Prop :=
  | rq_done : run_queue M cs fd [] true [] M cs
  | rq_fail c msg data q outs M' cs' :
      a_find cs fd = Some c ->
      step M (a_upd cs fd (with_txn 0 q)) fd (with_txn 0 q c) msg data false outs M' cs' ->
      run_queue M cs fd ((msg, data) :: q) false outs M' cs'
  | rq_next c msg data q outs M1 cs1 ok outs' M' cs' :
      a_find cs fd = Some c ->
      step M (a_upd cs fd (with_txn 0 q)) fd (with_txn 0 q c) msg data true outs M1 cs1 ->
      run_queue M1 cs1 fd q ok outs' M' cs' ->
      run_queue M cs fd ((msg, data) :: q) ok (outs ++ outs') M' cs'.

(** A message from the client [c] on [fd]. *)
Inductive accept M cs (fd : Z) (c : aclient) :
    Z -> bytes -> bool -> list message -> gmap bytes bytes -> list aclient -> Prop :=
  | ac_eof data : accept M cs fd c MSG_EOF data false [] M cs
  | ac_now msg data ok outs M' cs' :
      a_begins c = 0 -> msg <> MSG_EOF -> step M cs fd c msg data ok outs M' cs' ->
      accept M cs fd c msg data ok outs M' cs'
  | ac_begin data :
      a_begins c <> 0 ->
      accept M cs fd c CMD_BEGIN data true [] M (a_upd cs fd (with_txn (a_begins c + 1) (a_queue c)))
  | ac_commit_nested data :
      1 < a_begins c ->
      accept M cs fd c CMD_COMMIT data true [] M (a_upd cs fd (with_txn (a_begins c - 1) (a_queue c)))
  | ac_commit data ok outs M' cs' :
      a_begins c = 1 ->
      run_queue M (a_upd cs fd (with_txn 0 (a_queue c))) fd (a_queue c) ok outs M' cs' ->
      accept M cs fd c CMD_COMMIT data ok outs M' cs'
  | ac_later msg data :
      a_begins c <> 0 -> msg <> CMD_BEGIN -> msg <> CMD_COMMIT -> msg <> MSG_EOF ->
      accept M cs fd c msg data true [] M
        (a_upd cs fd (with_txn (a_begins c) (a_queue c ++ [(msg, data)])))
  | ac_later_fail msg data reason :
      a_begins c <> 0 -> msg <> CMD_BEGIN -> msg <> CMD_COMMIT -> msg <> MSG_EOF ->
      malloc_fault (sizeof_bufcmd + zlen data + 1) ->
      accept M cs fd c msg data false [internal_error fd $"begin: " reason] M cs.

End Spec.

(** The faults of the daemon's surroundings: those of its store, and the sizes for which [malloc]
    fails at some time. *)
#[export] Instance daemon_faults {net : Net} {ST} {KV : KVStore ST} : Faults := {
  put_fault := kv_fails;
  malloc_fault n := exists ev, malloc_ok ev n = false
}.
