(* ===== verification/InfodSay.v ===== *)
(** * The daemon: what its messages look like on a socket

    The calls of [proto_output] that infod.c makes, in the three protocols: [says] relates the
    format and the arguments of a call to the payload of the message, and with it to the frame or
    the line that is written. *)
From S2P Require Import Prelude Match StoreDefs StoreLayout StoreOps StoreTheorems Rxbuf.
From S2P Require Import ProtoDefs ProtoBin ProtoTextOut Infod InfodSpec.
Local Open Scope infod_scope.

(** ** Messages on the wire *)

Lemma on_wire_one cs m pieces :
  concat pieces = frame (mode_of cs m.1.1) m.1.2 m.2 ->
  (mode_of cs m.1.1 <> PROTO_MODE_TEXT -> length pieces = 1%nat) -> on_wire cs [m] (Sent m.1.1 <$> pieces).
Proof. intros H1 H2. rewrite <- (app_nil_r (Sent _ <$> _)). constructor; [done|done|constructor]. Qed.

Lemma on_wire_inv cs m evs : on_wire cs [m] evs -> exists pieces, evs = Sent m.1.1 <$> pieces /\
  concat pieces = frame (mode_of cs m.1.1) m.1.2 m.2 /\ (mode_of cs m.1.1 <> PROTO_MODE_TEXT -> length pieces = 1%nat).
Proof.
  intros Hw. inversion Hw as [|? pieces ? ? H1 H2 Hnil]; subst. inversion Hnil; subst. exists pieces. by rewrite app_nil_r.
Qed.

Lemma on_wire_app cs o1 e1 o2 e2 : on_wire cs o1 e1 -> on_wire cs o2 e2 -> on_wire cs (o1 ++ o2) (e1 ++ e2).
Proof. induction 1; [done|]. intros. cbn. rewrite <- app_assoc. constructor; auto. Qed.

(** Only the protocol of a client matters. *)
Lemma on_wire_modes cs cs' outs evs :
  (forall fd, mode_of cs' fd = mode_of cs fd) -> on_wire cs outs evs -> on_wire cs' outs evs.
Proof. intros Hm. induction 1; constructor; by rewrite ?Hm. Qed.

(** With no text client every message is one [writev]. *)
Lemma on_wire_plain cs outs evs :
  (forall fd, mode_of cs fd <> PROTO_MODE_TEXT) -> on_wire cs outs evs -> evs = wire cs <$> outs.
Proof.
  intros Hm. induction 1 as [|m pieces outs evs H1 H2 Hw IH]; [done|]. rewrite fmap_cons, <- IH. unfold wire.
  specialize (H2 (Hm _)). destruct pieces as [|b [|]]; [done| |done]. cbn in *. rewrite app_nil_r in H1. by subst.
Qed.

(** ** The length of a line *)

(** Payloads of this size have lines of at most 4095 bytes. *)
Definition TEXT_LIMIT : Z := 1020.

Lemma zlen_print_targ s star : zlen (print_targ (TT star s)) <= 4 * zlen s + 2.
Proof. cbn. unfold quote. rewrite zlen_cons, zlen_app, zlen_one. pose proof (zlen_qchars s). lia. Qed.

Lemma zlen_line_nil word : zlen (text_line word []) = zlen word + 2.
Proof. unfold text_line. by rewrite !zlen_app. Qed.

Lemma zlen_line_cons word a args :
  zlen (text_line word (a :: args)) = 1 + zlen (print_targ a) + zlen (text_line word args).
Proof.
  unfold text_line. rewrite fmap_cons. cbn [concat]. rewrite !zlen_app, zlen_cons. lia.
Qed.

Lemma text_frame_string msg word id tf payload :
  entry_of msg = Some (word, id, tf) -> zlen (text_line word [TT true payload]) <= 4 * zlen payload + 13.
Proof.
  intros He. pose proof (entry_word _ _ _ _ He). rewrite zlen_line_cons, zlen_line_nil.
  pose proof (zlen_print_targ payload true). lia.
Qed.

Lemma cstr_drop payload : 0 ∈ payload ->
  payload = cstr payload ++ 0 :: drop (S (length (cstr payload))) payload.
Proof.
  intros (v & E)%cstr_split. set (k := cstr payload) in *. rewrite E at 2. rewrite drop_app_ge by lia.
  by replace (S (length k) - length k)%nat with 1%nat by lia.
Qed.

Lemma info_frame_fits kv : zlen kv <= TEXT_LIMIT -> zlen (text_frame MSG_INFO kv) <= 4095.
Proof.
  intros Hl. assert (He : entry_of MSG_INFO = Some ($"INFO", MSG_INFO, $"t|0t")) by (vm_compute; reflexivity).
  unfold text_frame, text_args, TEXT_LIMIT in *. change (MSG_INFO =? PSEUDO_HELP) with false. rewrite He. cbn [from_option fst snd].
  change ((MSG_INFO =? MSG_VERSION) || (MSG_INFO =? MSG_ERROR)) with false. change (MSG_INFO =? MSG_INFO) with true.
  cbn [andb]. cbv iota. case_bool_decide as H0; [|pose proof (text_frame_string _ _ _ _ kv He); lia].
  pose proof (f_equal zlen (cstr_drop kv H0)) as E. rewrite zlen_app, zlen_cons in E. set (v := drop _ kv) in *.
  rewrite !zlen_line_cons, zlen_line_nil. change (zlen $"INFO") with 4.
  pose proof (zlen_print_targ (cstr kv) true). pose proof (zlen_print_targ v true). lia.
Qed.

Lemma pong_frame_fits data : zlen data <= TEXT_LIMIT -> zlen (text_frame MSG_PONG data) <= 4095.
Proof.
  intros Hl. assert (He : entry_of MSG_PONG = Some ($"PONG", MSG_PONG, $"|t")) by (vm_compute; reflexivity).
  pose proof (text_frame_string _ _ _ _ data He). unfold text_frame, TEXT_LIMIT in *.
  change (MSG_PONG =? PSEUDO_HELP) with false. rewrite He. cbn [from_option fst snd].
  change (text_args MSG_PONG data) with [TT true data]. lia.
Qed.

Lemma error_frame_fits code text : 0 <= code < 256 -> zlen text <= TEXT_LIMIT -> zlen (text_frame MSG_ERROR (code :: text)) <= 4095.
Proof.
  intros Hc Hl. assert (He : entry_of MSG_ERROR = Some ($"ERROR", MSG_ERROR, $"it")) by (vm_compute; reflexivity).
  unfold text_frame, TEXT_LIMIT in *. change (MSG_ERROR =? PSEUDO_HELP) with false. rewrite He. cbn [from_option fst snd].
  change (text_args MSG_ERROR (code :: text)) with [TI code; TT false text].
  rewrite !zlen_line_cons, zlen_line_nil. change (zlen $"ERROR") with 5.
  pose proof (zlen_print_targ text false). pose proof (zlen_print_byte code Hc). cbn [print_targ] in *. lia.
Qed.

Section Say.
Context {os : OS} {net : Net} {ST : Type} {KV : KVStore ST}.
Abbreviation daemon := (daemon ST).
Implicit Types (d : daemon) (c : client) (fd msg : Z) (data : bytes).

(** The arguments of an output are the pieces of its payload. *)
Definition spells (fd : Z) (fmt : bytes) (ap : list arg) (iov : list bytes) : Prop :=
  forall p d maxiov worksz, 2 <= maxiov -> 1 <= worksz ->
    to_binary_iov (send_cb fd) p d maxiov worksz fmt ap 0 0 = Done (Some iov, d).

Lemma spells_star fd b : spells fd $"%*s" [AInt (zlen b); APtr b] [b].
Proof.
  intros p d mi ws H1 H2. cbn. destruct (Z.leb_spec mi 0); [lia|]. ostep.
  by rewrite mread_all.
Qed.

Lemma spells_str fd b : spells fd $"%s" [APtr b] [cstr b].
Proof. intros p d mi ws H1 H2. cbn. by destruct (Z.leb_spec mi 0); [lia|]. Qed.

Lemma spells_char_str fd n b : spells fd $"%c%s" [AInt n; APtr b] [[Z.land n 255]; cstr b].
Proof.
  intros p d mi ws H1 H2. change $"%c%s" with [37; 99; 37; 115].
  cbn [to_binary_iov Z.eqb Pos.eqb negb va_int va_ptr]. destruct (Z.leb_spec mi 0); [lia|].
  destruct (Z.leb_spec ws 0); [lia|]. ostep. by destruct (Z.leb_spec mi (0 + 1)); [lia|].
Qed.

(** Nothing happened but these events. *)
Definition logs d (evs : list event) : daemon := mk_daemon (the_store d) (all_clients d) (events d ++ evs).
Definition has_sent fd d (b : bytes) d' : Prop :=
  exists pieces, d' = logs d (Sent fd <$> pieces) /\ concat pieces = b.

(** A call of [proto_output] for the message [msg] with the payload [pl]. *)
Record says fd msg (fmt : bytes) (ap : list arg) (pl : bytes) : Prop := {
  says_iov : exists iov, spells fd fmt ap iov /\ concat iov = pl;
  says_text : (forall ev fd b, writev ev fd b = zlen b) -> zlen (text_frame msg pl) <= 4095 ->
    forall p d, exists r d', output_text (send_cb fd) p d msg fmt ap = Done (r, d') /\ 0 < r /\
      has_sent fd d (text_frame msg pl) d'
}.

Lemma sendv_total fd p d iov : exists r d', sendv (send_cb fd) p d iov = Done (r, d').
Proof. unfold sendv. cbn [on_sendv send_cb]. unfold on_net_sendv. eauto. Qed.

(** The socket of a client is a peer that takes everything. *)
Lemma sendv_takes fd p d iov : (forall ev fd b, writev ev fd b = zlen b) ->
  sendv (send_cb fd) p d iov = Done (zlen (concat iov), log d (Sent fd (concat iov))).
Proof.
  intros Hw. unfold sendv. cbn [on_sendv send_cb]. unfold on_net_sendv. rewrite Hw.
  pose proof (zlen_nonneg (concat iov)). destruct (Z.ltb_spec (zlen (concat iov)) 0); [lia|].
  rewrite take_ge; [done|]. unfold zlen. lia.
Qed.

Lemma socket_peer fd : (forall ev fd b, writev ev fd b = zlen b) -> stream_peer (send_cb fd) 1 (has_sent fd).
Proof.
  intros Hw. split.
  - intros p d iov. rewrite sendv_takes by done. eexists _, _. split; [done|].
    pose proof (zlen_nonneg (concat iov)). split_and!; [lia| |exists [concat iov]; cbn; by rewrite app_nil_r].
    intros Hne. destruct (concat iov) as [|x l]; [done|]. rewrite zlen_cons. pose proof (zlen_nonneg l). lia.
  - intros d a d1 b d2 (p1 & -> & <-) (p2 & -> & <-). exists (p1 ++ p2). split; [|apply concat_app].
    unfold logs. cbn. by rewrite fmap_app, app_assoc.
  - intros d. exists []. split; [|done]. unfold logs. cbn. rewrite app_nil_r. by destruct d.
Qed.

(** A line of the table's format. *)
Lemma line_sent fd msg word id tf args pl p d :
  (forall ev fd b, writev ev fd b = zlen b) ->
  entry_of msg = Some (word, id, tf) -> pack false tf args = Some pl -> Forall wf_targ args -> star_ok tf args ->
  zlen (text_line word args) <= 4095 ->
  exists r d', output_text (send_cb fd) p d msg (spell tf args).1 (spell tf args).2 = Done (r, d') /\ 0 < r /\
    has_sent fd d (text_line word args) d'.
Proof.
  intros Hw He Hp Hwf Hst Hl.
  destruct (output_text_ok (send_cb fd) (sendv_total fd) 1 (has_sent fd) p d msg word id tf args pl He Hp Hwf Hst Hl)
    as (r & d' & E & Ho). destruct (Ho (socket_peer fd Hw)) as [Hr Hs]. exists r, d'. split_and!; [done|lia|done].
Qed.

Lemma says_info fd kv : zlen kv <= 65535 -> says fd MSG_INFO $"%*s" [AInt (zlen kv); APtr kv] kv.
Proof.
  intros Hl. split; [exists [kv]; split; [apply spells_star|apply app_nil_r]|].
  intros Hw Hfit p d. assert (He : entry_of MSG_INFO = Some ($"INFO", MSG_INFO, $"t|0t")) by (vm_compute; reflexivity).
  unfold text_frame, text_args in *. change (MSG_INFO =? PSEUDO_HELP) with false in *. rewrite He in *. cbn [from_option fst snd] in *.
  change ((MSG_INFO =? MSG_VERSION) || (MSG_INFO =? MSG_ERROR)) with false in *.
  change (MSG_INFO =? MSG_INFO) with true in *. cbn [andb] in *. cbv iota in *. case_bool_decide as H0.
  - pose proof (cstr_drop kv H0) as E. set (v := drop _ kv) in *.
    destruct (output_record_ok (send_cb fd) (sendv_total fd) 1 (has_sent fd) p d MSG_INFO _ _ (cstr kv) v He
      (cstr_nul_free kv) Hfit) as (r & d' & Eo & Ho). destruct (Ho (socket_peer fd Hw)) as [Hr Hs].
    rewrite <- E in Eo. exists r, d'. split_and!; [done|lia|done].
  - apply (line_sent fd MSG_INFO $"INFO" MSG_INFO $"t|0t" [TT true kv] kv); try done.
    + change $"t|0t" with [116; 124; 48; 116]. cbn. by rewrite app_nil_r.
    + repeat constructor; done.
    + cbn. split; [|done]. intros _ _. by apply nul_free_no_nul.
Qed.

Lemma says_pong fd data : zlen data <= 65535 -> says fd MSG_PONG $"%*s" [AInt (zlen data); APtr data] data.
Proof.
  intros Hl. split; [exists [data]; split; [apply spells_star|apply app_nil_r]|].
  intros Hw Hfit p d. assert (He : entry_of MSG_PONG = Some ($"PONG", MSG_PONG, $"|t")) by (vm_compute; reflexivity).
  unfold text_frame in *. change (MSG_PONG =? PSEUDO_HELP) with false in *. rewrite He in *. apply (line_sent fd MSG_PONG $"PONG" MSG_PONG $"|t" [TT true data] data); try done.
  - change $"|t" with [124; 116]. cbn. by rewrite app_nil_r.
  - repeat constructor; done.
Qed.

(** A string argument is read up to its NUL. *)
Lemma output_cstr (cb : callbacks daemon) p d msg word id tf b :
  entry_of msg = Some (word, id, tf) ->
  output_text cb p d msg $"%s" [APtr b] = output_text cb p d msg $"%s" [APtr (cstr b ++ [0])].
Proof.
  intros He. unfold output_text. unfold entry_of in He. rewrite He. change $"%s" with [37; 115].
  cbn [output_text_args Z.eqb Pos.eqb negb hd0]. destruct (next_tfmt tf false) as [[? ?] ?]. cbn [va_ptr mbind outcome_bind].
  by rewrite cstr_app_nul by apply cstr_nul_free.
Qed.

Lemma output_char_cstr (cb : callbacks daemon) p d msg word id tf n b :
  entry_of msg = Some (word, id, tf) -> tf = $"it" \/ tf = $"i|t" ->
  output_text cb p d msg $"%c%s" [AInt n; APtr b] = output_text cb p d msg $"%c%s" [AInt n; APtr (cstr b ++ [0])].
Proof.
  intros He Htf. unfold output_text. unfold entry_of in He. rewrite He. change $"%c%s" with [37; 99; 37; 115].
  change $"it" with [105; 116] in Htf. change $"i|t" with [105; 124; 116] in Htf.
  destruct Htf as [-> | ->]; cbn [output_text_args Z.eqb Pos.eqb negb hd0 next_tfmt va_int va_ptr mbind outcome_bind];
    by rewrite cstr_app_nul by apply cstr_nul_free.
Qed.

Lemma says_absent fd key : zlen key <= 65535 -> 0 ∉ key -> says fd MSG_INFO $"%s" [APtr key] key.
Proof.
  intros Hl H0. split; [exists [cstr key]; split; [apply spells_str|cbn; by rewrite app_nil_r, cstr_no_nul]|].
  intros Hw Hfit p d. assert (He : entry_of MSG_INFO = Some ($"INFO", MSG_INFO, $"t|0t")) by (vm_compute; reflexivity).
  rewrite (output_cstr _ p d _ _ _ _ key He), cstr_no_nul by done. unfold text_frame, text_args in *.
  change (MSG_INFO =? PSEUDO_HELP) with false in *. rewrite He in *.
  rewrite bool_decide_false in * by done. rewrite andb_false_r in *.
  apply (line_sent fd MSG_INFO $"INFO" MSG_INFO $"t|0t" [TT false key] key); try done.
  - change $"t|0t" with [116; 124; 48; 116]. cbn. by rewrite app_nil_r.
  - repeat constructor; [done|]. intros _. by apply nul_free_no_nul.
Qed.

(** A number and a string: VERSION and ERROR. *)
Lemma says_numbered fd msg word tf n text :
  entry_of msg = Some (word, msg, tf) -> tf = $"it" \/ tf = $"i|t" -> (msg =? MSG_VERSION) || (msg =? MSG_ERROR) = true ->
  0 <= n < 256 -> zlen text <= 65535 -> says fd msg $"%c%s" [AInt n; APtr text] (n :: cstr text).
Proof.
  intros He Htf Hm Hn Hl. split.
  { exists [[Z.land n 255]; cstr text]. split; [apply spells_char_str|]. cbn. by rewrite app_nil_r, land_255, u8_small. }
  intros Hw Hfit p d. rewrite (output_char_cstr _ p d _ _ _ _ n text He Htf). unfold text_frame, text_args in *.
  assert (Hh : (msg =? PSEUDO_HELP) = false).
  { apply orb_true_iff in Hm as [->%Z.eqb_eq| ->%Z.eqb_eq]; done. }
  rewrite He, Hm, Hh in *.
  cbn [from_option fst snd] in *. pose proof (zlen_cstr text).
  replace $"%c%s" with (spell tf [TI n; TT false (cstr text)]).1 by (by destruct Htf as [-> | ->]).
  replace [AInt n; APtr (cstr text ++ [0])] with (spell tf [TI n; TT false (cstr text)]).2 by (by destruct Htf as [-> | ->]).
  apply (line_sent fd msg word msg tf [TI n; TT false (cstr text)] (n :: cstr text)); try done.
  - destruct Htf as [-> | ->]; cbn; by rewrite app_nil_r.
  - repeat constructor; try done; [lia|lia|lia|]. intros _. apply cstr_nul_free.
  - by destruct Htf as [-> | ->].
Qed.

Lemma says_version fd : says fd MSG_VERSION $"%c%s" [AInt 0; APtr $"infod3"] (0 :: $"infod3").
Proof.
  apply (says_numbered fd MSG_VERSION $"VERSION" $"i|t" 0 $"infod3"); [by vm_compute|by right|done|done|].
  by vm_compute.
Qed.

Lemma says_error fd code text : 0 <= code < 256 -> zlen text <= 65535 ->
  says fd MSG_ERROR $"%c%s" [AInt code; APtr text] (code :: cstr text).
Proof. intros. apply (says_numbered fd MSG_ERROR $"ERROR" $"it" code text); [by vm_compute|by left|done..]. Qed.

End Say.
