(* ===== verification/InfodSim.v ===== *)
(** * The daemon: infod.c implements the abstract server

    The simulation: the abstraction of a daemon's state, the invariant of its clients, and for
    every message the step of the abstract server that [on_app_input] takes. *)
From S2P Require Import Prelude Match StoreDefs StoreLayout StoreOps StoreTheorems Rxbuf.
From S2P Require Import ProtoDefs ProtoBin ProtoTextOut Infod InfodSpec InfodSay.
Import Match.
Local Open Scope infod_scope.

(** The mode of a translator once it has sent something. *)
Definition settle (p : proto) : proto :=
  if mode p =? PROTO_MODE_UNKNOWN then set_mode p PROTO_MODE_BINARY else p.

Definition abs_client (c : client) : aclient :=
  mk_aclient (c_fd c) (mode (settle (c_proto c))) (subs c) (begins c) (bufcmds c).

(** A command that may wait in a transaction, where no payload is longer than [lim]. *)
Definition queued (lim : Z) (cmd : Z * bytes) : Prop :=
  0 <= cmd.1 < 255 /\ cmd.1 <> CMD_BEGIN /\ cmd.1 <> CMD_COMMIT /\ zlen cmd.2 <= lim.

(** The records of the store are no longer than that either. *)
Definition bounded (lim : Z) (M : gmap bytes bytes) : Prop := forall k kv, M !! k = Some kv -> zlen kv <= lim.

(** The largest payload of a message. *)
Definition MAX_PAYLOAD : Z := 65535.

Lemma kv_bounded {ST} {KV : KVStore ST} s M : kv_holds s M -> bounded MAX_PAYLOAD M.
Proof. intros HM k kv Hk. destruct (kv_record s M k kv HM Hk) as [[Hl _] _]. unfold MAX_PAYLOAD. lia. Qed.

(** The invariant of a client. One that speaks the text protocol is only possible where payloads
    are short enough for the buffer of the text encoder. *)
Record client_inv (lim : Z) (c : client) : Prop := {
  ci_mode : mode (c_proto c) = PROTO_MODE_UNKNOWN \/ mode (c_proto c) = PROTO_MODE_BINARY \/
            mode (c_proto c) = PROTO_MODE_FRAMED \/ mode (c_proto c) = PROTO_MODE_TEXT;
  ci_text : mode (c_proto c) = PROTO_MODE_TEXT -> lim <= TEXT_LIMIT;
  ci_nsubs : nsubs c = zlen (subs c);
  ci_max : zlen (subs c) <= MAX_SUBS + 1;
  ci_nbufcmds : nbufcmds c = 0;
  ci_begins : 0 <= begins c < 2 ^ 32;
  ci_tail : begins c <> 0 -> bufcmd_tail c = length (bufcmds c);
  ci_queue : Forall (queued lim) (bufcmds c)
}.
Arguments ci_mode {_ _}.
Arguments ci_text {_ _}.
Arguments ci_nsubs {_ _}.
Arguments ci_max {_ _}.
Arguments ci_nbufcmds {_ _}.
Arguments ci_begins {_ _}.
Arguments ci_tail {_ _}.
Arguments ci_queue {_ _}.

Lemma settle_mode p :
  mode p = PROTO_MODE_UNKNOWN \/ mode p = PROTO_MODE_BINARY \/ mode p = PROTO_MODE_FRAMED \/ mode p = PROTO_MODE_TEXT ->
  mode (settle p) = PROTO_MODE_BINARY \/ mode (settle p) = PROTO_MODE_FRAMED \/
  (mode (settle p) = PROTO_MODE_TEXT /\ mode p = PROTO_MODE_TEXT).
Proof. unfold settle. intros [->|[E|[E|E]]]; [by left| | |]; rewrite E; auto. Qed.

Section Sim.
Context {os : OS} {net : Net} {ST : Type} {KV : KVStore ST}.
Abbreviation daemon := (daemon ST).
Abbreviation spells := (spells (ST:=ST)).
Abbreviation says := (says (ST:=ST)).
Implicit Types (d : daemon) (c : client) (fd msg : Z) (data : bytes) (M : gmap bytes bytes).

Definition abs d : list aclient := abs_client <$> all_clients d.

(** No message has a payload of more than [lim] bytes: at most [MAX_PAYLOAD] in any case, and at
    most [TEXT_LIMIT] when there are text clients. *)
Context {lim : Z}.
Definition Inv d : Prop := NoDup (c_fd <$> all_clients d) /\ Forall (client_inv lim) (all_clients d).

(** ** Clients and their descriptors *)

Lemma abs_fds d : a_fd <$> abs d = c_fd <$> all_clients d.
Proof. unfold abs. by rewrite <- list_fmap_compose. Qed.

Lemma find_elem {A} (f : A -> Z) (l : list A) fd x :
  find (fun y => f y =? fd) l = Some x -> x ∈ l /\ f x = fd.
Proof. intros [H E]%find_some. split; [by apply list_elem_of_In|lia]. Qed.

Lemma find_unique {A} (f : A -> Z) (l : list A) x :
  NoDup (f <$> l) -> x ∈ l -> find (fun y => f y =? f x) l = Some x.
Proof.
  induction l as [|y l IH]; intros Hnd Hin; [by apply not_elem_of_nil in Hin|].
  apply NoDup_cons in Hnd as [Hy Hnd]. cbn [find].
  apply elem_of_cons in Hin as [->|Hin]; [by rewrite Z.eqb_refl|].
  destruct (Z.eqb_spec (f y) (f x)) as [E|E]; [|by apply IH].
  exfalso. apply Hy. rewrite E. by apply list_elem_of_fmap_2.
Qed.

Lemma get_client_elem d fd c : get_client d fd = Done c -> c ∈ all_clients d /\ c_fd c = fd.
Proof.
  unfold get_client. destruct (find _ _) eqn:E; cbn; [|done]. intros [= ->]. by apply find_elem in E.
Qed.

Lemma get_client_uniq d c :
  NoDup (c_fd <$> all_clients d) -> c ∈ all_clients d -> get_client d (c_fd c) = Done c.
Proof. intros Hnd Hin. unfold get_client. by rewrite find_unique. Qed.

Lemma get_client_unique d c : Inv d -> c ∈ all_clients d -> get_client d (c_fd c) = Done c.
Proof. intros [Hnd _]. by apply get_client_uniq. Qed.

Lemma get_client_inv d fd c : Inv d -> get_client d fd = Done c -> client_inv lim c.
Proof. intros [_ H] [Hc _]%get_client_elem. by apply (proj1 (Forall_forall _ _) H). Qed.

Lemma client_of_fd d fd : fd ∈ a_fd <$> abs d -> Inv d -> exists c, get_client d fd = Done c.
Proof.
  rewrite abs_fds. intros (c & -> & Hc)%list_elem_of_fmap Hinv. exists c. by apply get_client_unique.
Qed.

Lemma abs_find d fd c : Inv d -> get_client d fd = Done c -> a_find (abs d) fd = Some (abs_client c).
Proof.
  intros [Hnd _] [Hc <-]%get_client_elem. unfold a_find.
  apply (find_unique a_fd (abs d) (abs_client c)); [by rewrite abs_fds|].
  by apply list_elem_of_fmap_2.
Qed.

Lemma upd_client_uniq d fd f g c :
  NoDup (c_fd <$> all_clients d) -> get_client d fd = Done c -> f c = g c ->
  upd_client d fd f = upd_client d fd g.
Proof.
  intros Hnd [Hc Hfd]%get_client_elem E. unfold upd_client, set_clients. f_equal.
  apply list_fmap_ext. intros i c' Hi. destruct (Z.eqb_spec (c_fd c') fd) as [E'|]; [|done].
  assert (c' = c) as ->; [|done]. apply list_elem_of_lookup_2 in Hi.
  pose proof (get_client_uniq d c' Hnd Hi) as H1. pose proof (get_client_uniq d c Hnd Hc) as H2.
  rewrite E' in H1. rewrite Hfd in H2. congruence.
Qed.

Lemma upd_client_ext d fd f g c :
  Inv d -> get_client d fd = Done c -> f c = g c -> upd_client d fd f = upd_client d fd g.
Proof. intros [Hnd _]. by apply upd_client_uniq. Qed.

Lemma upd_fds d fd f : (forall c, c_fd (f c) = c_fd c) ->
  c_fd <$> all_clients (upd_client d fd f) = c_fd <$> all_clients d.
Proof.
  intros Hf. cbn. rewrite <- list_fmap_compose. apply list_fmap_ext. intros i c _. cbn.
  by destruct (_ =? fd).
Qed.

Lemma upd_get d fd f c :
  (forall c, c_fd (f c) = c_fd c) -> get_client d fd = Done c ->
  get_client (upd_client d fd f) fd = Done (f c).
Proof.
  intros Hf. unfold get_client, upd_client. cbn. induction (all_clients d) as [|x l IH]; [done|]. cbn.
  destruct (Z.eqb_spec (c_fd x) fd) as [E|E].
  - cbn. intros [= <-]. by rewrite Hf, (proj2 (Z.eqb_eq _ _) E).
  - by rewrite (proj2 (Z.eqb_neq _ _) E).
Qed.

Lemma upd_upd d fd f g : (forall c, c_fd (f c) = c_fd c) ->
  upd_client (upd_client d fd f) fd g = upd_client d fd (fun c => g (f c)).
Proof.
  intros Hf. unfold upd_client, set_clients. cbn. f_equal. rewrite <- list_fmap_compose.
  apply list_fmap_ext. intros i c _. cbn. destruct (c_fd c =? fd) eqn:E; [by rewrite Hf, E|by rewrite E].
Qed.

Lemma upd_inv d fd f c :
  (forall c, c_fd (f c) = c_fd c) -> Inv d -> get_client d fd = Done c -> client_inv lim (f c) ->
  Inv (upd_client d fd f).
Proof.
  intros Hf Hinv Hc Hi. destruct (Hinv) as [Hnd Hall]. split; [by rewrite upd_fds|].
  apply Forall_forall. intros x (c' & -> & Hc')%list_elem_of_fmap. destruct (Z.eqb_spec (c_fd c') fd) as [E|E].
  - pose proof (get_client_unique d c' Hinv Hc') as H1. rewrite E in H1. rewrite Hc in H1.
    by injection H1 as <-.
  - by apply (proj1 (Forall_forall _ _) Hall).
Qed.

Lemma upd_abs d fd f c g :
  Inv d -> get_client d fd = Done c -> abs_client (f c) = g (abs_client c) ->
  abs (upd_client d fd f) = a_upd (abs d) fd g.
Proof.
  intros Hinv Hc E. unfold abs, a_upd, upd_client, set_clients. cbn. rewrite <- !list_fmap_compose.
  apply list_fmap_ext. intros i c' Hi. cbn. destruct (Z.eqb_spec (c_fd c') fd) as [E'|]; [|done].
  apply list_elem_of_lookup_2 in Hi. pose proof (get_client_unique d c' Hinv Hi) as H1.
  rewrite E', Hc in H1. by injection H1 as <-.
Qed.

Lemma a_upd_id cs fd g : (forall a, a ∈ cs -> a_fd a = fd -> g a = a) -> a_upd cs fd g = cs.
Proof.
  intros H. unfold a_upd. rewrite <- (list_fmap_id cs) at 2. apply list_fmap_ext. intros i c Hi.
  destruct (Z.eqb_spec (a_fd c) fd); [|done]. apply H; [by eapply list_elem_of_lookup_2|done].
Qed.

(** ** Sending *)

(** Nothing changed but what was sent. *)
Record Said d (outs : list message) d' : Prop := {
  said_abs : abs d' = abs d;
  said_store : the_store d' = the_store d;
  said_events : exists evs, events d' = events d ++ evs /\ on_wire (abs d) outs evs;
  said_inv : Inv d'
}.

Lemma Said_refl d : Inv d -> Said d [] d.
Proof. intros H. split; try done. exists []. split; [by rewrite app_nil_r|constructor]. Qed.

Lemma Said_trans d d1 d2 o1 o2 : Said d o1 d1 -> Said d1 o2 d2 -> Said d (o1 ++ o2) d2.
Proof.
  intros [A1 S1 (e1 & E1 & W1) I1] [A2 S2 (e2 & E2 & W2) I2]. split; [by rewrite A2|by rewrite S2| |done].
  exists (e1 ++ e2). rewrite E2, E1, app_assoc. split; [done|]. rewrite A1 in W2. by apply on_wire_app.
Qed.

Lemma settle_settle p : settle (settle p) = settle p.
Proof. unfold settle. destruct (mode p =? _) eqn:E; [done|]. by rewrite E. Qed.

Lemma logs_inv d evs : Inv d -> Inv (logs d evs).
Proof. done. Qed.

Lemma frame_pos m msg pl : m <> PROTO_MODE_TEXT -> 1 <= zlen (frame m msg pl).
Proof.
  intros Hm. unfold frame. pose proof (zlen_nonneg pl). destruct (_ =? _); [rewrite zlen_cons; lia|].
  rewrite (proj2 (Z.eqb_neq _ _) Hm), zlen_enc_pdu. cbn. lia.
Qed.

(** What [proto_output] passes on, by the mode of the translator. *)
Lemma output_sends fd p d msg fmt ap iov :
  spells fd fmt ap iov -> zlen (concat iov) <= 65535 ->
  mode (settle p) = PROTO_MODE_BINARY \/ mode (settle p) = PROTO_MODE_FRAMED ->
  exists iovs, concat iovs = frame (mode (settle p)) msg (concat iov) /\
    proto_output (send_cb fd) p d msg fmt ap =
      ('(r, d1) ← sendv (send_cb fd) (settle p) d iovs; Done (r, settle p, d1)).
Proof.
  intros Hs Hsz Hp. unfold proto_output, proto_outputv. fold (settle p).
  unfold frame. destruct Hp as [E|E]; rewrite E; cbn [Z.eqb Pos.eqb PROTO_MODE_BINARY PROTO_MODE_FRAMED PROTO_MODE_TEXT].
  - destruct (output_binary_sends (send_cb fd) (settle p) d d msg fmt ap iov)
      as (iovs & -> & Hc); [apply Hs; lia|done|]. by exists iovs.
  - unfold output_framed. rewrite Hs by lia. ostep. by exists ([msg] :: iov).
Qed.

(** The modes of a translator in use. *)
Definition speaks p : Prop :=
  (mode p = PROTO_MODE_UNKNOWN \/ mode p = PROTO_MODE_BINARY \/ mode p = PROTO_MODE_FRAMED \/ mode p = PROTO_MODE_TEXT) /\
  (mode p = PROTO_MODE_TEXT -> lim <= TEXT_LIMIT).

Lemma client_speaks c : client_inv lim c -> speaks (c_proto c).
Proof. by intros []. Qed.

(** A network that takes what it is given. *)
Hypothesis writev_takes : forall ev fd b, writev ev fd b = zlen b.

(** Every message of the daemon is written in the protocol of its client. *)
Lemma output_ok fd p d msg fmt ap pl :
  speaks p -> says fd msg fmt ap pl -> zlen pl <= 65535 ->
  (lim <= TEXT_LIMIT -> zlen (text_frame msg pl) <= 4095) ->
  exists r pieces, 0 < r /\ concat pieces = frame (mode (settle p)) msg pl /\
    (mode (settle p) <> PROTO_MODE_TEXT -> length pieces = 1%nat) /\
    proto_output (send_cb fd) p d msg fmt ap = Done (r, settle p, logs d (Sent fd <$> pieces)).
Proof.
  intros [Hmode Htext] Hsay Hsz Hfit.
  assert (Hplain : mode (settle p) = PROTO_MODE_BINARY \/ mode (settle p) = PROTO_MODE_FRAMED ->
    exists r, 0 < r /\ proto_output (send_cb fd) p d msg fmt ap =
      Done (r, settle p, logs d (Sent fd <$> [frame (mode (settle p)) msg pl]))).
  { intros Hm. destruct (says_iov _ _ _ _ _ Hsay) as (iov & Hs & <-).
    destruct (output_sends fd p d msg fmt ap iov Hs Hsz Hm) as (iovs & E & ->).
    rewrite sendv_takes by done. ostep. rewrite E. eexists. split; [|done].
    pose proof (frame_pos (mode (settle p)) msg (concat iov)). destruct Hm as [E'|E']; rewrite E' in *; specialize (H ltac:(done)); lia. }
  destruct (settle_mode p Hmode) as [Hm|[Hm|[Hm Hm']]].
  1,2: destruct Hplain as (r & Hr & E); [auto|]; exists r, [frame (mode (settle p)) msg pl]; split_and!; try done; cbn; by rewrite app_nil_r.
  destruct (says_text _ _ _ _ _ Hsay writev_takes (Hfit (Htext Hm')) p d) as (r & d' & E & Hr & pieces & -> & Hp).
  exists r, pieces. rewrite Hm. split_and!; try done.
  assert (Es : settle p = p) by (unfold settle; by rewrite Hm'). rewrite Es.
  rewrite proto_output_mode by (by rewrite Hm'). rewrite Hm'.
  change (PROTO_MODE_TEXT =? PROTO_MODE_BINARY) with false. change (PROTO_MODE_TEXT =? PROTO_MODE_TEXT) with true.
  cbv iota. by rewrite E.
Qed.

Lemma client_inv_settle c : client_inv lim c -> client_inv lim (set_proto c (settle (c_proto c))).
Proof.
  intros []. split; try done; cbn; unfold settle; destruct (Z.eqb_spec (mode (c_proto c)) PROTO_MODE_UNKNOWN); auto.
  done.
Qed.

Lemma said_one d fd c msg pl pieces :
  Inv d -> get_client d fd = Done c -> concat pieces = frame (mode (settle (c_proto c))) msg pl ->
  (mode (settle (c_proto c)) <> PROTO_MODE_TEXT -> length pieces = 1%nat) ->
  Said d [(fd, msg, pl)]
    (upd_client (logs d (Sent fd <$> pieces)) fd (fun c' => set_proto c' (settle (c_proto c)))).
Proof.
  intros Hinv Hc Hp Hl. set (d1 := logs d _). assert (Hinv1 : Inv d1) by done.
  assert (Hc1 : get_client d1 fd = Done c) by done. split.
  - rewrite (upd_abs d1 fd _ c (fun a => a)); [by apply a_upd_id|done|done|].
    unfold abs_client. cbn. by rewrite settle_settle.
  - done.
  - exists (Sent fd <$> pieces). split; [done|]. apply (on_wire_one (abs d) (fd, msg, pl)); unfold mode_of; cbn [fst];
      by rewrite (abs_find d fd c).
  - eapply upd_inv; [done|done|done|]. by eapply client_inv_settle, get_client_inv.
Qed.

Lemma client_output_ok d fd c msg fmt ap pl :
  Inv d -> get_client d fd = Done c -> says fd msg fmt ap pl -> zlen pl <= 65535 ->
  (lim <= TEXT_LIMIT -> zlen (text_frame msg pl) <= 4095) ->
  exists r d', client_output d fd msg fmt ap = Done (r, d') /\ 0 < r /\ Said d [(fd, msg, pl)] d'.
Proof.
  intros Hinv Hc Hs Hsz Hfit. pose proof (get_client_inv _ _ _ Hinv Hc) as Hci.
  unfold client_output. rewrite Hc. ostep.
  destruct (output_ok fd _ d msg fmt ap pl (client_speaks c Hci) Hs Hsz Hfit) as (r & pieces & Hr & Hp & Hl & ->). ostep.
  eexists _, _. split; [done|]. split; [done|]. by apply said_one.
Qed.

Lemma zlen_taken text : zlen (cstr (take (Z.to_nat 16383) text)) <= zlen text /\ zlen (cstr (take (Z.to_nat 16383) text)) <= 16383.
Proof.
  pose proof (zlen_cstr (take (Z.to_nat 16383) text)). unfold zlen in *. rewrite length_take in *. lia.
Qed.

Lemma error_out fd p d code text :
  speaks p -> 0 <= code < 256 -> (lim <= TEXT_LIMIT -> zlen text <= TEXT_LIMIT) ->
  exists pieces, concat pieces = frame (mode (settle p)) MSG_ERROR (code :: cstr (take (Z.to_nat 16383) text)) /\
    (mode (settle p) <> PROTO_MODE_TEXT -> length pieces = 1%nat) /\
    proto_output_error (send_cb fd) p d code text =
      Done (if (mode (settle p) =? PROTO_MODE_TEXT) && negb (code =? PROTO_ERROR_INTERNAL) then 1 else -1,
            settle p, logs d (Sent fd <$> pieces)).
Proof.
  intros Hp Hcode Hshort. unfold proto_output_error. destruct (zlen_taken text) as [Ht1 Ht2]. set (b := take _ text) in *.
  destruct (output_ok fd p d MSG_ERROR $"%c%s" [AInt code; APtr b] (code :: cstr b) Hp) as (r & pieces & Hr & Hpc & Hl & ->).
  - apply says_error; [done|]. unfold b, zlen. rewrite length_take. lia.
  - rewrite zlen_cons. lia.
  - intros Hlim. apply error_frame_fits; [done|]. specialize (Hshort Hlim). lia.
  - ostep. destruct (Z.ltb_spec r 0); [lia|]. exists pieces. split; [done|]. split; [done|]. by destruct (_ && _).
Qed.

(** An error that is the client's own fault does not end a text connection. *)
Lemma client_error_ok d fd c code text :
  Inv d -> get_client d fd = Done c -> 0 <= code < 256 -> (lim <= TEXT_LIMIT -> zlen text <= TEXT_LIMIT) ->
  exists d', client_error d fd code text =
      Done (if forgiven (abs_client c) && negb (code =? PROTO_ERROR_INTERNAL) then 1 else -1, d') /\
    Said d [error_to fd code (cstr (take (Z.to_nat 16383) text))] d'.
Proof.
  intros Hinv Hc Hcode Hshort. pose proof (get_client_inv _ _ _ Hinv Hc) as Hci.
  unfold client_error. rewrite Hc. ostep.
  destruct (error_out fd _ d code text (client_speaks c Hci) Hcode Hshort) as (pieces & Hp & Hl & ->). ostep.
  eexists. split; [done|]. by apply said_one.
Qed.

End Sim.
