(* ===== verification/InfodCmd.v ===== *)
(** * The daemon: every command takes a step of the abstract server *)
From S2P Require Import Prelude Match StoreDefs StoreLayout StoreOps StoreTheorems Rxbuf.
From S2P Require Import ProtoDefs ProtoBin ProtoTextOut Infod InfodSpec InfodSay InfodSim.
Import Match.
Local Open Scope infod_scope.

Section Commands.
Context {os : OS} {net : Net} {ST : Type} {KV : KVStore ST}.
Abbreviation daemon := (daemon ST).
Implicit Types (d : daemon) (c : client) (fd msg : Z) (data : bytes) (M : gmap bytes bytes).
Hypothesis writev_takes : forall ev fd b, writev ev fd b = zlen b.

(** Payloads and the texts of [strerror] are short when there are text clients. *)
Context {lim : Z}.
Hypothesis lim_payload : lim <= MAX_PAYLOAD.
Hypothesis errors_short : lim <= TEXT_LIMIT -> forall ev, zlen (strerror ev) <= 255.
Abbreviation Inv := (Inv (lim:=lim)).
Abbreviation Said := (Said (lim:=lim)).

(** ** Notification *)

Lemma info_output_ok d fd c kv :
  Inv d -> get_client d fd = Done c -> zlen kv <= lim ->
  exists r d', client_output d fd MSG_INFO $"%*s" [AInt (zlen kv); APtr kv] = Done (r, d') /\ 0 < r /\
    Said d [(fd, MSG_INFO, kv)] d'.
Proof.
  intros Hinv Hc Hsz. unfold MAX_PAYLOAD in *. apply (client_output_ok writev_takes d fd c); try done; [apply says_info; lia|lia|].
  intros Hl. apply info_frame_fits. lia.
Qed.

Lemma match_hits pattern key : negb (match_ pattern key =? 0) = bool_decide (hits key pattern).
Proof. unfold hits. destruct (Z.eqb_spec (match_ pattern key) 0); case_bool_decide; done. Qed.

Lemma filter_cons_dec {A} (P : A -> Prop) `{forall x, Decision (P x)} x l :
  filter P (x :: l) = if bool_decide (P x) then x :: filter P l else filter P l.
Proof. rewrite filter_cons. case_decide; case_bool_decide; done. Qed.

Lemma notify_subs_ok fd data l : forall d,
  Inv d -> fd ∈ a_fd <$> abs d -> zlen data <= lim ->
  exists d', notify_subs d fd l data = Done d' /\
    Said d ((fun _ => (fd, MSG_INFO, data)) <$> filter (hits data) l) d'.
Proof.
  induction l as [|sub l IH]; intros d Hinv Hfd Hsz; cbn [notify_subs].
  { exists d. split; [done|]. by apply Said_refl. }
  rewrite match_hits, filter_cons_dec. case_bool_decide as Hh; [|by apply IH].
  destruct (client_of_fd d fd Hfd Hinv) as [c Hc].
  destruct (info_output_ok d fd c data Hinv Hc Hsz) as (r & d1 & -> & Hr & Hs). ostep.
  destruct (Z.eqb_spec r (-1)); [lia|].
  destruct (IH d1) as (d2 & -> & Hs2); [apply Hs|by rewrite (said_abs _ _ _ Hs)|done|].
  exists d2. split; [done|]. rewrite fmap_cons. by eapply (Said_trans d d1 d2 [_]).
Qed.

Lemma notify_clients_ok data l : forall d,
  Inv d -> (c_fd <$> l) ⊆ (a_fd <$> abs d) -> zlen data <= lim ->
  exists d', notify_clients d l data = Done d' /\ Said d (notices (abs_client <$> l) data) d'.
Proof.
  induction l as [|c l IH]; intros d Hinv Hfd Hsz; cbn [notify_clients].
  { exists d. split; [done|]. by apply Said_refl. }
  rewrite fmap_cons in Hfd.
  destruct (notify_subs_ok (c_fd c) data (subs c) d) as (d1 & -> & Hs); [done|set_solver|done|]. ostep.
  destruct (IH d1) as (d2 & -> & Hs2); [apply Hs|rewrite (said_abs _ _ _ Hs); set_solver|done|].
  exists d2. split; [done|]. by eapply Said_trans.
Qed.

Lemma notify_all_ok data d :
  Inv d -> zlen data <= lim ->
  exists d', notify_clients d (all_clients d) data = Done d' /\ Said d (notices (abs d) data) d'.
Proof. intros Hinv Hsz. apply notify_clients_ok; [done|by rewrite abs_fds|done]. Qed.

(** ** The records a subscriber is sent *)

Lemma sub_loop_ok fd data ks fuel : forall d ix,
  Inv d -> fd ∈ a_fd <$> abs d -> Forall (fun kv => zlen kv <= lim) ks -> (length ks <= fuel + ix)%nat ->
  (forall ix, kv_next (the_store d) ix = Done (ks !! ix, if decide (ix < length ks)%nat then S ix else ix)) ->
  exists d', sub_loop fuel d fd data ix = Done (1, d') /\ Said d (snapshot fd data (drop ix ks)) d'.
Proof.
  induction fuel as [|fuel IH]; intros d ix Hinv Hfd Hwf Hlen Hnext; cbn [sub_loop];
    rewrite Hnext; ostep.
  { rewrite lookup_ge_None_2 by lia. exists d. rewrite drop_ge by lia. split; [done|]. by apply Said_refl. }
  destruct (ks !! ix) as [kv|] eqn:Ekv.
  2:{ exists d. rewrite drop_ge by (by apply lookup_ge_None). split; [done|]. by apply Said_refl. }
  pose proof (proj1 (Forall_lookup _ _) Hwf _ _ Ekv) as Hkv. cbn in Hkv.
  rewrite decide_True by (by eapply lookup_lt_Some). rewrite (drop_S ks kv ix Ekv).
  unfold snapshot. rewrite match_hits, filter_cons_dec. case_bool_decide as Hh; [|apply IH; done || lia].
  destruct (client_of_fd d fd Hfd Hinv) as [c Hc].
  destruct (info_output_ok d fd c kv Hinv Hc Hkv) as (r & d1 & -> & Hr & Hs). ostep.
  destruct (Z.eqb_spec r (-1)); [lia|].
  destruct (IH d1 (S ix)) as (d2 & -> & Hs2);
    [apply Hs|by rewrite (said_abs _ _ _ Hs)|done|lia|by rewrite (said_store _ _ _ Hs)|].
  exists d2. split; [done|]. rewrite fmap_cons. by eapply (Said_trans d d1 d2 [_]).
Qed.

(** ** The simulation of one command *)

(** The handler returned, and the abstract server took the step. *)
Record Sim d M (n : nat) fd c msg data (res : outcome (Z * daemon)) : Prop := mk_sim {
  sim_step : exists r d' outs M', res = Done (r, d') /\
    step M (abs d) fd (abs_client c) msg data (bool_decide (0 < r)) outs M' (abs d') /\
    kv_holds (the_store d') M' /\ kv_room (the_store d') n /\
    (exists evs, events d' = events d ++ evs /\ on_wire (abs d) outs evs) /\ Inv d'
}.

(** A command that only talks. *)
Lemma sim_said d M n fd c msg data r d' outs :
  kv_holds (the_store d) M -> kv_room (the_store d) (S n) -> Said d outs d' ->
  step M (abs d) fd (abs_client c) msg data (bool_decide (0 < r)) outs M (abs d) ->
  Sim d M n fd c msg data (Done (r, d')).
Proof.
  intros HM Hn [A S E I] Hst. split. exists r, d', outs, M. rewrite A, S. split_and!; try done.
  by apply kv_room_law.
Qed.

Lemma sim_error d M n fd c msg data code text :
  Inv d -> get_client d fd = Done c -> kv_holds (the_store d) M -> kv_room (the_store d) (S n) ->
  0 <= code < 256 -> (lim <= TEXT_LIMIT -> zlen text <= TEXT_LIMIT) ->
  step M (abs d) fd (abs_client c) msg data (forgiven (abs_client c) && negb (code =? PROTO_ERROR_INTERNAL))
    [error_to fd code (cstr (take (Z.to_nat 16383) text))] M (abs d) ->
  Sim d M n fd c msg data (client_error d fd code text).
Proof.
  intros Hinv Hc HM Hn Hcode Hl Hst.
  destruct (client_error_ok writev_takes d fd c code text Hinv Hc Hcode Hl) as (d' & -> & Hs).
  eapply sim_said; [done|done|exact Hs|]. by destruct (forgiven _ && _).
Qed.

Lemma sim_output d M n fd c msg data reply fmt ap pl :
  Inv d -> get_client d fd = Done c -> kv_holds (the_store d) M -> kv_room (the_store d) (S n) ->
  says (ST:=ST) fd reply fmt ap pl -> zlen pl <= 65535 ->
  (lim <= TEXT_LIMIT -> zlen (text_frame reply pl) <= 4095) ->
  step M (abs d) fd (abs_client c) msg data true [(fd, reply, pl)] M (abs d) ->
  Sim d M n fd c msg data (client_output d fd reply fmt ap).
Proof.
  intros Hinv Hc HM Hn Hs Hsz Hfit Hst.
  destruct (client_output_ok writev_takes d fd c reply fmt ap pl Hinv Hc Hs Hsz Hfit) as (r & d' & -> & Hr & Hsd).
  eapply sim_said; [done|done|exact Hsd|]. by rewrite bool_decide_true.
Qed.

(** Texts of the source are short and have no NUL. *)
Lemma text_id (text : bytes) : zlen text <= 16383 -> nul_free text -> cstr (take (Z.to_nat 16383) text) = text.
Proof. intros Hl Hn. rewrite take_ge by (unfold zlen in Hl; lia). by apply cstr_id. Qed.

(** The handler reports an error with a text of the source. *)
Ltac say_error :=
  eapply sim_error; [done|done|done|done|done|by vm_compute|];
  rewrite text_id, andb_true_r; [|vm_compute; discriminate|repeat constructor; discriminate].

Lemma sim_hello d M n fd c data :
  Inv d -> get_client d fd = Done c -> kv_holds (the_store d) M -> kv_room (the_store d) (S n) ->
  Sim d M n fd c CMD_HELLO data (client_output d fd MSG_VERSION $"%c%s" [AInt 0; APtr $"infod3"]).
Proof.
  intros Hinv Hc HM Hn. eapply sim_output; [done|done|done|done|apply says_version|done|by vm_compute|].
  apply st_hello.
Qed.

Lemma sim_ping d M n fd c data :
  Inv d -> get_client d fd = Done c -> kv_holds (the_store d) M -> kv_room (the_store d) (S n) ->
  zlen data <= lim ->
  Sim d M n fd c CMD_PING data (client_output d fd MSG_PONG $"%*s" [AInt (zlen data); APtr data]).
Proof.
  intros Hinv Hc HM Hn Hsz. unfold MAX_PAYLOAD in *.
  eapply sim_output; [done|done|done|done|apply says_pong; lia|lia|intros ?; apply pong_frame_fits; lia|apply st_ping].
Qed.

Lemma sim_read d M n fd c data :
  Inv d -> get_client d fd = Done c -> kv_holds (the_store d) M -> kv_room (the_store d) (S n) ->
  bounded lim M -> zlen data <= lim -> Sim d M n fd c CMD_READ data (cmd_read d fd data).
Proof.
  intros Hinv Hc HM Hn HB Hsz. unfold MAX_PAYLOAD in *. unfold cmd_read, contains_nul. case_bool_decide as Hnul.
  { say_error. by apply st_read_bad. }
  rewrite (kv_get_law _ _ data HM). ostep. rewrite (cstr_no_nul data Hnul).
  destruct (M !! data) as [kv|] eqn:Ek.
  - pose proof (HB _ _ Ek).
    eapply sim_output; [done|done|done|done|apply says_info; lia|lia|intros ?; apply info_frame_fits; lia|by apply st_read].
  - eapply sim_output; [done|done|done|done|apply says_absent; [lia|done]|lia|intros ?; apply info_frame_fits; lia|].
    by apply st_read_absent.
Qed.

(** The subscriptions changed, and nothing was sent. *)
Lemma set_subs_ok d fd c l :
  Inv d -> get_client d fd = Done c -> zlen l <= MAX_SUBS + 1 ->
  let d1 := upd_client d fd (fun c => set_subs c (zlen l) l) in
  Inv d1 /\ abs d1 = a_upd (abs d) fd (with_subs l).
Proof.
  intros Hinv Hc Hl d1. pose proof (get_client_inv _ _ _ Hinv Hc) as [].
  split; [by eapply upd_inv|by eapply upd_abs].
Qed.

(** The framing of a socket does not depend on the subscriptions or the transaction. *)
Lemma mode_of_upd cs fd f fd' :
  (forall a, a_fd (f a) = a_fd a) -> (forall a, a_mode (f a) = a_mode a) ->
  mode_of (a_upd cs fd f) fd' = mode_of cs fd'.
Proof.
  intros Hf Hm. unfold mode_of, a_find, a_upd. induction cs as [|a cs IH]; [done|]. cbn.
  assert (a_fd (if a_fd a =? fd then f a else a) = a_fd a) as -> by (destruct (_ =? fd); auto).
  destruct (a_fd a =? fd') eqn:E; [|done]. cbn. destruct (_ =? fd); auto.
Qed.

Lemma wire_upd cs fd f outs evs :
  (forall a, a_fd (f a) = a_fd a) -> (forall a, a_mode (f a) = a_mode a) ->
  on_wire (a_upd cs fd f) outs evs -> on_wire cs outs evs.
Proof. intros Hf Hm. apply on_wire_modes. intros fd'. by rewrite mode_of_upd. Qed.

(** A subscription that is accepted: it is there when the records are sent. *)
Lemma sub_taken d M fd c data :
  Inv d -> get_client d fd = Done c -> kv_holds (the_store d) M -> bounded lim M ->
  zlen (subs c) <= MAX_SUBS -> 0 ∉ data -> match_isvalid data = true ->
  subscription_new (events d) data = Some data ->
  exists ks d', cmd_sub d fd data = Done (1, d') /\ key_sorted ks /\ kvmap ks = M /\
    abs d' = a_upd (abs d) fd (with_subs (data :: subs c)) /\ the_store d' = the_store d /\
    (exists evs, events d' = events d ++ evs /\ on_wire (abs d) (snapshot fd data ks) evs) /\ Inv d'.
Proof.
  intros Hinv Hc HM HB Hfew Hnul Hval Hnew. pose proof (get_client_inv _ _ _ Hinv Hc) as Hci.
  pose proof (zlen_nonneg (subs c)). unfold cmd_sub, contains_nul. rewrite Hc. ostep. rewrite (ci_nsubs Hci).
  rewrite (proj2 (Z.ltb_ge _ _) Hfew), bool_decide_false, Hval, Hnew by done. cbn [negb orb].
  rewrite (upd_client_ext (lim:=lim) d fd _ (fun c => set_subs c (zlen (data :: subs c)) (data :: subs c)) c);
    [|done|done|rewrite (ci_nsubs Hci), zlen_cons, u32_small; [f_equal; lia|unfold MAX_SUBS in *; lia]].
  rewrite (upd_client_ext (lim:=lim) d fd _ (fun c' => set_subs c' (zlen (data :: subs c)) (data :: subs c)) c); [|done..].
  destruct (set_subs_ok d fd c (data :: subs c) Hinv Hc) as [Hinv1 Habs]; [rewrite zlen_cons; lia|].
  set (d1 := upd_client d fd _) in *.
  destruct (kv_next_law _ _ HM) as (ks & Hsort & Hks & Hwf & Hlen & Hnext).
  assert (Hfd : fd ∈ a_fd <$> abs d1).
  { rewrite abs_fds. unfold d1. rewrite upd_fds by done. apply list_elem_of_fmap. exists c.
    by apply get_client_elem in Hc as [? ->]. }
  assert (Hks' : Forall (fun kv => zlen kv <= lim) ks).
  { apply Forall_forall. intros kv Hin. apply (HB (cstr kv)). rewrite <- Hks. apply kvmap_elem; [by apply key_sorted_nodup|done]. }
  destruct (sub_loop_ok fd data ks (kv_size (the_store d1)) d1 0) as (d2 & -> & [A S (evs & E & W) I]);
    [done|done|done|change (the_store d1) with (the_store d); lia|done|].
  exists ks, d2. rewrite A, Habs, S. split_and!; try done. exists evs. split; [done|].
  rewrite Habs in W. by apply wire_upd in W.
Qed.

Lemma sim_sub d M n fd c data :
  Inv d -> get_client d fd = Done c -> kv_holds (the_store d) M -> kv_room (the_store d) (S n) ->
  bounded lim M -> Sim d M n fd c CMD_SUB data (cmd_sub d fd data).
Proof.
  intros Hinv Hc HM Hn HB. pose proof (get_client_inv _ _ _ Hinv Hc) as Hci. unfold cmd_sub. rewrite Hc. ostep.
  rewrite (ci_nsubs Hci). destruct (Z.ltb_spec MAX_SUBS (zlen (subs c))) as [Hmany|Hfew].
  { say_error. by apply st_sub_many. }
  destruct (contains_nul data || negb (match_isvalid data)) eqn:Ebad.
  { say_error. apply st_sub_bad; [|done].
    apply orb_true_iff in Ebad as [E|E]; [left; by apply bool_decide_eq_true in E|right; by apply negb_true_iff]. }
  pose proof Ebad as [E1%bool_decide_eq_false E2%negb_false_iff]%orb_false_iff.
  destruct (subscription_new (events d) data) as [sub|] eqn:Enew.
  2:{ eapply sim_error; [done|done|done|done|done| |].
      - intros Hl. rewrite zlen_app. pose proof (errors_short Hl (events d)). change (zlen $"sub: ") with 5. unfold TEXT_LIMIT. lia.
      - rewrite andb_false_r. apply st_sub_fail; [done|done|done|]. exists (events d).
        unfold subscription_new in Enew. by destruct (malloc_ok _ _). }
  assert (sub = data) as -> by (unfold subscription_new in Enew; destruct (malloc_ok _ _); [by injection Enew|done]).
  destruct (sub_taken d M fd c data Hinv Hc HM HB Hfew E1 E2 Enew) as (ks & d2 & E & Hsort & Hks & A & S & Ev & I).
  unfold cmd_sub in E. rewrite Hc in E. cbn [mbind outcome_bind] in E. rewrite (ci_nsubs Hci), Ebad, Enew in E.
  rewrite (proj2 (Z.ltb_ge _ _) Hfew) in E. rewrite E.
  split. eexists 1, d2, (snapshot fd data ks), M. rewrite A, S. split_and!; try done; [by apply st_sub|by apply kv_room_law].
Qed.

Lemma find_subscription_ok l data :
  match client_find_subscription l data with
  | None => data ∉ l
  | Some i => exists l1 l2, l = l1 ++ data :: l2 /\ data ∉ l1 /\ delete i l = l1 ++ l2
  end.
Proof using Type.
  induction l as [|sub l IH]; cbn; [by apply not_elem_of_nil|]. case_bool_decide as E.
  { subst. exists [], l. split_and!; [done|by apply not_elem_of_nil|done]. }
  destruct (client_find_subscription l data) as [i|]; cbn.
  - destruct IH as (l1 & l2 & -> & Hn & Hd). exists (sub :: l1), l2.
    split_and!; [done|by apply not_elem_of_cons; split; [intros ->|]|]. change (sub :: delete i (l1 ++ data :: l2) = (sub :: l1) ++ l2).
    by rewrite Hd.
  - by apply not_elem_of_cons; split; [intros ->|].
Qed.

Lemma unsub_taken d fd c data l1 l2 :
  Inv d -> get_client d fd = Done c -> subs c = l1 ++ data :: l2 -> data ∉ l1 ->
  exists d', cmd_unsub d fd data = Done (1, d') /\ abs d' = a_upd (abs d) fd (with_subs (l1 ++ l2)) /\
    the_store d' = the_store d /\ events d' = events d /\ Inv d'.
Proof using Type.
  intros Hinv Hc Hl Hn1. pose proof (get_client_inv _ _ _ Hinv Hc) as Hci. pose proof (ci_max Hci) as Hmax.
  unfold cmd_unsub. rewrite Hc. ostep. pose proof (find_subscription_ok (subs c) data) as Hf.
  destruct (client_find_subscription (subs c) data) as [i|]; [|exfalso; apply Hf; rewrite Hl; apply elem_of_app; right; left].
  destruct Hf as (l1' & l2' & Hl' & Hn1' & Hd).
  assert (l1' = l1 /\ l2' = l2) as [-> ->].
  { rewrite Hl in Hl'. clear -Hl' Hn1 Hn1'. revert l1' Hl' Hn1'.
    induction l1 as [|x l1 IH]; intros [|x' l1'] E Hn'; cbn in E; rewrite ?not_elem_of_cons in *.
    - by injection E.
    - injection E as E _. by destruct Hn' as [Hn' _].
    - injection E as E _. by destruct Hn1 as [Hn1 _].
    - injection E as <- E. destruct (IH (proj2 Hn1) l1' E (proj2 Hn')) as [-> ->]. done. }
  assert (Hlen : zlen (subs c) = 1 + zlen (l1 ++ l2)) by (rewrite Hl; zlen_lia).
  pose proof (zlen_nonneg (l1 ++ l2)).
  rewrite (upd_client_ext (lim:=lim) d fd _ (fun c' => set_subs c' (zlen (l1 ++ l2)) (l1 ++ l2)) c); [|done|done|].
  2:{ rewrite Hd, (ci_nsubs Hci), Hlen, u32_small by (unfold MAX_SUBS in *; lia). f_equal. lia. }
  destruct (set_subs_ok d fd c (l1 ++ l2) Hinv Hc) as [Hinv1 Habs]; [lia|]. eexists. by split_and!.
Qed.

Lemma unsub_absent d fd c data :
  get_client d fd = Done c -> data ∉ subs c -> cmd_unsub d fd data = Done (1, d).
Proof using Type.
  intros Hc Hn. unfold cmd_unsub. rewrite Hc. ostep. pose proof (find_subscription_ok (subs c) data) as Hf.
  destruct (client_find_subscription (subs c) data) as [i|]; [|done]. destruct Hf as (l1 & l2 & E & _). exfalso. apply Hn. rewrite E. apply elem_of_app. right. left.
Qed.

Lemma sim_unsub d M n fd c data :
  Inv d -> get_client d fd = Done c -> kv_holds (the_store d) M -> kv_room (the_store d) (S n) ->
  Sim d M n fd c CMD_UNSUB data (cmd_unsub d fd data).
Proof.
  intros Hinv Hc HM Hn. pose proof (find_subscription_ok (subs c) data) as Hf.
  destruct (client_find_subscription (subs c) data) as [i|].
  - destruct Hf as (l1 & l2 & Hl & Hn1 & _).
    destruct (unsub_taken d fd c data l1 l2 Hinv Hc Hl Hn1) as (d' & -> & A & S & E & I).
    split. eexists 1, d', [], M. rewrite A, S. split_and!; try done;
      [by apply st_unsub|by apply kv_room_law|exists []; split; [by rewrite app_nil_r|constructor]].
  - rewrite (unsub_absent d fd c data) by done.
    eapply sim_said; [done|done|by apply Said_refl|by apply st_unsub_absent].
Qed.

(** ** WRITE *)

(** What the change to the store leaves to do. *)
Lemma write_sim d M n fd c data s M' outs r d2 :
  kv_holds s M' -> kv_room s n -> Said (set_store d s) outs d2 ->
  step M (abs d) fd (abs_client c) CMD_WRITE data (bool_decide (0 < r)) outs M' (abs d) ->
  Sim d M n fd c CMD_WRITE data (Done (r, d2)).
Proof.
  intros HM Hn [A S E I] Hst. split. exists r, d2, outs, M'. rewrite A, S. split_and!; done.
Qed.

Lemma sim_notify d M n fd c data s M' :
  Inv d -> zlen data <= lim -> kv_holds s M' -> kv_room s n ->
  step M (abs d) fd (abs_client c) CMD_WRITE data true (notices (abs d) data) M' (abs d) ->
  Sim d M n fd c CMD_WRITE data
    (d2 ← notify_clients (set_store d s) (all_clients (set_store d s)) data; Done (1, d2)).
Proof.
  intros Hinv Hsz HM Hn Hst.
  destruct (notify_all_ok data (set_store d s) Hinv Hsz) as (d2 & -> & Hs). ostep.
  by eapply write_sim; [..|exact Hs|].
Qed.

Lemma sim_quiet d M n fd c data s M' :
  Inv d -> zlen data <= lim -> kv_holds s M' -> kv_room s n ->
  step M (abs d) fd (abs_client c) CMD_WRITE data true [] M' (abs d) ->
  Sim d M n fd c CMD_WRITE data (Done (1, set_store d s)).
Proof.
  intros Hinv Hsz HM Hn Hst. eapply write_sim; [done|done|by apply (Said_refl (set_store d s))|done].
Qed.

Lemma set_store_same d : set_store d (the_store d) = d.
Proof. by destruct d. Qed.

Lemma sim_write d M n fd c data :
  Inv d -> get_client d fd = Done c -> kv_holds (the_store d) M -> kv_room (the_store d) (S n) ->
  zlen data <= lim -> Sim d M n fd c CMD_WRITE data (cmd_write d fd data).
Proof.
  intros Hinv Hc HM Hn Hsz. unfold cmd_write, write_store, contains_nul. case_bool_decide as Hnul; cbn [negb].
  - destruct (is_ephemeral data) eqn:Eeph; ostep.
    { rewrite <- (set_store_same d) at 2 3. eapply sim_notify; [done|done|done|by apply kv_room_law|].
      by apply st_write_ephemeral. }
    rewrite (u16_small (zlen data)) by (pose proof (zlen_nonneg data); unfold MAX_PAYLOAD in *; lia).
    destruct (kv_put_law _ _ data n HM Hn) as (r & s & M' & -> & HM' & Hn' & Hr); [split; [unfold MAX_PAYLOAD in *; lia|done]|].
    ostep. destruct Hr as [(-> & -> & -> & Hsame)|[(-> & Hdiff & ->)|(-> & Hfail & ->)]]; cbn [Z.eqb]; ostep.
    + eapply sim_quiet; [done|done|done|done|by apply st_write_same].
    + eapply sim_notify; [done|done|done|done|by apply st_write].
    + set (text := $"write: " ++ _).
      destruct (client_error_ok writev_takes (set_store d s) fd c PROTO_ERROR_INTERNAL text Hinv Hc)
        as (d2 & -> & Hs); [done| |].
      { intros Hl. unfold text. rewrite zlen_app. pose proof (errors_short Hl (events (set_store d s))).
        change (zlen $"write: ") with 7. unfold TEXT_LIMIT. lia. }
      rewrite andb_false_r. ostep. eapply write_sim; [done|done|exact Hs|]. by apply st_write_fail.
  - destruct (kv_del_law _ _ data (S n) HM Hn) as (s & -> & HM' & Hn' & Hs). ostep.
    rewrite (cstr_no_nul data Hnul) in *. destruct (M !! data) as [kv|] eqn:Ek.
    + rewrite decide_True by done. cbn [Z.eqb]. ostep.
      eapply sim_notify; [done|done|done|by apply kv_room_law|by eapply st_delete].
    + rewrite decide_False by (by intros [? ?]). cbn [Z.eqb]. ostep.
      rewrite delete_id in HM' by done.
      eapply sim_quiet; [done|done|done|by apply kv_room_law|by apply st_delete_absent].
Qed.

(** ** Any command outside a transaction *)

Lemma sim_begin d M n fd c data :
  Inv d -> get_client d fd = Done c -> kv_holds (the_store d) M -> kv_room (the_store d) (S n) ->
  bufcmds c = [] -> Sim d M n fd c CMD_BEGIN data (cmd_begin d fd).
Proof.
  intros Hinv Hc HM Hn Hq. pose proof (get_client_inv _ _ _ Hinv Hc) as [].
  unfold cmd_begin. split. eexists 1, _, [], M. split; [done|]. split_and!.
  - rewrite (upd_abs d fd _ c (with_txn 1 (a_queue (abs_client c)))) by done. apply st_begin.
  - done.
  - by apply kv_room_law.
  - exists []. split; [by rewrite app_nil_r|constructor].
  - eapply upd_inv; [done|done|done|]. split; cbn; try done. by rewrite Hq.
Qed.

Lemma hex2_text msg : 0 <= msg < 256 -> zlen ($"unexpected message " ++ hex2 msg) <= 16383 /\
  nul_free ($"unexpected message " ++ hex2 msg).
Proof.
  intros Hm. split; [vm_compute; discriminate|]. unfold nul_free.
  apply Forall_app. split; [repeat constructor; discriminate|].
  unfold hex2, hex_digit. repeat constructor; bool_cases; divlia.
Qed.

Lemma run_command_sim d M n fd c msg data :
  Inv d -> get_client d fd = Done c -> kv_holds (the_store d) M -> kv_room (the_store d) (S n) ->
  bounded lim M -> 0 <= msg < 256 -> zlen data <= lim -> (msg = CMD_BEGIN -> bufcmds c = []) ->
  Sim d M n fd c msg data (run_command d fd msg data).
Proof.
  intros Hinv Hc HM Hn HB Hmsg Hsz Hb. unfold run_command.
  destruct (Z.eqb_spec msg CMD_HELLO) as [->|H1]; [by apply sim_hello|].
  destruct (Z.eqb_spec msg CMD_SUB) as [->|H2]; [by apply sim_sub|].
  destruct (Z.eqb_spec msg CMD_UNSUB) as [->|H3]; [by apply sim_unsub|].
  destruct (Z.eqb_spec msg CMD_READ) as [->|H4]; [by apply sim_read|].
  destruct (Z.eqb_spec msg CMD_WRITE) as [->|H5]; [by apply sim_write|].
  destruct (Z.eqb_spec msg CMD_PING) as [->|H6]; [by apply sim_ping|].
  destruct (Z.eqb_spec msg CMD_BEGIN) as [->|H7]; [by apply sim_begin; auto|].
  destruct (Z.eqb_spec msg CMD_COMMIT) as [->|H8]; [say_error; apply st_commit|].
  eapply sim_error; [done|done|done|done|done|by vm_compute|]. destruct (hex2_text msg Hmsg).
  rewrite text_id, andb_true_r by done. apply st_unknown.
  unfold CMD_HELLO, CMD_SUB, CMD_UNSUB, CMD_READ, CMD_WRITE, CMD_PING, CMD_BEGIN, CMD_COMMIT in *. lia.
Qed.

End Commands.
