(* ===== verification/InfodTheorems.v ===== *)
(** * The daemon: its theorems *)
From S2P Require Import Prelude Match StoreDefs StoreLayout StoreRep StoreOps StoreTheorems.
From S2P Require Import Rxbuf ProtoDefs ProtoBin ProtoTextOut Infod InfodSpec InfodSay InfodSim InfodCmd.
Import Match.
Local Open Scope infod_scope.

(** ** Facts of the abstract server *)

Section Server.
Context {F : Faults}.

(** What a command may change of a client: its subscriptions, and by BEGIN its transaction. *)
Definition keeps (f : aclient -> aclient) : Prop :=
  forall a, a_fd (f a) = a_fd a /\ a_mode (f a) = a_mode a.

Lemma step_clients M cs fd c msg data ok outs M' cs' :
  step M cs fd c msg data ok outs M' cs' ->
  exists f, cs' = a_upd cs fd f /\ keeps f /\
    (msg <> CMD_BEGIN -> forall a, a_begins (f a) = a_begins a /\ a_queue (f a) = a_queue a).
Proof.
  assert (Hid : exists f, cs = a_upd cs fd f /\ keeps f /\
    (msg <> CMD_BEGIN -> forall a, a_begins (f a) = a_begins a /\ a_queue (f a) = a_queue a)).
  { exists id. split; [|done]. symmetry. by apply a_upd_id. }
  destruct 1; try exact Hid; eexists; (split; [reflexivity|]; split; [done|]; done).
Qed.

Lemma step_begin M cs fd c data ok outs M' cs' :
  step M cs fd c CMD_BEGIN data ok outs M' cs' -> cs' = a_upd cs fd (with_txn 1 (a_queue c)).
Proof. inversion 1; subst; [done|]. unfold CMD_BEGIN, CMD_PING in *. lia. Qed.

Lemma a_find_upd cs fd f c :
  keeps f -> a_find cs fd = Some c -> a_find (a_upd cs fd f) fd = Some (f c).
Proof.
  intros Hf. unfold a_find, a_upd. induction cs as [|a cs IH]; [done|]. cbn.
  destruct (Z.eqb_spec (a_fd a) fd) as [E|E].
  - intros [= ->]. rewrite (proj1 (Hf c)). by rewrite (proj2 (Z.eqb_eq _ _) E).
  - rewrite (proj2 (Z.eqb_neq _ _) E). auto.
Qed.

(** No record gets longer than what is written. *)
Lemma step_bounded lim M cs fd c msg data ok outs M' cs' :
  step M cs fd c msg data ok outs M' cs' -> bounded lim M -> zlen data <= lim -> bounded lim M'.
Proof.
  assert (Hdel : forall k, bounded lim M -> bounded lim (delete k M)).
  { intros k HB k' kv [_ Hk]%lookup_delete_Some. by apply (HB k'). }
  intros Hst HB Hd. destruct Hst; try done; try (by apply Hdel).
  intros k kv [[_ <-]|[_ Hk]]%lookup_insert_Some; [done|by apply (HB k)].
Qed.

Lemma run_queue_bounded lim M cs fd q ok outs M' cs' :
  run_queue M cs fd q ok outs M' cs' -> bounded lim M -> Forall (fun cmd => zlen cmd.2 <= lim) q -> bounded lim M'.
Proof.
  induction 1 as [|M cs fd c msg data q outs M' cs' Hc Hst|M cs fd c msg data q outs M1 cs1 ok outs' M' cs' Hc Hst Hrun IH];
    [done|..]; intros HB [Hd Hq]%Forall_cons; cbn in Hd.
  - by eapply step_bounded.
  - apply IH; [by eapply step_bounded|done].
Qed.

Lemma accept_bounded lim M cs fd c msg data ok outs M' cs' :
  accept M cs fd c msg data ok outs M' cs' -> bounded lim M -> zlen data <= lim ->
  Forall (fun cmd => zlen cmd.2 <= lim) (a_queue c) -> bounded lim M'.
Proof.
  intros Ha HB Hd Hq. destruct Ha; try done; [by eapply step_bounded|by eapply run_queue_bounded].
Qed.

End Server.

Lemma queued_short lim q : Forall (queued lim) q -> Forall (fun cmd : Z * bytes => zlen cmd.2 <= lim) q.
Proof. intros H. eapply Forall_impl; [exact H|]. by intros cmd (_ & _ & _ & ?). Qed.

Section Theorems.
Context {os : OS} {net : Net} {ST : Type} {KV : KVStore ST}.
Abbreviation daemon := (daemon ST).
Implicit Types (d : daemon) (c : client) (fd msg : Z) (data : bytes) (M : gmap bytes bytes).

Lemma room_le (s : ST) m n : (n <= m)%nat -> kv_room s m -> kv_room s n.
Proof. induction 1; [done|]. intros H'. by apply IHle, kv_room_law. Qed.

Section General.
(** Any limit on payloads, or a short one when there are text clients. *)
Context {lim : Z}.
Abbreviation Inv := (Inv (lim:=lim)).
Abbreviation abs_find := (abs_find (lim:=lim)).
Abbreviation upd_abs := (upd_abs (lim:=lim)).
Abbreviation upd_inv := (upd_inv (lim:=lim)).

(** The client of a given descriptor in the concrete and in the abstract state. *)
Lemma get_of_abs d fd a :
  Inv d -> a_find (abs d) fd = Some a -> exists c, get_client d fd = Done c /\ a = abs_client c.
Proof.
  intros Hinv Ha. destruct (client_of_fd (lim:=lim) d fd) as [c Hc]; [|done|].
  - apply find_elem in Ha as [Ha <-]. by apply list_elem_of_fmap_2.
  - exists c. split; [done|]. rewrite (abs_find d fd c Hinv Hc) in Ha. by injection Ha.
Qed.

Section Quiet.
Hypothesis writev_takes : forall ev fd b, writev ev fd b = zlen b.
Hypothesis lim_payload : lim <= MAX_PAYLOAD.
Hypothesis errors_short : lim <= TEXT_LIMIT -> forall ev, zlen (strerror ev) <= 255.

(** ** The playback of a transaction *)

Lemma app_input_idle depth d fd c msg data :
  get_client d fd = Done c -> begins c = 0 -> msg <> MSG_EOF ->
  app_input (S depth) d fd msg data = run_command d fd msg data.
Proof.
  intros Hc Hb Hm. cbn [app_input]. destruct (Z.eqb_spec msg MSG_EOF); [done|]. rewrite Hc. ostep.
  by rewrite Hb.
Qed.

Lemma app_input_busy depth d fd c msg data :
  get_client d fd = Done c -> begins c <> 0 -> msg <> MSG_EOF ->
  app_input (S depth) d fd msg data = buffer_command (app_input depth) d fd msg data.
Proof.
  intros Hc Hb Hm. cbn [app_input]. destruct (Z.eqb_spec msg MSG_EOF); [done|]. rewrite Hc. ostep.
  by destruct (Z.eqb_spec (begins c) 0).
Qed.

(** Taking the first command off the queue. *)
Lemma pop_ok d fd c cmd q :
  Inv d -> get_client d fd = Done c -> begins c = 0 -> bufcmds c = cmd :: q ->
  let d1 := upd_client d fd (fun c => set_bufcmds c q (bufcmd_tail c)) in
  let c1 := set_bufcmds c q (bufcmd_tail c) in
  Inv d1 /\ get_client d1 fd = Done c1 /\ abs d1 = a_upd (abs d) fd (with_txn 0 q) /\
  abs_client c1 = with_txn 0 q (abs_client c).
Proof.
  intros Hinv Hc Hb Hq d1 c1. pose proof (get_client_inv _ _ _ Hinv Hc) as [].
  split_and!.
  - eapply upd_inv; [done|done|done|]. split; try done. cbn. rewrite Hq in *.
    by apply Forall_cons in ci_queue as [_ ?].
  - by apply (upd_get d fd (fun c => set_bufcmds c q (bufcmd_tail c)) c).
  - eapply upd_abs; [done|done|]. unfold abs_client, with_txn. cbn. by rewrite Hb.
  - unfold abs_client, with_txn. cbn. by rewrite Hb.
Qed.

(** The result of handling messages, as [Sim] but for a relation of the abstract server. When the
    connection goes on, [Q] says how the client is left. *)
Definition Leaves (Q : client -> daemon -> Prop)
    (R : bool -> list message -> gmap bytes bytes -> list aclient -> Prop)
    d (n : nat) fd (res : outcome (Z * daemon)) : Prop :=
  exists r d' outs M', res = Done (r, d') /\ R (bool_decide (0 < r)) outs M' (abs d') /\
    kv_holds (the_store d') M' /\ kv_room (the_store d') n /\
    (exists evs, events d' = events d ++ evs /\ on_wire (abs d) outs evs) /\ Inv d' /\
    (0 < r -> exists c', get_client d' fd = Done c' /\ Q c' d').

(** Only a transaction has commands that wait, the store was not changed when some do, and a
    message adds at most one level or one command. *)
Definition tidy d fd c' d' : Prop :=
  (begins c' = 0 -> bufcmds c' = []) /\ (bufcmds c' <> [] -> the_store d' = the_store d) /\
  forall c, get_client d fd = Done c ->
    begins c' <= begins c + 1 /\ (length (bufcmds c') <= S (length (bufcmds c)))%nat.

Definition Handled R d (n : nat) fd (res : outcome (Z * daemon)) : Prop := Leaves (tidy d fd) R d n fd res.

Lemma playback_ok q : forall d M n fd c fuel depth,
  Inv d -> get_client d fd = Done c -> begins c = 0 -> bufcmds c = q -> (length q <= fuel)%nat ->
  kv_holds (the_store d) M -> bounded lim M -> kv_room (the_store d) (length q + n) ->
  Leaves (fun c' _ => begins c' = 0 /\ bufcmds c' = []) (run_queue M (abs d) fd q) d n fd
    (playback (app_input (S depth)) fuel d fd).
Proof.
  induction q as [|[msg data] q IH]; intros d M n fd c fuel depth Hinv Hc Hb Hq Hfuel HM HB Hn.
  { exists 1, d, [], M. destruct fuel; cbn [playback]; rewrite Hc; ostep; rewrite Hq;
      (split_and!; [done|apply rq_done|done|done|exists []; split; [by rewrite app_nil_r|constructor]|done|by exists c]). }
  destruct fuel as [|fuel]; [cbn in Hfuel; lia|]. cbn [playback]. rewrite Hc. ostep. rewrite Hq.
  pose proof (ci_queue (get_client_inv _ _ _ Hinv Hc)) as Hall. rewrite Hq in Hall.
  apply Forall_cons in Hall as [(Hm & Hnb & Hnc & Hsz) Hall]. cbn [fst snd] in *.
  destruct (pop_ok d fd c (msg, data) q Hinv Hc Hb Hq) as (Hinv1 & Hc1 & Habs1 & Hac1).
  set (d1 := upd_client d fd _) in *. set (c1 := set_bufcmds c q _) in *.
  rewrite (app_input_idle depth d1 fd c1 msg data Hc1 Hb) by (unfold MSG_EOF; lia).
  destruct (run_command_sim writev_takes lim_payload errors_short d1 M (length q + n) fd c1 msg data)
    as [(r & d2 & outs & M1 & -> & Hst & HM1 & Hn1 & (evs & He & Hw) & Hinv2)]; try done; [lia|]. ostep.
  rewrite Habs1, Hac1 in Hst. pose proof (abs_find d fd c Hinv Hc) as Ha.
  assert (Hwire : forall o e, on_wire (abs d1) o e -> on_wire (abs d) o e).
  { intros o e. rewrite Habs1. by apply wire_upd. }
  apply Hwire in Hw. change (events d1) with (events d) in He. destruct (Z.leb_spec r 0) as [Hr|Hr].
  { exists r, d2, outs, M1. rewrite bool_decide_false in * by lia.
    split_and!; try done; [by eapply rq_fail| |by exists evs|lia]. eapply room_le; [|exact Hn1]. lia. }
  rewrite bool_decide_true in Hst by done.
  destruct (step_clients _ _ _ _ _ _ _ _ _ _ Hst) as (f & Hcs & Hf & Htxn). specialize (Htxn Hnb).
  assert (Hf2 : exists c2, get_client d2 fd = Done c2 /\ begins c2 = 0 /\ bufcmds c2 = q).
  { destruct (get_of_abs d2 fd (f (with_txn 0 q (abs_client c)))) as (c2 & Hc2 & E2); [done| |].
    - rewrite Hcs, <- Habs1. apply a_find_upd; [done|]. rewrite <- Hac1. by apply abs_find.
    - exists c2. destruct (Htxn (with_txn 0 q (abs_client c))) as [T1 T2]. rewrite E2 in T1, T2. done. }
  destruct Hf2 as (c2 & Hc2 & Hb2 & Hq2).
  destruct (IH d2 M1 n fd c2 fuel depth) as (r' & d' & outs' & M' & -> & Hrun & HM' & Hn' & (evs' & He' & Hw') & Hi' & Hidle);
    try done; [cbn in Hfuel; lia|by eapply step_bounded|].
  exists r', d', (outs ++ outs'), M'. split_and!; try done; [by eapply rq_next|].
  exists (evs ++ evs'). rewrite He', He, app_assoc. split; [done|]. apply on_wire_app; [done|].
  apply Hwire. rewrite Hcs, <- Habs1 in Hw'. apply wire_upd in Hw'; [done|intros; apply Hf..].
Qed.

(** ** A message inside a transaction *)

Lemma set_txn_ok d fd c n q tail :
  Inv d -> get_client d fd = Done c -> 0 <= n < 2 ^ 32 -> (n <> 0 -> tail = length q) ->
  Forall (queued lim) q ->
  let d1 := upd_client d fd (fun c => set_begins (set_bufcmds c q tail) n) in
  Inv d1 /\ get_client d1 fd = Done (set_begins (set_bufcmds c q tail) n) /\
  abs d1 = a_upd (abs d) fd (with_txn n q).
Proof.
  intros Hinv Hc Hn Ht Hq d1. pose proof (get_client_inv _ _ _ Hinv Hc) as [].
  split_and!; [by eapply upd_inv|by eapply (upd_get d fd (fun c => set_begins (set_bufcmds c q tail) n))|
    by eapply upd_abs].
Qed.

(** A change of the transaction that sends nothing. *)
Lemma handled_txn M d n fd c msg data m q tail :
  Inv d -> get_client d fd = Done c -> 0 < m < 2 ^ 32 -> tail = length q -> Forall (queued lim) q ->
  m <= begins c + 1 -> (length q <= S (length (bufcmds c)))%nat ->
  kv_holds (the_store d) M -> kv_room (the_store d) n ->
  accept M (abs d) fd (abs_client c) msg data true [] M (a_upd (abs d) fd (with_txn m q)) ->
  Handled (accept M (abs d) fd (abs_client c) msg data) d n fd
    (Done (1, upd_client d fd (fun c => set_begins (set_bufcmds c q tail) m))).
Proof.
  intros Hinv Hc Hm Ht Hq Hm1 Hq1 HM Hn Hac.
  destruct (set_txn_ok d fd c m q tail Hinv Hc) as (I1 & C1 & A1); [lia|done|done|].
  eexists 1, _, [], M. split; [done|]. rewrite A1. split_and!; try done; [exists []; split; [by rewrite app_nil_r|constructor]|].
  intros _. eexists. split; [exact C1|]. split_and!; [cbn; lia|done|].
  intros c' Hc'. rewrite Hc in Hc'. injection Hc' as <-. done.
Qed.

Lemma set_begins_eta c n : set_begins c n = set_begins (set_bufcmds c (bufcmds c) (bufcmd_tail c)) n.
Proof. by destruct c. Qed.
Lemma set_bufcmds_eta c q tl : set_bufcmds c q tl = set_begins (set_bufcmds c q tl) (begins c).
Proof. by destruct c. Qed.

Lemma buffer_ok d M n fd c msg data depth :
  Inv d -> get_client d fd = Done c -> begins c <> 0 -> begins c < 2 ^ 32 - 1 ->
  kv_holds (the_store d) M -> bounded lim M -> kv_room (the_store d) (S (length (bufcmds c) + n)) ->
  0 <= msg < 255 -> zlen data <= lim ->
  Handled (accept M (abs d) fd (abs_client c) msg data) d n fd
    (buffer_command (app_input (S depth)) d fd msg data).
Proof.
  intros Hinv Hc Hb Hmax HM HB Hn Hmsg Hsz. pose proof (get_client_inv _ _ _ Hinv Hc) as Hci.
  pose proof (ci_begins Hci). pose proof (ci_tail Hci Hb) as Ht. pose proof (ci_queue Hci) as Hq.
  assert (Hn0 : kv_room (the_store d) n) by (eapply room_le; [|exact Hn]; lia).
  unfold buffer_command. rewrite Hc. ostep.
  destruct (Z.eqb_spec msg CMD_BEGIN) as [->|Hnb].
  { rewrite (upd_client_ext (lim:=lim) d fd _ (fun c' => set_begins (set_bufcmds c' (bufcmds c) (bufcmd_tail c)) (begins c + 1)) c);
      [|done|done|rewrite u32_small by lia; by apply set_begins_eta].
    apply handled_txn; try done; [lia|lia|by apply ac_begin]. }
  destruct (Z.eqb_spec msg CMD_COMMIT) as [->|Hncm].
  { rewrite u32_small by lia.
    rewrite (upd_client_ext (lim:=lim) d fd _ (fun c' => set_begins (set_bufcmds c' (bufcmds c) (bufcmd_tail c)) (begins c - 1)) c);
      [|done|done|by apply set_begins_eta].
    destruct (Z.eqb_spec (begins c - 1) 0) as [E|E]; cbn [negb].
    - rewrite E. destruct (set_txn_ok d fd c 0 (bufcmds c) (bufcmd_tail c) Hinv Hc)
        as (I1 & C1 & A1); [lia|done|done|]. set (d1 := upd_client d fd _) in *.
      destruct (playback_ok (bufcmds c) d1 M n fd _ (length (bufcmds c)) depth I1 C1)
        as (r & d2 & outs & M' & -> & Hrun & H1 & H2 & (evs & He & Hw) & H3 & H4); try done; [by apply kv_room_law|].
      exists r, d2, outs, M'. rewrite A1 in Hrun, Hw. apply wire_upd in Hw; [|done..].
      split_and!; try done; [apply ac_commit; [cbn; lia|done]|by exists evs|].
      intros (c' & Hc' & Hb' & Hq')%H4. exists c'. split; [done|]. split_and!; [done|done|].
      intros c0 Hc0. rewrite Hc in Hc0. injection Hc0 as <-. rewrite Hq'. cbn. lia.
    - apply handled_txn; try done; [lia|lia|lia|]. apply ac_commit_nested. cbn. lia. }
  rewrite (ci_nbufcmds Hci). change (MAX_BUFCMDS <=? 0) with false. cbv iota.
  unfold bufcmd_new. destruct (malloc_ok _ _) eqn:Emem.
  - unfold APPEND. rewrite Ht, Nat.ltb_irrefl, Nat.eqb_refl. ostep.
    rewrite (upd_client_ext (lim:=lim) d fd _ (fun c' => set_begins (set_bufcmds c' (bufcmds c ++ [(msg, data)]) (S (length (bufcmds c)))) (begins c)) c);
      [|done|done|by apply set_bufcmds_eta].
    apply handled_txn; try done; [lia|rewrite length_app; cbn; lia| |lia|rewrite length_app; cbn; lia|].
    + apply Forall_app. split; [done|]. apply Forall_singleton. split; [done|by split_and!].
    + apply ac_later; [done|done|done|]. unfold MSG_EOF. lia.
  - destruct (client_error_ok writev_takes d fd c PROTO_ERROR_INTERNAL ($"begin: " ++ strerror (events d)) Hinv Hc)
      as (d2 & -> & [A S E I]); [done| |].
    { intros Hl. rewrite zlen_app. pose proof (errors_short Hl (events d)). change (zlen $"begin: ") with 7. unfold TEXT_LIMIT. lia. }
    rewrite andb_false_r. eexists (-1), d2, _, M. rewrite A, S. split_and!; [done| |done|done|exact E|done|lia].
    apply ac_later_fail; [done|done|done|unfold MSG_EOF; lia|by exists (events d)].
Qed.

(** ** Any message *)

(** A translator for the client: the next output finds it. *)
Lemma sync_ok d fd c p :
  Inv d -> get_client d fd = Done c -> mode p = mode (settle (c_proto c)) ->
  let d0 := upd_client d fd (fun c => set_proto c p) in
  Inv d0 /\ get_client d0 fd = Done (set_proto c p) /\ abs d0 = abs d /\
  abs_client (set_proto c p) = abs_client c.
Proof using Type.
  intros Hinv Hc Hp d0. pose proof (get_client_inv _ _ _ Hinv Hc) as Hci.
  pose proof (settle_mode _ (ci_mode Hci)) as Hs. rewrite <- Hp in Hs.
  assert (Hm : mode (settle p) = mode p) by (unfold settle; by destruct Hs as [E|[E|[E _]]]; rewrite E; cbn; rewrite ?E).
  assert (Ha : abs_client (set_proto c p) = abs_client c) by (unfold abs_client; cbn; by rewrite Hm, Hp).
  split_and!; [|by apply (upd_get d fd (fun c => set_proto c p))| |done].
  - eapply upd_inv; [done|done|done|]. destruct Hci. split; try done; cbn; [clear -Hs; tauto|].
    intros E. rewrite E in Hs. destruct Hs as [?|[?|[_ ?]]]; [done|done|auto].
  - unfold d0. rewrite (upd_abs d fd _ c (fun a => a)) by done. by apply a_upd_id.
Qed.

Lemma app_input_ok d M n fd c msg data :
  Inv d -> get_client d fd = Done c -> (begins c = 0 -> bufcmds c = []) -> begins c < 2 ^ 32 - 1 ->
  kv_holds (the_store d) M -> bounded lim M -> kv_room (the_store d) (S (length (bufcmds c) + n)) ->
  0 <= msg < 256 -> zlen data <= lim ->
  Handled (accept M (abs d) fd (abs_client c) msg data) d n fd (app_input 2 d fd msg data).
Proof.
  intros Hinv Hc Hidle Hmax HM HB Hn Hmsg Hsz. destruct (Z.eqb_spec msg MSG_EOF) as [->|Heof].
  { exists 0, d, [], M. split_and!; try done; [apply ac_eof| |exists []; split; [by rewrite app_nil_r|constructor]].
    eapply room_le; [|exact Hn]. lia. }
  destruct (decide (begins c = 0)) as [Hb|Hb].
  - rewrite (app_input_idle 1 d fd _ msg data Hc) by done.
    destruct (run_command_sim writev_takes lim_payload errors_short d M n fd c msg data Hinv Hc)
      as [(r & d2 & outs & M1 & -> & Hst & HM1 & Hn1 & He & Hinv2)]; try done.
    { eapply room_le; [|exact Hn]. lia. }
    { by intros _; apply Hidle. }
    exists r, d2, outs, M1. split_and!; try done; [by apply ac_now|]. intros Hr.
    destruct (step_clients _ _ _ _ _ _ _ _ _ _ Hst) as (f & Hcs & Hf & Htxn).
    destruct (get_of_abs d2 fd (f (abs_client c))) as (c2 & Hc2 & E2); [done| |].
    { rewrite Hcs. apply a_find_upd; [done|]. by apply abs_find. }
    exists c2. split; [done|]. assert (Hq2 : bufcmds c2 = [] /\ begins c2 <= begins c + 1).
    2:{ destruct Hq2 as [Hq2 Hb2]. split_and!; [done|done|].
        intros c0 Hc0. rewrite Hc in Hc0. injection Hc0 as <-. rewrite Hq2. cbn. lia. }
    destruct (decide (msg = CMD_BEGIN)) as [->|Hnb].
    + pose proof (abs_find d2 fd c2 Hinv2 Hc2) as Hf2. rewrite (step_begin _ _ _ _ _ _ _ _ _ Hst) in Hf2.
      erewrite a_find_upd in Hf2; [|done|exact (abs_find d fd _ Hinv Hc)].
      injection Hf2 as _ _ _ <- <-. split; [by apply Hidle|lia].
    + destruct (Htxn Hnb (abs_client c)) as [T1 T2]. rewrite E2 in T1, T2. cbn in T1, T2.
      rewrite T1, T2. split; [by apply Hidle|lia].
  - rewrite (app_input_busy 1 d fd _ msg data Hc) by done.
    apply buffer_ok; try done. unfold MSG_EOF in *. lia.
Qed.

Lemma on_app_input_ok d M n fd c p msg data :
  Inv d -> get_client d fd = Done c -> (begins c = 0 -> bufcmds c = []) -> begins c < 2 ^ 32 - 1 ->
  mode p = mode (settle (c_proto c)) ->
  kv_holds (the_store d) M -> bounded lim M -> kv_room (the_store d) (S (length (bufcmds c) + n)) ->
  0 <= msg < 256 -> zlen data <= lim ->
  Handled (accept M (abs d) fd (abs_client c) msg data) d n fd (on_app_input fd p d msg data).
Proof.
  intros Hinv Hc Hidle Hmax Hp HM HB Hn Hmsg Hsz. unfold on_app_input.
  destruct (sync_ok d fd c p Hinv Hc Hp) as (I0 & C0 & A0 & AC0). set (d0 := upd_client d fd _) in *.
  pose proof (app_input_ok d0 M n fd _ msg data I0 C0 Hidle Hmax HM HB Hn Hmsg Hsz) as E0.
  rewrite A0, AC0 in E0. destruct E0 as (r & d' & outs & M' & E & H1 & H2 & H3 & H4 & H5 & Hok).
  exists r, d', outs, M'. rewrite A0 in H4. split_and!; try done.
  intros (c' & Hc' & T1 & T2 & T3)%Hok. exists c'. split; [done|]. split_and!; try done.
  intros c0 Hc0. rewrite Hc in Hc0. injection Hc0 as <-. by apply (T3 _ C0).
Qed.

(** C1: the daemon implements the abstract server, where [writev] takes what it is given and the
    texts of [strerror] are short. For a message with a payload of at most [lim] bytes (at most
    65535, and at most [TEXT_LIMIT] = 1020 as soon as a client speaks the text protocol), over a
    store whose records are no longer than that and that has room, [on_app_input] returns. What it
    sent to which client, the store and all clients are then as one step of the abstract server
    says, transactions and errors included, and the daemon's invariant holds again. A request is
    refused with an internal error only where an allocation or the store may fail
    ([daemon_faults]). A line of the text protocol may be written in several pieces. *)
Theorem daemon_implements_spec d M n fd c p msg data :
  Inv d -> get_client d fd = Done c -> (begins c = 0 -> bufcmds c = []) -> begins c < 2 ^ 32 - 1 ->
  mode p = mode (settle (c_proto c)) ->
  kv_holds (the_store d) M -> bounded lim M -> kv_room (the_store d) (S (length (bufcmds c) + n)) ->
  0 <= msg < 256 -> zlen data <= lim ->
  Handled (accept M (abs d) fd (abs_client c) msg data) d n fd (on_app_input fd p d msg data).
Proof. apply on_app_input_ok. Qed.

(** ** Reading what was written *)

Lemma accept_write M cs fd a data ok outs M' cs' :
  accept M cs fd a CMD_WRITE data ok outs M' cs' -> a_begins a = 0 -> 0 ∈ data ->
  is_ephemeral data = false -> cs' = cs /\ (if ok then M' !! cstr data = Some data else kv_fails).
Proof.
  intros Ha Hb Hnul Heph. inversion Ha as [| ? ? ? ? ? ? _ _ Hst | | | | |]; subst; try done.
  inversion Hst; subst; try done; try congruence.
  by rewrite lookup_insert_eq.
Qed.

Lemma accept_read M cs fd a data ok outs M' cs' kv :
  accept M cs fd a CMD_READ data ok outs M' cs' -> a_begins a = 0 -> 0 ∉ data ->
  M !! data = Some kv -> ok = true /\ outs = [(fd, MSG_INFO, kv)].
Proof.
  intros Ha Hb Hnul Hk. inversion Ha as [| ? ? ? ? ? ? _ _ Hst | | | | |]; subst; try done.
  inversion Hst; subst; try done; try congruence.
  split; [done|]. congruence.
Qed.

(** C17: a client outside a transaction writes a record of at most [lim] bytes whose key does not
    end with an exclamation mark. Unless the store fails the daemon takes it, and then a READ of
    the key by any client outside a transaction is answered with one INFO message with the key and
    the value, in the protocol of its connection. As before the sockets take what is written, the
    records are no longer than [lim] and the store has room. *)
Theorem read_your_writes d M fd c fd' c' kv :
  Inv d -> get_client d fd = Done c -> begins c = 0 -> bufcmds c = [] ->
  get_client d fd' = Done c' -> begins c' = 0 -> bufcmds c' = [] ->
  kv_holds (the_store d) M -> bounded lim M -> kv_room (the_store d) 2 ->
  wf_kv kv -> zlen kv <= lim -> is_ephemeral kv = false ->
  exists r d1, on_app_input fd (settle (c_proto c)) d CMD_WRITE kv = Done (r, d1) /\ (0 < r \/ kv_fails) /\
    (0 < r -> exists r2 d2 pieces,
       on_app_input fd' (settle (c_proto c')) d1 CMD_READ (cstr kv) = Done (r2, d2) /\ 0 < r2 /\
       events d2 = events d1 ++ (Sent fd' <$> pieces) /\
       concat pieces = frame (mode (settle (c_proto c'))) MSG_INFO kv).
Proof.
  intros Hinv Hc Hb Hq Hc' Hb' Hq' HM HB Hn [Hsz Hnul] Hlim Heph.
  destruct (on_app_input_ok d M 1 fd c (settle (c_proto c)) CMD_WRITE kv)
    as (r & d1 & outs & M1 & E1 & Hac & HM1 & Hn1 & _ & Hinv1 & _); try done; [lia|by rewrite Hq|].
  destruct (accept_write _ _ _ _ _ _ _ _ _ Hac) as [Hcs Hk]; [done..|].
  exists r, d1. split; [done|]. split; [by case_bool_decide; [left|right]|].
  intros Hr. rewrite bool_decide_true in Hac, Hk by done.
  assert (HB1 : bounded lim M1).
  { eapply accept_bounded; [exact Hac|done|done|]. cbn. rewrite Hq. constructor. }
  assert (Hkey : 0 ∉ cstr kv).
  { intros H0. pose proof (cstr_nul_free kv) as Hf. unfold nul_free in Hf. rewrite Forall_forall in Hf. by apply (Hf 0). }
  destruct (get_of_abs d1 fd' (abs_client c')) as (c1 & Hc1 & Ec1);
    [done|by rewrite Hcs; apply abs_find|].
  assert (Hc1e : begins c1 = 0 /\ bufcmds c1 = [] /\ mode (settle (c_proto c')) = mode (settle (c_proto c1))).
  { unfold abs_client in Ec1. injection Ec1 as _ ? _ ? ?. split_and!; congruence. }
  destruct Hc1e as (Hb1 & Hq1 & Hm1). pose proof (zlen_cstr kv).
  destruct (on_app_input_ok d1 M1 0 fd' c1 (settle (c_proto c')) CMD_READ (cstr kv))
    as (r2 & d2 & outs2 & M2 & E2 & Hac2 & _ & _ & (evs & He2 & Hw) & _); try done; [lia|by rewrite Hq1|lia|].
  destruct (accept_read _ _ _ _ _ _ _ _ _ kv Hac2) as [Hok ->]; [done..|].
  apply bool_decide_eq_true in Hok. apply on_wire_inv in Hw as (pieces & -> & Hp & _). exists r2, d2, pieces.
  split_and!; try done. rewrite Hp. unfold mode_of. cbn. by rewrite (abs_find d1 fd' c1 Hinv1 Hc1), Hm1.
Qed.

Lemma accept_commit M cs fd a data ok outs M' cs' :
  accept M cs fd a CMD_COMMIT data ok outs M' cs' -> a_begins a = 0 ->
  ok = forgiven a /\ outs = [error_to fd PROTO_ERROR_BAD_SEQ $"commit: no begin"] /\ M' = M /\ cs' = cs.
Proof.
  intros Ha Hb. inversion Ha as [| ? ? ? ? ? ? _ _ Hst | | | | |]; subst; try done; try (cbn in *; lia).
  by inversion Hst; subst.
Qed.

(** A COMMIT outside a transaction is answered with an error and ends the connection, unless it is
    one of the text protocol. *)
Theorem commit_without_begin d M fd c p data :
  Inv d -> get_client d fd = Done c -> begins c = 0 -> bufcmds c = [] ->
  mode p = mode (settle (c_proto c)) ->
  kv_holds (the_store d) M -> bounded lim M -> kv_room (the_store d) 1 -> zlen data <= lim ->
  exists r d' pieces, on_app_input fd p d CMD_COMMIT data = Done (r, d') /\ (0 < r <-> mode p = PROTO_MODE_TEXT) /\
    abs d' = abs d /\ kv_holds (the_store d') M /\
    events d' = events d ++ (Sent fd <$> pieces) /\
    concat pieces = frame (mode p) MSG_ERROR (PROTO_ERROR_BAD_SEQ :: $"commit: no begin").
Proof.
  intros Hinv Hc Hb Hq Hp HM HB Hn Hsz.
  destruct (on_app_input_ok d M 0 fd c p CMD_COMMIT data)
    as (r & d1 & outs & M1 & E1 & Hac & HM1 & _ & (evs & He & Hw) & _); try done; [lia|by rewrite Hq|].
  destruct (accept_commit _ _ _ _ _ _ _ _ _ Hac) as (Hr & -> & -> & Hcs); [done|].
  apply on_wire_inv in Hw as (pieces & -> & Hpc & _).
  exists r, d1, pieces. split_and!; try done.
  - unfold forgiven in Hr. cbn in Hr. rewrite <- Hp in Hr. rewrite <- (Z.eqb_eq (mode p)), <- Hr. by rewrite bool_decide_eq_true.
  - rewrite Hpc. unfold mode_of. cbn. by rewrite (abs_find d fd c Hinv Hc), Hp.
Qed.

(** ** Packets *)

(** No message changes who the clients are or how their sockets are framed. *)
Definition shape (cs : list aclient) : list (Z * Z) := (fun a => (a_fd a, a_mode a)) <$> cs.

Lemma shape_upd cs fd f : keeps f -> shape (a_upd cs fd f) = shape cs.
Proof.
  intros Hf. unfold shape, a_upd. rewrite <- list_fmap_compose. apply list_fmap_ext. intros i a _. cbn.
  destruct (_ =? fd); [|done]. by destruct (Hf a) as [-> ->].
Qed.

Lemma step_shape {F : Faults} M cs fd a msg data ok outs M' cs' :
  step M cs fd a msg data ok outs M' cs' -> shape cs' = shape cs.
Proof. intros (f & -> & Hf & _)%step_clients. by apply shape_upd. Qed.

Lemma run_queue_shape {F : Faults} M cs fd q ok outs M' cs' :
  run_queue M cs fd q ok outs M' cs' -> shape cs' = shape cs.
Proof.
  induction 1 as [|M cs fd c msg data q outs M' cs' Hc Hst|M cs fd c msg data q outs M1 cs1 ok outs' M' cs' Hc Hst Hrun IH];
    [done| |rewrite IH]; rewrite (step_shape _ _ _ _ _ _ _ _ _ _ Hst); by apply shape_upd.
Qed.

Lemma accept_shape {F : Faults} M cs fd a msg data ok outs M' cs' :
  accept M cs fd a msg data ok outs M' cs' -> shape cs' = shape cs.
Proof.
  destruct 1; try done; try (by apply shape_upd); [by eapply step_shape|].
  erewrite run_queue_shape by done. by apply shape_upd.
Qed.

Lemma shape_find cs cs' fd a :
  shape cs' = shape cs -> a_find cs fd = Some a ->
  exists a', a_find cs' fd = Some a' /\ a_mode a' = a_mode a.
Proof.
  unfold a_find. revert cs'. induction cs as [|x cs IH]; intros [|x' cs'] Hs Ha; try done.
  unfold shape in Hs. rewrite !fmap_cons in Hs. injection Hs as H1 H2 H3. cbn in *. rewrite H1.
  destruct (a_fd x =? fd); [|by apply IH]. injection Ha as ->. by exists x'.
Qed.

End Quiet.
End General.

(** ** Transactions *)

(** Messages of one client, one after the other, until one ends the connection. *)
Fixpoint feed d fd (msgs : list (Z * bytes)) : outcome (Z * daemon) :=
  match msgs with
  | [] => Done (1, d)
  | (msg, data) :: msgs' =>
      '(r, d1) ← app_input 2 d fd msg data;
      if r <=? 0 then Done (r, d1) else feed d1 fd msgs'
  end.

Definition deferrable (cmd : Z * bytes) : Prop :=
  cmd.1 <> CMD_BEGIN /\ cmd.1 <> CMD_COMMIT /\ cmd.1 <> MSG_EOF.

Definition holding (cmds : list (Z * bytes)) (c : client) : client :=
  set_begins (set_bufcmds c cmds (length cmds)) 1.

Lemma feed_deferred (malloc_succeeds : forall ev n, malloc_ok ev n = true) cmds : forall d0 d fd c done,
  get_client d0 fd = Done c -> nbufcmds c = 0 -> d = upd_client d0 fd (holding done) ->
  Forall deferrable cmds -> feed d fd cmds = Done (1, upd_client d0 fd (holding (done ++ cmds))).
Proof.
  induction cmds as [|[msg data] cmds IH]; intros d0 d fd c dn Hc Hn -> Hall; cbn [feed].
  { by rewrite app_nil_r. }
  apply Forall_cons in Hall as [(H1 & H2 & H3) Hall]. cbn [fst] in *.
  assert (Hc1 : get_client (upd_client d0 fd (holding dn)) fd = Done (holding dn c)) by (by apply upd_get).
  rewrite (app_input_busy 1 _ fd _ msg data Hc1) by done. unfold buffer_command. rewrite Hc1. ostep.
  rewrite (proj2 (Z.eqb_neq _ _) H1), (proj2 (Z.eqb_neq _ _) H2). cbn [nbufcmds holding set_begins set_bufcmds].
  rewrite Hn. change (MAX_BUFCMDS <=? 0) with false. cbv iota. unfold bufcmd_new. rewrite malloc_succeeds.
  unfold APPEND. cbn [bufcmds bufcmd_tail holding set_begins set_bufcmds]. rewrite Nat.ltb_irrefl, Nat.eqb_refl.
  ostep. cbn [Z.leb Z.compare]. rewrite (IH d0 _ fd c (dn ++ [(msg, data)])); [by rewrite <- app_assoc|done|done| |done].
  rewrite upd_upd by done. unfold holding. rewrite length_app, Nat.add_1_r. done.
Qed.

(** C18: from BEGIN to COMMIT nothing happens but that the commands are kept, in order and however
    many there are: the store, the other clients and what was sent stay as they were. This holds
    for every client, whatever protocol it speaks, as long as there is memory. *)
Theorem transaction_defers d fd c cmds :
  (forall ev n, malloc_ok ev n = true) -> NoDup (c_fd <$> all_clients d) ->
  get_client d fd = Done c -> begins c = 0 -> bufcmds c = [] -> nbufcmds c = 0 ->
  Forall deferrable cmds ->
  feed d fd ((CMD_BEGIN, []) :: cmds) = Done (1, upd_client d fd (holding cmds)).
Proof.
  intros Hmal Hnd Hc Hb Hq Hn Hall. cbn [feed]. rewrite (app_input_idle 1 d fd c) by done.
  change (run_command d fd CMD_BEGIN []) with (cmd_begin d fd). unfold cmd_begin. ostep. cbn [Z.leb Z.compare].
  rewrite (upd_client_uniq d fd _ (holding []) c) by (done || (unfold holding; by rewrite Hq)).
  by apply (feed_deferred Hmal cmds d _ fd c []).
Qed.

(** ** Connections *)

(** C31: a new connection is a client of its own with no subscriptions and no transaction, and
    closing it leaves exactly the clients there were before. *)
Theorem connect_disconnect lim d fd unix junk :
  (forall ev n, malloc_ok ev n = true) -> Inv (lim:=lim) d -> fd ∉ c_fd <$> all_clients d ->
  exists d1 c, on_net_accept d fd unix junk = (Some fd, d1) /\ Inv (lim:=lim) d1 /\
    get_client d1 fd = Done c /\ begins c = 0 /\ bufcmds c = [] /\
    abs d1 = mk_aclient fd (if unix then PROTO_MODE_FRAMED else PROTO_MODE_BINARY) [] 0 [] :: abs d /\
    on_net_close d1 (Some fd) = Done d.
Proof.
  intros Hmal [Hnd Hall] Hfd. unfold on_net_accept, client_new. rewrite !Hmal. cbn [andb].
  set (c := if unix then _ else _). exists (set_clients d (c :: all_clients d)), c.
  assert (Hc : c_fd c = fd) by (by destruct unix).
  assert (Hget : get_client (set_clients d (c :: all_clients d)) fd = Done c).
  { unfold get_client. cbn. by rewrite Hc, Z.eqb_refl. }
  split_and!; try done.
  - split.
    + change (NoDup (c_fd c :: (c_fd <$> all_clients d))). rewrite Hc. by constructor.
    + constructor; [|done]. by destruct unix; split; cbn; auto.
  - by destruct unix.
  - by destruct unix.
  - unfold abs. cbn. by destruct unix.
  - unfold on_net_close. ostep. rewrite Hget. ostep. f_equal. unfold set_clients. cbn [all_clients].
    rewrite filter_cons_False by (rewrite Hc; auto). destruct d as [s l ev]. cbn in *. f_equal.
    clear Hget Hnd Hall. induction l as [|c' l IH]; [done|]. rewrite fmap_cons in Hfd.
    rewrite filter_cons_True by set_solver. f_equal. apply IH. set_solver.
Qed.

(** ** Short writes *)

(** C38: when the socket takes only a part of a reply, the handler reports success and the rest of
    the reply is never sent: the count that [writev] returns is only tested for -1. *)
Theorem short_write_unnoticed d M fd c key kv k :
  get_client d fd = Done c ->
  mode (settle (c_proto c)) = PROTO_MODE_BINARY \/ mode (settle (c_proto c)) = PROTO_MODE_FRAMED ->
  begins c = 0 -> 0 ∉ key ->
  kv_holds (the_store d) M -> M !! key = Some kv ->
  writev (events d) fd (frame (mode (settle (c_proto c))) MSG_INFO kv) = k ->
  0 < k < zlen (frame (mode (settle (c_proto c))) MSG_INFO kv) ->
  exists d', run_command d fd CMD_READ key = Done (k, d') /\
    events d' = events d ++ [Sent fd (take (Z.to_nat k) (frame (mode (settle (c_proto c))) MSG_INFO kv))].
Proof.
  intros Hc Hci Hb Hnul HM Hk Hw Hlt.
  change (run_command d fd CMD_READ key) with (cmd_read d fd key). unfold cmd_read, contains_nul.
  rewrite bool_decide_false by done. rewrite (kv_get_law _ _ key HM). ostep.
  rewrite (cstr_no_nul key Hnul), Hk. unfold client_output. rewrite Hc. ostep.
  destruct (kv_record _ _ _ _ HM Hk) as [[Hsz _] _].
  destruct (output_sends fd (c_proto c) d MSG_INFO _ _ _ (spells_star fd kv)) as (iovs & E & ->);
    [cbn; rewrite app_nil_r; lia|done|]. cbn [concat] in E. rewrite app_nil_r in E.
  unfold sendv. cbn [on_sendv send_cb]. unfold on_net_sendv. rewrite E, Hw. ostep.
  destruct (Z.ltb_spec k 0); [lia|]. eexists. split; [done|]. done.
Qed.

End Theorems.

(** ** A daemon to run *)

Definition quiet_net : Net :=
  {| writev _ _ b := zlen b; malloc_ok _ _ := true; strerror _ := [] |}.
Definition demo_kv : KVStore store :=
  byte_store (os:=quiet_os) (fun _ _ => eq_refl) (fun _ => eq_refl).

(** Two clients: a local one on socket 5, and one on socket 6 that speaks the binary protocol and
    has subscribed to some patterns. *)
Definition demo_client (fd m : Z) (l : list bytes) : client :=
  mk_client fd (demo_proto m) (zlen l) 0 0 l [] 0.
Definition demo_daemon (l : list bytes) : daemon store :=
  mk_daemon demo_store [demo_client 5 3 []; demo_client 6 1 l] [].

Lemma demo_client_inv lim fd m l : m = PROTO_MODE_BINARY \/ m = PROTO_MODE_FRAMED -> zlen l <= 17 ->
  client_inv lim (demo_client fd m l).
Proof. intros [-> | ->] Hl; split; cbn; auto; done. Qed.

Lemma demo_inv lim l : zlen l <= 17 -> Inv (lim:=lim) (demo_daemon l).
Proof.
  intros Hl. split.
  - by apply (bool_decide_unpack (NoDup [5; 6])).
  - apply Forall_cons. split; [|apply Forall_singleton]; apply demo_client_inv; auto; done.
Qed.

(** With a third client, on socket 7, that speaks the text protocol. *)
Definition text_daemon (l : list bytes) : daemon store :=
  mk_daemon demo_store [demo_client 7 2 []; demo_client 5 3 []; demo_client 6 1 l] [].

Lemma text_daemon_inv l : zlen l <= 17 -> Inv (lim:=TEXT_LIMIT) (text_daemon l).
Proof.
  intros Hl. destruct (demo_inv TEXT_LIMIT l Hl) as [_ Hall]. split.
  - by apply (bool_decide_unpack (NoDup [7; 5; 6])).
  - apply Forall_cons. split; [|exact Hall]. split; cbn; auto; done.
Qed.

Lemma demo_bounded : bounded TEXT_LIMIT (contents demo_l).
Proof.
  intros k kv Hk. apply elem_of_list_to_map_2 in Hk. unfold TEXT_LIMIT.
  repeat (apply elem_of_cons in Hk as [[= -> ->]|Hk]; [done|]). by apply not_elem_of_nil in Hk.
Qed.

Lemma demo_holds l : kv_holds (KVStore:=demo_kv) (the_store (demo_daemon l)) (contents demo_l).
Proof. exists demo_l. split; [apply demo_rep|done]. Qed.

Lemma demo_room n : (n <= 1024)%nat -> kv_room (KVStore:=demo_kv) demo_store n.
Proof.
  intros Hn. change (room_for demo_store n). unfold room_for. change (filesz demo_store) with 4096.
  change getpagesize with 4096. lia.
Qed.

(** A WRITE of the text client, which the binary client has subscribed to. *)
Lemma daemon_implements_spec_witness :
  Handled (KV:=demo_kv) (lim:=TEXT_LIMIT)
    (accept (F:=daemon_faults (net:=quiet_net) (KV:=demo_kv)) (contents demo_l) (abs (text_daemon [$"a*"])) 7 (abs_client (demo_client 7 2 [])) CMD_WRITE [97; 0])
    (text_daemon [$"a*"]) 99 7
    (on_app_input (net:=quiet_net) (KV:=demo_kv) 7 (demo_proto 2) (text_daemon [$"a*"]) CMD_WRITE [97; 0]).
Proof.
  apply (daemon_implements_spec (net:=quiet_net) (KV:=demo_kv) (lim:=TEXT_LIMIT) (fun _ _ _ => eq_refl)); try done.
  - by apply text_daemon_inv.
  - apply (demo_holds []).
  - apply demo_bounded.
Defined.

Example info_line : frame PROTO_MODE_TEXT MSG_INFO [99; 0; 10] =
  $"INFO " ++ Q ++ $"c" ++ Q ++ $" " ++ Q ++ $"\012" ++ Q ++ CRLF.
Proof. reflexivity. Qed.

(** Written by the local client, read by the text client. *)
Lemma read_your_writes_witness :
  exists r d1, on_app_input (net:=quiet_net) (KV:=demo_kv) 5 (demo_proto 3) (text_daemon []) CMD_WRITE [99; 0; 10] =
      Done (r, d1) /\ (0 < r \/ kv_fails (KVStore:=demo_kv)) /\
    (0 < r -> exists r2 d2 pieces,
       on_app_input (net:=quiet_net) (KV:=demo_kv) 7 (demo_proto 2) d1 CMD_READ [99] = Done (r2, d2) /\ 0 < r2 /\
       events d2 = events d1 ++ (Sent 7 <$> pieces) /\
       concat pieces = frame PROTO_MODE_TEXT MSG_INFO [99; 0; 10]).
Proof.
  apply (read_your_writes (net:=quiet_net) (KV:=demo_kv) (lim:=TEXT_LIMIT) (fun _ _ _ => eq_refl) (ltac:(done))
    (fun _ _ => ltac:(done)) (text_daemon []) (contents demo_l)
    5 (demo_client 5 3 []) 7 (demo_client 7 2 []) [99; 0; 10]); try done.
  - by apply text_daemon_inv.
  - apply (demo_holds []).
  - apply demo_bounded.
  - split; [done|]. right. left.
Defined.

(** Forty commands: more than [MAX_BUFCMDS]. *)
Lemma transaction_defers_witness :
  feed (net:=quiet_net) (KV:=demo_kv) (demo_daemon []) 5 ((CMD_BEGIN, []) :: replicate 40 (CMD_WRITE, [99; 0])) =
    Done (1, upd_client (demo_daemon []) 5 (holding (replicate 40 (CMD_WRITE, [99; 0])))).
Proof.
  apply (transaction_defers (net:=quiet_net) (KV:=demo_kv) (demo_daemon []) 5 (demo_client 5 3 []));
    try reflexivity.
  - by apply (bool_decide_unpack (NoDup [5; 6])).
  - apply Forall_replicate. split_and!; discriminate.
Defined.

Lemma connect_disconnect_witness :
  exists d1 c, on_net_accept (net:=quiet_net) (demo_daemon []) 7 true (demo_text, 9%nat) = (Some 7, d1) /\
    Inv (lim:=MAX_PAYLOAD) d1 /\
    get_client d1 7 = Done c /\ begins c = 0 /\ bufcmds c = [] /\
    abs d1 = mk_aclient 7 3 [] 0 [] :: abs (demo_daemon []) /\ on_net_close d1 (Some 7) = Done (demo_daemon []).
Proof.
  apply (connect_disconnect (net:=quiet_net) MAX_PAYLOAD (demo_daemon []) 7 true (demo_text, 9%nat)).
  - reflexivity.
  - by apply demo_inv.
  - by apply (bool_decide_unpack (7 ∉ [5; 6])).
Defined.

(** A socket buffer with room for three more bytes. *)
Definition full_net : Net :=
  {| writev _ _ b := Z.min 3 (zlen b); malloc_ok _ _ := true; strerror _ := [] |}.

Lemma short_write_unnoticed_witness :
  exists d', run_command (net:=full_net) (KV:=demo_kv) (demo_daemon []) 6 CMD_READ [97] = Done (3, d') /\
    events d' = [Sent 6 [0x81; 0; 5]].
Proof.
  apply (short_write_unnoticed (net:=full_net) (KV:=demo_kv) (demo_daemon []) (contents demo_l) 6
    (demo_client 6 1 []) [97] demo_a 3); try reflexivity.
  - by left.
  - by apply (bool_decide_unpack (0 ∉ [97])).
  - apply demo_holds.
  - vm_compute. split; reflexivity.
Defined.

(** A client may hold one subscription more than MAX_SUBS: the seventeenth SUB is accepted and
    the eighteenth is the first to be refused. *)
Theorem seventeen_subscriptions :
  exists d1, run_command (net:=quiet_net) (KV:=demo_kv) (demo_daemon (replicate 16 $"z*")) 6 CMD_SUB $"q*" = Done (1, d1) /\
    (nsubs <$> all_clients d1) = [0; MAX_SUBS + 1] /\
    exists d2, run_command (net:=quiet_net) (KV:=demo_kv) d1 6 CMD_SUB $"q*" = Done (-1, d2).
Proof.
  eexists. split; [vm_compute; reflexivity|]. split; [vm_compute; reflexivity|].
  eexists. vm_compute. reflexivity.
Qed.
