(* ===== verification/InfodKeep.v ===== *)
(** * The daemon: what its handlers leave alone

    A message of one client, with all that it makes the daemon send, leaves the decoder of every
    client as it is: the receive buffer and the state of the text decoder. *)
From S2P Require Import Prelude Match StoreDefs StoreLayout StoreRep StoreOps StoreTheorems Rxbuf.
From S2P Require Import ProtoDefs ProtoKeep ProtoBin Infod InfodSpec InfodSim.
Local Open Scope infod_scope.

Section Buffers.
Context {os : OS} {net : Net} {ST : Type} {KV : KVStore ST}.
Abbreviation daemon := (daemon ST).
Implicit Types (d : daemon) (c : client) (fd msg : Z) (data : bytes).

(** The decoder of every client. *)
Definition decs d : list (Z * proto) := (fun c => (c_fd c, settle (c_proto c))) <$> all_clients d.

Lemma decs_fds d : (decs d).*1 = c_fd <$> all_clients d.
Proof. unfold decs. by rewrite <- list_fmap_compose. Qed.

(** All that happens between two states [d0] and [d]: [b] is the list of decoders at the start. *)
Context (b : list (Z * proto)) (distinct : NoDup b.*1).
Definition kept d : Prop := decs d = b.

Lemma kept_fds d : kept d -> NoDup (c_fd <$> all_clients d).
Proof using distinct.
  intros H. rewrite <- decs_fds. by rewrite H.
Qed.

Lemma decs_upd d fd f :
  (forall c, c ∈ all_clients d -> c_fd c = fd -> c_fd (f c) = fd /\ settle (c_proto (f c)) = settle (c_proto c)) ->
  decs (upd_client d fd f) = decs d.
Proof.
  intros Hf. unfold decs, upd_client. cbn. rewrite <- list_fmap_compose. apply list_fmap_ext.
  intros i c Hi. cbn. destruct (Z.eqb_spec (c_fd c) fd) as [E|]; [|done].
  apply list_elem_of_lookup_2 in Hi. destruct (Hf c Hi E) as [-> ->]. by rewrite E.
Qed.

(** A change of the client that is not one of its translator. *)
Lemma kept_upd d fd f :
  (forall c, c_fd (f c) = c_fd c /\ c_proto (f c) = c_proto c) -> kept d -> kept (upd_client d fd f).
Proof.
  intros Hf Hd. unfold kept. rewrite decs_upd; [done|]. intros c _ <-. by destruct (Hf c) as [-> ->].
Qed.

Lemma get_client_any d fd : ensures (fun _ => True) (get_client d fd).
Proof. by intros ? ?. Qed.

(** An output replaces the translator of the client by one with the same decoder. *)
Lemma settle_kept p p' : rx p' = rx p -> t p' = t p ->
  mode p' = (if mode p =? PROTO_MODE_UNKNOWN then PROTO_MODE_BINARY else mode p) -> settle p' = settle p.
Proof.
  destruct p as [m r x], p' as [m' r' x']. cbn. intros -> -> ->. unfold settle. cbn.
  destruct (Z.eqb_spec m PROTO_MODE_UNKNOWN); [done|]. cbn. by destruct (Z.eqb_spec m PROTO_MODE_UNKNOWN).
Qed.

Lemma talked_kept d fd (m : proto -> outcome (Z * proto * daemon)) :
  (forall c, ensures (talked (fun d' => all_clients d' = all_clients d) (c_proto c)) (m (c_proto c))) ->
  kept d ->
  ensures (fun x => kept x.2)
    (c ← get_client d fd; '(r, p, d1) ← m (c_proto c); Done (r, upd_client d1 fd (fun c => set_proto c p))).
Proof using distinct.
  intros Hm Hd. destruct (get_client d fd) as [c|] eqn:Hc; ostep; [|apply ensures_crash].
  eapply ensures_bind; [apply Hm|]. intros [[r p] d1] (Hrx & Ht & Hmd & Hd1). apply ensures_done.
  cbn in *. unfold kept in *. rewrite decs_upd.
  - unfold decs. by rewrite Hd1.
  - rewrite Hd1. intros c' Hin Hfd. cbn. split; [done|]. rewrite (settle_kept (c_proto c) p Hrx Ht Hmd).
    pose proof (get_client_uniq d c' (kept_fds d Hd) Hin) as E. rewrite Hfd, Hc in E. by injection E as ->.
Qed.

Lemma send_keeps_clients l f p (d : daemon) iov fd :
  on_sendv (send_cb fd) = Some f -> all_clients d = l ->
  ensures (fun x : Z * daemon => all_clients x.2 = l) (f p d iov).
Proof.
  intros [= <-] Hl. unfold on_net_sendv. apply ensures_done. cbn. by destruct (_ <? 0).
Qed.

Lemma client_output_kept d fd msg fmt ap : kept d -> ensures (fun x => kept x.2) (client_output d fd msg fmt ap).
Proof using distinct.
  intros Hd. apply (talked_kept d fd (fun p => proto_output (send_cb fd) p d msg fmt ap)); [|done].
  intros c. apply proto_output_keeps; [|by intros f ? ? ? ? [= <-]|done].
  intros f ? ? ?. by apply send_keeps_clients.
Qed.

Lemma client_error_kept d fd code text : kept d -> ensures (fun x => kept x.2) (client_error d fd code text).
Proof using distinct.
  intros Hd. apply (talked_kept d fd (fun p => proto_output_error (send_cb fd) p d code text)); [|done].
  intros c. apply proto_output_error_keeps; [|by intros f ? ? ? ? [= <-]|done].
  intros f ? ? ?. by apply send_keeps_clients.
Qed.

#[local] Hint Resolve get_client_any client_output_kept client_error_kept : ensures.
Ltac keep := repeat (ensures_step || (progress cbn [fst snd] in * )); eauto with ensures.

Lemma kv_any {A} (m : outcome A) : ensures (fun _ => True) m.
Proof. by intros ? ?. Qed.

Lemma sub_loop_kept fd pattern fuel : forall d ix, kept d -> ensures (fun x => kept x.2) (sub_loop fuel d fd pattern ix).
Proof using distinct.
  induction fuel as [|fuel IH]; intros d ix Hd; cbn [sub_loop];
    (eapply ensures_bind; [apply kv_any|]); intros [[kv|] ix'] _; [keep..| |keep]. keep.
Qed.

Lemma cmd_sub_kept d fd data : kept d -> ensures (fun x => kept x.2) (cmd_sub d fd data).
Proof using distinct.
  intros Hd. unfold cmd_sub. keep. apply sub_loop_kept. by apply kept_upd.
Qed.

Lemma cmd_unsub_kept d fd data : kept d -> ensures (fun x => kept x.2) (cmd_unsub d fd data).
Proof. intros Hd. unfold cmd_unsub. keep. by apply kept_upd. Qed.

Lemma cmd_read_kept d fd data : kept d -> ensures (fun x => kept x.2) (cmd_read d fd data).
Proof using distinct.
  intros Hd. unfold cmd_read. destruct (contains_nul data); [keep|].
  eapply ensures_bind; [apply kv_any|]. intros [kv|] _; keep.
Qed.

Lemma notify_subs_kept fd data l : forall d, kept d -> ensures kept (notify_subs d fd l data).
Proof using distinct.
  induction l as [|sub l IH]; intros d Hd; cbn [notify_subs]; keep. apply IH. by destruct (_ =? -1).
Qed.

Lemma notify_clients_kept data l : forall d, kept d -> ensures kept (notify_clients d l data).
Proof using distinct.
  induction l as [|c l IH]; intros d Hd; cbn [notify_clients]; [keep|].
  eapply ensures_bind; [by apply notify_subs_kept|]. intros d1 Hd1. by apply IH.
Qed.

Lemma write_store_kept d fd data : kept d -> ensures (fun x => kept x.2) (write_store d fd data).
Proof using distinct.
  intros Hd. unfold write_store.
  destruct (negb _); [|destruct (is_ephemeral data); [keep|]];
    (eapply ensures_bind; [apply kv_any|]); intros [ret s] _; keep.
Qed.
#[local] Hint Resolve sub_loop_kept cmd_sub_kept cmd_unsub_kept cmd_read_kept notify_clients_kept write_store_kept : ensures.

Lemma run_command_kept d fd msg data : kept d -> ensures (fun x => kept x.2) (run_command d fd msg data).
Proof using distinct.
  intros Hd. unfold run_command, cmd_write, cmd_begin. keep. by apply kept_upd.
Qed.

Lemma playback_kept (f : daemon -> Z -> Z -> bytes -> outcome (Z * daemon)) fd fuel :
  (forall d msg data, kept d -> ensures (fun x => kept x.2) (f d fd msg data)) ->
  forall d, kept d -> ensures (fun x => kept x.2) (playback f fuel d fd).
Proof.
  intros Hf. induction fuel as [|fuel IH]; intros d Hd; cbn [playback]; keep.
  eapply ensures_bind; [apply Hf; by apply kept_upd|]. intros [r d1] Hd1. keep.
Qed.

Lemma app_input_kept depth : forall d fd msg data,
  kept d -> ensures (fun x => kept x.2) (app_input depth d fd msg data).
Proof using distinct.
  induction depth as [|depth IH]; intros d fd msg data Hd; cbn [app_input]; [keep|].
  destruct (_ =? MSG_EOF); [keep|]. eapply ensures_bind; [apply get_client_any|]. intros c _.
  destruct (negb _); [|by apply run_command_kept]. unfold buffer_command.
  eapply ensures_bind; [apply get_client_any|]. intros c' _.
  destruct (_ =? CMD_BEGIN); [apply ensures_done; by apply kept_upd|].
  destruct (_ =? CMD_COMMIT).
  { destruct (negb _); [apply ensures_done; by apply kept_upd|].
    apply playback_kept; [auto|]. by apply kept_upd. }
  destruct (_ <=? _); [keep|]. destruct (bufcmd_new _ _ _); [|keep].
  eapply ensures_bind; [apply kv_any|]. intros [l tl] _. apply ensures_done. by apply kept_upd.
Qed.

End Buffers.
