(* ===== verification/InfodNet.v ===== *)
(** * The daemon on its sockets: any bytes from any client

    InfodTheorems.v shows what the handler does with one message. Here the bytes that [read]
    gives are followed through [on_net_ready]: packets of local clients, the stream of a binary
    client in whatever fragments it comes, with messages that are cut, refused or too large, and
    the lines of a text client. [Sess] is the invariant of the daemon between two calls. *)
From S2P Require Import Prelude Match StoreDefs StoreLayout StoreRep StoreOps StoreTheorems Rxbuf.
From S2P Require Import ProtoDefs ProtoBin ProtoStream ProtoTextOut ProtoTextIn ProtoTextAny.
From S2P Require Import Infod InfodSpec InfodSay InfodSim InfodCmd InfodTheorems InfodKeep.
Local Open Scope infod_scope.

(** ** A message concerns the clients one by one *)

Lemma keeps_comp f g : keeps f -> keeps g -> keeps (fun a => f (g a)).
Proof. intros Hf Hg a. destruct (Hf (g a)) as [-> ->]. apply Hg. Qed.
Lemma keeps_txn n q : keeps (with_txn n q).
Proof. done. Qed.
#[local] Hint Resolve keeps_comp keeps_txn : infod.

Lemma a_upd_upd cs fd f g : keeps g -> a_upd (a_upd cs fd g) fd f = a_upd cs fd (fun a => f (g a)).
Proof.
  intros Hg. unfold a_upd. rewrite <- list_fmap_compose. apply list_fmap_ext. intros i a _. cbn.
  destruct (a_fd a =? fd) eqn:E; [|by rewrite E]. by rewrite (proj1 (Hg a)), E.
Qed.

Lemma run_queue_clients {F : Faults} M cs fd q ok outs M' cs' :
  run_queue M cs fd q ok outs M' cs' -> exists f, cs' = a_upd cs fd f /\ keeps f.
Proof.
  induction 1 as [M cs fd|M cs fd c msg data q outs M' cs' Hc Hst|M cs fd c msg data q outs M1 cs1 ok outs' M' cs' Hc Hst Hrun IH].
  - exists id. split; [|done]. symmetry. by apply a_upd_id.
  - destruct (step_clients _ _ _ _ _ _ _ _ _ _ Hst) as (f & -> & Hf & _).
    rewrite a_upd_upd by done. eauto with infod.
  - destruct IH as (g & -> & Hg). destruct (step_clients _ _ _ _ _ _ _ _ _ _ Hst) as (f & -> & Hf & _).
    rewrite (a_upd_upd cs fd f) by done. rewrite a_upd_upd by eauto with infod. eauto 6 with infod.
Qed.

(** No other client than the sender is changed. *)
Lemma accept_clients {F : Faults} M cs fd a msg data ok outs M' cs' :
  accept M cs fd a msg data ok outs M' cs' -> exists f, cs' = a_upd cs fd f /\ keeps f.
Proof.
  assert (Hid : exists f, cs = a_upd cs fd f /\ keeps f).
  { exists id. split; [|done]. symmetry. by apply a_upd_id. }
  destruct 1 as [|? ? ? ? ? ? _ _ Hst| | |? ? ? ? ? _ Hrun| |]; try exact Hid; try (eexists; split; [reflexivity|done]).
  - destruct (step_clients _ _ _ _ _ _ _ _ _ _ Hst) as (f & -> & Hf & _). by exists f.
  - destruct (run_queue_clients _ _ _ _ _ _ _ _ Hrun) as (f & -> & Hf). rewrite a_upd_upd by done.
    eauto with infod.
Qed.

(** ** What the received bytes mean *)

(** The size of the buffer of [on_net_ready]. *)
Definition PROTO_RECVSZ : Z := 65536.

(** The state of the abstract server, and what it has sent so far. *)
Record astate := mk_astate { as_map : gmap bytes bytes; as_clients : list aclient; as_outs : list message }.

(** A message from the client on [fd]. *)
Definition accepts {F : Faults} (fd : Z) (w : astate) (m : pdu) (ok : bool) (w' : astate) : Prop :=
  exists a outs, a_find (as_clients w) fd = Some a /\
    accept (as_map w) (as_clients w) fd a m.1 m.2 ok outs (as_map w') (as_clients w') /\
    as_outs w' = as_outs w ++ outs.

(** A reply of the text decoder itself: an error, or the help text. [b] are its bytes. *)
Definition own_reply (fd : Z) (m : message) : Prop :=
  m = (fd, PSEUDO_HELP, []) \/ exists code text, m = error_to fd code text.
Definition replied (fd : Z) (w : astate) (b : bytes) (w' : astate) : Prop :=
  exists m, own_reply fd m /\ text_frame m.1.2 m.2 = b /\ w' = mk_astate (as_map w) (as_clients w) (as_outs w ++ [m]).

(** Bytes that [read] gave for a client whose decoder is in the state [p]: the end of the file, a
    packet, a part of a stream that goes on from what is pending, or a part of the lines of a text
    client. Of these the messages are carried out and the replies sent that the text decoder finds
    in the bytes up to [rest], which is not looked at when a message was refused. *)
Inductive received {os : OS} {F : Faults} (fd : Z) (w : astate) : proto -> bytes -> bool -> astate -> proto -> Prop :=
  | rc_eof p w' : accepts fd w (MSG_EOF, []) false w' -> received fd w p [] false w' p
  | rc_packet p msg data ok w' :
      mode p = PROTO_MODE_FRAMED -> accepts fd w (msg, data) ok w' -> received fd w p (msg :: data) ok w' p
  | rc_stream p buf ok w' p' :
      mode p = PROTO_MODE_BINARY -> buf <> [] ->
      Stream (accepts fd) w (rx_buf (rx p) ++ buf) ok w' (rx_buf (rx p')) -> received fd w p buf ok w' p'
  | rc_text p buf used rest ok w' p' :
      mode p = PROTO_MODE_TEXT -> buf <> [] -> buf = used ++ rest ->
      Chat (accepts fd) (replied fd) w (text_talk p used) ok w' ->
      (ok = true -> rest = [] /\ p' = text_decoder p buf) -> received fd w p buf ok w' p'.

(** ** The invariant between two calls *)

(** A client of the abstract server that can send [k] more messages. *)
Definition idle (k : nat) (a : aclient) : Prop :=
  (a_begins a = 0 -> a_queue a = []) /\ a_begins a + Z.of_nat k < 2 ^ 32 - 1.

(** A receive buffer that holds the beginning of a message. *)
Record rx_waits (r : rxbuf) : Prop := {
  xr_ok : rx_ok r;
  xr_bytes : Forall is_byte (rx_buf r);
  xr_wait : waiting (rx_buf r)
}.

(** A text decoder that was never used: the command word is an array of sixteen bytes. *)
Definition unused (x : textproto) : Prop := zlen (cmd x) = 16 /\ state x = T_BOL.

(** A decoder between two calls. *)
Definition calm (lim : Z) (p : proto) : Prop :=
  if mode p =? PROTO_MODE_TEXT then text_inv p /\ text_load p <= lim
  else rx_waits (rx p) /\ unused (t p).

(** No message of a stream is longer than [lim]. *)
Definition small_pdus (lim : Z) (b : bytes) : Prop :=
  forall ms m rest, b = concat (enc_pdu <$> ms) ++ enc_pdu m ++ rest ->
    Forall wf_pdu ms -> wf_pdu m -> zlen m.2 <= lim.

Lemma small_next lim m b : wf_pdu m -> small_pdus lim (enc_pdu m ++ b) -> zlen m.2 <= lim /\ small_pdus lim b.
Proof.
  intros Hm Hs. split; [by apply (Hs [] m b)|]. intros ms m' rest -> Hms Hm'.
  apply (Hs (m :: ms) m' rest); [|by constructor|done]. rewrite fmap_cons. cbn [concat]. by rewrite <- app_assoc.
Qed.

Lemma small_any b : small_pdus MAX_PAYLOAD b.
Proof. intros ms m rest _ _ [_ Hm]. unfold MAX_PAYLOAD. lia. Qed.

(** The commands that wait in transactions. *)
Definition queued_in (cs : list aclient) : nat := sum_list_with (fun a => length (a_queue a)) cs.

(** The other clients. *)
Definition others (fd : Z) (cs : list aclient) : list aclient := filter (fun a => a_fd a <> fd) cs.

Lemma others_upd cs fd f : keeps f -> others fd (a_upd cs fd f) = others fd cs.
Proof.
  intros Hf. unfold others, a_upd. induction cs as [|a cs IH]; [done|]. rewrite fmap_cons, !filter_cons, IH.
  destruct (Z.eqb_spec (a_fd a) fd) as [E|E].
  - rewrite !decide_False; [done|tauto|]. rewrite (proj1 (Hf a)). tauto.
  - by rewrite decide_True.
Qed.

Lemma queued_split cs fd a :
  NoDup (a_fd <$> cs) -> a_find cs fd = Some a -> queued_in cs = (length (a_queue a) + queued_in (others fd cs))%nat.
Proof.
  unfold a_find, queued_in, others. induction cs as [|x cs IH]; [done|]. rewrite fmap_cons. cbn [find].
  intros [Hx Hnd]%NoDup_cons. rewrite filter_cons. cbn [sum_list_with]. destruct (Z.eqb_spec (a_fd x) fd) as [E|E].
  - intros [= ->]. rewrite decide_False by tauto. f_equal. f_equal. clear IH Hnd. subst fd.
    induction cs as [|y cs IH]; [done|]. rewrite fmap_cons in Hx. rewrite filter_cons_True by set_solver.
    f_equal. apply IH. set_solver.
  - intros Ha. rewrite decide_True by done. cbn [sum_list_with]. rewrite (IH Hnd Ha). lia.
Qed.

Lemma filter_fmap_iff {A B} (f : A -> B) (P : A -> Prop) (Q : B -> Prop)
    `{forall x, Decision (P x)} `{forall x, Decision (Q x)} (l : list A) :
  (forall x, P x <-> Q (f x)) -> f <$> filter P l = filter Q (f <$> l).
Proof.
  intros HPQ. induction l as [|x l IH]; [done|]. rewrite fmap_cons, !filter_cons.
  destruct (decide (P x)), (decide (Q (f x))); rewrite ?fmap_cons, ?IH; try done; exfalso; naive_solver.
Qed.

Lemma Forall_filter_weak {A} (P Q : A -> Prop) `{forall x, Decision (P x)} (l : list A) :
  Forall Q l -> Forall Q (filter P l).
Proof. rewrite !Forall_forall. intros H' x [_ Hx]%list_elem_of_filter. by apply H'. Qed.

Section Sessions.
Context {os : OS} {net : Net} {ST : Type} {KV : KVStore ST}.
Abbreviation daemon := (daemon ST).
Implicit Types (d : daemon) (c : client) (fd msg : Z) (data : bytes) (M : gmap bytes bytes).
Context {lim : Z}.
Abbreviation Inv := (Inv (lim:=lim)).
Abbreviation calm := (calm lim).

(** The daemon can take [k] more messages: in the store there is room for them and for those that
    wait in transactions. *)
Record Sess (fine : Z * proto -> Prop) (k : nat) d : Prop := {
  ss_inv : Inv d;
  ss_idle : Forall (idle k) (abs d);
  ss_fine : Forall fine (decs d);
  ss_store : exists M, kv_holds (the_store d) M /\ bounded lim M;
  ss_room : kv_room (the_store d) (queued_in (abs d) + k)
}.

(** Between two calls every decoder waits for the rest of a message; while the client on [fd] is
    served, its buffer may hold a whole one. *)
Definition all_wait (x : Z * proto) : Prop := calm x.2.
Definition all_but (fd : Z) (x : Z * proto) : Prop := x.1 <> fd -> calm x.2.

Definition Ready fd (m : Z) k d : Prop :=
  Sess (all_but fd) k d /\ exists c, get_client d fd = Done c /\ mode (settle (c_proto c)) = m.

(** The client on [fd] has to be closed. *)
Definition without fd d : daemon := set_clients d (filter (fun c => c_fd c <> fd) (all_clients d)).
Definition Ended fd (m : Z) k d : Prop :=
  Inv d /\ (exists c, get_client d fd = Done c /\ mode (settle (c_proto c)) = m) /\ Sess all_wait k (without fd d).

Lemma idle_mono k a : idle (S k) a -> idle k a.
Proof. intros [? ?]. split; [done|]. lia. Qed.

Lemma Sess_mono fine k d : Sess fine (S k) d -> Sess fine k d.
Proof.
  intros [H1 H2 H3 H4 H5]. split; try done; [eapply Forall_impl; [exact H2|apply idle_mono]|].
  eapply room_le; [|exact H5]. lia.
Qed.

Lemma Ready_mono fd m k d : Ready fd m (S k) d -> Ready fd m k d.
Proof. intros [H ?]. split; [by apply Sess_mono|done]. Qed.
Lemma Ended_mono fd m k d : Ended fd m (S k) d -> Ended fd m k d.
Proof. intros (? & ? & H). split_and!; [done|done|]. by apply Sess_mono. Qed.

Lemma abs_without fd d : abs (without fd d) = others fd (abs d).
Proof. unfold abs, without, others. cbn. by apply filter_fmap_iff. Qed.
Lemma decs_without fd d : decs (without fd d) = filter (fun x => x.1 <> fd) (decs d).
Proof. unfold decs, without. cbn. by apply filter_fmap_iff. Qed.

Lemma Inv_without fd d : Inv d -> Inv (without fd d).
Proof.
  intros [Hnd Hall]. split; cbn.
  - rewrite (filter_fmap_iff c_fd _ (fun x => x <> fd)) by done. by apply NoDup_filter.
  - by apply Forall_filter_weak.
Qed.

Lemma room_others cs fd a : NoDup (a_fd <$> cs) -> a_find cs fd = Some a ->
  (queued_in (others fd cs) <= queued_in cs)%nat.
Proof. intros H1 H2. rewrite (queued_split cs fd a H1 H2). lia. Qed.

(** Closing a client at any time leaves a session. *)
Lemma Ready_Ended fd m k d : Ready fd m k d -> Ended fd m k d.
Proof.
  intros [[Hinv Hidle Hfine HM Hroom] (c & Hc & Hm)]. split_and!; [done|by exists c|].
  pose proof (abs_find d fd c Hinv Hc) as Ha. destruct (Hinv) as [Hnd _].
  split; [by apply Inv_without| | |done|].
  - rewrite abs_without. by apply Forall_filter_weak.
  - rewrite decs_without. rewrite Forall_forall in *. intros x [Hx Hin]%list_elem_of_filter. by apply Hfine.
  - rewrite abs_without. eapply room_le; [|exact Hroom].
    pose proof (room_others (abs d) fd _ ltac:(by rewrite abs_fds) Ha). lia.
Qed.

(** ** One message *)

Definition takes fd d (m : pdu) (ok : bool) d' : Prop :=
  forall M, kv_holds (the_store d) M -> bounded lim M -> exists a outs M' evs,
    a_find (abs d) fd = Some a /\ accept M (abs d) fd a m.1 m.2 ok outs M' (abs d') /\
    kv_holds (the_store d') M' /\ bounded lim M' /\ events d' = events d ++ evs /\ on_wire (abs d) outs evs.

Lemma decs_sync d fd p : Forall (all_but fd) (decs d) ->
  Forall (all_but fd) (decs (upd_client d fd (fun c => set_proto c p))).
Proof.
  unfold decs. cbn. rewrite !Forall_fmap, !Forall_forall. intros H c Hc. cbn.
  destruct (Z.eqb_spec (c_fd c) fd) as [E|E]; [by intros ?|by apply H].
Qed.

Lemma buffers_after fd p d msg data r d' :
  Inv d -> Forall (all_but fd) (decs d) -> on_app_input fd p d msg data = Done (r, d') ->
  Forall (all_but fd) (decs d').
Proof.
  intros Hinv Hfine E. set (d0 := upd_client d fd (fun c => set_proto c p)).
  replace (decs d') with (decs d0); [by apply decs_sync|]. symmetry.
  apply (app_input_kept (decs d0)) with (depth := 2%nat) (d := d0) (fd := fd) (msg := msg) (data := data) (a := (r, d'));
    [|done|exact E].
  unfold d0. rewrite decs_fds, upd_fds by done. apply Hinv.
Qed.

(** What holds for the others and for the client on [fd] holds for all. *)
Lemma Forall_others (P : aclient -> Prop) cs fd a :
  NoDup (a_fd <$> cs) -> a_find cs fd = Some a -> P a -> Forall P (others fd cs) -> Forall P cs.
Proof.
  intros Hnd Ha HP Ho. rewrite Forall_forall in *. intros x Hin. destruct (decide (a_fd x = fd)) as [E|E].
  - pose proof (find_unique a_fd cs x Hnd Hin) as E1. rewrite E in E1. unfold a_find in Ha. congruence.
  - apply Ho. by apply list_elem_of_filter.
Qed.

Section Serving.
Hypothesis writev_takes : forall ev fd b, writev ev fd b = zlen b.
Hypothesis lim_payload : lim <= MAX_PAYLOAD.
Hypothesis errors_short : lim <= TEXT_LIMIT -> forall ev, zlen (strerror ev) <= 255.

Lemma handler_ok k fd m0 p d (m : pdu) :
  Ready fd m0 (S k) d -> mode p = m0 -> 0 <= m.1 < 256 -> zlen m.2 <= lim ->
  exists r d', on_app_input fd p d m.1 m.2 = Done (r, d') /\ takes fd d m (bool_decide (0 < r)) d' /\
    if bool_decide (0 < r) then Ready fd m0 k d' else Ended fd m0 k d'.
Proof.
  intros [[Hinv Hidle Hfine (M & HM & HB) Hroom] (c & Hc & Hm)] Hp Hid Hsz.
  pose proof (abs_find d fd c Hinv Hc) as Ha.
  assert (Hndf : NoDup (a_fd <$> abs d)) by (rewrite abs_fds; apply Hinv).
  pose proof (queued_split (abs d) fd _ Hndf Ha) as Hq. cbn [a_queue abs_client] in Hq.
  assert (Hci : idle (S k) (abs_client c)).
  { rewrite Forall_forall in Hidle. apply Hidle. by apply (find_elem a_fd (abs d) fd). }
  destruct Hci as [Hi1 Hi2]. cbn [a_begins a_queue abs_client] in Hi1, Hi2.
  assert (Hall : forall M, kv_holds (the_store d) M -> bounded lim M ->
    Handled (lim:=lim) (accept M (abs d) fd (abs_client c) m.1 m.2) d (queued_in (others fd (abs d)) + k) fd
      (on_app_input fd p d m.1 m.2)).
  { intros M0 HM0 HB0. apply on_app_input_ok; try done; [lia|congruence|].
    eapply room_le; [|exact Hroom]. lia. }
  assert (HBq : Forall (fun cmd : Z * bytes => zlen cmd.2 <= lim) (a_queue (abs_client c))).
  { apply queued_short, (ci_queue (get_client_inv d fd c Hinv Hc)). }
  destruct (Hall M HM HB) as (r & d' & outs & M' & E & Hac & HM' & Hroom' & _ & Hinv' & Hok).
  assert (HB' : bounded lim M') by (by eapply accept_bounded).
  exists r, d'. split; [done|]. split.
  { intros M0 HM0 HB0. destruct (Hall M0 HM0 HB0) as (r0 & d0 & outs0 & M0' & E0 & Hac0 & HM0' & _ & (evs & He0 & Hw0) & _).
    rewrite E in E0. injection E0 as <- <-. exists (abs_client c), outs0, M0', evs. split_and!; try done.
    by eapply accept_bounded. }
  destruct (accept_clients _ _ _ _ _ _ _ _ _ _ Hac) as (f & Hcs & Hf).
  assert (Ho : others fd (abs d') = others fd (abs d)) by (rewrite Hcs; by apply others_upd).
  pose proof (buffers_after fd p d _ _ _ _ Hinv Hfine E) as Hfine'.
  assert (Hc' : exists c', get_client d' fd = Done c' /\ mode (settle (c_proto c')) = m0).
  { destruct (get_of_abs d' fd (f (abs_client c)) Hinv') as (c' & Hc' & Ec'); [rewrite Hcs; by apply a_find_upd|].
    exists c'. split; [done|]. destruct (Hf (abs_client c)) as [_ Hfm]. rewrite Ec' in Hfm. cbn in Hfm. congruence. }
  assert (Hidle' : Forall (idle k) (others fd (abs d'))).
  { rewrite Ho. apply Forall_filter_weak. eapply Forall_impl; [exact Hidle|apply idle_mono]. }
  case_bool_decide as Hr.
  - destruct (Hok Hr) as (c' & Hc2 & T1 & T2 & T3). destruct (T3 c Hc) as [T3b T3q].
    pose proof (abs_find d' fd c' Hinv' Hc2) as Ha'.
    assert (Hndf' : NoDup (a_fd <$> abs d')) by (rewrite abs_fds; apply Hinv').
    split; [|done]. split; try done; [|by exists M'; split|].
    + eapply Forall_others; [done|exact Ha'| |done]. split; cbn; [done|lia].
    + rewrite (queued_split (abs d') fd _ Hndf' Ha'), Ho. cbn [a_queue abs_client].
      destruct (decide (bufcmds c' = [])) as [->|Hne]; [done|]. rewrite (T2 Hne).
      eapply room_le; [|exact Hroom]. lia.
  - split_and!; [done|done|]. split; [by apply Inv_without|by rewrite abs_without| |by exists M'; split|by rewrite abs_without, Ho].
    rewrite decs_without. rewrite Forall_forall in *. intros x [Hx Hin]%list_elem_of_filter. by apply Hfine'.
Qed.

(** ** The bytes of a call *)

(** The abstract server follows, message by message. *)
Lemma takes_abs fd d m ok d' M o :
  takes fd d m ok d' -> kv_holds (the_store d) M -> bounded lim M -> exists outs M' evs,
    accepts fd (mk_astate M (abs d) o) m ok (mk_astate M' (abs d') (o ++ outs)) /\
    kv_holds (the_store d') M' /\ bounded lim M' /\ events d' = events d ++ evs /\ on_wire (abs d) outs evs /\
    (forall o e, on_wire (abs d') o e -> on_wire (abs d) o e).
Proof using Type.
  intros Ht HM HB. destruct (Ht M HM HB) as (a & outs & M1 & evs & Ha & Hac & HM1 & HB1 & He & Hw).
  exists outs, M1, evs. split_and!; try done; [by exists a, outs|]. intros o' e'.
  destruct (accept_clients _ _ _ _ _ _ _ _ _ _ Hac) as (f & -> & Hf). by apply wire_upd; intros x; apply (Hf x).
Qed.

(** What a call did, as the abstract server sees it. *)
Definition Follows d M d' (R : list message -> gmap bytes bytes -> Prop) : Prop :=
  exists outs M' evs, R outs M' /\ kv_holds (the_store d') M' /\ bounded lim M' /\
    events d' = events d ++ evs /\ on_wire (abs d) outs evs.

Lemma follows_nothing d M (R : list message -> gmap bytes bytes -> Prop) :
  kv_holds (the_store d) M -> bounded lim M -> R [] M -> Follows d M d R.
Proof. intros. exists [], M, []. split_and!; try done; [by rewrite app_nil_r|constructor]. Qed.

Lemma stream_abs fd d b ok d' rest :
  Stream (takes fd) d b ok d' rest -> forall M o, kv_holds (the_store d) M -> bounded lim M ->
  Follows d M d' (fun outs M' =>
    Stream (accepts fd) (mk_astate M (abs d) o) b ok (mk_astate M' (abs d') (o ++ outs)) rest).
Proof using Type.
  induction 1 as [d b Hw|d m b d1 ok d' rest Hm Ht Hst IH|d m b d' Hm Ht|d b Hb]; intros M o HM HB.
  - apply follows_nothing; [done|done|]. rewrite app_nil_r. by apply str_wait.
  - destruct (takes_abs _ _ _ _ _ M o Ht HM HB) as (outs & M1 & evs & Hac & HM1 & HB1 & He & Hw & Hback).
    destruct (IH M1 (o ++ outs) HM1 HB1) as (outs' & M' & evs' & Hst' & HM' & HB' & He' & Hw').
    exists (outs ++ outs'), M', (evs ++ evs'). split_and!; try done.
    + rewrite app_assoc. by eapply str_next.
    + by rewrite He', He, <- app_assoc.
    + apply on_wire_app; auto.
  - destruct (takes_abs _ _ _ _ _ M o Ht HM HB) as (outs & M1 & evs & Hac & HM1 & HB1 & He & Hw & _).
    exists outs, M1, evs. split_and!; try done. by apply str_end.
  - apply follows_nothing; [done|done|]. rewrite app_nil_r. by apply str_big.
Qed.

(** The text decoder said something itself. *)
Definition said fd d (b : bytes) d' : Prop :=
  exists m evs, own_reply fd m /\ text_frame m.1.2 m.2 = b /\ d' = logs d evs /\ on_wire (abs d) [m] evs.

Lemma chat_abs fd d ts ok d' :
  Chat (takes fd) (said fd) d ts ok d' -> forall M o, kv_holds (the_store d) M -> bounded lim M ->
  Follows d M d' (fun outs M' =>
    Chat (accepts fd) (replied fd) (mk_astate M (abs d) o) ts ok (mk_astate M' (abs d') (o ++ outs))).
Proof using Type.
  induction 1 as [d|d m ts d1 ok d' Ht Hch IH|d m d' Ht|d pieces d1 ts ok d' Hs Hch IH]; intros M o HM HB.
  - apply follows_nothing; [done|done|]. rewrite app_nil_r. constructor.
  - destruct (takes_abs _ _ _ _ _ M o Ht HM HB) as (outs & M1 & evs & Hac & HM1 & HB1 & He & Hw & Hback).
    destruct (IH M1 (o ++ outs) HM1 HB1) as (outs' & M' & evs' & Hst' & HM' & HB' & He' & Hw').
    exists (outs ++ outs'), M', (evs ++ evs'). split_and!; try done.
    + rewrite app_assoc. by eapply chat_message.
    + by rewrite He', He, <- app_assoc.
    + apply on_wire_app; auto.
  - destruct (takes_abs _ _ _ _ _ M o Ht HM HB) as (outs & M1 & evs & Hac & HM1 & HB1 & He & Hw & _).
    exists outs, M1, evs. split_and!; try done. by eapply chat_end.
  - destruct Hs as (m & evs & Hm & Hb & -> & Hw).
    destruct (IH M (o ++ [m]) HM HB) as (outs' & M' & evs' & Hst' & HM' & HB' & He' & Hw').
    exists ([m] ++ outs'), M', (evs ++ evs'). split_and!; try done.
    + rewrite app_assoc. eapply chat_reply; [|exact Hst']. by exists m.
    + rewrite He'. cbn. by rewrite <- app_assoc.
    + by apply on_wire_app.
Qed.

(** The translator goes back to the client. *)
Lemma put_back fd m k d p :
  Ready fd m k d -> mode p = m -> calm p ->
  let d' := upd_client d fd (fun c => set_proto c p) in
  Sess all_wait k d' /\ abs d' = abs d /\ exists c, get_client d' fd = Done c /\ c_proto c = p.
Proof.
  intros [[Hinv Hidle Hfine HM Hroom] (c & Hc & Hm)] Hpm Hcalm d'.
  destruct (sync_ok d fd c p Hinv Hc) as (I2 & C2 & A2 & _); [congruence|]. fold d' in I2, C2, A2.
  assert (Hset : settle p = p).
  { pose proof (settle_mode _ (ci_mode (get_client_inv d fd c Hinv Hc))) as Hs. rewrite Hm, <- Hpm in Hs.
    unfold settle. by destruct Hs as [E|[E|[E _]]]; rewrite E. }
  split; [|split; [done|by exists (set_proto c p)]]. split; [done|by rewrite A2| |done|by rewrite A2].
  unfold decs, d' in *. cbn. rewrite Forall_fmap, Forall_forall in Hfine.
  rewrite !Forall_fmap, Forall_forall. intros x Hx. cbn.
  destruct (Z.eqb_spec (c_fd x) fd) as [E|E]; [unfold all_wait; cbn; by rewrite Hset|by apply Hfine].
Qed.

Lemma without_upd d fd f : (forall c, c_fd (f c) = c_fd c) -> without fd (upd_client d fd f) = without fd d.
Proof.
  intros Hf. unfold without, upd_client, set_clients. cbn. f_equal.
  induction (all_clients d) as [|x l IH]; [done|]. rewrite fmap_cons, !filter_cons.
  destruct (Z.eqb_spec (c_fd x) fd) as [E|E].
  - rewrite !decide_False by (rewrite ?Hf; tauto). apply IH.
  - rewrite !decide_True by done. by rewrite IH.
Qed.

(** Another translator of the same mode makes no difference while the client is served. *)
Lemma Ready_sync fd m k d p : Ready fd m k d -> mode p = m ->
  let d' := upd_client d fd (fun c => set_proto c p) in Ready fd m k d' /\ abs d' = abs d.
Proof.
  intros [[Hinv Hidle Hfine HM Hroom] (c & Hc & Hm)] Hpm d'.
  destruct (sync_ok d fd c p Hinv Hc) as (I2 & C2 & A2 & AC2); [congruence|]. fold d' in I2, C2, A2.
  split; [|done]. split; [split; try done; [by rewrite A2|by apply decs_sync|by rewrite A2]|].
  exists (set_proto c p). split; [done|]. apply (f_equal a_mode) in AC2. cbn in *. congruence.
Qed.

Lemma put_back_ended fd m k d p :
  Ended fd m k d -> mode p = m ->
  let d' := upd_client d fd (fun c => set_proto c p) in
  abs d' = abs d /\ on_net_close d' (Some fd) = Done (without fd d') /\ Sess all_wait k (without fd d') /\ Ended fd m k d'.
Proof.
  intros (Hinv & (c & Hc & Hm) & Hs) Hpm d'.
  destruct (sync_ok d fd c p Hinv Hc) as (I2 & C2 & A2 & AC2); [congruence|]. fold d' in I2, C2, A2.
  assert (Hw : without fd d' = without fd d) by (unfold d'; by rewrite without_upd).
  split_and!; [done|unfold on_net_close; ostep; by rewrite C2|by rewrite Hw|].
  split_and!; [done| |by rewrite Hw]. exists (set_proto c p). split; [done|]. apply (f_equal a_mode) in AC2. cbn in *. congruence.
Qed.

Lemma upd_same d fd c :
  Inv d -> get_client d fd = Done c -> upd_client d fd (fun c' => set_proto c' (c_proto c)) = d.
Proof.
  intros Hinv Hc. rewrite (upd_client_ext d fd _ (fun c => c) c Hinv Hc) by (by destruct c).
  destruct d as [s l ev]. unfold upd_client, set_clients. cbn. f_equal.
  rewrite <- (list_fmap_id l) at 2. apply list_fmap_ext. intros i x _. by destruct (_ =? fd).
Qed.

Lemma Sess_Ready fd k d c : Sess all_wait k d -> get_client d fd = Done c ->
  Ready fd (mode (settle (c_proto c))) k d.
Proof.
  intros [] Hc. split; [|by exists c]. split; try done.
  eapply Forall_impl; [eassumption|]. intros x Hx _. exact Hx.
Qed.

(** The protocol that a client is found to speak when it sends [buf]. *)
Definition spoken (p : proto) (buf : bytes) : Z :=
  if (mode p =? PROTO_MODE_UNKNOWN) && negb (bool_decide (buf = [])) then detect_mode (hd0 buf) else mode (settle p).

(** What [read] can give for a client: no message is longer than [lim], nor a line of the text
    protocol, and this is spoken only where payloads are short. *)
Definition comes_from c (buf : bytes) : Prop :=
  zlen buf <= PROTO_RECVSZ /\ Forall is_byte buf /\
  let p := c_proto c in let m := spoken p buf in
  (m = PROTO_MODE_BINARY -> small_pdus lim (rx_buf (rx p) ++ buf)) /\
  (m = PROTO_MODE_FRAMED -> zlen buf <= lim + 1) /\
  (m = PROTO_MODE_TEXT -> lim <= TEXT_LIMIT /\ short_lines lim (Z.max 5 (text_load p)) buf).

(** [on_net_ready] served the client: what it did is what the bytes mean, and the daemon is ready
    for the next call; when the connection is at its end, it is once the client is closed. *)
Definition Served (k : nat) fd c M d (buf : bytes) (res : outcome (Z * daemon)) : Prop :=
  let m := spoken (c_proto c) buf in
  let cs := a_upd (abs d) fd (with_mode m) in
  exists r d' outs M' evs p', res = Done (r, d') /\
    received fd (mk_astate M cs []) (set_mode (c_proto c) m) buf
      (bool_decide (0 < r)) (mk_astate M' (abs d') outs) p' /\
    kv_holds (the_store d') M' /\ bounded lim M' /\ events d' = events d ++ evs /\ on_wire cs outs evs /\
    if bool_decide (0 < r)
    then Sess all_wait k d' /\ exists c', get_client d' fd = Done c' /\ c_proto c' = p'
    else on_net_close d' (Some fd) = Done (without fd d') /\ Sess all_wait k (without fd d').

(** Nothing new is found out. *)
Lemma spoken_same d fd c buf :
  Inv d -> get_client d fd = Done c -> spoken (c_proto c) buf = mode (settle (c_proto c)) ->
  a_upd (abs d) fd (with_mode (spoken (c_proto c) buf)) = abs d.
Proof.
  intros Hinv Hc ->. apply a_upd_id. intros a Ha Hfd. pose proof (abs_find d fd c Hinv Hc) as Hf.
  assert (Hnd : NoDup (a_fd <$> abs d)) by (rewrite abs_fds; apply Hinv).
  pose proof (find_unique a_fd (abs d) a Hnd Ha) as Hu. rewrite Hfd in Hu. unfold a_find in Hf.
  rewrite Hu in Hf. by injection Hf as ->.
Qed.

Lemma served_eof k fd c M d :
  Sess all_wait k d -> get_client d fd = Done c -> kv_holds (the_store d) M -> bounded lim M ->
  Served k fd c M d [] (on_net_ready d (Some fd) (Some [])).
Proof.
  intros Hs Hc HM HB. pose proof (ss_inv _ _ _ Hs) as Hinv. pose proof (upd_same d fd c Hinv Hc) as Hu.
  unfold on_net_ready. ostep. rewrite Hc. ostep. cbn [proto_recv on_input client_cb].
  unfold on_app_input. cbn [app_input]. rewrite Z.eqb_refl, Hu. ostep. rewrite Hu.
  assert (Hsp : spoken (c_proto c) [] = mode (settle (c_proto c))) by (unfold spoken; by rewrite andb_false_r).
  exists 0, d, [], M, [], (set_mode (c_proto c) (spoken (c_proto c) [])). rewrite bool_decide_false, (spoken_same d fd c) by (done || lia).
  destruct (Ready_Ended _ _ _ _ (Sess_Ready fd k d c Hs Hc)) as (_ & _ & Hw). split_and!; try done.
  - apply rc_eof. exists (abs_client c), []. split_and!; [exact (abs_find d fd c Hinv Hc)|apply ac_eof|done].
  - by rewrite app_nil_r.
  - constructor.
  - unfold on_net_close. ostep. rewrite Hc. done.
Qed.

Lemma client_calm fd k d c : Sess all_wait k d -> get_client d fd = Done c -> calm (settle (c_proto c)).
Proof.
  intros Hs Hc. pose proof (ss_fine _ _ _ Hs) as Hf. rewrite Forall_forall in Hf.
  apply (Hf (fd, settle (c_proto c))). apply list_elem_of_fmap. exists c.
  by apply get_client_elem in Hc as [Hin <-].
Qed.

Lemma settle_same p : rx (settle p) = rx p /\ t (settle p) = t p.
Proof. unfold settle. by destruct (_ =? _). Qed.

Lemma calm_waits p : calm p -> mode p <> PROTO_MODE_TEXT -> rx_waits (rx p) /\ unused (t p).
Proof. unfold calm. intros H Hm. by rewrite (proj2 (Z.eqb_neq _ _) Hm) in H. Qed.

Lemma waits_calm p : rx_waits (rx p) -> unused (t p) -> mode p <> PROTO_MODE_TEXT -> calm p.
Proof. unfold calm. intros H1 H2 Hm. by rewrite (proj2 (Z.eqb_neq _ _) Hm). Qed.

Lemma served_packet k fd c M d msg data :
  Sess all_wait (S k) d -> get_client d fd = Done c -> kv_holds (the_store d) M -> bounded lim M ->
  mode (c_proto c) = PROTO_MODE_FRAMED -> 0 <= msg < 256 -> zlen data <= lim ->
  Served k fd c M d (msg :: data) (on_net_ready d (Some fd) (Some (msg :: data))).
Proof.
  intros Hs Hc HM HB Hm Hid Hsz. pose proof (ss_inv _ _ _ Hs) as Hinv.
  assert (Hp : settle (c_proto c) = c_proto c) by (unfold settle; by rewrite Hm).
  assert (Hsp : spoken (c_proto c) (msg :: data) = PROTO_MODE_FRAMED) by (unfold spoken; rewrite Hm; cbn; by rewrite Hp).
  unfold on_net_ready. ostep. rewrite Hc. ostep. rewrite proto_recv_framed by done.
  unfold recv_framed. cbn [on_input client_cb]. pose proof (Sess_Ready fd _ d c Hs Hc) as Hr. rewrite Hp, Hm in Hr.
  destruct (handler_ok k fd PROTO_MODE_FRAMED (c_proto c) d (msg, data) Hr Hm Hid Hsz) as (r & d1 & E & Ht & Hend).
  cbn [fst snd] in E. rewrite E. ostep.
  destruct (takes_abs _ _ _ _ _ M [] Ht HM HB) as (outs & M' & evs & Hac & HM' & HB' & He & Hw & _).
  pose proof (client_calm fd _ d c Hs Hc) as Hcalm. rewrite Hp in Hcalm.
  unfold Served. rewrite (spoken_same d fd c) by (done || by rewrite Hsp, Hp, Hm). rewrite Hsp.
  assert (Hset : set_mode (c_proto c) PROTO_MODE_FRAMED = c_proto c) by (destruct (c_proto c); cbn in *; by rewrite Hm).
  rewrite Hset. eexists r, _, outs, M', evs, (c_proto c). split; [done|].
  case_bool_decide as Hr0.
  - destruct (put_back fd _ k d1 (c_proto c) Hend Hm Hcalm) as (Hs' & Habs & c' & Hc' & Ep).
    rewrite Habs. split_and!; try done; [by apply rc_packet|]. by exists c'.
  - destruct (put_back_ended fd _ k d1 (c_proto c) Hend Hm) as (Habs & Hcl & Hs' & _).
    rewrite Habs. split_and!; try done. by apply rc_packet.
Qed.

Hypothesis realloc_succeeds : forall n, realloc_ok n = true.

Lemma served_stream k fd c M d buf :
  Sess all_wait (length buf + k) d -> get_client d fd = Done c -> kv_holds (the_store d) M -> bounded lim M ->
  spoken (c_proto c) buf = PROTO_MODE_BINARY -> mode (settle (c_proto c)) = PROTO_MODE_BINARY ->
  buf <> [] -> comes_from c buf ->
  Served k fd c M d buf (on_net_ready d (Some fd) (Some buf)).
Proof.
  intros Hs Hc HM HB Hsp Hp Hne (_ & Hb & Hsm & _). pose proof (ss_inv _ _ _ Hs) as Hinv. set (p := c_proto c) in *.
  destruct (settle_same p) as [Hrx Ht].
  assert (Erecv : proto_recv (client_cb fd) p d buf 0 = proto_recv (client_cb fd) (settle p) d buf 0).
  { unfold spoken, settle in *. destruct (Z.eqb_spec (mode p) PROTO_MODE_UNKNOWN) as [E|E]; [|done].
    rewrite bool_decide_false in Hsp by done. cbn [negb andb] in Hsp. destruct buf as [|ch buf]; [done|].
    unfold proto_recv. cbn [Z.eqb negb]. rewrite E. cbn [Z.eqb mode set_mode PROTO_MODE_UNKNOWN].
    by rewrite (Hsp : detect_mode ch = _). }
  pose proof (client_calm fd _ d c Hs Hc) as Hcalm. fold p in Hcalm.
  destruct (calm_waits _ Hcalm) as [[Hw1 Hw2 Hw3] Hun]; [by rewrite Hp|].
  pose proof (Sess_Ready fd _ d c Hs Hc) as Hr. fold p in Hr. rewrite Hp in Hr.
  destruct (binary_decodes (client_cb fd) (on_app_input fd) (takes fd) (Ready fd PROTO_MODE_BINARY)
    (Ended fd PROTO_MODE_BINARY) PROTO_MODE_BINARY (t p) eq_refl realloc_succeeds (Ready_mono fd _)
    (Ready_Ended fd _) (Ended_mono fd _) (fun m => zlen m.2 <= lim) (small_pdus lim) (small_next lim))
    with (p := settle p) (w := d) (net := buf) (k := k)
    as (r & p' & d1 & rest & E & Hst & [Hm' Ht'] & Hend); try done.
  { intros k' p1 d1 [msg data] H1 H2 [H3 H4] H5. by apply handler_ok. }
  { rewrite Hrx. by apply Hsm. }
  unfold on_net_ready. ostep. rewrite Hc. ostep. fold p. rewrite Erecv, E. ostep. rewrite Hrx in Hst.
  destruct (stream_abs fd _ _ _ _ _ Hst M [] HM HB) as (outs & M' & evs & Hst' & HM' & HB' & He & Hw). cbn [app] in Hst'.
  unfold Served. rewrite (spoken_same d fd c) by (done || by fold p; rewrite Hsp, Hp). fold p. rewrite Hsp.
  case_bool_decide as Hr0.
  - destruct Hend as ([_ R1 R2 R3] & Erest & HR). eexists r, _, outs, M', evs, p'. rewrite bool_decide_true by done. split; [done|].
    assert (Hcalm' : calm p').
    { apply waits_calm; [by split|rewrite Ht'; by rewrite Ht in Hun|by rewrite Hm']. }
    destruct (put_back fd _ k d1 p' HR Hm' Hcalm') as (Hs' & Habs & c' & Hc' & Ep).
    rewrite Habs. split_and!; try done; [apply rc_stream; [done|done|by rewrite Erest]|]. by exists c'.
  - destruct (put_back_ended fd _ k d1 p' Hend Hm') as (Habs & Hcl & Hs' & _).
    eexists r, _, outs, M', evs, (set_rx p (mk_rxbuf rest 0)). rewrite bool_decide_false by done. split; [done|].
    rewrite Habs. split_and!; try done. by apply rc_stream.
Qed.

(** ** Text clients *)

(** The client turns out to speak the text protocol. *)
Definition hears fd (q : proto) d : daemon := upd_client d fd (fun c => set_proto c q).

Lemma hears_Ready fd k d c :
  Sess all_wait k d -> get_client d fd = Done c -> lim <= TEXT_LIMIT ->
  let q := set_mode (c_proto c) PROTO_MODE_TEXT in
  Ready fd PROTO_MODE_TEXT k (hears fd q d) /\ abs (hears fd q d) = a_upd (abs d) fd (with_mode PROTO_MODE_TEXT).
Proof using Type.
  intros [Hinv Hidle Hfine HM Hroom] Hc Hlim q.
  assert (Habs : abs (hears fd q d) = a_upd (abs d) fd (with_mode PROTO_MODE_TEXT)) by (by eapply upd_abs).
  split; [|done]. split; [split|].
  - eapply upd_inv; [done|done|done|]. destruct (get_client_inv d fd c Hinv Hc). split; cbn; auto.
  - rewrite Habs. unfold a_upd. rewrite Forall_fmap. eapply Forall_impl; [exact Hidle|]. intros a Ha. cbn.
    by destruct (_ =? fd).
  - apply decs_sync. eapply Forall_impl; [exact Hfine|]. by intros x Hx _.
  - done.
  - rewrite Habs. unfold queued_in, a_upd in *. replace (sum_list_with _ _) with
      (sum_list_with (fun a => length (a_queue a)) (abs d)); [done|].
    clear. induction (abs d) as [|a l IH]; [done|]. rewrite fmap_cons. cbn. rewrite IH. by destruct (_ =? fd).
  - exists (set_proto c q). split; [by apply (upd_get d fd (fun c => set_proto c q))|done].
Qed.

Lemma hears_logs fd q d evs : hears fd q (logs d evs) = logs (hears fd q d) evs.
Proof. done. Qed.

Lemma Ready_logs fd m k d evs : Ready fd m k d -> Ready fd m k (logs d evs).
Proof. by intros [[] ?]. Qed.

(** An error line of the decoder. *)
Lemma text_reports fd q k p d code text :
  mode q = PROTO_MODE_TEXT -> Ready fd PROTO_MODE_TEXT k (hears fd q d) -> mode p = PROTO_MODE_TEXT ->
  0 <= code < 256 -> zlen text <= 100 ->
  exists r d', proto_output_error (client_cb fd) p d code text = Done (r, p, d') /\
    said fd (hears fd q d) (error_line code text) (hears fd q d') /\ Ready fd PROTO_MODE_TEXT k (hears fd q d').
Proof using writev_takes.
  intros Hq HR Hp Hcode Hl. destruct (HR) as [[Hinv _ _ _ _] (c & Hc & Hm)].
  assert (Hlim : lim <= TEXT_LIMIT).
  { apply (ci_text (get_client_inv _ _ _ Hinv Hc)). pose proof (settle_mode _ (ci_mode (get_client_inv _ _ _ Hinv Hc))) as Hs.
    rewrite Hm in Hs. by destruct Hs as [?|[?|[_ ?]]]. }
  assert (Hsp : speaks (lim:=lim) p) by (split; auto).
  assert (Hset : settle p = p) by (unfold settle; by rewrite Hp).
  destruct (error_out writev_takes fd p d code text Hsp Hcode) as (pieces & Hpc & Hl1 & E);
    [unfold TEXT_LIMIT; lia|]. rewrite Hset in *.
  change (proto_output_error (client_cb fd) p d code text) with (proto_output_error (send_cb fd) p d code text).
  eexists _, _. split; [exact E|]. split; [|by apply (Ready_logs fd _ k (hears fd q d))].
  eexists (fd, MSG_ERROR, code :: cstr (take (Z.to_nat 16383) text)), _. split; [right; by eexists _, _|].
  assert (Htk : take (Z.to_nat 16383) text = text) by (apply take_ge; unfold zlen in Hl; lia).
  split; [cbn [fst snd]; by rewrite Htk|]. split; [done|].
  assert (Hmode : mode_of (abs (hears fd q d)) fd = PROTO_MODE_TEXT).
  { unfold mode_of. by rewrite (abs_find (hears fd q d) fd c Hinv Hc). }
  apply (on_wire_one (abs (hears fd q d)) (fd, MSG_ERROR, code :: cstr (take (Z.to_nat 16383) text))); cbn [fst snd];
    rewrite Hmode; [by rewrite Hpc, Hp|done].
Qed.

Lemma text_helps fd q k p d :
  Ready fd PROTO_MODE_TEXT k (hears fd q d) -> mode p = PROTO_MODE_TEXT ->
  exists r d', on_net_sendv fd p d [help_text] = Done (r, d') /\ said fd (hears fd q d) help_text (hears fd q d') /\
    0 < r /\ Ready fd PROTO_MODE_TEXT k (hears fd q d').
Proof using writev_takes.
  intros HR Hp. destruct (HR) as [[Hinv _ _ _ _] (c & Hc & Hm)].
  pose proof (sendv_takes fd p d [help_text] writev_takes) as E. unfold sendv in E. cbn [on_sendv send_cb] in E.
  eexists _, _. split; [exact E|].
  split; [|split; [by vm_compute|by apply (Ready_logs fd _ k (hears fd q d))]].
  exists (fd, PSEUDO_HELP, []), [Sent fd (concat [help_text])]. split; [by left|]. split; [done|]. split; [done|].
  apply (on_wire_one (abs (hears fd q d)) (fd, PSEUDO_HELP, []) [concat [help_text]]); [|done].
  unfold mode_of. cbn [fst snd]. rewrite (abs_find (hears fd q d) fd c Hinv Hc). cbn [from_option a_mode abs_client].
  rewrite Hm. cbn [concat]. by rewrite !app_nil_r.
Qed.

Lemma chat_map {A B} (R : B -> pdu -> bool -> B -> Prop) (E : B -> bytes -> B -> Prop) (g : A -> B) a ts ok a' :
  Chat (fun x m b y => R (g x) m b (g y)) (fun x b y => E (g x) b (g y)) a ts ok a' -> Chat R E (g a) ts ok (g a').
Proof.
  induction 1; [apply chat_done|eapply chat_message|eapply chat_end|eapply chat_reply]; eauto.
Qed.

Lemma text_handles fd q k p d (m : pdu) :
  mode q = PROTO_MODE_TEXT -> Ready fd PROTO_MODE_TEXT (S k) (hears fd q d) -> mode p = PROTO_MODE_TEXT ->
  0 <= m.1 < 256 -> zlen m.2 <= lim ->
  exists r d', on_app_input fd p d m.1 m.2 = Done (r, d') /\
    takes fd (hears fd q d) m (bool_decide (0 < r)) (hears fd q d') /\
    if bool_decide (0 < r) then Ready fd PROTO_MODE_TEXT k (hears fd q d') else Ended fd PROTO_MODE_TEXT k (hears fd q d').
Proof using writev_takes lim_payload errors_short.
  intros Hq HR Hp Hid Hsz.
  destruct (handler_ok k fd PROTO_MODE_TEXT p (hears fd q d) m HR Hp Hid Hsz) as (r & d' & E & Ht & Hend).
  assert (Es : on_app_input fd p d m.1 m.2 = on_app_input fd p (hears fd q d) m.1 m.2)
    by (unfold on_app_input, hears; by rewrite upd_upd).
  exists r, d'. split; [by rewrite Es|].
  assert (Habs : abs (hears fd q d') = abs d').
  { case_bool_decide; [by destruct (Ready_sync fd _ k d' q Hend Hq)|by destruct (put_back_ended fd _ k d' q Hend Hq)]. }
  split.
  - intros M HM HB. destruct (Ht M HM HB) as (a & outs & M' & evs & H1 & H2 & H3 & H4 & H5 & H6).
    exists a, outs, M', evs. by rewrite Habs.
  - case_bool_decide; [by destruct (Ready_sync fd _ k d' q Hend Hq)|].
    by destruct (put_back_ended fd _ k d' q Hend Hq) as (_ & _ & _ & ?).
Qed.

Lemma proto_recv_lines (cb : callbacks daemon) p d buf :
  buf <> [] -> spoken p buf = PROTO_MODE_TEXT ->
  mode p = PROTO_MODE_UNKNOWN \/ mode p = PROTO_MODE_BINARY \/ mode p = PROTO_MODE_FRAMED \/ mode p = PROTO_MODE_TEXT ->
  proto_recv cb p d buf 0 = recv_text cb (set_mode p PROTO_MODE_TEXT) d buf.
Proof using Type.
  intros Hne Hsp Hm. destruct buf as [|ch buf]; [done|]. unfold proto_recv, spoken, settle in *. cbn [Z.eqb negb].
  destruct (Z.eqb_spec (mode p) PROTO_MODE_UNKNOWN) as [E|E].
  - rewrite bool_decide_false in Hsp by done. cbn [andb negb hd0] in Hsp. by rewrite Hsp.
  - cbn [andb] in Hsp. rewrite Hsp. destruct p as [m r x]. cbn in Hsp. by subst.
Qed.

(** A decoder between two calls can go on with text. *)
Lemma calm_text fd k d c :
  Sess all_wait k d -> get_client d fd = Done c -> text_inv (set_mode (c_proto c) PROTO_MODE_TEXT).
Proof using Type.
  intros Hs Hc. set (p := c_proto c).
  pose proof (client_calm fd _ d c Hs Hc) as Hcalm. fold p in Hcalm. destruct (settle_same p) as [Erx Et].
  unfold calm, InfodNet.calm in Hcalm. destruct (Z.eqb_spec (mode (settle p)) PROTO_MODE_TEXT) as [E|E].
  - destruct Hcalm as [[(_ & H1 & H2) H3] _]. rewrite Erx in H1. rewrite Et in H2, H3. split; [by split_and!|exact H3].
  - destruct Hcalm as [[H1 _ _] [H2 H3]]. rewrite Erx in H1. rewrite Et in H2, H3. split; [by split_and!|]. cbn. by rewrite H3.
Qed.

Lemma served_text k fd c M d buf :
  Sess all_wait (length buf + k) d -> get_client d fd = Done c -> kv_holds (the_store d) M -> bounded lim M ->
  spoken (c_proto c) buf = PROTO_MODE_TEXT -> buf <> [] -> comes_from c buf ->
  Served k fd c M d buf (on_net_ready d (Some fd) (Some buf)).
Proof using writev_takes lim_payload errors_short realloc_succeeds.
  intros Hs Hc HM HB Hsp Hne (_ & _ & _ & _ & Htx). destruct (Htx Hsp) as [Hlim Hshort]. clear Htx.
  pose proof (ss_inv _ _ _ Hs) as Hinv. set (p := c_proto c) in *. set (q := set_mode p PROTO_MODE_TEXT).
  destruct (hears_Ready fd _ d c Hs Hc Hlim) as [HR Habs0]. fold p q in HR, Habs0.
  pose proof (ci_mode (get_client_inv d fd c Hinv Hc)) as Hmode. fold p in Hmode.
  assert (Hq : text_inv q) by (by eapply calm_text).
  destruct (recv_text_ok (client_cb fd) (on_app_input fd) (on_net_sendv fd) (fun x m b y => takes fd (hears fd q x) m b (hears fd q y))
    (fun x b y => said fd (hears fd q x) b (hears fd q y)) (fun k x => Ready fd PROTO_MODE_TEXT k (hears fd q x))
    (fun k x => Ended fd PROTO_MODE_TEXT k (hears fd q x)) lim) with (p := q) (w := d) (net := buf) (k := k)
    as (r & p' & d1 & used & rest & E & Hinv' & Hbuf & Hch & Hend); try done.
  { intros [[n Hn]|?]; [by rewrite realloc_succeeds in Hn|unfold TEXT_LIMIT in Hlim; lia]. }
  { intros k' x. apply Ready_mono. }
  { intros k' x. apply Ended_mono. }
  { intros k' p1 x code text H1 H2 H3 H4. by apply (text_reports fd q k'). }
  { intros k' p1 x. by apply (text_helps fd q k'). }
  { intros k' p1 x m. by apply (text_handles fd q k'). }
  apply chat_map in Hch. destruct (chat_abs fd _ _ _ _ Hch M [] HM HB) as (outs & M' & evs & Hch' & HM' & HB' & He & Hw).
  cbn [app] in Hch'. rewrite Habs0 in Hch', Hw.
  unfold on_net_ready. ostep. rewrite Hc. ostep. fold p. rewrite (proto_recv_lines _ p d buf Hne Hsp Hmode). fold q.
  rewrite E. ostep. assert (Hu : upd_client d1 fd (fun c => set_proto c p') = upd_client (hears fd q d1) fd (fun c => set_proto c p'))
    by (unfold hears; by rewrite upd_upd). rewrite Hu.
  assert (Hm' : mode p' = PROTO_MODE_TEXT) by apply Hinv'.
  unfold Served. fold p. rewrite Hsp. fold q. eexists r, _, outs, M', evs, p'. split; [done|]. case_bool_decide as Hr0.
  - destruct Hend as (-> & Hp' & Hld & HR1). assert (Hcalm' : calm p') by (unfold calm, InfodNet.calm; by rewrite Hm').
    destruct (put_back fd _ k _ p' HR1 Hm' Hcalm') as (Hs' & Habs & c' & Hc' & Ep). rewrite Habs.
    split_and!; try done; [by apply (rc_text fd _ q buf used [])|]. by exists c'.
  - destruct (put_back_ended fd _ k _ p' Hend Hm') as (Habs & Hcl & Hs' & _). rewrite Habs.
    split_and!; try done. by apply (rc_text fd _ q buf used rest).
Qed.

Lemma Sess_shrink fine n k d : Sess fine (n + k) d -> Sess fine k d.
Proof. induction n as [|n IH]; [done|]. intros Hs. by apply IH, Sess_mono. Qed.

Lemma net_ready_ok k fd c M d buf :
  Sess all_wait (length buf + k) d -> get_client d fd = Done c -> kv_holds (the_store d) M -> bounded lim M ->
  comes_from c buf -> Served k fd c M d buf (on_net_ready d (Some fd) (Some buf)).
Proof.
  intros Hs Hc HM HB Hcf. destruct (decide (buf = [])) as [->|Hne]; [by apply served_eof|].
  pose proof (get_client_inv d fd c (ss_inv _ _ _ Hs) Hc) as Hci.
  destruct (decide (spoken (c_proto c) buf = PROTO_MODE_TEXT)) as [Ht|Ht]; [by apply served_text|].
  destruct (Z.eqb_spec (mode (c_proto c)) PROTO_MODE_FRAMED) as [E|E].
  - assert (Hsp : spoken (c_proto c) buf = PROTO_MODE_FRAMED) by (unfold spoken, settle; rewrite E; cbn; by rewrite E).
    destruct buf as [|msg data]; [done|].
    destruct Hcf as (_ & [Hb _]%Forall_cons & _ & Hf & _). specialize (Hf Hsp). unfold is_byte in Hb. rewrite zlen_cons in Hf.
    apply served_packet; try done; [|lia]. cbn [length] in Hs. apply (Sess_shrink _ (length data)).
    by rewrite Nat.add_succ_r.
  - apply served_stream; try done; unfold spoken, settle in *;
      destruct (ci_mode Hci) as [Em|[Em|[Em|Em]]]; rewrite Em in *; cbn in *; rewrite ?Em in *; try done.
    rewrite bool_decide_false in * by done. cbn in *. unfold detect_mode in *. by destruct (_ || _).
Qed.

(** C4: the bytes that one read gives for a client, at most 65536 of them and in whatever
    fragments, with messages of at most [lim] bytes and text in lines of at most [lim] bytes
    ([comes_from]; [lim] is at most 65535, and at most 1020 for a text client), over records that
    are no longer, where the sockets take what is written and there is memory: [on_net_ready]
    returns. The messages that the bytes complete are handled in order as the abstract server
    says, up to the first that ends the connection; an incomplete message is kept for the next
    call and a binary one that is too large ends the connection. The first byte decides between
    the binary and the text protocol. Of a text client just the messages are carried out and just
    the replies sent, errors and the help text, that its bytes determine ([text_talk]), in their
    order, and its connection ends only when a message was refused. Then the daemon is ready for
    the next call, after [on_net_close] when the connection ended. *)
Theorem bytes_served k fd c M d buf :
  Sess all_wait (length buf + k) d -> get_client d fd = Done c -> kv_holds (the_store d) M -> bounded lim M ->
  comes_from c buf -> Served k fd c M d buf (on_net_ready d (Some fd) (Some buf)).
Proof. apply net_ready_ok. Qed.

End Serving.
End Sessions.

(** ** Witness *)

Lemma demo_calm lim m : m = PROTO_MODE_BINARY \/ m = PROTO_MODE_FRAMED \/ m = PROTO_MODE_TEXT -> 5 <= lim ->
  calm lim (demo_proto m).
Proof.
  intros Hm Hl. assert (Hrx : rx_ok (rx (demo_proto m))) by (split; cbn; [done|by exists 0]). unfold calm.
  destruct Hm as [-> |[-> | ->]]; cbn.
  1,2: split; [|done]; split; cbn; [done|constructor|apply waiting_nil].
  split; [|done]. split; [by split_and!|done].
Qed.

Lemma text_sess : Sess (KV:=demo_kv) (lim:=TEXT_LIMIT) (all_wait (lim:=TEXT_LIMIT)) 90 (text_daemon []).
Proof.
  split.
  - by apply text_daemon_inv.
  - repeat constructor; cbn; lia || done.
  - assert (H : forall m, m = PROTO_MODE_BINARY \/ m = PROTO_MODE_FRAMED \/ m = PROTO_MODE_TEXT -> calm TEXT_LIMIT (demo_proto m))
      by (intros m Hm; by apply demo_calm).
    repeat (apply Forall_cons; split); [apply (H 2); auto|apply (H 3); auto|apply (H 1); auto|by apply Forall_nil].
  - exists (contents demo_l). split; [apply (demo_holds [])|apply demo_bounded].
  - apply (demo_room 90). lia.
Qed.

(** The text client reads a key and starts another line. *)
Definition demo_line : bytes := Eval vm_compute in $"read a" ++ CRLF ++ $"wri".

Lemma bytes_served_witness :
  Served (net:=quiet_net) (KV:=demo_kv) (lim:=TEXT_LIMIT) 70 7 (demo_client 7 2 []) (contents demo_l) (text_daemon []) demo_line
    (on_net_ready (os:=quiet_os) (net:=quiet_net) (KV:=demo_kv) (text_daemon []) (Some 7) (Some demo_line)).
Proof.
  apply (bytes_served (os:=quiet_os) (net:=quiet_net) (KV:=demo_kv) (lim:=TEXT_LIMIT) (fun _ _ _ => eq_refl) (ltac:(done))
    (fun _ _ => ltac:(done)) (fun _ => eq_refl)).
  - apply (Sess_shrink (KV:=demo_kv) _ 9), text_sess.
  - reflexivity.
  - apply (demo_holds []).
  - apply demo_bounded.
  - split; [by vm_compute|]. split; [repeat (apply Forall_cons; split; [done|]); by apply Forall_nil|].
    cbv zeta. split; [done|]. split; [done|]. intros _. split; [done|]. cbn. unfold TEXT_LIMIT. repeat split; lia.
Defined.
