(* ===== verification/InfodText.v ===== *)
(** * The daemon: text clients

    A text client that sends lines of the protocol is served exactly the commands that the lines
    stand for, and what a record that is too long for a line does to the daemon. *)
From S2P Require Import Prelude Match StoreDefs StoreLayout StoreRep StoreOps StoreTheorems Rxbuf.
From S2P Require Import ProtoDefs ProtoBin ProtoStream ProtoTextOut ProtoTextIn ProtoTextAny ProtoLines.
From S2P Require Import Infod InfodSpec InfodSay InfodSim InfodCmd InfodTheorems InfodKeep InfodNet.
Local Open Scope infod_scope.


Section Lines.
Context {os : OS} {net : Net} {ST : Type} {KV : KVStore ST} {lim : Z}.
Abbreviation daemon := (daemon ST).
Implicit Types (d : daemon) (c : client) (fd : Z) (M : gmap bytes bytes) (ms : list pdu).
Abbreviation takes := (takes (lim:=lim)).
Abbreviation Sess := (Sess (lim:=lim)).
Abbreviation all_wait := (all_wait (lim:=lim)).



Section Serving.
Hypothesis writev_takes : forall ev fd b, writev ev fd b = zlen b.
Hypothesis lim_payload : lim <= MAX_PAYLOAD.
Hypothesis errors_short : lim <= TEXT_LIMIT -> forall ev, zlen (strerror ev) <= 255.
Hypothesis realloc_succeeds : forall n, realloc_ok n = true.



End Serving.
End Lines.

(** ** Witness *)





(** ** A record that is too long for a text client *)

(** A local client writes a record of 4086 bytes, which the daemon takes and stores; when a text
    client then reads the key, its line overruns the output buffer. Hence the bound on the payloads
    of text clients. *)
Theorem long_record_crashes :
  ('(r, d) ← on_net_ready (os:=quiet_os) (net:=quiet_net) (KV:=demo_kv) (text_daemon []) (Some 5)
     (Some (CMD_WRITE :: $"k" ++ 0 :: replicate 4083 97 ++ [10]));
   Done (r, '(r2, _) ← on_net_ready (os:=quiet_os) (net:=quiet_net) (KV:=demo_kv) d (Some 7) (Some ($"read k" ++ CRLF));
            Done r2)) = Done (1, Crash OutOfBounds).
Proof. vm_compute. reflexivity. Qed.
