(* ===== verification/InfodLog.v ===== *)
(** * Names of peers, and the verbose log

    The names under which the daemon logs its peers (sockunix.c, socktcp.c, server.c) and the
    line that it logs for a message under -vv (infod.c). Logging changes no state of the daemon;
    what matters is that it stays within its buffers and within the message. *)
From stdpp Require Import pretty.
From S2P Require Import Prelude StoreDefs ProtoDefs Infod.
Local Open Scope Z_scope.
Local Open Scope infod_scope.

(** [%d] and [%u] *)
Definition decimal (n : Z) : bytes := bytes_of_string (pretty n).

(** The string that [snprintf(buf, sz, ...)] leaves in [buf], for the text that it prints. *)
Definition snprintf (sz : Z) (text : bytes) : bytes := take (Z.to_nat (sz - 1)) text.

(** A string in memory that should end with a NUL. *)
Definition c_string (m : bytes) : outcome bytes :=
  if bool_decide (0 ∈ m) then Done (cstr m) else Crash OutOfBounds.

Definition PEERNAMESZ : Z := 256.

(** ** Names *)

Definition sockunix_peername (fd sz : Z) : bytes := snprintf sz ($"local/" ++ decimal fd).

(** What getnameinfo() returned, and what the buffers for the host and for the service hold
    afterwards. *)
Record nameinfo := mk_nameinfo { ni_ret : Z; ni_host : bytes; ni_service : bytes }.

(** [connected] is the result of getpeername(). *)
Definition tcp_peername (connected : bool) (ni : nameinfo) (sz : Z) : outcome bytes :=
  if negb connected then Done $"n/a"
  else if ni_ret ni =? -1 then Done $"n/a"
  else
    host ← c_string (ni_host ni);
    service ← c_string (ni_service ni);
    Done (host ++ snprintf (sz - zlen host) ($":" ++ service)).

Record listener := mk_listener { name : bytes; peername : option (Z -> Z -> outcome bytes) }.

Definition listener_peername (l : option listener) (fd sz : Z) : outcome bytes :=
  if fd =? -1 then Done $"closed"
  else match l with
       | None => Done $"?"
       | Some l => match peername l with None => Done (name l) | Some f => f fd sz end
       end.

(** The listeners of the daemon; [connected] and [ni] are the answers for a TCP socket. *)
Section Listeners.
Context (connected : Z -> bool) (ni : Z -> nameinfo).

Definition unix_listener : listener := mk_listener $"unix" None.
Definition stdin_listener : listener := mk_listener $"stdin" None.
Definition tcp_listener : listener :=
  mk_listener $"tcp" (Some (fun fd sz => tcp_peername (connected fd) (ni fd) sz)).

(** ** The log of a message *)

(** [data] is the payload, with a NUL after it, or a NULL pointer. The result is the line. *)
Definition log_input_verbose (l : option listener) (fd begins msg : Z) (data : option bytes) : outcome bytes :=
  namebuf ← listener_peername l fd PEERNAMESZ;
  let p := snprintf (PEERNAMESZ + 2) ($"[" ++ namebuf ++ $"] got" ++ [if begins =? 0 then 32 else 43]) in
  let plain (word : bytes) :=
    d ← of_option NullDeref data; Done (p ++ word ++ cstr d) in
  if msg =? CMD_HELLO then
    d ← of_option NullDeref data;
    match d with
    | [] => Done (p ++ $" HELLO")
    | c :: d' => Done (p ++ $" HELLO " ++ decimal (Z.land c 0xff) ++ $" " ++ cstr d')
    end
  else if msg =? CMD_SUB then plain $" SUB "
  else if msg =? CMD_UNSUB then plain $" UNSUB "
  else if msg =? CMD_READ then plain $" READ "
  else if msg =? CMD_WRITE then
    d ← of_option NullDeref data;
    let kl := zlen (cstr d) in
    if kl =? zlen d then Done (p ++ $" WRITE " ++ cstr d ++ $" (delete)")
    else
      value ← of_option OutOfBounds (mread d (kl + 1) (u32 (zlen d - kl - 1)));
      Done (p ++ $" WRITE " ++ cstr d ++ $" " ++ cstr value)
  else if msg =? CMD_BEGIN then plain $" BEGIN "
  else if msg =? CMD_COMMIT then plain $" COMMIT "
  else if msg =? CMD_PING then plain $" PING "
  else if msg =? MSG_EOF then Done (p ++ $" <EOF>")
  else
    d ← of_option NullDeref data;
    Done (p ++ $" <msg=" ++ hex2 msg ++ $",len=" ++ decimal (zlen d) ++ $"> " ++ cstr d).

(** ** Lengths *)

Lemma length_pretty_go k : forall x s, (x < 10 ^ N.of_nat k)%N ->
  (String.length (pretty_N_go x s) <= k + String.length s)%nat.
Proof.
  induction k as [|k IH]; intros x s Hx.
  - assert (x = 0%N) as -> by lia. by rewrite pretty_N_go_0.
  - destruct (decide (x = 0%N)) as [->|Hne]; [rewrite pretty_N_go_0; lia|].
    rewrite pretty_N_go_step by lia. specialize (IH (x `div` 10)%N (String (pretty_N_char (x `mod` 10)) s)).
    cbn [String.length] in IH. etransitivity; [apply IH|lia]. apply N.Div0.div_lt_upper_bound.
    rewrite Nat2N.inj_succ, N.pow_succ_r' in Hx. lia.
Qed.

Lemma length_bytes_of_string s : length (bytes_of_string s) = String.length s.
Proof. induction s as [|c s IH]; [done|]. cbn. by rewrite IH. Qed.

(** The number of a descriptor has at most eleven characters. *)
Lemma zlen_decimal n : - 2 ^ 31 <= n < 2 ^ 31 -> zlen (decimal n) <= 11.
Proof.
  intros Hn. unfold decimal, zlen. rewrite length_bytes_of_string.
  assert (Hp : forall p : positive, Z.pos p <= 2 ^ 31 -> (String.length (pretty p) <= 10)%nat).
  { intros p Hp. pose proof (length_pretty_go 10 (N.pos p) "") as H. cbn [String.length] in H.
    unfold pretty, pretty_positive, pretty, pretty_N. rewrite decide_False by done.
    change (10 ^ N.of_nat 10)%N with 10000000000%N in H. lia. }
  destruct n as [|p|p]; cbn [pretty pretty_Z]; unfold pretty, pretty_Z.
  - cbn. lia.
  - specialize (Hp p ltac:(lia)). unfold pretty in Hp. lia.
  - specialize (Hp p ltac:(lia)). unfold pretty in Hp.
    change (String.length ("-" +:+ pretty_positive p)) with (S (String.length (pretty_positive p))). lia.
Qed.

(** ** Theorems *)

(** Two descriptors never have the same local name. *)
Lemma bytes_of_string_inj s t : bytes_of_string s = bytes_of_string t -> s = t.
Proof.
  revert t. induction s as [|c s IH]; intros [|c' t] E; try done. cbn in E. injection E as E1 E2.
  f_equal; [|by apply IH]. rewrite <- (Ascii.ascii_N_embedding c), <- (Ascii.ascii_N_embedding c'). f_equal. lia.
Qed.

Lemma local_name_whole fd : - 2 ^ 31 <= fd < 2 ^ 31 -> sockunix_peername fd PEERNAMESZ = $"local/" ++ decimal fd.
Proof.
  intros H. apply zlen_decimal in H. unfold sockunix_peername, snprintf, PEERNAMESZ. apply take_ge.
  rewrite length_app. unfold zlen in H. cbn [length bytes_of_string]. lia.
Qed.

Lemma local_names_differ fd fd' :
  - 2 ^ 31 <= fd < 2 ^ 31 -> - 2 ^ 31 <= fd' < 2 ^ 31 ->
  sockunix_peername fd PEERNAMESZ = sockunix_peername fd' PEERNAMESZ -> fd = fd'.
Proof.
  intros H H' E. rewrite !local_name_whole in E by done. apply app_inv_head, bytes_of_string_inj in E.
  by apply (inj pretty) in E.
Qed.

(** getnameinfo() that succeeds leaves strings in both buffers. *)
Definition resolved (n : nameinfo) (sz : Z) : Prop :=
  ni_ret n = 0 -> 0 ∈ ni_host n /\ 0 ∈ ni_service n /\ zlen (ni_host n) = sz.

Lemma zlen_snprintf sz text : 0 < sz -> zlen (snprintf sz text) < sz.
Proof. intros H. unfold snprintf, zlen. rewrite length_take. lia. Qed.

Lemma cstr_shorter m : 0 ∈ m -> zlen (cstr m) < zlen m.
Proof. intros (v & E)%cstr_split. rewrite E at 2. rewrite zlen_app, zlen_cons. pose proof (zlen_nonneg v). lia. Qed.

(** A TCP peer is named by its host and service, cut to the buffer, or not available. *)
Lemma tcp_peername_ok c n sz :
  ni_ret n = 0 \/ ni_ret n = -1 -> resolved n sz -> 3 < sz ->
  exists b, tcp_peername c n sz = Done b /\ zlen b < sz /\
    (b = $"n/a" \/ b = snprintf sz (cstr (ni_host n) ++ $":" ++ cstr (ni_service n))).
Proof.
  intros Hr Hok Hsz. unfold tcp_peername. destruct c; cbn [negb]; [|exists $"n/a"; split_and!; [done|done|by left]].
  destruct Hr as [E|E]; rewrite E; cbn [Z.eqb]; [|exists $"n/a"; split_and!; [done|done|by left]].
  destruct (Hok E) as (H1 & H2 & H3). unfold c_string. rewrite !bool_decide_true by done. ostep.
  eexists. split; [done|]. pose proof (cstr_shorter _ H1). set (h := cstr (ni_host n)) in *.
  assert (Ecut : h ++ snprintf (sz - zlen h) ($":" ++ cstr (ni_service n)) = snprintf sz (h ++ $":" ++ cstr (ni_service n))).
  { unfold snprintf. rewrite (take_app_ge h) by (unfold zlen in *; lia). f_equal. f_equal. unfold zlen in *. lia. }
  rewrite Ecut. split; [apply zlen_snprintf; lia|by right].
Qed.

(** The listeners of the daemon name every peer within [PEERNAMESZ]. *)
Lemma peername_fits l fd :
  l ∈ [unix_listener; stdin_listener; tcp_listener] ->
  ni_ret (ni fd) = 0 \/ ni_ret (ni fd) = -1 -> resolved (ni fd) PEERNAMESZ ->
  exists b, listener_peername (Some l) fd PEERNAMESZ = Done b /\ zlen b < PEERNAMESZ.
Proof.
  intros Hl Hr Hok. unfold listener_peername. destruct (fd =? -1); [by exists $"closed"|].
  repeat (apply elem_of_cons in Hl as [->|Hl]); [by exists $"unix"|by exists $"stdin"| |by apply not_elem_of_nil in Hl].
  destruct (tcp_peername_ok (connected fd) (ni fd) PEERNAMESZ Hr Hok) as (b & E & Hb & _); [done|]. by exists b.
Qed.

(** The log of any message that the translator passes up is written, and stays within it. *)
Lemma log_input_total l fd begins msg data b :
  listener_peername l fd PEERNAMESZ = Done b -> zlen data <= 65535 ->
  exists line, log_input_verbose l fd begins msg (if msg =? MSG_EOF then None else Some data) = Done line.
Proof.
  intros E Hsz. unfold log_input_verbose. rewrite E. ostep.
  destruct (Z.eqb_spec msg MSG_EOF) as [->|Hne]; [eauto|]. ostep.
  destruct (msg =? CMD_HELLO); [destruct data; eauto|]. repeat (case_match; [eauto; fail|]).
  destruct (Z.eqb_spec msg CMD_WRITE); [|repeat case_match; eauto].
  destruct (Z.eqb_spec (zlen (cstr data)) (zlen data)) as [|Hk]; [eauto|].
  destruct (decide (0 ∈ data)) as [Hin|Hn]; [|by rewrite cstr_no_nul in Hk].
  destruct (cstr_split data Hin) as [v Ev]. set (k := cstr data) in *.
  assert (Ez : zlen data = zlen k + 1 + zlen v) by (rewrite Ev, zlen_app, zlen_cons; lia).
  pose proof (zlen_nonneg v). pose proof (zlen_nonneg k).
  assert (mread data (zlen k + 1) (u32 (zlen data - zlen k - 1)) = Some v) as ->; [|ostep; eauto].
  rewrite u32_small by lia. pose proof (mread_app (k ++ [0]) v [] (zlen k + 1) (zlen data - zlen k - 1)) as Hm.
  rewrite app_nil_r, <- app_assoc in Hm. cbn [app] in Hm. rewrite <- Ev in Hm. apply Hm; [zlen_lia|lia].
Qed.

End Listeners.

(** getnameinfo() reports a failure with an EAI_ code, only one of which is -1: after the others
    the buffers, which were not written, are taken for strings. *)
Example getnameinfo_unchecked :
  tcp_peername true (mk_nameinfo (-6) (replicate 256 7) (replicate 32 7)) PEERNAMESZ = Crash OutOfBounds.
Proof. reflexivity. Qed.

(** Under -vv a record is logged with its key and its value. *)
Example log_write :
  log_input_verbose (Some unix_listener) 5 1 CMD_WRITE (Some ($"key" ++ 0 :: $"value")) =
    Done $"[unix] got+ WRITE key value".
Proof. reflexivity. Qed.

Example log_tcp :
  log_input_verbose (Some (tcp_listener (fun _ => true) (fun _ => mk_nameinfo 0 ($"::1" ++ replicate 253 0) ($"4711" ++ replicate 28 0))))
    5 0 CMD_WRITE (Some $"key") = Done $"[::1:4711] got  WRITE key (delete)".
Proof. reflexivity. Qed.
