(* ===== verification/Server.v ===== *)
(** * The poll server: definitions (src/daemon/server.c)

    The server keeps a packed table of sockets, some of them listeners, and serves those that
    poll() reports. [W] is the state of its user and of the kernel: the upcalls and the system
    calls act on it. The text of a log message is not modelled, nor the messages for a failed
    close() or realloc(). *)
From S2P Require Import Prelude StoreDefs.

Definition INCREMENT : Z := 16.
Definition sizeof_socket : Z := 24.
Definition sizeof_pollfd : Z := 8.

(** An entry of the parallel arrays [socket] and [pollfd]. [events] is POLLIN or 0, [revents]
    is 0 or not, a NULL [data] is [None], a NULL [listener] is 0. *)
Record slot := mk_slot {
  s_fd : Z;
  s_events : bool;
  s_revents : bool;
  s_data : option Z;
  s_listener : Z;
  s_is_listener : bool
}.

(** [n] is the length of [slots]; the arrays have [nmax] entries. *)
Record server := mk_server { slots : list slot; nmax : Z }.

Definition set_events (s : slot) (b : bool) : slot :=
  mk_slot (s_fd s) b (s_revents s) (s_data s) (s_listener s) (s_is_listener s).
Definition set_revents (s : slot) (b : bool) : slot :=
  mk_slot (s_fd s) (s_events s) b (s_data s) (s_listener s) (s_is_listener s).
Definition set_data (s : slot) (x : option Z) (l : Z) : slot :=
  mk_slot (s_fd s) (s_events s) (s_revents s) x l (s_is_listener s).

Definition server_new : server := mk_server [] 0.

(** Enable or disable all listening sockets. *)
Definition server_listen_enable (l : list slot) (enable : bool) : list slot :=
  (fun s => if s_is_listener s
            then if enable then set_events s true else set_events (set_revents s false) false
            else s) <$> l.

Section Server.
Context {os : OS} {W : Type}.

(** [struct server_context] and the system calls. [on_error] is the upcall for a failed accept()
    and for an error of [on_ready]. *)
Record context := mk_context {
  max_sockets : Z;
  on_accept : W -> Z -> Z -> option Z * W;
  on_ready : W -> option Z -> Z -> outcome (Z * W);
  on_close : W -> option Z -> Z -> outcome W;
  on_listener_close : W -> Z -> W;
  on_error : W -> W;
  sys_accept : W -> Z -> option Z * W;
  sys_close : W -> Z -> W
}.
Context (ctx : context).
Implicit Types (s : server) (w : W).

(** Resize the tables to fit [n] connections. *)
Definition server_resize s (n : Z) : outcome (Z * server) :=
  _ ← assert_c (zlen (slots s) <=? n);
  (* round n up to the next multiple of INCREMENT *)
  let n := if negb (n mod INCREMENT =? 0) then u32 (n + (INCREMENT - n mod INCREMENT)) else n in
  if (nmax s =? n) || (u32 (nmax s - 1) =? n) then Done (0, s)
  else
    let s1 := if n <? nmax s then mk_server (slots s) n else s in
    if negb (n =? 0) && negb (realloc_ok (n * sizeof_socket)) then Done (-1, s1)
    else if negb (n =? 0) && negb (realloc_ok (n * sizeof_pollfd)) then Done (-1, s1)
    else Done (0, mk_server (slots s) n).

(** Adds [fd] to the list of sockets: its index, or -1. *)
Definition server_add_socket s (fd : Z) : outcome (Z * server) :=
  let i := zlen (slots s) in
  '(r, s1) ← server_resize s (i + 1);
  if r =? -1 then Done (-1, s1)
  else if i <? nmax s1 then
    let l := slots s1 ++ [mk_slot fd true false None 0 false] in
    let l := if negb (max_sockets ctx =? 0) && (max_sockets ctx <=? zlen l)
             then server_listen_enable l false else l in
    Done (i, mk_server l (nmax s1))
  else Crash OutOfBounds.

(** Closes the socket at index [i] and keeps the table packed. *)
Definition close_delete_socket s w (i : nat) : outcome (server * W) :=
  x ← of_option OutOfBounds (slots s !! i);
  _ ← assert_c (negb (s_is_listener x));
  let w1 := sys_close ctx w (s_fd x) in
  w2 ← on_close ctx w1 (s_data x) (s_listener x);
  let lst := Nat.pred (length (slots s)) in
  l ← (if (i <? lst)%nat
       then y ← of_option OutOfBounds (slots s !! lst); Done (<[i := y]> (slots s))
       else Done (slots s));
  let l := take lst l in
  let l := if negb (max_sockets ctx =? 0) && (zlen l =? max_sockets ctx - 1)
           then server_listen_enable l true else l in
  '(_, s1) ← server_resize (mk_server l (nmax s)) (zlen l);
  Done (s1, w2).

(** [for (i = 0; i < n; i++) if (pollfd[i].fd == fd) { ...; break; }] *)
Fixpoint attach_data (l : list slot) (fd : Z) (data : option Z) (listener : Z) : list slot :=
  match l with
  | [] => []
  | x :: l' => if s_fd x =? fd then set_data x data listener :: l'
               else x :: attach_data l' fd data listener
  end.

Definition server_add_fd s w (fd : Z) (listener : Z) : outcome (Z * server * W) :=
  if fd =? -1 then Done (-1, s, w)
  else
    '(i, s1) ← server_add_socket s fd;
    if i =? -1 then Done (-1, s1, w)
    else
      let '(data, w1) := on_accept ctx w fd listener in
      Done (0, mk_server (attach_data (slots s1) fd data listener) (nmax s1), w1).

(** Accept a new connection and create a new socket. *)
Definition server_accept s w (listen_fd : Z) (listener : Z) : outcome (server * W) :=
  let '(fd, w1) := sys_accept ctx w listen_fd in
  match fd with
  | None => Done (s, on_error ctx w1)
  | Some fd =>
      '(r, s1, w2) ← server_add_fd s w1 fd listener;
      Done (s1, if r =? -1 then sys_close ctx w2 fd else w2)
  end.

Definition server_add_listener s (fd : Z) (listener : Z) : outcome (Z * server) :=
  '(i, s1) ← server_add_socket s fd;
  if i <? 0 then Done (-1, s1)
  else
    x ← of_option OutOfBounds (slots s1 !! Z.to_nat i);
    Done (0, mk_server (<[Z.to_nat i := mk_slot (s_fd x) (s_events x) (s_revents x) None listener true]> (slots s1))
               (nmax s1)).

(** The loop of [server_poll] over the ready sockets. *)
Fixpoint poll_loop (fuel : nat) s w (i : nat) : outcome (server * W) :=
  match slots s !! i with
  | None => Done (s, w)
  | Some x =>
      match fuel with
      | O => Crash OutOfFuel
      | S fuel' =>
          if negb (s_revents x) then poll_loop fuel' s w (S i) (* quiet *)
          else
            (* clear revents for next time *)
            let s1 := mk_server (<[i := set_revents x false]> (slots s)) (nmax s) in
            if s_is_listener x then
              '(s2, w1) ← server_accept s1 w (s_fd x) (s_listener x);
              poll_loop fuel' s2 w1 (S i)
            else
              '(len, w1) ← on_ready ctx w (s_data x) (s_fd x);
              if 0 <? len then poll_loop fuel' s1 w1 (S i)
              else
                let w2 := if len =? 0 then w1 else on_error ctx w1 in
                '(s2, w3) ← close_delete_socket s1 w2 i;
                poll_loop fuel' s2 w3 i
      end
  end.

(** [ret] and [rev] are what poll() returns: a count, and the [revents] of each socket. Every
    turn of the loop passes a socket, closes one, or accepts a connection on a listener that
    was ready, so that twice the number of sockets is enough. *)
Definition server_poll s w (ret : Z) (rev : list bool) : outcome (Z * server * W) :=
  match slots s with
  | [] => Done (0, s, w)
  | _ =>
      if ret <=? 0 then Done (ret, s, w)
      else
        let s1 := mk_server (zip_with set_revents (slots s) (rev ++ replicate (length (slots s)) false)) (nmax s) in
        '(s2, w1) ← poll_loop (2 * length (slots s)) s1 w 0;
        Done (ret, s2, w1)
  end.

(** Closes all the non-listeners, then all the listeners. *)
Fixpoint close_clients (l : list slot) w : outcome W :=
  match l with
  | [] => Done w
  | x :: l' =>
      if negb (s_is_listener x) then
        w1 ← on_close ctx (sys_close ctx w (s_fd x)) (s_data x) (s_listener x);
        close_clients l' w1
      else close_clients l' w
  end.

Fixpoint close_listeners (l : list slot) w : W :=
  match l with
  | [] => w
  | x :: l' => close_listeners l' (if s_is_listener x
                                   then on_listener_close ctx (sys_close ctx w (s_fd x)) (s_listener x) else w)
  end.

Definition server_free s w : outcome W :=
  w1 ← close_clients (slots s) w;
  Done (close_listeners (slots s) w1).

End Server.
Arguments context : clear implicits.
