(* ===== verification/ServerTheorems.v ===== *)
(** * The poll server: its theorems *)
From S2P Require Import Prelude StoreDefs Server.

(** The arrays have room for the sockets, in steps of INCREMENT. *)
Definition sv_ok (s : server) : Prop := zlen (slots s) <= nmax s < 2 ^ 32 /\ (16 | nmax s).

Definition quiet (x : slot) : Prop := s_revents x = false.
Definition is_ready (x : slot) : Prop := s_revents x = true /\ s_is_listener x = false.
Definition is_pending (x : slot) : Prop := s_revents x = true /\ s_is_listener x = true.

#[export] Instance is_ready_dec x : Decision (is_ready x).
Proof. unfold is_ready. apply _. Defined.
#[export] Instance is_pending_dec x : Decision (is_pending x).
Proof. unfold is_pending. apply _. Defined.

(** The connections that have something to read. *)
Definition ready (l : list slot) : list Z := s_fd <$> filter is_ready l.

(** The next multiple of 16. *)
Definition up16 (n : Z) : Z := 16 * ((n + 15) / 16).

(** ** Resizing *)

Section Resize.
Context {os : OS}.

Lemma up16_spec n : 0 <= n -> n + 16 < 2 ^ 32 ->
  (if negb (n mod INCREMENT =? 0) then u32 (n + (INCREMENT - n mod INCREMENT)) else n) = up16 n /\
  n <= up16 n < n + 16 /\ (16 | up16 n).
Proof.
  intros H0 Hn. unfold up16, INCREMENT. split_and!; [|divlia|divlia|by exists ((n + 15) / 16); lia].
  destruct (Z.eqb_spec (n mod 16) 0); cbn [negb]; [divlia|].
  rewrite u32_small by divlia. divlia.
Qed.

Lemma resize_ok s n :
  sv_ok s -> zlen (slots s) <= n -> n + 16 < 2 ^ 32 ->
  exists r s', server_resize s n = Done (r, s') /\ slots s' = slots s /\ sv_ok s' /\
    (r = 0 /\ nmax s' = up16 n \/
     r = -1 /\ nmax s' = Z.min (nmax s) (up16 n) /\ exists m, realloc_ok m = false).
Proof.
  intros [[H1 H2] H3] Hn Hmax. pose proof (zlen_nonneg (slots s)).
  destruct (up16_spec n) as (E & B1 & B2); [lia..|].
  unfold server_resize. destruct (Z.leb_spec (zlen (slots s)) n); [|lia]. ostep. rewrite E.
  assert ((u32 (nmax s - 1) =? up16 n) = false) as ->.
  { apply Z.eqb_neq. intros Ex. destruct B2 as [q Hq], H3 as [q' Hq']. unfold u32 in Ex. divlia. }
  rewrite orb_false_r. destruct (Z.eqb_spec (nmax s) (up16 n)) as [En|En].
  { exists 0, s. split_and!; [done|done|by split|]. left. done. }
  set (s1 := if _ <? _ then _ else s).
  assert (Hs1 : slots s1 = slots s /\ nmax s1 = Z.min (nmax s) (up16 n)).
  { unfold s1. destruct (Z.ltb_spec (up16 n) (nmax s)); cbn; split; try done; lia. }
  destruct Hs1 as [Hs1 Hm1].
  assert (Hok1 : sv_ok s1).
  { split; [rewrite Hs1, Hm1; lia|]. rewrite Hm1. destruct (Z.min_dec (nmax s) (up16 n)) as [E3|E3]; rewrite E3; done. }
  destruct (negb (up16 n =? 0) && negb (realloc_ok (up16 n * sizeof_socket))) eqn:E1.
  { exists (-1), s1. split_and!; try done. right. split_and!; try done.
    apply andb_true_iff in E1 as [_ E1%negb_true_iff]. by eexists. }
  destruct (negb (up16 n =? 0) && negb (realloc_ok (up16 n * sizeof_pollfd))) eqn:E2.
  { exists (-1), s1. split_and!; try done. right. split_and!; try done.
    apply andb_true_iff in E2 as [_ E2%negb_true_iff]. by eexists. }
  eexists 0, _. split_and!; [done|done| |by left]. split; cbn; [lia|done].
Qed.

(** C32: the tables always have room for the sockets asked for, and a call that succeeds leaves
    them at exactly that number rounded up to a multiple of 16: they shrink at once, the
    hysteresis that a comment announces never takes effect. A call that fails keeps the
    sockets, and the server stays usable. *)
Theorem resize_exact s n :
  sv_ok s -> zlen (slots s) <= n -> n + 16 < 2 ^ 32 ->
  exists r s', server_resize s n = Done (r, s') /\ slots s' = slots s /\ sv_ok s' /\
    (r = 0 /\ nmax s' = up16 n \/
     r = -1 /\ nmax s' = Z.min (nmax s) (up16 n) /\ exists m, realloc_ok m = false).
Proof. apply resize_ok. Qed.

End Resize.

(** ** Tables *)

(** A socket after others came or went: it may have been given data, and a listener may have been
    switched on or off. *)
Definition same_socket (x y : slot) : Prop :=
  s_fd y = s_fd x /\ s_is_listener y = s_is_listener x /\
  (s_revents y = s_revents x \/ s_is_listener x = true /\ s_revents y = false).

Lemma same_refl l : Forall2 same_socket l l.
Proof. induction l; constructor; [|done]. by split_and!; [..|left]. Qed.

Lemma same_quiet l k : Forall2 same_socket l k -> Forall quiet l -> Forall quiet k.
Proof.
  induction 1 as [|x y l k (_ & _ & Hr) _ IH]; intros Hq; [constructor|].
  apply Forall_cons in Hq as [Hx Hq]. constructor; [|auto]. unfold quiet in *.
  destruct Hr as [->|[_ ?]]; done.
Qed.

Lemma same_ready l k : Forall2 same_socket l k -> ready k = ready l.
Proof.
  unfold ready. induction 1 as [|x y l k (Hf & Hl & Hr) _ IH]; [done|].
  assert (is_ready y <-> is_ready x).
  { unfold is_ready. rewrite Hl. destruct Hr as [->|[E ->]]; [done|]. rewrite E. intuition done. }
  rewrite !filter_cons. destruct (decide (is_ready x)), (decide (is_ready y)); try tauto.
  rewrite !fmap_cons. by rewrite Hf, IH.
Qed.

(** How much work a table is for the loop. *)
Definition weight (l : list slot) : nat := length l + length (filter is_pending l).

Lemma same_weight l k : Forall2 same_socket l k -> (weight k <= weight l)%nat.
Proof.
  unfold weight. induction 1 as [|x y l k (Hf & Hl & Hr) _ IH]; [done|]. rewrite !filter_cons.
  assert (is_pending y -> is_pending x).
  { unfold is_pending. rewrite Hl. destruct Hr as [->|[E ->]]; [done|]. by intros [? _]. }
  destruct (decide (is_pending x)), (decide (is_pending y)); cbn in *; try tauto; lia.
Qed.

Lemma same_enable l b : Forall2 same_socket l (server_listen_enable l b).
Proof.
  unfold server_listen_enable. induction l as [|x l IH]; [constructor|]. rewrite fmap_cons.
  constructor; [|done]. unfold same_socket. destruct (s_is_listener x) eqn:E, b; cbn; rewrite ?E; auto.
Qed.

Lemma same_enable_if l (e b : bool) : Forall2 same_socket l (if e then server_listen_enable l b else l).
Proof. destruct e; [apply same_enable|apply same_refl]. Qed.

Lemma same_attach l fd x ln : Forall2 same_socket l (attach_data l fd x ln).
Proof.
  induction l as [|y l IH]; cbn; [constructor|]. destruct (s_fd y =? fd).
  - constructor; [|apply same_refl]. by split_and!; [..|left].
  - constructor; [|done]. by split_and!; [..|left].
Qed.

#[export] Instance same_socket_trans : Transitive same_socket.
Proof.
  intros x y z (F1 & L1 & R1) (F2 & L2 & R2). unfold same_socket. rewrite F2, L2, F1, L1. split_and!; [done|done|].
  rewrite L1 in R2. destruct R1 as [E1|[E1 E1']], R2 as [E2|[E2 E2']]; rewrite ?E2, ?E2'; auto.
Qed.

(** A quiet newcomer may be at the end. *)
Definition admits (l k : list slot) : Prop :=
  exists k1 new, k = k1 ++ new /\ Forall2 same_socket l k1 /\ (length new <= 1)%nat /\
    Forall (fun x => quiet x /\ s_is_listener x = false) new.

Lemma admits_refl l : admits l l.
Proof. exists l, []. rewrite app_nil_r. split_and!; [done|apply same_refl|cbn; lia|done]. Qed.

Lemma same_app_inv l1 l2 k : Forall2 same_socket (l1 ++ l2) k ->
  exists k1 k2, k = k1 ++ k2 /\ Forall2 same_socket l1 k1 /\ Forall2 same_socket l2 k2.
Proof. intros (k1 & k2 & ? & ? & ->)%Forall2_app_inv_l. eauto. Qed.

Lemma same_admits l x k :
  quiet x -> s_is_listener x = false -> Forall2 same_socket (l ++ [x]) k -> admits l k.
Proof.
  intros Hx Hl (k1 & k2 & -> & H1 & H2)%same_app_inv. exists k1, k2.
  inversion H2 as [|? y ? ? (Hf & Hy & Hr) H3]; subst. inversion H3; subst.
  split_and!; [done|done|cbn; lia|]. apply Forall_singleton. unfold quiet in *. rewrite Hy.
  split; [|done]. destruct Hr as [->|[? _]]; congruence.
Qed.

Lemma same_length l k : Forall2 same_socket l k -> zlen k = zlen l.
Proof. intros H. unfold zlen. by rewrite (Forall2_length _ _ _ H). Qed.

Lemma admits_length l k : admits l k -> zlen l <= zlen k <= zlen l + 1.
Proof.
  intros (k1 & new & -> & H & Hn & _). rewrite zlen_app, (same_length _ _ H). unfold zlen. lia.
Qed.

Lemma same_lookup_mid a x b k :
  Forall2 same_socket (a ++ x :: b) k ->
  exists a' x' b', k = a' ++ x' :: b' /\ Forall2 same_socket a a' /\ same_socket x x' /\
    Forall2 same_socket b b' /\ length a' = length a.
Proof.
  intros (a' & k2 & -> & Ha & Hk)%same_app_inv.
  inversion Hk as [|? x' ? b' Hx Hb]; subst. exists a', x', b'.
  split_and!; try done. symmetry. by eapply Forall2_length.
Qed.

(** ** What the user of the server sees of a table *)

(** The socket, the user's data, and whether it is a listener. *)
Definition core : Type := Z * option Z * bool.
Definition core_of (x : slot) : core := (s_fd x, s_data x, s_is_listener x).
Definition cores (l : list slot) : list core := core_of <$> l.

(** A new connection gets its data. *)
Fixpoint attach (l : list core) (fd : Z) (x : option Z) : list core :=
  match l with
  | [] => []
  | c :: l' => if c.1.1 =? fd then (c.1.1, x, c.2) :: l' else c :: attach l' fd x
  end.

Lemma cores_app l k : cores (l ++ k) = cores l ++ cores k.
Proof. apply fmap_app. Qed.

Lemma cores_attach l fd x ln : cores (attach_data l fd x ln) = attach (cores l) fd x.
Proof.
  unfold cores. induction l as [|y l IH]; [done|]. cbn [attach_data]. rewrite fmap_cons.
  cbn [attach core_of fst snd]. destruct (s_fd y =? fd); rewrite fmap_cons; [done|]. by rewrite IH.
Qed.

Lemma cores_enable_if l (e b : bool) : cores (if e then server_listen_enable l b else l) = cores l.
Proof.
  destruct e; [|done]. unfold cores, server_listen_enable. rewrite <- list_fmap_compose.
  apply list_fmap_ext. intros i x _. cbn. destruct (s_is_listener x) eqn:E, b; unfold core_of; cbn; by rewrite ?E.
Qed.

(** What the server and its user expect of each other. [P k l w] is the user's invariant: in the
    state [w] the sockets [l] are in the table, and [k] more calls of [on_ready] are welcome.
    [calls] is what the user keeps of the calls of [on_ready], and [note] adds one to it. *)
Class ServerUser {W A : Type} (ctx : context W) (calls : W -> A) (note : A -> Z -> A)
    (P : nat -> list core -> W -> Prop) := {
  us_perm k l l' w : l ≡ₚ l' -> P k l w -> P k l' w;
  us_ready k l w fd x : (fd, x, false) ∈ l -> P (S k) l w ->
    exists r w', on_ready ctx w x fd = Done (r, w') /\ calls w' = note (calls w) fd /\
      (0 < r -> P k l w') /\
      (r <= 0 -> forall li l', l ≡ₚ (fd, x, false) :: l' ->
        exists w'', on_close ctx (sys_close ctx (if r =? 0 then w' else on_error ctx w') fd) x li = Done w'' /\
          calls w'' = calls w' /\ P k l' w'');
  us_no_accept k l w lfd w1 : P k l w -> sys_accept ctx w lfd = (None, w1) ->
    P k l (on_error ctx w1) /\ calls (on_error ctx w1) = calls w;
  us_refuse k l w lfd fd w1 : P k l w -> sys_accept ctx w lfd = (Some fd, w1) ->
    P k l (sys_close ctx w1 fd) /\ calls (sys_close ctx w1 fd) = calls w;
  us_accept k l w lfd fd w1 li x w2 : P k l w -> sys_accept ctx w lfd = (Some fd, w1) ->
    fd <> -1 -> on_accept ctx w1 fd li = (x, w2) ->
    P k (attach (l ++ [(fd, None, false)]) fd x) w2 /\ calls w2 = calls w
}.

(** ** One turn of the loop *)

Section Loop.
Context {os : OS} {W A : Type} (ctx : context W) (calls : W -> A) (note : A -> Z -> A).
Context (P : nat -> list core -> W -> Prop) {user : ServerUser ctx calls note P}.
Implicit Types (s : server) (w : W).

(** At the limit no listener is polled. *)
Definition off (x : slot) : Prop := s_is_listener x = true -> s_events x = false /\ s_revents x = false.
Definition limited s : Prop :=
  max_sockets ctx <> 0 -> max_sockets ctx <= zlen (slots s) -> Forall off (slots s).

Lemma off_enable l : Forall off (server_listen_enable l false).
Proof.
  unfold server_listen_enable. apply Forall_fmap, Forall_true. intros x. unfold off. cbn.
  destruct (s_is_listener x) eqn:E; cbn; [done|by rewrite E].
Qed.

Lemma off_attach l fd x ln : Forall off l -> Forall off (attach_data l fd x ln).
Proof.
  induction 1 as [|y l Hy Hl IH]; cbn; [constructor|]. destruct (_ =? fd); by constructor.
Qed.

Lemma add_socket_ok s fd :
  sv_ok s -> limited s -> zlen (slots s) + 32 < 2 ^ 32 ->
  exists r s', server_add_socket ctx s fd = Done (r, s') /\ sv_ok s' /\ admits (slots s) (slots s') /\
    limited s' /\ (if r =? -1 then cores (slots s') = cores (slots s) /\ exists n, realloc_ok n = false
                   else r = zlen (slots s) /\ cores (slots s') = cores (slots s) ++ [(fd, None, false)]).
Proof.
  intros Hok Hlim Hmax. unfold server_add_socket.
  destruct (resize_ok s (zlen (slots s) + 1) Hok) as (r & s1 & -> & Hs1 & Hok1 & Hr); [lia..|]. ostep.
  destruct Hr as [(-> & Hn)|(-> & _ & Hno)]; cbn [Z.eqb].
  2:{ exists (-1), s1. rewrite Hs1. split_and!; [done|done|apply admits_refl| |by split].
      unfold limited. by rewrite Hs1. }
  destruct (up16_spec (zlen (slots s) + 1)) as (_ & Hb & _); [pose proof (zlen_nonneg (slots s)); lia|lia|].
  destruct (Z.ltb_spec (zlen (slots s)) (nmax s1)); [|lia].
  set (new := mk_slot fd true false None 0 false). set (l := if _ && _ then _ else _).
  assert (Hl : Forall2 same_socket (slots s ++ [new]) l).
  { unfold l. rewrite Hs1. apply same_enable_if. }
  eexists _, _. split; [done|]. split_and!.
  - split; cbn; [|apply Hok1]. rewrite (same_length _ _ Hl), zlen_app, zlen_one. destruct Hok1. lia.
  - by apply (same_admits _ new).
  - intros Hm0 Hm. cbn [slots] in *. rewrite (same_length _ _ Hl) in Hm. unfold l.
    rewrite (proj2 (Z.eqb_neq _ _) Hm0), Hs1, (proj2 (Z.leb_le _ _) Hm). apply off_enable.
  - pose proof (zlen_nonneg (slots s)). destruct (Z.eqb_spec (zlen (slots s)) (-1)); [lia|].
    cbn [slots]. unfold l. rewrite cores_enable_if, cores_app, Hs1. done.
Qed.

Lemma admits_same l k k' : admits l k -> Forall2 same_socket k k' -> admits l k'.
Proof.
  intros (k1 & new & -> & H1 & Hl & Hn) (k1' & new' & -> & H2 & H3)%same_app_inv.
  exists k1', new'. split_and!; [done| | |].
  - by etrans.
  - by rewrite <- (Forall2_length _ _ _ H3).
  - clear Hl. induction H3 as [|x y l1 l2 (Hf & Hy & Hr) _ IH]; [constructor|].
    apply Forall_cons in Hn as [[Hx Hx'] Hn]. constructor; [|auto]. unfold quiet in *. rewrite Hy.
    split; [|done]. destruct Hr as [->|[_ ?]]; done.
Qed.

Lemma accept_ok s w k fd ln :
  sv_ok s -> limited s -> zlen (slots s) + 32 < 2 ^ 32 -> P k (cores (slots s)) w ->
  exists s' w', server_accept ctx s w fd ln = Done (s', w') /\ sv_ok s' /\
    admits (slots s) (slots s') /\ limited s' /\ calls w' = calls w /\ P k (cores (slots s')) w'.
Proof using user.
  intros Hok Hlim Hmax HP. unfold server_accept. destruct (sys_accept ctx w fd) as [[nfd|] w1] eqn:Ea.
  2:{ destruct (us_no_accept k _ w fd w1 HP Ea). exists s, (on_error ctx w1).
      split_and!; try done. apply admits_refl. }
  destruct (us_refuse k _ w fd nfd w1 HP Ea) as [HP1 Hc1].
  unfold server_add_fd. destruct (Z.eqb_spec nfd (-1)) as [->|Hfd].
  { exists s, (sys_close ctx w1 (-1)). ostep. split_and!; try done. apply admits_refl. }
  destruct (add_socket_ok s nfd Hok Hlim Hmax) as (r & s1 & -> & Hok1 & Had & Hlim1 & Hcores). ostep.
  destruct (r =? -1).
  { destruct Hcores as [Hcores _]. exists s1, (sys_close ctx w1 nfd). ostep. rewrite Hcores. split_and!; done. }
  destruct Hcores as [_ Hcores].
  destruct (on_accept ctx w1 nfd ln) as [x w2] eqn:Eo. ostep.
  destruct (us_accept k _ w fd nfd w1 ln x w2 HP Ea Hfd Eo) as [HP2 Hc2].
  pose proof (same_attach (slots s1) nfd x ln) as Hsame.
  eexists _, _. split; [done|]. cbn [Z.eqb slots]. rewrite cores_attach, Hcores.
  split_and!; [|by eapply admits_same| |done|done].
  - split; cbn; [|apply Hok1]. rewrite (same_length _ _ Hsame). apply Hok1.
  - intros Hm0 Hm. cbn in *. rewrite (same_length _ _ Hsame) in Hm. by apply off_attach, Hlim1.
Qed.

(** What remains when the socket between [a] and [b] is closed: the last one takes its place. *)
Lemma close_ok s w w' a x b :
  sv_ok s -> limited s -> slots s = a ++ x :: b -> s_is_listener x = false ->
  zlen (slots s) + 32 < 2 ^ 32 ->
  on_close ctx (sys_close ctx w (s_fd x)) (s_data x) (s_listener x) = Done w' ->
  exists s' k, close_delete_socket ctx s w (length a) = Done (s', w') /\ sv_ok s' /\
    k ≡ₚ b /\ Forall2 same_socket (a ++ k) (slots s') /\ limited s' /\ cores (slots s') = cores (a ++ k).
Proof.
  intros Hok Hlim Hs Hx Hmax Hcl. unfold close_delete_socket. rewrite Hs, (list_lookup_middle a b x _ eq_refl). ostep.
  rewrite Hx. cbn [negb]. ostep.
  rewrite Hcl. ostep. set (lst := Nat.pred _).
  assert (Hl : exists k l', k ≡ₚ b /\ (if (length a <? lst)%nat
      then y ← of_option OutOfBounds ((a ++ x :: b) !! lst); Done (<[length a:=y]> (a ++ x :: b))
      else Done (a ++ x :: b)) = Done l' /\ take lst l' = a ++ k).
  { destruct b as [|y b _] using rev_ind.
    - exists [], (a ++ [x]). assert (lst = length a) as -> by (unfold lst; rewrite length_app; cbn; lia).
      rewrite Nat.ltb_irrefl. split_and!; [done|done|]. by rewrite take_app_length, app_nil_r.
    - assert (Hlst : lst = length (a ++ x :: b)) by (unfold lst; rewrite !length_app; cbn; rewrite length_app; cbn; lia).
      exists (y :: b), ((a ++ y :: b) ++ [y]). rewrite Hlst. split_and!.
      + apply Permutation_cons_append.
      + rewrite (proj2 (Nat.ltb_lt _ _)) by (rewrite length_app; cbn; lia).
        rewrite (app_assoc a (x :: b) [y] : a ++ x :: b ++ [y] = _), list_lookup_middle by done. ostep.
        rewrite <- app_assoc, insert_app_r_alt, Nat.sub_diag by lia. cbn. by rewrite <- app_assoc.
      + replace (length (a ++ x :: b)) with (length (a ++ y :: b)) by (rewrite !length_app; done).
        apply take_app_length. }
  destruct Hl as (k & l' & Hk & -> & Ht). ostep. rewrite Ht.
  set (l2 := if _ && _ then _ else _).
  assert (Hl2 : Forall2 same_socket (a ++ k) l2).
  { apply same_enable_if. }
  assert (Hlen : zlen l2 < zlen (slots s)).
  { rewrite (same_length _ _ Hl2), Hs. unfold zlen. rewrite !length_app, (Permutation_length Hk). cbn. lia. }
  destruct Hok as [[O1 O2] O3].
  destruct (resize_ok (mk_server l2 (nmax s)) (zlen l2)) as (r & s' & -> & Hs' & Hok' & _);
    [split; cbn; [lia|done]|cbn; lia|lia|]. ostep.
  exists s', k. split_and!; [done|done|done|by rewrite Hs'| |rewrite Hs'; apply cores_enable_if].
  intros Hm0 Hm. rewrite Hs' in *. cbn [slots] in *.
  assert (Hoff : Forall off (a ++ k)).
  { specialize (Hlim Hm0 ltac:(lia)). rewrite Hs in Hlim.
    rewrite Hk. apply Forall_app in Hlim as [? [_ ?]%Forall_cons]. by apply Forall_app. }
  unfold l2. rewrite (same_length _ _ Hl2) in Hm.
  destruct (Z.eqb_spec (zlen (a ++ k)) (max_sockets ctx - 1)); [lia|]. by rewrite andb_false_r.
Qed.

Lemma ready_perm l k : l ≡ₚ k -> ready l ≡ₚ ready k.
Proof. intros H. unfold ready. by rewrite H. Qed.

Lemma weight_perm l k : l ≡ₚ k -> weight l = weight k.
Proof. intros H. unfold weight. by rewrite H. Qed.

Lemma weight_cons x l : weight (x :: l) = S (weight l + if decide (is_pending x) then 1 else 0)%nat.
Proof. unfold weight. rewrite filter_cons. case_decide; cbn; lia. Qed.

Lemma ready_cons x l : ready (x :: l) = if decide (is_ready x) then s_fd x :: ready l else ready l.
Proof. unfold ready. rewrite filter_cons. by case_decide. Qed.

Lemma quiet_new (new : list slot) :
  Forall (fun x => quiet x /\ s_is_listener x = false) new -> ready new = [] /\ weight new = length new.
Proof.
  induction 1 as [|x l [Hq _] _ [IH1 IH2]]; [done|]. rewrite ready_cons, weight_cons. unfold quiet in Hq.
  rewrite !decide_False by (intros [? _]; congruence). cbn. split; [done|]. lia.
Qed.

Lemma ready_app l k : ready (l ++ k) = ready l ++ ready k.
Proof. unfold ready. by rewrite filter_app, fmap_app. Qed.
Lemma weight_app l k : weight (l ++ k) = (weight l + weight k)%nat.
Proof. unfold weight. rewrite filter_app, !length_app. lia. Qed.

(** What the loop owes: every ready connection of [b] is served once, nothing is left pending. *)
Definition served s w k (b : list slot) (res : outcome (server * W)) : Prop :=
  exists s' w' r, res = Done (s', w') /\ sv_ok s' /\ limited s' /\ Forall quiet (slots s') /\
    calls w' = foldl note (calls w) r /\ r ≡ₚ ready b /\ P k (cores (slots s')) w' /\
    (max_sockets ctx <> 0 -> zlen (slots s') <= Z.max (zlen (slots s)) (max_sockets ctx)).

(** Before a turn: [a] has been dealt with, [b] has not. *)
Record turn (fuel : nat) s (a b : list slot) : Prop := {
  tn_ok : sv_ok s;
  tn_limited : limited s;
  tn_slots : slots s = a ++ b;
  tn_quiet : Forall quiet a;
  tn_fuel : (weight b <= fuel)%nat;
  tn_max : zlen (slots s) + Z.of_nat fuel + 32 < 2 ^ 32
}.

Definition loop_ok (fuel : nat) : Prop :=
  forall s w k a b, turn fuel s a b -> P (length (ready b) + k) (cores (slots s)) w ->
    served s w k b (poll_loop ctx fuel s w (length a)).

Lemma loop_end fuel s w k a : turn fuel s a [] -> P k (cores (slots s)) w -> served s w k [] (Done (s, w)).
Proof.
  intros [Hok Hlim Hs Hq _ _] HP. rewrite app_nil_r in Hs. rewrite Hs in HP. exists s, w, [].
  rewrite Hs. split_and!; try done. lia.
Qed.

Lemma turn_quiet fuel s w k a x b :
  loop_ok fuel -> turn (S fuel) s a (x :: b) -> s_revents x = false ->
  P (length (ready (x :: b)) + k) (cores (slots s)) w ->
  served s w k (x :: b) (poll_loop ctx fuel s w (S (length a))).
Proof.
  intros IH [Hok Hlim Hs Hq Hw Hmax] Er HP. rewrite weight_cons in Hw.
  replace (S (length a)) with (length (a ++ [x])) by (rewrite length_app; cbn; lia).
  assert (E : ready (x :: b) = ready b) by (rewrite ready_cons, decide_False; [done|intros [? _]; congruence]).
  unfold served. rewrite E in *. apply IH; [|done].
  split; [done|done|by rewrite <- app_assoc| |lia|lia]. by apply Forall_app; split; [|apply Forall_singleton].
Qed.

(** The table after [revents] is cleared. *)
Lemma clear_ok fuel s a x b :
  turn (S fuel) s a (x :: b) ->
  let s1 := mk_server (a ++ set_revents x false :: b) (nmax s) in
  sv_ok s1 /\ limited s1 /\ zlen (slots s1) = zlen (slots s) /\ Forall quiet (a ++ [set_revents x false]).
Proof.
  intros [Hok Hlim Hs Hq Hw Hmax] s1.
  assert (Hlen1 : zlen (slots s1) = zlen (slots s)) by (cbn; rewrite Hs, !zlen_app, !zlen_cons; done).
  split_and!; [split; [rewrite Hlen1|]; apply Hok| |done|].
  - intros Hm0 Hm. rewrite Hlen1 in Hm. specialize (Hlim Hm0 Hm). rewrite Hs in Hlim. cbn.
    apply Forall_app in Hlim as [? [Hx ?]%Forall_cons]. apply Forall_app. split; [done|].
    constructor; [|done]. intros E. split; [by apply Hx|done].
  - apply Forall_app. split; [done|]. by apply Forall_singleton.
Qed.

Lemma cores_clear (a b : list slot) x : cores (a ++ set_revents x false :: b) = cores (a ++ x :: b).
Proof. by rewrite !cores_app. Qed.

Lemma turn_accept fuel s w k a x b :
  loop_ok fuel -> turn (S fuel) s a (x :: b) -> s_revents x = true -> s_is_listener x = true ->
  P (length (ready (x :: b)) + k) (cores (slots s)) w ->
  let s1 := mk_server (a ++ set_revents x false :: b) (nmax s) in
  served s w k (x :: b) ('(s2, w1) ← server_accept ctx s1 w (s_fd x) (s_listener x);
    poll_loop ctx fuel s2 w1 (S (length a))).
Proof using user.
  intros IH Ht Er El HP s1. destruct (clear_ok _ _ _ _ _ Ht) as (Hok1 & Hlim1 & Hlen1 & Hq1). fold s1 in Hok1, Hlim1, Hlen1.
  destruct Ht as [Hok Hlim Hs Hq Hw Hmax]. rewrite weight_cons, decide_True in Hw by done.
  rewrite Hs, <- cores_clear, ready_cons, decide_False in HP by (intros [_ ?]; congruence).
  destruct (accept_ok s1 w (length (ready b) + k) (s_fd x) (s_listener x) Hok1 Hlim1) as (s2 & w1 & -> & Hok2 & Had & Hlim2 & Hc & HP2);
    [lia|exact HP|]. ostep. pose proof (admits_length _ _ Had) as Hl2. rewrite Hlen1 in Hl2.
  destruct Had as (k1 & new & Hk & Hsame & Hn1 & Hnew). cbn [slots s1] in Hsame.
  apply same_lookup_mid in Hsame as (a' & y & b' & -> & Ha & Hy & Hb & Hla).
  destruct (quiet_new new Hnew) as [Rn Wn].
  assert (Hrd : ready (b' ++ new) = ready b) by (by rewrite ready_app, Rn, app_nil_r, (same_ready _ _ Hb)).
  replace (S (length a)) with (length (a' ++ [y])) by (rewrite length_app; cbn; lia).
  destruct (IH s2 w1 k (a' ++ [y]) (b' ++ new)) as (s' & w' & r & E & ? & ? & ? & Hcw & Hr & ? & Hz).
  - split; [done|done|rewrite Hk; by rewrite <- !app_assoc| |rewrite weight_app, Wn; pose proof (same_weight _ _ Hb); lia|lia].
    eapply same_quiet; [|exact Hq1]. apply Forall2_app; [done|]. by constructor.
  - by rewrite Hrd.
  - exists s', w', r. rewrite Hrd in Hr. split_and!; try done; [by rewrite Hcw, Hc| |].
    + by rewrite Hr, ready_cons, decide_False by (intros [_ ?]; congruence).
    + intros Hm0. specialize (Hz Hm0). enough (~ max_sockets ctx <= zlen (slots s)) by lia. intros Hm.
      specialize (Hlim Hm0 Hm). rewrite Hs in Hlim. apply Forall_app in Hlim as [_ [Hx _]%Forall_cons].
      destruct (Hx El). congruence.
Qed.

(** The connection goes on. *)
Lemma turn_goes_on fuel s w1 w k a x b :
  loop_ok fuel -> turn (S fuel) s a (x :: b) -> s_revents x = true -> s_is_listener x = false ->
  calls w1 = note (calls w) (s_fd x) ->
  let s1 := mk_server (a ++ set_revents x false :: b) (nmax s) in
  P (length (ready b) + k) (cores (slots s1)) w1 ->
  served s w k (x :: b) (poll_loop ctx fuel s1 w1 (S (length a))).
Proof.
  intros IH Ht Er El Hc s1 HP. destruct (clear_ok _ _ _ _ _ Ht) as (Hok1 & Hlim1 & Hlen1 & Hq1). fold s1 in Hok1, Hlim1, Hlen1.
  destruct Ht as [Hok Hlim Hs Hq Hw Hmax]. rewrite weight_cons in Hw. set (x' := set_revents x false) in *.
  assert (Hrd : ready (x :: b) = s_fd x :: ready b) by (rewrite ready_cons, decide_True; done).
  replace (S (length a)) with (length (a ++ [x'])) by (rewrite length_app; cbn; lia).
  destruct (IH s1 w1 k (a ++ [x']) b) as (s' & w' & r & ? & ? & ? & ? & Hcw & Hr & ? & Hz); [|done|].
  { split; [done|done|cbn; by rewrite <- app_assoc|done|lia|lia]. }
  exists s', w', (s_fd x :: r). split_and!; try done; [|by rewrite Hrd, Hr|by rewrite <- Hlen1].
  by rewrite Hcw, Hc.
Qed.

(** The connection is closed; the last socket of the table takes its place. *)
Lemma turn_closes fuel s w1 w2 w k a x b :
  loop_ok fuel -> turn (S fuel) s a (x :: b) -> s_revents x = true -> s_is_listener x = false ->
  let s1 := mk_server (a ++ set_revents x false :: b) (nmax s) in
  on_close ctx (sys_close ctx w1 (s_fd x)) (s_data x) (s_listener x) = Done w2 ->
  calls w2 = note (calls w) (s_fd x) -> P (length (ready b) + k) (cores (a ++ b)) w2 ->
  served s w k (x :: b)
    ('(s2, w3) ← close_delete_socket ctx s1 w1 (length a); poll_loop ctx fuel s2 w3 (length a)).
Proof using user.
  intros IH Ht Er El s1 Hcl Hc HP. destruct (clear_ok _ _ _ _ _ Ht) as (Hok1 & Hlim1 & Hlen1 & Hq1). fold s1 in Hok1, Hlim1, Hlen1.
  destruct Ht as [Hok Hlim Hs Hq Hw Hmax]. rewrite weight_cons in Hw. set (x' := set_revents x false) in *.
  assert (Hrd : ready (x :: b) = s_fd x :: ready b) by (rewrite ready_cons, decide_True; done).
  destruct (close_ok s1 w1 w2 a x' b Hok1 Hlim1 eq_refl El) as (s2 & l & -> & Hok2 & Hl & Hsame & Hlim2 & Hcores);
    [lia|exact Hcl|]. ostep. pose proof (same_length _ _ Hsame) as Hl2.
  assert (HP2 : P (length (ready b) + k) (cores (slots s2)) w2).
  { eapply us_perm; [|exact HP]. rewrite Hcores. unfold cores. by rewrite Hl. }
  apply same_app_inv in Hsame as (a' & l' & Hs2 & Ha & Hl').
  assert (Hrd2 : ready l' ≡ₚ ready b) by (by rewrite (same_ready _ _ Hl'), (ready_perm _ _ Hl)).
  replace (length a) with (length a') by (symmetry; by eapply Forall2_length).
  assert (Hz2 : zlen (slots s2) < zlen (slots s)).
  { rewrite Hl2, Hs. unfold zlen. rewrite !length_app, (Permutation_length Hl). cbn. lia. }
  destruct (IH s2 w2 k a' l') as (s' & w' & r & ? & ? & ? & ? & Hcw & Hr & ? & Hz).
  { split; [done|done|done|by eapply same_quiet| |lia].
    pose proof (same_weight _ _ Hl'). rewrite (weight_perm _ _ Hl) in *. lia. }
  { by rewrite (Permutation_length Hrd2). }
  exists s', w', (s_fd x :: r). split_and!; try done.
  - by rewrite Hcw, Hc.
  - by rewrite Hrd, Hr, Hrd2.
  - intros Hm0. specialize (Hz Hm0). lia.
Qed.

Lemma turn_serve fuel s w k a x b :
  loop_ok fuel -> turn (S fuel) s a (x :: b) -> s_revents x = true -> s_is_listener x = false ->
  P (length (ready (x :: b)) + k) (cores (slots s)) w ->
  let s1 := mk_server (a ++ set_revents x false :: b) (nmax s) in
  served s w k (x :: b) ('(len, w1) ← on_ready ctx w (s_data x) (s_fd x);
    if 0 <? len then poll_loop ctx fuel s1 w1 (S (length a))
    else (let w2 := if len =? 0 then w1 else on_error ctx w1 in
          '(s2, w3) ← close_delete_socket ctx s1 w2 (length a); poll_loop ctx fuel s2 w3 (length a))).
Proof using user.
  intros IH Ht Er El HP s1. rewrite ready_cons, decide_True in HP by done.
  rewrite (tn_slots _ _ _ _ Ht) in HP.
  assert (Hmid : cores (a ++ x :: b) ≡ₚ (s_fd x, s_data x, false) :: cores (a ++ b)).
  { rewrite !cores_app, (Permutation_middle (cores a)). unfold cores. rewrite fmap_cons. unfold core_of at 2. by rewrite El. }
  destruct (us_ready (length (ready b) + k) (cores (a ++ x :: b)) w (s_fd x) (s_data x)) with (2 := HP) as (len & w1 & -> & Hc & Hgo & Hend);
    [rewrite Hmid; by left|]. ostep. destruct (Z.ltb_spec 0 len) as [Hlen|Hlen].
  - apply turn_goes_on; try done. cbn [slots]. rewrite cores_clear. by apply Hgo.
  - destruct (Hend Hlen (s_listener x) _ Hmid) as (w2 & Hcl & Hc2 & HP2).
    eapply turn_closes; try done. by rewrite Hc2.
Qed.

Lemma poll_loop_ok fuel : loop_ok fuel.
Proof using user.
  induction fuel as [|fuel IH]; intros s w k a b Ht HP; pose proof (tn_slots _ _ _ _ Ht) as Hs;
    destruct b as [|x b]; cbn [poll_loop]; rewrite Hs.
  - rewrite lookup_ge_None_2 by (rewrite length_app; cbn; lia). by eapply loop_end.
  - pose proof (tn_fuel _ _ _ _ Ht) as Hw. rewrite weight_cons in Hw. lia.
  - rewrite lookup_ge_None_2 by (rewrite length_app; cbn; lia). by eapply loop_end.
  - rewrite (list_lookup_middle a b x _ eq_refl). destruct (s_revents x) eqn:Er; cbn [negb]; [|by apply turn_quiet].
    rewrite (insert_app_r_alt a (x :: b)), Nat.sub_diag by lia. cbn [list_insert insert].
    destruct (s_is_listener x) eqn:El; [by apply turn_accept|by apply turn_serve].
Qed.

Lemma weight_bound l : (weight l <= 2 * length l)%nat.
Proof. unfold weight. pose proof (length_filter is_pending l). lia. Qed.

Lemma zip_pad {X Y Z} (f : X -> Y -> Z) l k k' :
  length k = length l -> zip_with f l (k ++ k') = zip_with f l k.
Proof. revert k. induction l as [|x l IH]; intros [|y k] H; try done. cbn. f_equal. apply IH. cbn in H. lia. Qed.

(** A listener that is off is not reported. *)
Lemma off_report l rev :
  Forall off l ->
  (forall x b, (x, b) ∈ zip l rev -> s_is_listener x = true -> s_events x = false -> b = false) ->
  Forall off (zip_with set_revents l rev).
Proof.
  intros H. revert rev. induction H as [|x l Hx Hl IH]; intros rev Hr; [constructor|].
  destruct rev as [|b rev]; cbn in *; [constructor|].
  constructor; [|apply IH; intros y c Hin; apply Hr; by right].
  intros E. destruct (Hx E) as [E1 _]. split; [done|]. by apply (Hr x b); [left|..].
Qed.

(** The table when poll() has returned. *)
Lemma cores_report l rev : length rev = length l -> cores (zip_with set_revents l rev) = cores l.
Proof.
  revert rev. induction l as [|x l IH]; intros [|b rev] H; try done. unfold cores in *. cbn [zip_with].
  rewrite !fmap_cons. f_equal. apply IH. cbn in H. lia.
Qed.

Lemma poll_ok s w k ret rev :
  sv_ok s -> limited s -> slots s <> [] -> 0 < ret -> length rev = length (slots s) ->
  3 * zlen (slots s) + 32 < 2 ^ 32 ->
  (forall x b, (x, b) ∈ zip (slots s) rev -> s_is_listener x = true -> s_events x = false -> b = false) ->
  let fds := ready (zip_with set_revents (slots s) rev) in
  P (length fds + k) (cores (slots s)) w ->
  exists s' w' r, server_poll ctx s w ret rev = Done (ret, s', w') /\ sv_ok s' /\ limited s' /\
    Forall quiet (slots s') /\ calls w' = foldl note (calls w) r /\ r ≡ₚ fds /\ P k (cores (slots s')) w' /\
    (max_sockets ctx <> 0 -> zlen (slots s') <= Z.max (zlen (slots s)) (max_sockets ctx)).
Proof using user.
  intros Hok Hlim Hne Hret Hlen Hmax Hoff fds HP.
  set (s1 := mk_server (zip_with set_revents (slots s) rev) (nmax s)).
  assert (E : server_poll ctx s w ret rev = ('(s2, w1) ← poll_loop ctx (2 * length (slots s)) s1 w 0; Done (ret, s2, w1))).
  { unfold server_poll. rewrite zip_pad by done. clear -Hne Hret. destruct (slots s); [done|].
    destruct (Z.leb_spec ret 0); [lia|done]. }
  assert (Hl1 : length (slots s1) = length (slots s)) by (cbn; rewrite length_zip_with; lia).
  assert (Hz1 : zlen (slots s1) = zlen (slots s)) by (unfold zlen; by rewrite Hl1).
  destruct (poll_loop_ok (2 * length (slots s)) s1 w k [] (slots s1)) as (s' & w' & r & E' & ? & ? & ? & ? & ? & ? & Hz).
  { split; [split; [rewrite Hz1|]; apply Hok| |done|constructor| |unfold zlen in *; lia].
    - intros Hm0 Hm. rewrite Hz1 in Hm. by apply (off_report _ rev); [apply Hlim|].
    - rewrite <- Hl1. apply weight_bound. }
  { cbn [slots s1]. by rewrite cores_report. }
  exists s', w', r. cbn [length] in E'. rewrite E, E', <- Hz1. split_and!; done.
Qed.

End Loop.

(** C23: one call of [server_poll] serves every connection that poll() reported exactly once, in
    whatever order closing connections shuffles the table, and leaves no event pending. It
    never accepts more sockets than the limit, and the listeners are switched off whenever the
    limit is reached. The user of the server, which may close connections and expects its own data
    for each of them, finds its invariant kept. *)
Theorem poll_serves_each_once {os : OS} {W : Type} (ctx : context W) (calls : W -> list Z)
    (P : nat -> list core -> W -> Prop) {user : ServerUser ctx calls (fun l fd => l ++ [fd]) P}
    (s : server) (w : W) (k : nat) (ret : Z) (rev : list bool) :
  sv_ok s -> limited ctx s -> slots s <> [] -> 0 < ret -> length rev = length (slots s) ->
  3 * zlen (slots s) + 32 < 2 ^ 32 ->
  (forall x b, (x, b) ∈ zip (slots s) rev -> s_is_listener x = true -> s_events x = false -> b = false) ->
  let fds := ready (zip_with set_revents (slots s) rev) in
  P (length fds + k)%nat (cores (slots s)) w ->
  exists s' w' r, server_poll ctx s w ret rev = Done (ret, s', w') /\ sv_ok s' /\ limited ctx s' /\
    Forall quiet (slots s') /\ calls w' = calls w ++ r /\ r ≡ₚ fds /\ P k (cores (slots s')) w' /\
    (max_sockets ctx <> 0 -> zlen (slots s') <= Z.max (zlen (slots s)) (max_sockets ctx)).
Proof.
  intros H1 H2 H3 H4 H5 H6 H7 fds HP.
  destruct (poll_ok ctx calls (fun l fd => l ++ [fd]) P s w k ret rev H1 H2 H3 H4 H5 H6 H7 HP)
    as (s' & w' & r & ? & ? & ? & ? & Hc & ? & ? & ?). exists s', w', r. split_and!; try done.
  rewrite Hc. clear. generalize (calls w). induction r as [|fd r IH]; intros l; cbn; [by rewrite app_nil_r|].
  by rewrite IH, <- app_assoc.
Qed.


(** ** Witnesses *)

Lemma resize_exact_witness :
  exists r s', server_resize (os:=quiet_os) (mk_server [] 32) 5 = Done (r, s') /\ slots s' = [] /\ sv_ok s' /\
    (r = 0 /\ nmax s' = 16 \/ r = -1 /\ nmax s' = Z.min 32 16 /\ exists m, realloc_ok (OS:=quiet_os) m = false).
Proof.
  apply (resize_exact (os:=quiet_os) (mk_server [] 32) 5); [|done|done].
  split; [done|]. by exists 2.
Defined.

(** A user that closes the connection on socket 7 and keeps a list of the sockets it served. *)
Definition demo_context : context (list Z) :=
  mk_context 4 (fun w fd _ => (Some fd, w)) (fun w _ fd => Done (if fd =? 7 then 0 else 1, w ++ [fd]))
    (fun w _ _ => Done w) (fun w _ => w) (fun w => w) (fun w _ => (Some 9, w)) (fun w _ => w).

Definition demo_server : server :=
  mk_server [mk_slot 3 true false None 1 true; mk_slot 7 true false (Some 7) 1 false;
             mk_slot 8 true false (Some 8) 1 false] 16.

(** It can be called ten times. *)
Definition demo_user (k : nat) (l : list core) (w : list Z) : Prop := (k + length w <= 10)%nat.

#[local] Instance demo_user_laws : ServerUser demo_context (fun w => w) (fun l fd => l ++ [fd]) demo_user.
Proof.
  split; unfold demo_user; try done.
  - intros k l w fd x Hin HP. eexists _, _. split; [done|].
    assert ((k + length (w ++ [fd]) <= 10)%nat) by (rewrite length_app; cbn; lia).
    split_and!; [done|done|]. intros _ li l' _. exists (w ++ [fd]). split; [|done]. cbn. by destruct (_ =? 0).
  - by intros k l w lfd fd w1 HP [= <- <-].
  - by intros k l w lfd fd w1 li x w2 HP [= <- <-] _ [= <- <-].
Qed.

Lemma poll_serves_each_once_witness :
  exists s' w' r, server_poll (os:=quiet_os) demo_context demo_server [] 3 [true; true; true] = Done (3, s', w') /\
    sv_ok s' /\ limited demo_context s' /\ Forall quiet (slots s') /\ w' = r /\ r ≡ₚ [7; 8] /\
    demo_user 8 (cores (slots s')) w' /\ (4 <> 0 -> zlen (slots s') <= Z.max 3 4).
Proof.
  apply (poll_serves_each_once (os:=quiet_os) demo_context (fun w => w) demo_user) with (s := demo_server) (w := []) (k := 8%nat);
    try done.
  - intros _ H. exfalso. by apply H.
  - intros x b Hx Hl He. cbn in Hx.
    repeat (apply elem_of_cons in Hx as [[= -> ->]|Hx]; [done|]). by apply not_elem_of_nil in Hx.
  - apply Nat.leb_le. vm_compute. reflexivity.
Defined.
