(* ===== verification/TestServer.v ===== *)
(** * The test of the poll server (src/daemon/t-server.c)

    The program t-server.c run on the model of server.c, on a small model of the kernel: one
    listening socket with a queue of connections, and connected sockets that hold what their
    peer wrote. poll() reports a listener that has a connection waiting, and a connection that
    has data or is at the end of its input. The text of an error message is not modelled. *)
From S2P Require Import Prelude StoreDefs Server.
Local Open Scope infod_scope.

(** ** Kernel and mocked callbacks *)

(** What the server's end of a connection can read. *)
Record conn := mk_conn { c_data : bytes; c_eof : bool }.

(** The mocks record the arguments of their calls, latest first. *)
Record tworld := mk_tworld {
  waiting : list conn;                     (* connected, not yet accepted *)
  open_fds : gmap Z conn;
  next_fd : Z;
  accept_calls : list (Z * Z);             (* fd, listener *)
  ready_calls : list (option Z * Z);       (* client, fd *)
  close_calls : list (option Z * Z);       (* client, listener *)
  lclose_calls : list Z;
  error_calls : nat;
  accept_ret : option Z;
  ready_ret : Z
}.
Implicit Types (w : tworld).

Definition set_kernel w (q : list conn) (fds : gmap Z conn) (n : Z) : tworld :=
  mk_tworld q fds n (accept_calls w) (ready_calls w) (close_calls w) (lclose_calls w) (error_calls w)
            (accept_ret w) (ready_ret w).
Definition set_calls w (ac : list (Z * Z)) (rd cl : list (option Z * Z)) (lc : list Z) (er : nat) : tworld :=
  mk_tworld (waiting w) (open_fds w) (next_fd w) ac rd cl lc er (accept_ret w) (ready_ret w).
Definition set_rets w (a : option Z) (r : Z) : tworld :=
  mk_tworld (waiting w) (open_fds w) (next_fd w) (accept_calls w) (ready_calls w) (close_calls w)
            (lclose_calls w) (error_calls w) a r.

Definition mock_on_accept_fn w (fd listener : Z) : option Z * tworld :=
  (accept_ret w, set_calls w ((fd, listener) :: accept_calls w) (ready_calls w) (close_calls w)
                   (lclose_calls w) (error_calls w)).
Definition mock_on_ready_fn w (client : option Z) (fd : Z) : outcome (Z * tworld) :=
  Done (ready_ret w, set_calls w (accept_calls w) ((client, fd) :: ready_calls w) (close_calls w)
                       (lclose_calls w) (error_calls w)).
Definition mock_on_close_fn w (client : option Z) (listener : Z) : outcome tworld :=
  Done (set_calls w (accept_calls w) (ready_calls w) ((client, listener) :: close_calls w)
          (lclose_calls w) (error_calls w)).
Definition mock_on_listener_close_fn w (listener : Z) : tworld :=
  set_calls w (accept_calls w) (ready_calls w) (close_calls w) (listener :: lclose_calls w) (error_calls w).
Definition mock_on_error_fn w : tworld :=
  set_calls w (accept_calls w) (ready_calls w) (close_calls w) (lclose_calls w) (S (error_calls w)).

Definition kernel_accept w (_ : Z) : option Z * tworld :=
  match waiting w with
  | [] => (None, w)
  | c :: q => (Some (next_fd w), set_kernel w q (<[next_fd w := c]> (open_fds w)) (next_fd w + 1))
  end.
Definition kernel_close w (fd : Z) : tworld := set_kernel w (waiting w) (delete fd (open_fds w)) (next_fd w).

Definition test_context : context tworld :=
  mk_context 0 mock_on_accept_fn mock_on_ready_fn mock_on_close_fn mock_on_listener_close_fn
             mock_on_error_fn kernel_accept kernel_close.

(** poll(): the [revents] of each socket. *)
Definition polled w (s : slot) : bool :=
  s_events s &&
  (if s_is_listener s then negb (bool_decide (waiting w = []))
   else match open_fds w !! s_fd s with
        | Some c => c_eof c || negb (bool_decide (c_data c = []))
        | None => false
        end).

(** ** The steps of the test *)

Definition LISTENFD : Z := 3.
Definition LISTEN : Z := 1.
Definition CLIENT : Z := 77.

Inductive step :=
  | Poll (n : Z)                    (* assert(CHECK(server_poll(server, 0)) == n) *)
  | AddListener                     (* CHECK(server_add_listener(server, listenfd, &LISTEN)) *)
  | Connect                         (* xfd = CHECK(connect_local()) *)
  | WriteX (b : bytes)              (* WRITE(xfd, b) *)
  | CloseX                          (* CHECK(close(xfd)) *)
  | ShutdownRead                    (* CHECK(shutdown_read(client_fd)) *)
  | ReadIs (b : bytes)              (* ASSERT_READ(fd, b) on the client's fd *)
  | AcceptRet (c : option Z)
  | ReadyRet (r : Z)
  | Accepted                        (* WAS_CALLED(mock_on_accept) and its arguments *)
  | Ready                           (* WAS_CALLED(mock_on_ready) and its arguments *)
  | Closed                          (* WAS_CALLED(mock_on_close) *)
  | Errored                         (* WAS_CALLED(mock_on_error) *)
  | Free.                           (* server_free(), WAS_CALLED(mock_on_listener_close) *)

(** The peer of the connection that was accepted last, or of the one that waits. *)
Definition on_conn w (f : conn -> conn) : tworld :=
  match waiting w with
  | c :: q => set_kernel w (f c :: q) (open_fds w) (next_fd w)
  | [] => set_kernel w [] (alter f (next_fd w - 1) (open_fds w)) (next_fd w)
  end.

(** [client_fd], as the last accepted. *)
Definition client_fd w : Z := next_fd w - 1.

Definition step_run (s : server) w (t : step) : outcome (server * tworld) :=
  match t with
  | Poll n =>
      let rev := polled w <$> slots s in
      '(r, s', w') ← server_poll test_context s w (zlen (filter (fun b => b = true) rev)) rev;
      _ ← assert_c (r =? n); Done (s', w')
  | AddListener =>
      '(r, s') ← server_add_listener test_context s LISTENFD LISTEN; _ ← assert_c (0 <=? r); Done (s', w)
  | Connect => Done (s, set_kernel w (waiting w ++ [mk_conn [] false]) (open_fds w) (next_fd w))
  | WriteX b => Done (s, on_conn w (fun c => mk_conn (c_data c ++ b) (c_eof c)))
  | CloseX => Done (s, on_conn w (fun c => mk_conn (c_data c) true))
  | ShutdownRead => Done (s, on_conn w (fun c => mk_conn [] true))
  | ReadIs b =>
      c ← of_option OutOfBounds (open_fds w !! client_fd w);
      _ ← assert_c (bool_decide (take (length b) (c_data c) = b));
      Done (s, on_conn w (fun c => mk_conn (drop (length b) (c_data c)) (c_eof c)))
  | AcceptRet c => Done (s, set_rets w c (ready_ret w))
  | ReadyRet r => Done (s, set_rets w (accept_ret w) r)
  | Accepted =>
      _ ← assert_c (bool_decide (accept_calls w = [(client_fd w, LISTEN)]) && negb (client_fd w =? -1)
                    && negb (client_fd w =? LISTENFD));
      Done (s, set_calls w [] (ready_calls w) (close_calls w) (lclose_calls w) (error_calls w))
  | Ready =>
      _ ← assert_c (bool_decide (ready_calls w = [(Some CLIENT, client_fd w)]));
      Done (s, set_calls w (accept_calls w) [] (close_calls w) (lclose_calls w) (error_calls w))
  | Closed =>
      _ ← assert_c (bool_decide (close_calls w = [(Some CLIENT, LISTEN)]));
      Done (s, set_calls w (accept_calls w) (ready_calls w) [] (lclose_calls w) (error_calls w))
  | Errored =>
      _ ← assert_c (error_calls w =? 1)%nat;
      Done (s, set_calls w (accept_calls w) (ready_calls w) (close_calls w) (lclose_calls w) 0)
  | Free =>
      w' ← server_free test_context s w;
      _ ← assert_c (bool_decide (lclose_calls w' = [LISTEN])); Done (server_new, w')
  end.

Fixpoint steps_run (s : server) w (ts : list step) : outcome (server * tworld) :=
  match ts with
  | [] => Done (s, w)
  | t :: ts' => '(s', w') ← step_run s w t; steps_run s' w' ts'
  end.

Definition t_server_steps : list step :=
  [ Poll 0; AddListener; Poll 0;
    (* a connection to the listener triggers an accept, data an on_ready *)
    Connect; AcceptRet (Some CLIENT); Poll 1; Accepted;
    ReadyRet 1; WriteX $"hello"; Poll 1; Ready; ReadIs $"hello"; Poll 0;
    (* closing the external fd triggers an on_ready, and its 0 an on_close *)
    CloseX; ReadyRet 0; Poll 1; Ready; Closed;
    (* the client's fd is shut down *)
    Connect; AcceptRet (Some CLIENT); Poll 1; Accepted; Poll 0;
    ShutdownRead; ReadIs []; ReadyRet 0; Poll 1; Ready; Closed; CloseX;
    (* an EIO error *)
    Connect; AcceptRet (Some CLIENT); Poll 1; Accepted;
    WriteX $"hello"; ReadyRet (-1); Poll 1; Ready; Closed; Errored; CloseX;
    (* closing the server closes the listeners *)
    Free ].

Definition world0 : tworld := mk_tworld [] ∅ 10 [] [] [] [] 0 None 0.

Definition t_server_main : outcome (server * tworld) := steps_run server_new world0 t_server_steps.

(** The test runs to its end, and every connection was closed. *)
Example t_server_passes :
  exists s w, t_server_main = Done (s, w) /\ open_fds w = ∅ /\ close_calls w = [].
Proof. eexists _, _. split; [vm_compute; reflexivity|]. split; reflexivity. Qed.
