(* ===== verification/Main.v ===== *)
(** * The daemon on the poll server (src/daemon/infod.c, main)

    The server's upcalls are the daemon's handlers, as [main] sets them. [sys_read] is what a
    read() on a socket gives, [sys_new] what an accept() on a listener gives. *)
From S2P Require Import Prelude Match StoreDefs StoreLayout StoreRep StoreOps StoreTheorems.
From S2P Require Import Rxbuf ProtoDefs ProtoBin Infod InfodSpec InfodSim InfodTheorems Server.
From S2P Require Import ServerTheorems.
Local Open Scope infod_scope.

(** Which listener is [unix_listener]. *)
Definition UNIX : Z := 1.

Section Main.
Context {os : OS} {net : Net} {ST : Type} {KV : KVStore ST}.
Context (sys_read : daemon ST -> Z -> option bytes) (sys_new : daemon ST -> Z -> option Z)
        (junk : textproto * nat).

Definition infod_context : context (daemon ST) :=
  mk_context 64
    (fun d fd l => on_net_accept d fd (l =? UNIX) junk)
    (fun d c fd => on_net_ready d c (sys_read d fd))
    (fun d c l => on_net_close d c)
    (fun d l => d)
    (fun d => d)
    (fun d fd => (sys_new d fd, d))
    (fun d fd => d).

(** The main loop, with what each poll() returned and whether a signal had arrived when it did;
    [terminated] is the flag that the handler of SIGTERM and SIGINT sets. The loop ends when
    there are no sockets, when poll() fails, or after a turn that found the flag set: the result
    is the last return value, or [None] when the loop has not ended yet. *)
Fixpoint main_loop (s : server) (d : daemon ST) (terminated : bool) (polls : list (Z * list bool * bool))
    : outcome (option Z * bool * server * daemon ST) :=
  match polls with
  | [] => Done (None, terminated, s, d)
  | (ret, rev, sig) :: polls' =>
      '(r, s1, d1) ← server_poll infod_context s d ret rev;
      let t := terminated || sig in
      if 0 <? r then if t then Done (Some r, t, s1, d1) else main_loop s1 d1 t polls'
      else Done (Some r, t, s1, d1)
  end.

(** ** Starting *)

(** [struct options] *)
Record options := mk_options {
  verbose : Z;                  (* -v *)
  o_stdin : bool;               (* -i *)
  port : option bytes;          (* -p *)
  syslog : bool;                (* -s *)
  store_path : bytes            (* -f *)
}.

(** What getopt() returns, one after the other: the option and its argument. *)
Fixpoint parse_options (opts : list (Z * bytes)) (o : options) (error : Z) : options * Z :=
  match opts with
  | [] => (o, error)
  | (ch, optarg) :: opts' =>
      if ch =? 102 (* f *) then parse_options opts' (mk_options (verbose o) (o_stdin o) (port o) (syslog o) optarg) error
      else if ch =? 115 (* s *) then parse_options opts' (mk_options (verbose o) (o_stdin o) (port o) true (store_path o)) error
      else if ch =? 112 (* p *) then parse_options opts' (mk_options (verbose o) (o_stdin o) (Some optarg) (syslog o) (store_path o)) error
      else if ch =? 105 (* i *) then parse_options opts' (mk_options (verbose o) true (port o) (syslog o) (store_path o)) error
      else if ch =? 118 (* v *) then
        parse_options opts' (mk_options (u8 (verbose o + 1)) (o_stdin o) (port o) (syslog o) (store_path o)) error
      else if ch =? 63 (* ? *) then parse_options opts' o 2
      else parse_options opts' o error
  end.

(** The listeners besides [unix_listener]. *)
Definition STDIN : Z := 2.
Definition TCP : Z := 3.

(** [exit()] with a status, or what was made. *)
Definition may_exit (A : Type) : Type := A + Z.

(** [fd] is what sockunix_listen() returned, -1 included. *)
Definition add_unix_listener (s : server) (fd : Z) : outcome (may_exit server) :=
  '(r, s1) ← server_add_listener infod_context s fd UNIX;
  Done (if r =? -1 then inr 1 else inl s1).

Definition add_stdin_listener (s : server) (d : daemon ST) : outcome (may_exit (server * daemon ST)) :=
  '(r, s1, d1) ← server_add_fd infod_context s d 0 STDIN;
  Done (if r =? -1 then inr 1 else inl (s1, d1)).

(** An address of getaddrinfo(): what socket(), bind() and listen() give for it. *)
Record tcp_addr := mk_tcp_addr { t_socket : option Z; t_bind : bool; t_listen : bool }.

(** The loop over the addresses; the count of the listeners. A socket that cannot be bound or
    listened on, or for which the table has no room, is closed and not used again: the state of
    the model holds no descriptors outside the table, so that close() leaves no trace here. *)
Fixpoint tcp_listeners (s : server) (ais : list tcp_addr) (count : Z) : outcome (server * Z) :=
  match ais with
  | [] => Done (s, count)
  | ai :: ais' =>
      match t_socket ai with
      | None => tcp_listeners s ais' count
      | Some fd =>
          if negb (t_bind ai) then tcp_listeners s ais' count
          else if negb (t_listen ai) then tcp_listeners s ais' count
          else
            '(r, s1) ← server_add_listener infod_context s fd TCP;
            tcp_listeners s1 ais' (if r =? -1 then count else count + 1)
      end
  end.

(** [ais] is what getaddrinfo() gave, [None] for an error. *)
Definition add_tcp_listeners (s : server) (ais : option (list tcp_addr)) : outcome (may_exit server) :=
  match ais with
  | None => Done (inr 1)
  | Some ais => '(s1, count) ← tcp_listeners s ais 0; Done (if count =? 0 then inr 1 else inl s1)
  end.

(** [main] after the options: [d] is the daemon with its store open. The result is the exit
    status and the daemon at the end, or [None] for the status while the loop runs. *)
Definition main_serve (o : options) (d : daemon ST) (ais : option (list tcp_addr)) (unix_fd : Z)
    (polls : list (Z * list bool * bool)) : outcome (option Z * daemon ST) :=
  r ← (if o_stdin o then add_stdin_listener server_new d else Done (inl (server_new, d)));
  match r with
  | inr status => Done (Some status, d)
  | inl (s1, d1) =>
      r ← add_tcp_listeners s1 ais;
      match r with
      | inr status => Done (Some status, d1)
      | inl s2 =>
          r ← add_unix_listener s2 unix_fd;
          match r with
          | inr status => Done (Some status, d1)
          | inl s3 =>
              '(ret, terminated, s4, d2) ← main_loop s3 d1 false polls;
              match ret with
              | None => Done (None, d2)
              | Some _ =>
                  d3 ← server_free infod_context s4 d2;
                  Done (Some (Z.b2z terminated), d3)
              end
          end
      end
  end.

(** [main]: [opts] from getopt(), [excess] says if arguments are left, [opened] is the store that
    [store_open] gives for a path. *)
Definition main (opts : list (Z * bytes)) (excess : bool) (STORE_PATH : bytes) (opened : bytes -> option (daemon ST))
    (ais : option (list tcp_addr)) (unix_fd : Z) (polls : list (Z * list bool * bool))
    : outcome (option Z * option (daemon ST)) :=
  let '(o, error) := parse_options opts (mk_options 0 false None false STORE_PATH) 0 in
  let error := if excess then 2 else error in
  if negb (error =? 0) then Done (Some error, None)
  else
    match opened (store_path o) with
    | None => Done (Some 1, None)
    | Some d => '(status, d1) ← main_serve o d ais unix_fd polls; Done (status, Some d1)
    end.

End Main.

(** ** Runs *)

(** The unix listener is socket 3. *)
Definition listening : server := mk_server [mk_slot 3 true false None UNIX true] 16.

(** The two clients come in one after the other on sockets 10 and 11. *)
Definition next_fd {ST} (d : daemon ST) (_ : Z) : option Z := Some (10 + zlen (all_clients d)).

(** Socket 11 subscribes to a*, then socket 10 writes the key "ab". *)
Definition two_reads (d : daemon store) (fd : Z) : option bytes :=
  if fd =? 11 then Some (CMD_SUB :: $"a*") else Some [CMD_WRITE; 97; 98; 0; 49].

Definition empty_daemon : daemon store := mk_daemon demo_store [] [].

(** The subscriber gets the record that matches at once and the one written later; the writer
    hears nothing. *)
Example subscribe_and_write :
  exists s d, main_loop (os:=quiet_os) (net:=quiet_net) (KV:=demo_kv) two_reads next_fd (demo_text, 0%nat)
      listening empty_daemon false
      [(1, [true], false); (1, [true; false], false); (1, [false; false; true], false);
       (1, [false; true; false], false)] = Done (None, false, s, d) /\
    events d = [Sent 11 (MSG_INFO :: demo_a); Sent 11 [MSG_INFO; 97; 98; 0; 49]] /\
    (c_fd <$> all_clients d) = [11; 10] /\ (s_data <$> slots s) = [None; Some 10; Some 11].
Proof. eexists _, _. split; [vm_compute; reflexivity|]. split_and!; vm_compute; reflexivity. Qed.

(** No memory until the first shutdown. *)
Definition tight_net : Net :=
  {| writev _ _ b := zlen b; malloc_ok ev _ := bool_decide (ev <> []); strerror _ := [] |}.

(** Running out of memory when a client connects kills the daemon. [on_net_accept] shuts the
    connection down and returns NULL; the end of file that poll() then reports is passed to
    [on_net_ready] with the NULL client. *)
Theorem accept_out_of_memory :
  main_loop (os:=quiet_os) (net:=tight_net) (KV:=demo_kv) (fun _ _ => Some []) next_fd (demo_text, 0%nat)
    listening empty_daemon false [(1, [true], false); (1, [false; true], false)] = Crash NullDeref.
Proof. vm_compute. reflexivity. Qed.

(** ** Starting and stopping *)

Definition demo_opened (path : bytes) : option (daemon store) :=
  if bool_decide (path = $"/run/infod.store") then Some empty_daemon else None.
Definition run_main (opts : list (Z * bytes)) (unix_fd : Z) (polls : list (Z * list bool * bool)) :=
  main (os:=quiet_os) (net:=quiet_net) (KV:=demo_kv) two_reads next_fd (demo_text, 0%nat)
    opts false $"/run/infod.store" demo_opened (Some [mk_tcp_addr None true true; mk_tcp_addr (Some 4) true true])
    unix_fd polls.

(** An option that getopt() does not know, and a store that cannot be opened. *)
Example bad_option : run_main [(63, [])] 3 [] = Done (Some 2, None).
Proof. vm_compute. reflexivity. Qed.
Example no_store : run_main [(102, $"/nowhere")] 3 [] = Done (Some 1, None).
Proof. vm_compute. reflexivity. Qed.

(** The status is 1 after a SIGTERM, which is a clean end, and 0 when poll() fails. *)
Example exit_after_signal :
  exists d, run_main [] 3 [(1, [false; true], false); (1, [false; false; false], true)] = Done (Some 1, Some d) /\
    all_clients d = [].
Proof. eexists. split; vm_compute; reflexivity. Qed.
Example exit_after_failure :
  exists d, run_main [] 3 [(1, [false; true], false); (-1, [], false)] = Done (Some 0, Some d) /\ all_clients d = [].
Proof. eexists. split; vm_compute; reflexivity. Qed.

(** A local socket that could not be made is added as the socket -1, and the daemon goes on
    without it. *)
Example no_unix_socket :
  exists d, run_main [] (-1) [(1, [true], false)] = Done (None, Some d) /\ length (all_clients d) = 1%nat.
Proof. eexists. split; vm_compute; reflexivity. Qed.
