(* ===== verification/MainTheorems.v ===== *)
(** * The whole daemon: its main loop

    The poll server and the daemon's handlers together: the handlers are a user of the server
    ([ServerUser]), so that the theorems of both apply to the main loop. [Linked] says that the
    table of sockets and the list of clients agree. *)
From S2P Require Import Prelude Match StoreDefs StoreLayout StoreRep StoreOps StoreTheorems Rxbuf.
From S2P Require Import ProtoDefs ProtoBin ProtoStream ProtoTextAny Infod InfodSpec InfodSay InfodSim InfodCmd.
From S2P Require Import InfodTheorems InfodKeep InfodNet.
From S2P Require Import Server ServerTheorems Main.
Local Open Scope infod_scope.

(** No message changes who the clients are. *)
Lemma accepts_fds {F : Faults} fd w m ok w' : accepts fd w m ok w' -> (a_fd <$> as_clients w') = (a_fd <$> as_clients w).
Proof.
  intros (a & outs & _ & Hac & _). apply accept_shape, (f_equal (fmap fst)) in Hac. unfold shape in Hac.
  by rewrite <- !list_fmap_compose in Hac.
Qed.

Lemma received_fds {os : OS} {F : Faults} fd w p buf ok w' p' :
  received fd w p buf ok w' p' -> (a_fd <$> as_clients w') = (a_fd <$> as_clients w).
Proof.
  destruct 1 as [? ? H|? ? ? ? ? _ H|? ? ? ? ? _ _ H|? ? ? ? ? ? ? _ _ _ H _]; [by eapply accepts_fds..| |].
  - induction H as [| ? ? ? ? ? ? ? ? H1 H2 IH|? ? ? ? ? H1|]; [done| | |done].
    + rewrite IH. by eapply accepts_fds.
    + by eapply accepts_fds.
  - induction H as [|? ? ? ? ? ? H1 H2 IH|? ? ? H1|? ? ? ? ? ? (? & _ & _ & ->) H2 IH]; [done| | |by rewrite IH].
    + rewrite IH. by eapply accepts_fds.
    + by eapply accepts_fds.
Qed.

Lemma upd_mode_fds cs fd m : (a_fd <$> a_upd cs fd (with_mode m)) = (a_fd <$> cs).
Proof.
  unfold a_upd. rewrite <- list_fmap_compose. apply list_fmap_ext. intros i a _. cbn. by destruct (a_fd a =? fd).
Qed.

Section System.
Context {os : OS} {net : Net} {ST : Type} {KV : KVStore ST}.
Context (sys_read : daemon ST -> Z -> option bytes) (sys_new : daemon ST -> Z -> option Z)
        (junk : textproto * nat).
Abbreviation daemon := (daemon ST).
Implicit Types (d : daemon) (s : server) (l : list core).

(** The sockets that listen, the most bytes that a read gives, and the longest payload. *)
Context (L : list Z) (B : nat) {lim : Z}.
Abbreviation Inv := (Inv (lim:=lim)).
Abbreviation Sess := (Sess (lim:=lim)).
Abbreviation all_wait := (all_wait (lim:=lim)).

Definition core_fd (c : core) : Z := c.1.1.

(** The table of the server and the clients of the daemon: a connection is a client, and its
    data in the table is that client. *)
Record Linked l d : Prop := {
  ln_nodup : NoDup (core_fd <$> l);
  ln_data fd x : (fd, x, false) ∈ l -> x = Some fd;
  ln_clients fd : fd ∈ c_fd <$> all_clients d <-> exists x, (fd, x, false) ∈ l;
  ln_listen fd x : (fd, x, true) ∈ l -> fd ∈ L
}.

(** The daemon can take [k] more reads. *)
Definition Running (k : nat) l d : Prop :=
  Sess all_wait (k * B) d /\ Z.of_nat (k * B) < 2 ^ 32 - 1 /\ Linked l d.

(** ** The table and the clients *)

Lemma linked_perm l l' d : l ≡ₚ l' -> Linked l d -> Linked l' d.
Proof.
  intros Hp [H1 H2 H3 H4]. split.
  - by rewrite <- Hp.
  - intros fd x. rewrite <- Hp. apply H2.
  - intros fd. rewrite H3. split; intros [x Hx]; exists x; [by rewrite <- Hp|by rewrite Hp].
  - intros fd x. rewrite <- Hp. apply H4.
Qed.

Lemma linked_same l d d' : (c_fd <$> all_clients d') = (c_fd <$> all_clients d) -> Linked l d -> Linked l d'.
Proof. intros E [H1 H2 H3 H4]. split; try done. intros fd. by rewrite E. Qed.

Lemma linked_client l d fd x : Linked l d -> (fd, x, false) ∈ l -> Inv d ->
  x = Some fd /\ exists c, get_client d fd = Done c.
Proof.
  intros Hl Hin Hinv. split; [by eapply ln_data|]. apply (client_of_fd (lim:=lim)); [|done].
  rewrite abs_fds. apply (ln_clients _ _ Hl). by exists x.
Qed.

(** A client is closed. *)
Lemma linked_close l l' d fd x :
  Linked l d -> l ≡ₚ (fd, x, false) :: l' -> Linked l' (without fd d).
Proof.
  intros Hl Hp. apply (linked_perm _ _ _ Hp) in Hl as [H1 H2 H3 H4]. rewrite fmap_cons in H1.
  apply NoDup_cons in H1 as [Hfd H1]. cbn [core_fd fst] in Hfd. split; [done| | |].
  - intros fd' x' Hin. apply H2. by right.
  - intros fd'. unfold without. cbn. rewrite (filter_fmap_iff c_fd _ (fun y => y <> fd)) by done.
    rewrite list_elem_of_filter, H3. split.
    + intros [Hne [y Hy]]. exists y. apply elem_of_cons in Hy as [[= -> ->]|Hy]; done.
    + intros [y Hy]. split; [|exists y; by right]. intros ->. apply Hfd. apply list_elem_of_fmap.
      by exists (fd, y, false).
  - intros fd' x' Hin. apply (H4 fd' x'). by right.
Qed.

Lemma attach_new l fd x : fd ∉ core_fd <$> l -> attach (l ++ [(fd, None, false)]) fd x = l ++ [(fd, x, false)].
Proof.
  induction l as [|c l IH]; intros Hfd; cbn; [by rewrite Z.eqb_refl|]. rewrite fmap_cons in Hfd.
  destruct (Z.eqb_spec c.1.1 fd) as [<-|E]; [exfalso; apply Hfd; by left|].
  f_equal. apply IH. set_solver.
Qed.

(** The descriptors of the table. *)
Lemma linked_fds l d fd : Linked l d -> fd ∈ core_fd <$> l -> fd ∈ c_fd <$> all_clients d \/ fd ∈ L.
Proof.
  intros Hl (([fd' x] & b) & -> & Hin)%list_elem_of_fmap. cbn. destruct b.
  - right. by eapply ln_listen.
  - left. apply (ln_clients _ _ Hl). by exists x.
Qed.

(** ** The handlers as a user of the server *)

Lemma Sess_le fine k k' d : (k <= k')%nat -> Sess fine k' d -> Sess fine k d.
Proof. induction 1; [done|]. intros H'. by apply IHle, Sess_mono. Qed.

Lemma running_mono k l d : Running (S k) l d -> Running k l d.
Proof. intros (H1 & H2 & H3). split_and!; [|lia|done]. eapply Sess_le; [|exact H1]. lia. Qed.

(** Closing a client at any time. *)
Lemma close_any k l l' d fd x :
  Running k l d -> l ≡ₚ (fd, x, false) :: l' ->
  on_net_close d x = Done (without fd d) /\ Running k l' (without fd d).
Proof.
  intros (Hs & Hk & Hl) Hp.
  destruct (linked_client l d fd x Hl) as (-> & c & Hc); [rewrite Hp; by left|by eapply ss_inv|].
  split; [unfold on_net_close; ostep; by rewrite Hc|]. split_and!; [|done|by eapply linked_close].
  by destruct (Ready_Ended _ _ _ _ (Sess_Ready fd _ d c Hs Hc)) as (_ & _ & Hw).
Qed.

(** A new client. *)
Lemma linked_open l d fd c :
  Linked l d -> fd ∉ core_fd <$> l -> c_fd c = fd ->
  Linked (l ++ [(fd, Some fd, false)]) (set_clients d (c :: all_clients d)).
Proof.
  intros [H1 H2 H3 H4] Hfd Hc. split.
  - rewrite fmap_app. apply NoDup_app. split_and!; [done| |by apply NoDup_singleton].
    intros y Hy Hy2. apply list_elem_of_singleton in Hy2. cbn in Hy2. by subst.
  - intros fd' x'. rewrite elem_of_app, list_elem_of_singleton. intros [Hin|[= -> ->]]; [by apply H2|done].
  - intros fd'. cbn [all_clients set_clients]. rewrite fmap_cons, elem_of_cons, H3, Hc. split.
    + intros [->|[x Hx]]; [exists (Some fd)|exists x]; rewrite elem_of_app, list_elem_of_singleton; auto.
    + intros [x [Hx|[= -> ->]%list_elem_of_singleton]%elem_of_app]; eauto.
  - intros fd' x'. rewrite elem_of_app, list_elem_of_singleton. intros [Hin|?]; [by eapply H4|done].
Qed.

Lemma accept_running k l d fd unix x d2 :
  zlen (cmd junk.1) = 16 -> malloc_ok (events d) sizeof_client = true -> malloc_ok (events d) sizeof_proto = true ->
  Running k l d -> fd ∉ core_fd <$> l -> on_net_accept d fd unix junk = (x, d2) ->
  x = Some fd /\ Running k (l ++ [(fd, Some fd, false)]) d2.
Proof.
  intros Hj Hm1 Hm2 (Hs & Hk & Hl) Hfd. unfold on_net_accept, client_new. rewrite Hm1, Hm2. cbn [andb].
  set (c := if unix then _ else _). intros [= <- <-]. split; [done|].
  assert (Hc : c_fd c = fd /\ nsubs c = 0 /\ nbufcmds c = 0 /\ begins c = 0 /\ subs c = [] /\ bufcmds c = [] /\
    rx (c_proto c) = rxbuf_init /\ t (c_proto c) = t (proto_new junk.1) /\
    (mode (c_proto c) = PROTO_MODE_FRAMED \/ mode (c_proto c) = PROTO_MODE_UNKNOWN)) by (destruct unix; cbn; auto 10).
  destruct Hc as (Hcfd & Hc1 & Hc2 & Hc3 & Hc4 & Hc5 & Hc6 & Hc7 & Hc8). destruct Hs as [[Hnd Hci] Hidle Hfine HM Hroom].
  split_and!; [|done|].
  - split; cbn [the_store set_clients]; [| | |done|].
    + split; cbn [all_clients set_clients]; [rewrite fmap_cons, Hcfd; constructor; [|done]|].
      * intros Hin. apply Hfd. apply (ln_clients _ _ Hl) in Hin as [x Hx]. apply list_elem_of_fmap. by exists (fd, x, false).
      * constructor; [|done]. split; rewrite ?Hc1, ?Hc2, ?Hc3, ?Hc4, ?Hc5; try done.
        -- destruct Hc8; auto.
        -- intros E. by destruct Hc8 as [E'|E']; rewrite E in E'.
    + change (abs (set_clients d (c :: all_clients d))) with (abs_client c :: abs d). constructor; [|done].
      split; cbn; rewrite ?Hc3, ?Hc5; done || lia.
    + change (decs (set_clients d (c :: all_clients d))) with ((c_fd c, settle (c_proto c)) :: decs d).
      constructor; [|done]. destruct (settle_same (c_proto c)) as [Erx Et].
      apply waits_calm; cbn [snd]; [rewrite Erx, Hc6|by rewrite Et, Hc7|].
      * split; [split; cbn; [done|by exists 0]|constructor|apply waiting_nil].
      * unfold settle. destruct Hc8 as [E|E]; rewrite E; cbn; by rewrite ?E.
    + change (queued_in (abs (set_clients d (c :: all_clients d)))) with
        (length (bufcmds c) + queued_in (abs d))%nat. by rewrite Hc5.
  - by apply linked_open.
Qed.

(** What is assumed of the rest of the world: the sockets take what is written, there is memory,
    no client sends more than [lim] bytes in a message or a line, and accept() gives descriptors
    that are not in use. *)
Hypothesis writev_takes : forall ev fd b, writev ev fd b = zlen b.
Hypothesis lim_payload : lim <= MAX_PAYLOAD.
Hypothesis errors_short : lim <= TEXT_LIMIT -> forall ev, zlen (strerror ev) <= 255.
Hypothesis cmd_array : zlen (cmd junk.1) = 16.
Hypothesis realloc_succeeds : forall n, realloc_ok n = true.
Hypothesis memory : forall ev, malloc_ok ev sizeof_client = true /\ malloc_ok ev sizeof_proto = true.
Hypothesis reads : forall d fd c buf, Sess all_wait 0 d -> get_client d fd = Done c -> sys_read d fd = Some buf ->
  comes_from (lim:=lim) c buf /\ (length buf <= B)%nat.
Hypothesis fresh : forall d lfd fd, sys_new d lfd = Some fd -> (fd ∉ c_fd <$> all_clients d) /\ fd ∉ L.

Abbreviation ctx := (infod_context sys_read sys_new junk).

Lemma read_running k l d fd x :
  (fd, x, false) ∈ l -> Running (S k) l d ->
  exists r d', on_net_ready d x (sys_read d fd) = Done (r, d') /\
    (0 < r -> Running k l d') /\
    (r <= 0 -> forall l', l ≡ₚ (fd, x, false) :: l' ->
      exists d'', on_net_close d' x = Done d'' /\ Running k l' d'').
Proof using writev_takes realloc_succeeds reads lim_payload errors_short.
  intros Hin HR. destruct (HR) as (Hs & Hk & Hl).
  destruct (linked_client l d fd x Hl Hin) as (-> & c & Hc); [by eapply ss_inv|].
  destruct (sys_read d fd) as [buf|] eqn:Er.
  2:{ exists (-1), d. split_and!; [done|lia|]. intros _ l' Hp. eexists.
      apply (close_any k l l' d fd (Some fd)); [by apply running_mono|done]. }
  destruct (reads d fd c buf) as [Hcf Hlen]; [eapply Sess_le; [|exact Hs]; lia|done|done|].
  destruct (ss_store _ _ _ Hs) as (M & HM & HB).
  destruct (net_ready_ok writev_takes lim_payload errors_short realloc_succeeds (k * B) fd c M d buf)
    as (r & d' & outs & M' & evs & rest & -> & Hrc & _ & _ & _ & _ & Hend); try done.
  { eapply Sess_le; [|exact Hs]. cbn. lia. }
  apply received_fds in Hrc. cbn [as_clients] in Hrc. rewrite upd_mode_fds, !abs_fds in Hrc.
  exists r, d'. split; [done|]. apply (linked_same _ _ d') in Hl; [|done]. case_bool_decide as Hr.
  - destruct Hend as [Hs' _]. split; [|lia]. intros _. split_and!; [done|lia|done].
  - destruct Hend as [Hcl Hs']. split; [lia|]. intros _ l' Hp. exists (without fd d').
    split; [done|]. split_and!; [done|lia|by eapply linked_close].
Qed.

#[local] Instance daemon_user : ServerUser ctx (fun _ => tt) (fun _ _ => tt) Running.
Proof using writev_takes realloc_succeeds reads memory fresh lim_payload errors_short cmd_array.
  split.
  - intros k l l' d Hp (H1 & H2 & H3). split_and!; [done|done|by eapply linked_perm].
  - intros k l d fd x Hin HR. destruct (read_running k l d fd x Hin HR) as (r & d' & E & H1 & H2).
    exists r, d'. split_and!; [done|done|done|]. intros Hr li l' Hp.
    destruct (H2 Hr l' Hp) as (d'' & E' & HR'). exists d''. split_and!; try done.
    cbn. by destruct (r =? 0).
  - intros k l d lfd d1 HR [= _ <-]. done.
  - intros k l d lfd fd d1 HR [= _ <-]. done.
  - intros k l d lfd fd d1 li x d2 HR [= Hn <-] Hfd Ha. destruct (fresh _ _ _ Hn) as [Hf1 Hf2].
    destruct (memory (events d)) as [Hm1 Hm2].
    assert (Hnew : fd ∉ core_fd <$> l).
    { destruct HR as (_ & _ & Hl). intros [?|?]%(linked_fds l d fd Hl); done. }
    destruct (accept_running k l d fd _ x d2 cmd_array Hm1 Hm2 HR Hnew Ha) as [-> HR'].
    split; [|done]. by rewrite attach_new.
Qed.

(** ** The main loop *)









(** ** Stopping *)




(** ** Starting *)















End System.

(** ** Witness *)








