(* ===== verification/ListH.v ===== *)
(** * Linked lists (src/daemon/list.h)

    The lists of the daemon at the level of their pointers. An element has a [next] pointer and
    a pointer [prevp] to the pointer that leads to it: the head variable of the list or the
    [next] field of the element before. The invariant of list.h, [*p->prevp == p] for every
    linked element, is [chain]; INSERT, REMOVE and APPEND are shown to do on chains what the
    daemon's model (Infod.v) does on lists. *)
From S2P Require Import Prelude StoreDefs Infod.

(** A variable of type [T *]: a head variable, or the [next] field of an element. *)
Inductive cell := Head (h : Z) | NextOf (p : Z).

#[export] Instance cell_eq_dec : EqDecision cell.
Proof. solve_decision. Defined.

(** [LINK(T)]: a null [next] is [None]. *)
Record link := mk_link { next : option Z; prevp : cell }.

Record mem := mk_mem { heads : gmap Z (option Z); elems : gmap Z link }.

Implicit Types (m : mem) (c : cell) (p : Z) (ps : list Z).

(** Reading and writing through a [T **]. *)
Definition value m c : option (option Z) :=
  match c with Head h => heads m !! h | NextOf p => next <$> elems m !! p end.
Definition load m c : outcome (option Z) := of_option OutOfBounds (value m c).
Definition put m c (v : option Z) : outcome mem :=
  match c with
  | Head h => _ ← of_option OutOfBounds (heads m !! h); Done (mk_mem (<[h := v]> (heads m)) (elems m))
  | NextOf p => e ← of_option OutOfBounds (elems m !! p);
                Done (mk_mem (heads m) (<[p := mk_link v (prevp e)]> (elems m)))
  end.

Definition get_elem m p : outcome link := of_option NullDeref (elems m !! p).
(** [p->prevp = c] *)
Definition set_prevp m p c : outcome mem :=
  e ← get_elem m p; Done (mk_mem (heads m) (<[p := mk_link (next e) c]> (elems m))).

Definition NEXT m p : outcome (option Z) := e ← get_elem m p; Done (next e).

(** Insert unlinked [p] at a head pointer. *)
Definition INSERT m p c : outcome mem :=
  m1 ← set_prevp m p c;
  h ← load m1 c;
  m2 ← put m1 (NextOf p) h;
  n ← load m2 (NextOf p);
  m3 ← match n with Some q => set_prevp m2 q (NextOf p) | None => Done m2 end;
  put m3 c (Some p).

(** Remove a linked [p], leaving it unlinked. *)
Definition REMOVE m p : outcome mem :=
  e ← get_elem m p;
  m1 ← match next e with Some q => set_prevp m q (prevp e) | None => Done m end;
  e1 ← get_elem m1 p;
  put m1 (prevp e1) (next e1).

(** Append an unlinked [p] at the tail pointer [c]; the result has the new tail pointer. *)
Definition APPEND_at m p c : outcome (mem * cell) :=
  v ← load m c;
  match v with
  | Some _ => Crash Aborted
  | None =>
      m1 ← put m c (Some p);
      m2 ← set_prevp m1 p c;
      m3 ← put m2 (NextOf p) None;
      Done (m3, NextOf p)
  end.

(** [while ((p = head)) { REMOVE(p); free(p); }], as in [client_free]. *)
Fixpoint drain (fuel : nat) m c : outcome mem :=
  v ← load m c;
  match v with
  | None => Done m
  | Some p =>
      match fuel with
      | O => Crash OutOfFuel
      | S fuel' =>
          m1 ← REMOVE m p;
          drain fuel' (mk_mem (heads m1) (delete p (elems m1))) c
      end
  end.

(** ** Memory as two functions *)

(** [p->prevp] *)
Definition back m p : option cell := prevp <$> elems m !! p.

(** What one assignment changes: the value of a variable, or the [prevp] of an element. *)
Definition Assigned m c (v : option Z) m' : Prop :=
  (forall c', value m' c' = if decide (c' = c) then Some v else value m c') /\
  (forall q, back m' q = back m q).
Definition Backed m p c m' : Prop :=
  (forall c', value m' c' = value m c') /\
  (forall q, back m' q = if decide (q = p) then Some c else back m q).

Lemma assign_ok m c v x : value m c = Some x -> exists m', put m c v = Done m' /\ Assigned m c v m'.
Proof.
  destruct c as [h|p]; cbn; intros Hx.
  - rewrite Hx. eexists. split; [done|]. split; [|done]. intros [h'|q]; cbn.
    + case_decide as E; [injection E as ->; by rewrite lookup_insert_eq|]. rewrite lookup_insert_ne; [done|]. congruence.
    + by rewrite decide_False.
  - destruct (elems m !! p) as [e|] eqn:E; [|done]. eexists. split; [done|]. split.
    + intros [h'|q]; cbn; [by rewrite decide_False|]. case_decide as Ep.
      * injection Ep as ->. by rewrite lookup_insert_eq.
      * rewrite lookup_insert_ne; [done|]. congruence.
    + intros q. unfold back. cbn. destruct (decide (q = p)) as [->|]; [by rewrite lookup_insert_eq, E|].
      by rewrite lookup_insert_ne.
Qed.

Lemma set_prevp_ok m p c :
  is_Some (back m p) -> exists m', set_prevp m p c = Done m' /\ Backed m p c m'.
Proof.
  unfold back, set_prevp, get_elem. destruct (elems m !! p) as [e|] eqn:E; [|by intros []]. intros _.
  eexists. split; [done|]. split.
  - intros [h|q]; [done|]. cbn. destruct (decide (q = p)) as [->|]; [by rewrite lookup_insert_eq, E|].
    by rewrite lookup_insert_ne.
  - intros q. unfold back. cbn. case_decide as Eq; [subst; by rewrite lookup_insert_eq|by rewrite lookup_insert_ne].
Qed.

Lemma load_ok m c x : value m c = Some x -> load m c = Done x.
Proof. unfold load. by intros ->. Qed.

Lemma get_elem_ok m p c x :
  back m p = Some c -> value m (NextOf p) = Some x -> get_elem m p = Done (mk_link x c).
Proof.
  unfold back, get_elem. cbn. destruct (elems m !! p) as [[n b]|]; [|done]. cbn. by intros [= ->] [= ->].
Qed.

(** An element has both fields. *)
Lemma elem_fields m p : is_Some (back m p) <-> is_Some (value m (NextOf p)).
Proof. unfold back. cbn. by rewrite !fmap_is_Some. Qed.

(** ** The invariant *)

(** [chain m c ps]: starting from [c] one finds the elements [ps], each of which is linked:
    its [prevp] points to the pointer that leads to it. [seg] says so of the elements before
    some point of a list. *)
Fixpoint seg m c ps : Prop :=
  match ps with
  | [] => True
  | p :: ps' => value m c = Some (Some p) /\ back m p = Some c /\ seg m (NextOf p) ps'
  end.
Fixpoint endcell c ps : cell :=
  match ps with [] => c | p :: ps' => endcell (NextOf p) ps' end.
Definition chain m c ps : Prop := seg m c ps /\ value m (endcell c ps) = Some None.

(** The pointers that lead to the elements of a segment. *)
Fixpoint leads c ps : list cell :=
  match ps with [] => [] | p :: ps' => c :: leads (NextOf p) ps' end.

Lemma seg_app m c ps qs : seg m c (ps ++ qs) <-> seg m c ps /\ seg m (endcell c ps) qs.
Proof. revert c. induction ps as [|p ps IH]; intros c; cbn; [tauto|]. rewrite IH. tauto. Qed.

Lemma endcell_app c ps qs : endcell c (ps ++ qs) = endcell (endcell c ps) qs.
Proof. revert c. by induction ps as [|p ps IH]; intros c; cbn. Qed.

Lemma endcell_in c ps : endcell c ps ∈ c :: (NextOf <$> ps).
Proof. revert c. induction ps as [|p ps IH]; intros c; cbn; [left|]. right. apply IH. Qed.

Lemma leads_in c ps x : x ∈ leads c ps -> x ∈ c :: (NextOf <$> ps).
Proof.
  revert c. induction ps as [|p ps IH]; intros c; cbn; [set_solver|].
  rewrite elem_of_cons. intros [->|H%IH]; [left|by right].
Qed.

(** The pointer at the end of a segment is not one of those that lead to its elements. *)
Lemma endcell_fresh c ps : NoDup ps -> c ∉ NextOf <$> ps -> endcell c ps ∉ leads c ps.
Proof.
  revert c. induction ps as [|p ps IH]; intros c Hnd Hc; cbn; [set_solver|].
  apply NoDup_cons in Hnd as [Hp Hnd]. rewrite not_elem_of_cons. split.
  - intros E. pose proof (endcell_in (NextOf p) ps) as Hin. rewrite E in Hin. apply Hc. exact Hin.
  - apply IH; [done|]. rewrite list_elem_of_fmap. by intros (q & [= ->] & ?).
Qed.

(** A segment does not depend on the rest of the memory. *)
Lemma seg_ext m m' c ps :
  (forall x, x ∈ leads c ps -> value m' x = value m x) -> (forall p, p ∈ ps -> back m' p = back m p) ->
  seg m c ps -> seg m' c ps.
Proof.
  revert c. induction ps as [|p ps IH]; intros c Hv Hb; cbn; [done|]. intros (H1 & H2 & H3).
  rewrite Hv, Hb by (cbn; set_solver). split_and!; [done|done|].
  apply IH; [|intros; apply Hb; set_solver|done]. intros; apply Hv. cbn. set_solver.
Qed.

Lemma seg_back m c ps p : seg m c ps -> p ∈ ps -> is_Some (back m p).
Proof.
  revert c. induction ps as [|q ps IH]; intros c; cbn; [set_solver|]. intros (_ & H2 & H3) [->|H]%elem_of_cons; eauto.
Qed.

(** ** The operations *)

Lemma in_tail (l : list Z) q : q ∈ tail l -> q ∈ l.
Proof. destruct l; [done|]. by right. Qed.
Lemma hd_in (l : list Z) q : hd_error l = Some q -> q ∈ l.
Proof. destruct l; [done|]. intros [= ->]. left. Qed.
Lemma hd_not_tail (l : list Z) q : NoDup l -> hd_error l = Some q -> q ∉ tail l.
Proof. destruct l; [done|]. by intros [? _]%NoDup_cons [= ->]. Qed.

(** [if (q) q->prevp = c] *)
Lemma relink_ok m (v : option Z) c :
  (forall q, v = Some q -> is_Some (back m q)) ->
  exists m', match v with Some q => set_prevp m q c | None => Done m end = Done m' /\
    (forall x, value m' x = value m x) /\
    (forall q, back m' q = if decide (v = Some q) then Some c else back m q).
Proof.
  intros Hv. destruct v as [q|]; [|by exists m].
  destruct (set_prevp_ok m q c (Hv q eq_refl)) as (m' & -> & V & B). exists m'. split_and!; [done|done|].
  intros r. rewrite B. destruct (decide (r = q)) as [->|]; [by rewrite decide_True|]. rewrite decide_False; congruence.
Qed.

(** A list whose first pointer is moved: the elements from the second on do not notice. *)
Lemma chain_move m m' c c' ps :
  chain m c ps -> NoDup ps -> c ∉ NextOf <$> ps -> value m' c' = value m c ->
  (forall q, hd_error ps = Some q -> back m' q = Some c') ->
  (forall x, x ∈ NextOf <$> ps -> value m' x = value m x) ->
  (forall q, q ∈ tail ps -> back m' q = back m q) -> chain m' c' ps.
Proof.
  intros [Hs He] Hnd Hc Hv Hq Hvs Hbs. destruct ps as [|q ps]; [by split; [|cbn in *; congruence]|].
  destruct Hs as (H1 & H2 & H3). split; cbn in *.
  - split_and!; [congruence|auto|]. eapply seg_ext; [| |exact H3]; [|auto].
    intros x [->|Hx]%leads_in%elem_of_cons; apply Hvs; set_solver.
  - rewrite Hvs; [done|]. apply endcell_in.
Qed.

(** INSERT puts an element before the others and changes no other list. *)
Lemma INSERT_ok m h p ps :
  chain m (Head h) ps -> NoDup (p :: ps) -> is_Some (back m p) ->
  exists m', INSERT m p (Head h) = Done m' /\ chain m' (Head h) (p :: ps) /\
    (forall x, x <> Head h -> x <> NextOf p -> value m' x = value m x) /\
    (forall q, q ∉ p :: ps -> back m' q = back m q).
Proof.
  intros Hch [Hp Hnd]%NoDup_cons Hb. unfold INSERT.
  destruct (set_prevp_ok m p (Head h) Hb) as (m1 & -> & V1 & B1). ostep.
  assert (Hx : value m (Head h) = Some (hd_error ps)).
  { destruct Hch as [Hs He]. destruct ps as [|q ps]; [done|]. by destruct Hs. }
  rewrite (load_ok m1 _ (hd_error ps)) by (by rewrite V1). ostep.
  assert (exists y, value m1 (NextOf p) = Some y) as [y Hy] by (rewrite V1; by apply elem_fields).
  destruct (assign_ok m1 (NextOf p) (hd_error ps) y Hy) as (m2 & -> & V2 & B2). ostep.
  rewrite (load_ok m2 _ (hd_error ps)) by (by rewrite V2, decide_True). ostep.
  assert (Hq : forall q, hd_error ps = Some q -> q <> p /\ is_Some (back m q)).
  { destruct ps as [|q ps]; [done|]. intros ? [= <-]. split; [by intros ->; apply Hp; left|]. eapply seg_back; [apply Hch|left]. }
  destruct (relink_ok m2 (hd_error ps) (NextOf p)) as (m3 & -> & V3 & B3).
  { intros q [Hne Hs]%Hq. by rewrite B2, B1, decide_False. } ostep.
  destruct (assign_ok m3 (Head h) (Some p) (hd_error ps)) as (m4 & -> & V4 & B4).
  { by rewrite V3, V2, decide_False, V1 by done. }
  exists m4. split; [done|].
  assert (V : forall x, x <> Head h -> x <> NextOf p -> value m4 x = value m x).
  { intros x Hxh Hxp. by rewrite V4, decide_False, V3, V2, decide_False, V1 by done. }
  assert (B : forall q, back m4 q = if decide (hd_error ps = Some q) then Some (NextOf p)
                               else if decide (q = p) then Some (Head h) else back m q).
  { intros q. by rewrite B4, B3, B2, B1. }
  split; [|split; [done|]].
  - assert (Htail : chain m4 (NextOf p) ps).
    { eapply (chain_move m m4 (Head h)); [done|done|by rewrite list_elem_of_fmap; intros (? & ? & _)| | | |].
      - by rewrite V4, decide_False, V3, V2, decide_True.
      - intros q Hqq. by rewrite B, decide_True.
      - intros x (q & -> & Hin)%list_elem_of_fmap. apply V; [done|]. intros [= ->]. done.
      - intros q Hin. rewrite B, !decide_False; [done| |].
        + intros ->. by apply Hp, in_tail.
        + intros E. by apply (hd_not_tail ps q). }
    assert (E4 : value m4 (Head h) = Some (Some p)) by (by rewrite V4, decide_True).
    assert (E5 : back m4 p = Some (Head h)).
    { rewrite B, decide_False, decide_True; [done|done|]. intros [? _]%Hq. done. }
    destruct Htail as [T1 T2]. by split.
  - intros q [Hqp Hqs]%not_elem_of_cons. rewrite B, !decide_False; [done|done|].
    intros E. by apply Hqs, hd_in.
Qed.

(** REMOVE takes any element of a list out and changes no other list. *)
Lemma REMOVE_ok m h l1 p l2 :
  chain m (Head h) (l1 ++ p :: l2) -> NoDup (l1 ++ p :: l2) ->
  exists m', REMOVE m p = Done m' /\ chain m' (Head h) (l1 ++ l2) /\
    (forall x, x ∉ Head h :: (NextOf <$> l1) -> value m' x = value m x) /\
    (forall q, q ∉ l2 -> back m' q = back m q).
Proof.
  intros [(S1 & V0 & B0 & S2)%seg_app He] Hnd. rewrite endcell_app in He. cbn in He.
  apply NoDup_app in Hnd as (N1 & N12 & [Hp N2]%NoDup_cons).
  set (c := endcell (Head h) l1) in *. unfold REMOVE.
  assert (Hx : value m (NextOf p) = Some (hd_error l2)).
  { destruct l2 as [|q l2]; [done|]. by destruct S2. }
  rewrite (get_elem_ok m p c (hd_error l2) B0 Hx). ostep. cbn [next prevp].
  destruct (relink_ok m (hd_error l2) c) as (m1 & -> & V1 & B1).
  { intros q Hq. destruct l2 as [|r l2]; [done|]. injection Hq as ->. eapply seg_back; [exact S2|left]. } ostep.
  rewrite (get_elem_ok m1 p c (hd_error l2)); [|rewrite B1, decide_False; [done|]|by rewrite V1].
  2:{ intros E. by apply Hp, hd_in. }
  ostep. cbn [next prevp].
  destruct (assign_ok m1 c (hd_error l2) (Some p)) as (m2 & -> & V2 & B2); [by rewrite V1|].
  exists m2. split; [done|].
  assert (V : forall x, x <> c -> value m2 x = value m x) by (intros x Hx'; by rewrite V2, decide_False, V1).
  assert (B : forall q, q ∉ l2 -> back m2 q = back m q).
  { intros q Hq. rewrite B2, B1, decide_False; [done|]. intros E. by apply Hq, hd_in. }
  assert (Hhead : Head h ∉ NextOf <$> l1) by (rewrite list_elem_of_fmap; by intros (? & ? & _)).
  split; [|split; [|done]].
  - assert (T : chain m2 c l2).
    { eapply (chain_move m m2 (NextOf p)); [by split|done|rewrite list_elem_of_fmap; by intros (? & [= ->] & ?)| | | |].
      - by rewrite V2, decide_True.
      - intros q Hq. by rewrite B2, B1, decide_True.
      - intros x (q & -> & Hin)%list_elem_of_fmap. apply V. intros E.
        pose proof (endcell_in (Head h) l1) as Hc. fold c in Hc. rewrite <- E in Hc.
        apply elem_of_cons in Hc as [|(r & [= ->] & Hr)%list_elem_of_fmap]; [done|]. apply (N12 r Hr). by right.
      - intros q Hin. rewrite B2, B1, decide_False; [done|]. intros E. by apply (hd_not_tail l2 q). }
    destruct T as [T1 T2]. split; [apply seg_app; split; [|done]|by rewrite endcell_app].
    eapply seg_ext; [| |exact S1].
    + intros x Hx'. apply V. intros ->. by apply (endcell_fresh (Head h) l1 N1 Hhead).
    + intros q Hq. apply B. intros Hq2. apply (N12 q Hq). by right.
  - intros x Hx'. apply V. intros ->. apply Hx'. apply endcell_in.
Qed.

(** APPEND at the last pointer puts an element after the others. *)
Lemma APPEND_ok m h p ps :
  chain m (Head h) ps -> NoDup (p :: ps) -> is_Some (back m p) ->
  exists m', APPEND_at m p (endcell (Head h) ps) = Done (m', endcell (Head h) (ps ++ [p])) /\
    chain m' (Head h) (ps ++ [p]) /\
    (forall x, x ∉ Head h :: (NextOf <$> p :: ps) -> value m' x = value m x) /\
    (forall q, q <> p -> back m' q = back m q).
Proof.
  intros [Hs He] [Hp Hnd]%NoDup_cons Hb. set (c := endcell (Head h) ps) in *. unfold APPEND_at.
  rewrite (load_ok m c None He). ostep.
  destruct (assign_ok m c (Some p) None He) as (m1 & -> & V1 & B1). ostep.
  destruct (set_prevp_ok m1 p c) as (m2 & -> & V2 & B2); [by rewrite B1|]. ostep.
  assert (Hcp : c <> NextOf p).
  { intros E. pose proof (endcell_in (Head h) ps) as Hc. fold c in Hc. rewrite E in Hc.
    apply elem_of_cons in Hc as [|(r & [= ->] & Hr)%list_elem_of_fmap]; done. }
  assert (exists y, value m2 (NextOf p) = Some y) as [y Hy].
  { rewrite V2, V1, decide_False by done. by apply elem_fields. }
  destruct (assign_ok m2 (NextOf p) None y Hy) as (m3 & -> & V3 & B3). ostep.
  exists m3. rewrite endcell_app. cbn [endcell]. split; [done|].
  assert (V : forall x, x <> c -> x <> NextOf p -> value m3 x = value m x).
  { intros x H1 H2. by rewrite V3, decide_False, V2, V1, decide_False by done. }
  assert (B : forall q, q <> p -> back m3 q = back m q) by (intros q Hq; by rewrite B3, B2, decide_False, B1).
  assert (Hhead : Head h ∉ NextOf <$> ps) by (rewrite list_elem_of_fmap; by intros (? & ? & _)).
  split; [|split; [|done]].
  - split.
    + apply seg_app. split.
      * eapply seg_ext; [| |exact Hs].
        -- intros x Hx. apply V; [intros ->; by apply (endcell_fresh (Head h) ps Hnd Hhead)|].
           intros ->. apply leads_in, elem_of_cons in Hx as [|(r & [= ->] & Hr)%list_elem_of_fmap]; done.
        -- intros q Hq. apply B. by intros ->.
      * fold c. assert (value m3 c = Some (Some p)) by (by rewrite V3, decide_False, V2, V1, decide_True).
        assert (back m3 p = Some c) by (by rewrite B3, B2, decide_True). done.
    + rewrite endcell_app. change (value m3 (NextOf p) = Some None). by rewrite V3, decide_True.
  - intros x Hx. rewrite fmap_cons, !not_elem_of_cons in Hx. destruct Hx as (H1 & H2 & H3).
    apply V; [|done]. intros ->.
    pose proof (endcell_in (Head h) ps) as [Hc|Hc]%elem_of_cons; done.
Qed.

(** ** Refinement of the daemon's lists *)

(** A change to the list of [h] and to [p] is not seen by another list. *)
Lemma chain_frame m m' h ps h' qs :
  (forall x, x ∉ Head h :: (NextOf <$> ps) -> value m' x = value m x) ->
  (forall q, q ∉ ps -> back m' q = back m q) -> h' <> h -> (forall q, q ∈ qs -> q ∉ ps) ->
  chain m (Head h') qs -> chain m' (Head h') qs.
Proof.
  intros V B Hh Hd [Hs He].
  assert (Hcell : forall x, x ∈ Head h' :: (NextOf <$> qs) -> value m' x = value m x).
  { intros x Hx. apply V. rewrite not_elem_of_cons. apply elem_of_cons in Hx as [->|(q & -> & Hq)%list_elem_of_fmap].
    - split; [congruence|]. rewrite list_elem_of_fmap. by intros (? & ? & _).
    - split; [done|]. rewrite list_elem_of_fmap. intros (r & [= ->] & Hr). by apply (Hd r). }
  split.
  - eapply seg_ext; [| |exact Hs]; [intros x Hx; by apply Hcell, leads_in|]. intros q Hq. by apply B, Hd.
  - rewrite Hcell; [done|apply endcell_in].
Qed.

(** All the other lists of the memory are as they were. *)
Definition others m h ps m' : Prop :=
  forall h' qs, h' <> h -> (forall q, q ∈ qs -> q ∉ ps) -> chain m (Head h') qs -> chain m' (Head h') qs.

(** The pointer that is [n] links from the head, as [bufcmd_tail] of the daemon's model counts. *)
Definition cell_at h ps (n : nat) : cell := endcell (Head h) (take n ps).

(** The fields of an element stay allocated when it is removed. *)
Lemma REMOVE_dom m m' h p ps :
  chain m (Head h) (p :: ps) -> chain m' (Head h) ps ->
  (forall q, q ∉ ps -> back m' q = back m q) -> forall q, is_Some (back m' q) <-> is_Some (back m q).
Proof.
  intros [Hs _] [Hs' _] B q. destruct (decide (q ∈ ps)) as [Hq|Hq]; [|by rewrite B].
  split; intros _; [|by eapply seg_back]. eapply seg_back; [exact Hs|by right].
Qed.

(** [client_free] empties a list and frees exactly its elements; the loop ends. *)
Lemma drain_ok ps : forall fuel m h,
  chain m (Head h) ps -> NoDup ps -> (length ps <= fuel)%nat ->
  exists m', drain fuel m (Head h) = Done m' /\ chain m' (Head h) [] /\
    (forall p, is_Some (back m' p) <-> is_Some (back m p) /\ p ∉ ps) /\ others m h ps m'.
Proof.
  induction ps as [|p ps IH]; intros fuel m h Hch Hnd Hf.
  { exists m. destruct Hch as [_ He]. split_and!; [|by split|set_solver|by intros h' qs].
    destruct fuel; cbn [drain]; by rewrite (load_ok m (Head h) _ He). }
  destruct fuel as [|fuel]; [cbn in Hf; lia|]. destruct (REMOVE_ok m h [] p ps Hch Hnd) as (m1 & E1 & Hch1 & V1 & B1).
  pose proof (REMOVE_dom m m1 h p ps Hch Hch1 B1) as Hdom.
  apply NoDup_cons in Hnd as [Hp Hnd]. destruct Hch as [(Hv & _) _]. cbn [drain]. rewrite (load_ok m _ _ Hv). ostep.
  rewrite E1. ostep. set (m2 := mk_mem _ _).
  assert (Hv2 : forall x, x <> NextOf p -> value m2 x = value m1 x).
  { intros [h'|q] Hx; [done|]. cbn. rewrite lookup_delete_ne; [done|]. congruence. }
  assert (Hb2 : forall q, q <> p -> back m2 q = back m1 q).
  { intros q Hq. unfold back. cbn. by rewrite lookup_delete_ne. }
  destruct (IH fuel m2 h) as (m' & E & Hch' & Hfree & Hoth); [|done|cbn in Hf; lia|].
  { destruct Hch1 as [Hs He]. cbn [app] in *.
    assert (Hne : forall x, x ∈ Head h :: (NextOf <$> ps) -> x <> NextOf p).
    { intros x [->|(q & -> & Hq)%list_elem_of_fmap]%elem_of_cons; [done|]. intros [= ->]. done. }
    split; [|rewrite Hv2; [done|apply Hne, endcell_in]]. eapply seg_ext; [| |exact Hs].
    - intros x Hx%leads_in. by apply Hv2, Hne.
    - intros q Hq. apply Hb2. by intros ->. }
  exists m'. split_and!; [done|done| |].
  - intros q. rewrite Hfree, not_elem_of_cons. destruct (decide (q = p)) as [->|Hq].
    + unfold back. cbn. rewrite lookup_delete_eq. split; [by intros [[] ?]|]. intros (_ & [] & _). done.
    + rewrite Hb2, Hdom by done. tauto.
  - intros h' qs Hh Hd Hq. apply Hoth; [done|intros q ? ?; apply (Hd q); [done|by right]|].
    eapply (chain_frame m m2 h (p :: ps)); [| |done|exact Hd|exact Hq].
    + intros x Hx. rewrite fmap_cons, !not_elem_of_cons in Hx. destruct Hx as (? & ? & ?).
      rewrite Hv2 by done. apply V1. cbn. set_solver.
    + intros q [? ?]%not_elem_of_cons. by rewrite Hb2, B1.
Qed.

(** C24: on the linked lists of the daemon, INSERT, REMOVE and APPEND of list.h do what the daemon's model
    does on lists, keep the invariant that every element's [prevp] points to the pointer that
    leads to it, and leave every other list alone; APPEND aborts exactly when the tail pointer
    is not the last one. *)
Theorem list_refines m h p ps n :
  chain m (Head h) ps -> NoDup ps ->
  (p ∉ ps -> is_Some (back m p) ->
    (exists m', INSERT m p (Head h) = Done m' /\ chain m' (Head h) (p :: ps) /\ others m h (p :: ps) m') /\
    ((n <= length ps)%nat ->
      match APPEND ps n p with
      | Done (ps', n') => exists m', APPEND_at m p (cell_at h ps n) = Done (m', cell_at h ps' n') /\
                            chain m' (Head h) ps' /\ others m h (p :: ps) m'
      | Crash e => APPEND_at m p (cell_at h ps n) = Crash e
      end)) /\
  (ps !! n = Some p ->
    exists m', REMOVE m p = Done m' /\ chain m' (Head h) (delete n ps) /\ others m h ps m').
Proof.
  intros Hch Hnd. split.
  - intros Hp Hb. assert (Hnd' : NoDup (p :: ps)) by (by constructor). split.
    + destruct (INSERT_ok m h p ps Hch Hnd' Hb) as (m' & E & Hch' & V & B). exists m'. split_and!; [done|done|].
      intros h' qs. apply chain_frame; [|done]. intros x Hx. rewrite fmap_cons, !not_elem_of_cons in Hx. apply V; tauto.
    + intros Hn. unfold APPEND, cell_at. destruct (Nat.ltb_spec n (length ps)) as [Hlt|Hge].
      * destruct (lookup_lt_is_Some_2 ps n Hlt) as [q Hq]. destruct Hch as [Hs _].
        rewrite <- (take_drop_middle ps n q Hq) in Hs. apply seg_app in Hs as (_ & Hv & _).
        unfold APPEND_at. by rewrite (load_ok m _ _ Hv).
      * rewrite (proj2 (Nat.eqb_eq _ _)) by lia. rewrite (take_ge ps) by lia. rewrite (take_ge (ps ++ [p])) by (rewrite length_app; cbn; lia).
        destruct (APPEND_ok m h p ps Hch Hnd' Hb) as (m' & E & Hch' & V & B). exists m'. split_and!; [done|done|].
        intros h' qs. apply chain_frame; [done|]. intros q [Hq _]%not_elem_of_cons. by apply B.
  - intros Hq. pose proof (take_drop_middle ps n p Hq) as Eps. rewrite <- Eps in Hch, Hnd.
    destruct (REMOVE_ok m h _ p _ Hch Hnd) as (m' & E & Hch' & V & B). exists m'. rewrite delete_take_drop.
    split_and!; [done|done|]. intros h' qs. apply chain_frame.
    + intros x Hx. apply V. rewrite <- Eps, fmap_app in Hx. rewrite !not_elem_of_cons, not_elem_of_app in *. tauto.
    + intros q Hqs. apply B. rewrite <- Eps, not_elem_of_app, not_elem_of_cons in Hqs. tauto.
Qed.

(** Two of the three elements of t-list.c are linked; the third is inserted, appended, and the
    second is removed. *)
Lemma list_refines_witness :
  let m := mk_mem {[1%Z := Some 1%Z]} (list_to_map [(1, mk_link (Some 2) (Head 1)); (2, mk_link None (NextOf 1));
                                       (3, mk_link None (NextOf 3))]) in
  (exists m', INSERT m 3 (Head 1) = Done m' /\ chain m' (Head 1) [3; 1; 2]) /\
  (exists m', APPEND_at m 3 (NextOf 2) = Done (m', NextOf 3) /\ chain m' (Head 1) [1; 2; 3]) /\
  (exists m', REMOVE m 2 = Done m' /\ chain m' (Head 1) [1]).
Proof.
  intros m. assert (Hch : chain m (Head 1) [1; 2]) by (split; vm_compute; auto).
  assert (Hnd : NoDup [1; 2]%Z) by (apply (bool_decide_unpack _); vm_compute; exact I).
  split_and!.
  - destruct (list_refines m 1 3 [1; 2] 2 Hch Hnd) as [[(m' & E & C & _) _] _].
    + apply (bool_decide_unpack _). vm_compute. exact I.
    + vm_compute. eauto.
    + by exists m'.
  - destruct (list_refines m 1 3 [1; 2] 2 Hch Hnd) as [[_ (m' & E & C & _)] _].
    + apply (bool_decide_unpack _). vm_compute. exact I.
    + vm_compute. eauto.
    + reflexivity.
    + by exists m'.
  - destruct (list_refines m 1 2 [1; 2] 1 Hch Hnd) as [_ (m' & E & C & _)]; [reflexivity|]. by exists m'.
Defined.
