(* ===== verification/TestList.v ===== *)
(** * The test of the linked lists (src/daemon/t-list.c)

    The program t-list.c run on the model of list.h: its [main] reaches its end, so that no
    [assert] and no comparison of a list with its expected elements fails. *)
From S2P Require Import Prelude StoreDefs ListH.

(** The static elements [_e1], [_e2] and [_e3]: the number [i] is the address. [BAD_INIT] has
    invalid pointers, addresses that no element has. *)
Definition BAD_INIT : link := mk_link (Some 100) (NextOf 100).
Definition start : mem :=
  mk_mem {[0%Z := None]} (list_to_map [(1, BAD_INIT); (2, BAD_INIT); (3, BAD_INIT)]).

(** The loop of [assert_same]: [act] runs over the arguments, of which the last is [NULL]. *)
Fixpoint assert_same (m : mem) (exp : option Z) (args : list (option Z)) : outcome unit :=
  match args with
  | [] => Crash OutOfBounds
  | act :: args' =>
      if decide (act = exp) then
        match exp with
        | None => Done tt
        | Some p => n ← NEXT m p; assert_same m n args'
        end
      else Crash Aborted
  end.

(** The steps of [main]: the operations on the variable [head] and the checks between them. *)
Inductive tstep :=
  | TInsert (p : Z)
  | TRemove (p : Z)
  | TAppend (p : Z)
  | TReset                                  (* head = NULL; tail = &head *)
  | TSame (l : list Z)                      (* ASSERT_SAME(head, l..., NULL) *)
  | TEmpty                                  (* assert(!head) *)
  | TFirst (p : Z).                         (* the four assertions after the first APPEND *)

Definition lstate : Type := mem * cell.

Definition tstep_run (s : lstate) (t : tstep) : outcome lstate :=
  let '(m, tail) := s in
  match t with
  | TInsert p => m' ← INSERT m p (Head 0); Done (m', tail)
  | TRemove p => m' ← REMOVE m p; Done (m', tail)
  | TAppend p => APPEND_at m p tail
  | TReset => m' ← put m (Head 0) None; Done (m', Head 0)
  | TSame l => h ← load m (Head 0); _ ← assert_same m h ((Some <$> l) ++ [None]); Done s
  | TEmpty => h ← load m (Head 0); _ ← assert_c (bool_decide (h = None)); Done s
  | TFirst p =>
      h ← load m (Head 0); _ ← assert_c (bool_decide (h = Some p));
      e ← get_elem m p;
      _ ← assert_c (bool_decide (next e = None));
      _ ← assert_c (bool_decide (prevp e = Head 0));
      _ ← assert_c (bool_decide (tail = NextOf p));
      Done s
  end.

Fixpoint tsteps_run (s : lstate) (ts : list tstep) : outcome lstate :=
  match ts with [] => Done s | t :: ts' => s' ← tstep_run s t; tsteps_run s' ts' end.

Definition t_list_main : outcome lstate :=
  tsteps_run (start, Head 0)
    [ TReset; TSame [];
      TInsert 1; TSame [1]; TInsert 2; TSame [2; 1]; TRemove 1; TSame [2]; TRemove 2; TSame []; TEmpty;
      TInsert 1; TSame [1]; TInsert 2; TSame [2; 1]; TRemove 2; TSame [1]; TRemove 1; TSame [];
      TInsert 1; TSame [1]; TInsert 2; TSame [2; 1]; TInsert 3; TSame [3; 2; 1];
      TRemove 2; TSame [3; 1]; TRemove 3; TSame [1]; TRemove 1; TSame []; TEmpty;
      TReset; TAppend 1; TFirst 1; TSame [1]; TAppend 2; TSame [1; 2]; TAppend 3; TSame [1; 2; 3] ].

(** The comment of t-list.c, that appending is right as long as one does not append after
    removing: with a tail pointer into an element that was removed, APPEND links the new
    element after the removed one and the list does not have it. *)
Definition append_after_remove : outcome lstate :=
  tsteps_run (start, Head 0) [TReset; TAppend 1; TRemove 1; TAppend 2].

Example t_list_passes :
  exists s, t_list_main = Done s /\ chain (fst s) (Head 0) [1; 2; 3] /\ snd s = NextOf 3.
Proof. eexists. split; [vm_compute; reflexivity|]. split; [split; vm_compute; tauto|reflexivity]. Qed.

Example append_after_remove_lost :
  exists s, append_after_remove = Done s /\ chain (fst s) (Head 0) [] /\ chain (fst s) (NextOf 1) [2].
Proof. eexists. split; [vm_compute; reflexivity|]. split; split; vm_compute; tauto. Qed.
