(* ===== verification/TestMatch.v ===== *)
(** * The test of the patterns (src/daemon/t-match.c)

    The table of t-match.c run on the model of match.c. *)
From S2P Require Import Prelude Match.
Import Match.
Local Open Scope infod_scope.

(** A line of the table. *)
Inductive check :=
  | Pass (pattern string : bytes)
  | Fail_ (pattern string : bytes)
  | Invalid (pattern : bytes).

(** Whether its assertions hold. *)
Definition check_holds (c : check) : bool :=
  match c with
  | Pass pattern string => match_isvalid pattern && negb (match_ pattern string =? 0)
  | Fail_ pattern string => match_isvalid pattern && (match_ pattern string =? 0)
  | Invalid pattern => negb (match_isvalid pattern)
  end.

Definition t_match_table : list check :=
    [
      (* Simple *)
      Pass [] [];
      Pass $"x" $"x";
      Fail_ $"x" $"y";
      Fail_ [] $"y";
      Fail_ $"x" [];
      (* Escapes *)
      Pass $"\x" $"x";
      Pass $"\(" $"(";
      (* Simple wildcard star *)
      Pass $"*" [];
      Pass $"*" $"foo";
      Pass $"*." $"foo.";
      Fail_ $"*." $"foo..";
      (* Double wildcard *)
      Pass $"*a*" $"abba";
      Pass $"*a*" $"baba";
      Pass $"*a*" $"a";
      Pass $"*a*" $"aa";
      Fail_ $"*a*" $"b";
      Fail_ $"*a*" [];
      (* Simple anychar any *)
      Fail_ $"?" [];
      Pass $"?" $"x";
      Fail_ $"?" $"xx";
      Pass $"a?c" $"abc";
      Fail_ $"a?c" $"ac";
      Pass $"ab?" $"abc";
      Fail_ $"ab?" $"ab";
      (* [*?] is the same as [?] *)
      Fail_ $"*?" [];
      Pass $"*?" $"x";
      Fail_ $"*?" $"xx";
      Pass $"a*?c" $"abc";
      Fail_ $"a*?c" $"ac";
      Pass $"ab*?" $"abc";
      Fail_ $"ab*?" $"ab";
      (* UTF-8 characters and ? *)
      Pass $"€" $"€";
      Pass $"x?y" $"x€y";
      Fail_ $"x?y" $"xせんy";
      Pass $"x??y" $"xせんy";
      Pass $"x*y" $"xせんy";
      Pass $"x*€" $"xせ₫€";
      (* Parentheses match *)
      Pass $"()" [];
      Fail_ $"()" $"x";
      Pass $"(a)" $"a";
      Fail_ $"(a)" $"x";
      Fail_ $"(a)" [];
      Pass $"(a|b)" $"a";
      Pass $"(a|b)" $"b";
      Fail_ $"(a|b)" $"x";
      Fail_ $"(a|b)" [];
      Pass $"(a|b|c)" $"a";
      Pass $"(a|b|c)" $"b";
      Pass $"(a|b|c)" $"c";
      Fail_ $"(a|b|c)" $"x";
      Fail_ $"(a|b|c)" [];
      (* Nested parentheses *)
      Pass $"(a|b(c|d)e|f)g" $"bdeg";
      Fail_ $"(a|b(c|d)e|f)g" $"beg";
      Fail_ $"(a|b(c|d)e|f)g" $"bfg";
      (* Malformed *)
      Invalid $"(";
      Invalid $")";
      Invalid $"|";
      Invalid $"\";
      Invalid $"**"
    ].

(** [main]: every assertion holds. *)
Definition t_match_main : bool := forallb check_holds t_match_table.

Example t_match_passes : t_match_main = true.
Proof. vm_compute. reflexivity. Qed.
