(* ===== verification/TestStore.v ===== *)
(** * The test of the store (src/daemon/t-store.c)

    The program t-store.c run on the byte-level model of store.c: its [main] reaches its end. *)
From S2P Require Import Prelude StoreDefs.
Local Open Scope infod_scope.

(** The steps of [main]. *)
Inductive step :=
  | TPut (kv : bytes)                  (* assert_store_put *)
  | TDel (key : bytes) (found : bool)  (* assert(store_del()) or assert(!store_del()) *)
  | TDelNull                           (* assert(!store_del(store, NULL)) *)
  | TGetNone (key : bytes)             (* assert(!store_get()) *)
  | TNoFirst                           (* assert(!store_get_first()) *)
  | TIs (l : list bytes)               (* assert_store_is *)
  | TLacks (keys : list bytes)         (* assert_store_lacks *)
  | TReopen.                           (* store_close, store_open, assert(store) *)


(** The first loop of [assert_store_is_]: each of the content keys is found, with its value.
    [keybuf] is the key of [expect], cut to 1023 bytes. *)
Fixpoint found_all (s : store) (expect : list bytes) : outcome unit :=
  match expect with
  | [] => Done tt
  | e :: expect' =>
      found ← store_get s (take 1023 (cstr e));
      _ ← assert_c (bool_decide (found = Some e));
      found_all s expect'
  end.

(** The second loop: the index gives the sorted entries exactly. *)
Fixpoint iterate_all (s : store) (i : option bytes) (ix : nat) (expect : list bytes) : outcome unit :=
  match expect, i with
  | e :: expect', Some kv =>
      _ ← assert_c (bool_decide (kv = e));
      '(i', ix') ← store_get_next s ix;
      iterate_all s i' ix' expect'
  | _, Some _ | _ :: _, None => Crash Aborted
  | [], None => Done tt
  end.

Definition assert_store_is (s : store) (expect : list bytes) : outcome unit :=
  _ ← found_all s expect;
  '(i, ix) ← store_get_first s;
  iterate_all s i ix expect.

Fixpoint assert_store_lacks (s : store) (keys : list bytes) : outcome unit :=
  match keys with
  | [] => Done tt
  | key :: keys' => i ← store_get s key; _ ← assert_c (bool_decide (i = None)); assert_store_lacks s keys'
  end.

Definition step_run (s : store) (t : step) : outcome store :=
  match t with
  | TPut kv => '(r, s') ← store_put s (zlen kv) kv; _ ← assert_c (negb (r =? -1)); Done s'
  | TDel key found => '(r, s') ← store_del s (Some key); _ ← assert_c (eqb (negb (r =? 0)) found); Done s'
  | TDelNull => '(r, s') ← store_del s None; _ ← assert_c (r =? 0); Done s'
  | TGetNone key => i ← store_get s key; _ ← assert_c (bool_decide (i = None)); Done s
  | TNoFirst => '(i, _) ← store_get_first s; _ ← assert_c (bool_decide (i = None)); Done s
  | TIs l => _ ← assert_store_is s l; Done s
  | TLacks keys => _ ← assert_store_lacks s keys; Done s
  | TReopen =>
      r ← store_open (Some (store_close s)) true;
      match r with Some s' => Done s' | None => Crash Aborted end
  end.

Fixpoint steps_run (s : store) (ts : list step) : outcome store :=
  match ts with [] => Done s | t :: ts' => s' ← step_run s t; steps_run s' ts' end.

Definition test_empty_store : list step := [TGetNone $"noexist"; TNoFirst; TDel $"anything" false].

(** ["key\0value"], with the terminating NUL that [sizeof] counts. *)
Definition kv (key value : bytes) : bytes := key ++ [0] ++ value ++ [0].
Definition kv0 := kv $"key0" $"value0".
Definition kv1 := kv $"key1" $"value1".
Definition kv2 := kv $"key2" $"value2".
Definition kv0' := kv $"key0" $"value0!".
Definition kv1' := kv $"key1" $"value1!".
Definition kv2' := kv $"key2" $"value2!".

(** Delete a key (twice) and add it back again (twice). *)
Definition del_and_restore (key : bytes) (without : list bytes) (other orig : bytes) (with_other all : list bytes)
  : list step :=
  [ TDel key true; TDel key false; TIs without; TGetNone key; TPut other; TIs with_other; TPut orig; TIs all ].

Definition t_store_steps : list step :=
  [TReopen] ++ test_empty_store ++
  [ TPut kv1; TIs [kv1]; TLacks [[]; $"key"; $"key0"; $"key2"; $"zzzzzzzz"];
    TPut kv2; TIs [kv1; kv2]; TLacks [[]; $"key"; $"key0"; $"key3"; $"zzzzzzzz"];
    TPut kv0; TIs [kv0; kv1; kv2]; TLacks [[]; $"key"; $"key3"; $"zzzzzzzz"];
    TDel $"key" false; TDel [] false; TDel $"key00" false; TDel $"value0" false; TDelNull ] ++
  del_and_restore $"key0" [kv1; kv2] kv0' kv0 [kv0'; kv1; kv2] [kv0; kv1; kv2] ++
  del_and_restore $"key1" [kv0; kv2] kv1' kv1 [kv0; kv1'; kv2] [kv0; kv1; kv2] ++
  del_and_restore $"key2" [kv0; kv1] kv2' kv2 [kv0; kv1; kv2'] [kv0; kv1; kv2].

(** [main]: the file does not exist at first, so [store_open] creates it. *)
Definition t_store_main : outcome store :=
  r ← store_open (Some []) true;
  match r with Some s => steps_run s t_store_steps | None => Crash Aborted end.

Example t_store_passes : is_done t_store_main = true.
Proof. vm_compute. reflexivity. Qed.
