(* ===== verification/TestProto.v ===== *)
(** * The test of the protocol translator (src/lib/t-proto.c)

    The program t-proto.c run on the model of proto.c, protobin.c, prototext.c and protofram.c:
    each of its tests is a list of steps, and runs to its end. There is one translator per
    test, so that the checks of the pointer [p] are not modelled, and neither is the text of a
    diagnostic. *)
From S2P Require Import Prelude StoreDefs Rxbuf ProtoDefs ProtoTextOut.
Local Open Scope infod_scope.

(** ** The callbacks of the test *)

(** [mock_on_input], [mock_on_sendv], [mock_on_error] and [errno]. *)
Record mock := mk_mock {
  in_counter : Z; in_msg : Z; in_data : bytes; retval : Z; reterrno : errno;
  sv_counter : Z; sv_data : bytes;
  err_counter : Z; the_errno : errno
}.

Definition ENODEV : errno := EOTHER 19.

Definition mock_init : mock := mk_mock 0 0 [] 0 ENODEV 0 [] 0 (EOTHER 0).

Definition set_in (w : mock) (n msg : Z) (data : bytes) : mock :=
  mk_mock n msg data (retval w) (reterrno w) (sv_counter w) (sv_data w) (err_counter w) (the_errno w).
Definition set_ret (w : mock) (r : Z) (e : errno) : mock :=
  mk_mock (in_counter w) (in_msg w) (in_data w) r e (sv_counter w) (sv_data w) (err_counter w) (the_errno w).
Definition set_sv (w : mock) (n : Z) (data : bytes) : mock :=
  mk_mock (in_counter w) (in_msg w) (in_data w) (retval w) (reterrno w) n data (err_counter w) (the_errno w).
Definition set_err (w : mock) (n : Z) (e : errno) : mock :=
  mk_mock (in_counter w) (in_msg w) (in_data w) (retval w) (reterrno w) (sv_counter w) (sv_data w) n e.

Definition mock_on_input_fn (_ : proto) (w : mock) (msg : Z) (data : bytes) : outcome (Z * mock) :=
  let w1 := set_in w (in_counter w + 1) msg data in
  Done (retval w1, if retval w1 =? -1 then set_err w1 (err_counter w1) (reterrno w1) else w1).

(** The loop over the iovecs; the buffer has 262155 bytes. *)
Fixpoint mock_iovs (data : bytes) (iov : list bytes) : outcome bytes :=
  match iov with
  | [] => Done data
  | io :: iov' =>
      if zlen io =? 0 then mock_iovs data iov'
      else _ ← assert_c (zlen data + zlen io <? 262155); mock_iovs (data ++ io) iov'
  end.

(** [mock_on_sendv.retval] is 0 throughout. *)
Definition mock_on_sendv_fn (_ : proto) (w : mock) (iov : list bytes) : outcome (Z * mock) :=
  data ← mock_iovs (sv_data w) iov;
  Done (0, set_sv w (sv_counter w + 1) data).

Definition mock_on_error_fn (_ : proto) (w : mock) (err : errno) (_ : bytes) : mock :=
  set_err w (err_counter w + 1) err.

Definition mocks : callbacks mock :=
  mk_callbacks (Some mock_on_input_fn) (Some mock_on_sendv_fn) (Some mock_on_error_fn).

(** ** The steps of a test *)

Inductive step :=
  | Recv (net : bytes)                               (* assert_proto_recv *)
  | RecvIs (net : bytes) (r : Z)                     (* assert(proto_recv() == r) *)
  | Input (msg : Z) (data : bytes)                   (* assert_mock_on_input *)
  | NoInput                                          (* assert_no_mock_on_input *)
  | InputSeen                                        (* assert(mock_on_input.counter) *)
  | InputLen (n : Z)                                 (* assert(mock_on_input.datalen == n) *)
  | Out (msg : Z) (fmt : bytes) (ap : list arg)      (* assert(proto_output() != -1) *)
  | OutFail (msg : Z) (fmt : bytes) (ap : list arg)  (* assert(proto_output() == -1) *)
  | OutError (code : Z) (text : bytes)               (* assert(proto_output_error() == -1) *)
  | Sent (data : bytes)                              (* assert_mock_on_sendv *)
  | SentFrom (n : nat) (data : bytes)                (* the same without the first n bytes *)
  | NoSent                                           (* assert_no_mock_on_sendv *)
  | ErrorCalled                                      (* assert_mock_on_error_called *)
  | Mode (m : Z)                                     (* assert(proto_get_mode() == m) *)
  | SetMode (m : Z)
  | Errno (e : errno)                                (* assert(errno == e) *)
  | Retval (r : Z)                                   (* mock_on_input.retval = r *)
  | Reterrno (e : errno)
  | SendvClear | InputClear | ErrorClear.

Definition step_run (p : proto) (w : mock) (s : step) : outcome (proto * mock) :=
  match s with
  | Recv net => '(r, p', w') ← proto_recv mocks p w net 0; _ ← assert_c (0 <? r); Done (p', w')
  | RecvIs net r => '(r', p', w') ← proto_recv mocks p w net 0; _ ← assert_c (r' =? r); Done (p', w')
  | Input msg data =>
      _ ← assert_c ((in_counter w =? 1) && (in_msg w =? msg) && bytes_eqb (in_data w) data);
      Done (p, set_in w 0 (in_msg w) (in_data w))
  | NoInput => _ ← assert_c (in_counter w =? 0); Done (p, w)
  | InputSeen => _ ← assert_c (negb (in_counter w =? 0)); Done (p, w)
  | InputLen n => _ ← assert_c (zlen (in_data w) =? n); Done (p, w)
  | Out msg fmt ap =>
      '(r, p', w') ← proto_output mocks p w msg fmt ap; _ ← assert_c (negb (r =? -1)); Done (p', w')
  | OutFail msg fmt ap =>
      '(r, p', w') ← proto_output mocks p w msg fmt ap; _ ← assert_c (r =? -1); Done (p', w')
  | OutError code text =>
      '(r, p', w') ← proto_output_error mocks p w code text; _ ← assert_c (r =? -1); Done (p', w')
  | Sent data =>
      _ ← assert_c (((zlen data =? 0) || (0 <? sv_counter w)) && bytes_eqb (sv_data w) data);
      Done (p, set_sv w 0 [])
  | SentFrom n data =>
      _ ← assert_c ((0 <? sv_counter w) && (zlen (sv_data w) =? Z.of_nat n + zlen data)
                    && bytes_eqb (drop n (sv_data w)) data);
      Done (p, w)
  | NoSent => _ ← assert_c (sv_counter w =? 0); Done (p, w)
  | ErrorCalled => _ ← assert_c (err_counter w =? 1); Done (p, set_err w 0 (the_errno w))
  | Mode m => _ ← assert_c (proto_get_mode p =? m); Done (p, w)
  | SetMode m => let '(r, p') := proto_set_mode p m in _ ← assert_c (negb (r =? -1)); Done (p', w)
  | Errno e => _ ← assert_c (bool_decide (the_errno w = e)); Done (p, w)
  | Retval r => Done (p, set_ret w r (reterrno w))
  | Reterrno e => Done (p, set_ret w (retval w) e)
  | SendvClear => Done (p, set_sv w 0 [])
  | InputClear => Done (p, set_in w 0 (in_msg w) (in_data w))
  | ErrorClear => Done (p, set_err w 0 (the_errno w))
  end.

Fixpoint steps_run (p : proto) (w : mock) (ss : list step) : outcome (proto * mock) :=
  match ss with
  | [] => Done (p, w)
  | s :: ss' => '(p', w') ← step_run p w s; steps_run p' w' ss'
  end.

(** ** The tests *)

(** The buffer of [M]s, and the objects that the formats with a wrong length point to: an iovec
    is read when it is made, where writev() would read it. *)
Definition MEGA_SIZE : Z := 0x10000.
Definition Mega : bytes := replicate (Z.to_nat MEGA_SIZE) 77.
Definition zeros (n : Z) : bytes := replicate (Z.to_nat n) 0.

(** What malloc() leaves in the text decoder. *)
Definition junk : textproto := mk_text T_QSTR $"junk" 99 (replicate 16 74) 7 5 true.

(** Exercise receiving all of the message types. *)
Definition binary_recv_steps : list step :=
  [ Retval (1);
    Mode PROTO_MODE_UNKNOWN;
    Recv ([0; 0; 6; 3] ++ $"Hello");
    Mode PROTO_MODE_BINARY;
    Input CMD_HELLO ([3] ++ $"Hello");
    Recv [0; 0; 1; 3];
    Input CMD_HELLO [3];
    Recv ([1; 0; 4] ++ $"test");
    Input CMD_SUB $"test";
    Recv ([2; 0; 4] ++ $"yeah");
    Input CMD_UNSUB $"yeah";
    Recv ([3; 0; 3] ++ $"key");
    Input CMD_READ $"key";
    Recv ([4; 0; 3] ++ $"key");
    Input CMD_WRITE $"key";
    Recv ([4; 0; 11] ++ $"key" ++ [0] ++ $"val" ++ [0] ++ $"nul");
    Input CMD_WRITE ($"key" ++ [0] ++ $"val" ++ [0] ++ $"nul");
    Recv [5; 0; 0];
    Input CMD_BEGIN [];
    Recv [6; 0; 0];
    Input CMD_COMMIT [];
    Recv [7; 0; 0];
    Input CMD_PING [];
    Recv ([7; 0; 1] ++ $"x");
    Input CMD_PING $"x";
    Recv ([128; 0; 4; 3] ++ $"foo");
    Input MSG_VERSION ([3] ++ $"foo");
    Recv ([129; 0; 3] ++ $"key");
    Input MSG_INFO $"key";
    Recv ([129; 0; 11] ++ $"key" ++ [0] ++ $"val" ++ [0] ++ $"nul");
    Input MSG_INFO ($"key" ++ [0] ++ $"val" ++ [0] ++ $"nul");
    Recv [130; 0; 0];
    Input MSG_PONG [];
    Recv ([130; 0; 1] ++ $"x");
    Input MSG_PONG $"x";
    Recv ([131; 0; 6] ++ $"derror");
    Input MSG_ERROR $"derror" ].

(** Exercise sending all of the message types, malformed formats and errors. *)
Definition binary_send_steps : list step :=
  [ Out CMD_HELLO $"%c %s" [AInt 0; APtr ($"hello" ++ [0])];
    Sent ([0; 0; 6; 0] ++ $"hello");
    Out CMD_HELLO $"%c" [AInt 0];
    Sent [0; 0; 1; 0];
    Out CMD_SUB $"%s" [APtr ($"*" ++ [0])];
    Sent ([1; 0; 1] ++ $"*");
    Out CMD_UNSUB $"%s" [APtr ($"*" ++ [0])];
    Sent ([2; 0; 1] ++ $"*");
    Out CMD_READ $"%s" [APtr ($"key" ++ [0])];
    Sent ([3; 0; 3] ++ $"key");
    Out CMD_WRITE $"%s" [APtr ($"key" ++ [0])];
    Sent ([4; 0; 3] ++ $"key");
    Out CMD_WRITE $"%s%c%s" [APtr ($"key" ++ [0]); AInt 0; APtr ($"val" ++ [0])];
    Sent ([4; 0; 7] ++ $"key" ++ [0] ++ $"val");
    Out CMD_WRITE $"%*s%c%s" [AInt 3; APtr $"key"; AInt 0; APtr ($"val" ++ [0])];
    Sent ([4; 0; 7] ++ $"key" ++ [0] ++ $"val");
    Out CMD_WRITE $"%*s" [AInt 7; APtr ($"key" ++ [0] ++ $"val")];
    Sent ([4; 0; 7] ++ $"key" ++ [0] ++ $"val");
    Out CMD_BEGIN [] [];
    Sent [5; 0; 0];
    Out CMD_COMMIT [] [];
    Sent [6; 0; 0];
    Out CMD_PING [] [];
    Sent [7; 0; 0];
    Out CMD_PING $"%s" [APtr ($"abcd" ++ [0])];
    Sent ([7; 0; 4] ++ $"abcd");
    Out MSG_VERSION $"%c" [AInt 9];
    Sent [128; 0; 1; 9];
    Out MSG_VERSION $"%c %s" [AInt 9; APtr [0]];
    Sent [128; 0; 1; 9];
    Out MSG_VERSION $"%c %s" [AInt 9; APtr ($"wxyz" ++ [0])];
    Sent ([128; 0; 5; 9] ++ $"wxyz");
    Out MSG_INFO $"%s" [APtr ($"key" ++ [0])];
    Sent ([129; 0; 3] ++ $"key");
    Out MSG_INFO $"%*s" [AInt 10; APtr ($"key" ++ [0] ++ $"val" ++ [0] ++ $"ue")];
    Sent ([129; 0; 10] ++ $"key" ++ [0] ++ $"val" ++ [0] ++ $"ue");
    Out MSG_INFO $"%s%c%*s" [APtr ($"key" ++ [0]); AInt 0; AInt 6; APtr ($"val" ++ [0] ++ $"ue")];
    Sent ([129; 0; 10] ++ $"key" ++ [0] ++ $"val" ++ [0] ++ $"ue");
    Out MSG_PONG [] [];
    Sent [130; 0; 0];
    Out MSG_PONG $"%s" [APtr ($"abcd" ++ [0])];
    Sent ([130; 0; 4] ++ $"abcd");
    Out MSG_ERROR $"%c%s" [AInt 255; APtr ($"abcd" ++ [0])];
    Sent ([131; 0; 5; 255] ++ $"abcd");
    OutFail 0 $"%%" [];
    NoSent;
    ErrorCalled;
    OutFail 0 $"%x" [AInt 1];
    NoSent;
    ErrorCalled;
    OutFail 0 $"x" [];
    NoSent;
    ErrorCalled;
    OutFail 0 $"%*s" [AInt 131072; APtr (zeros 131072)];
    NoSent;
    ErrorCalled;
    OutFail 0 $"%c %*s" [AInt 1; AInt 131072; APtr (zeros 131072)];
    Errno ENOMEM;
    NoSent;
    ErrorClear;
    OutError 255 $"a1";
    Sent ([131; 0; 3; 255] ++ $"a1");
    Retval (-1);
    Reterrno ENODEV;
    RecvIs ([0; 0; 6; 3] ++ $"Hello") (-1);
    Errno ENODEV;
    Retval (0);
    RecvIs [] (0);
    InputSeen;
    InputLen 0 ].

(** Exercise receiving various quoting styles and all of the messages. *)
Definition text_recv_steps : list step :=
  [ Retval (1);
    Mode PROTO_MODE_UNKNOWN;
    Recv ($"hello 0" ++ [10]);
    Mode PROTO_MODE_TEXT;
    Input CMD_HELLO [0];
    Recv ($"hello 1 woo" ++ [10]);
    Input CMD_HELLO ([1] ++ $"woo");
    Recv ($"hello 2 " ++ Q ++ $"woo" ++ Q ++ [10]);
    Input CMD_HELLO ([2] ++ $"woo");
    Recv ($"hello 2 " ++ Q ++ $"w oo" ++ Q ++ [10]);
    Input CMD_HELLO ([2] ++ $"w oo");
    Recv ($"hello 3 w oo" ++ [10]);
    Input CMD_HELLO ([3] ++ $"w oo");
    Recv ($"hello 3 w oo " ++ [10]);
    Input CMD_HELLO ([3] ++ $"w oo");
    Recv ($" hello  3  w  oo  " ++ [10]);
    Input CMD_HELLO ([3] ++ $"w  oo");
    Recv ($"hello 3 w" ++ Q ++ $"oo " ++ [10]);
    Input CMD_HELLO ([3] ++ $"w" ++ Q ++ $"oo");
    Recv ($"hello 3 " ++ Q ++ $"w\042oo" ++ Q ++ [10]);
    Input CMD_HELLO ([3] ++ $"w" ++ Q ++ $"oo");
    Recv ($"hello 3 " ++ Q ++ $"w\040oo" ++ Q ++ [10]);
    Input CMD_HELLO ([3] ++ $"w oo");
    Recv ($"hello 3 " ++ Q ++ $"w oo" ++ Q ++ [10]);
    Input CMD_HELLO ([3] ++ $"w oo");
    Recv ($"hello 3 " ++ Q ++ $"w" ++ [0] ++ $"oo" ++ Q ++ [10]);
    Input CMD_HELLO ([3] ++ $"w" ++ [0] ++ $"oo");
    Recv [10];
    NoInput;
    Recv (CRLF ++ CRLF);
    NoInput;
    Out CMD_HELLO $"%c %s" [AInt 0; APtr ($"hello" ++ [0])];
    Sent ($"HELLO 0 " ++ Q ++ $"hello" ++ Q ++ CRLF);
    Recv ($"sub *" ++ [10]);
    Input CMD_SUB $"*";
    Recv ($"unSUB *" ++ [10]);
    Input CMD_UNSUB $"*";
    Recv ($"READ key" ++ [10]);
    Input CMD_READ $"key";
    Recv ($"w key" ++ [10]);
    Input CMD_WRITE $"key";
    Recv ($"write key value" ++ [10]);
    Input CMD_WRITE ($"key" ++ [0] ++ $"value");
    Recv ($"write key " ++ Q ++ Q ++ [10]);
    Input CMD_WRITE ($"key" ++ [0]);
    Recv ($"WRITE " ++ Q ++ $"key" ++ Q ++ $" " ++ Q ++ Q ++ [10]);
    Input CMD_WRITE ($"key" ++ [0]);
    Recv ($"begin" ++ CRLF);
    Input CMD_BEGIN [];
    Recv ($"commit" ++ CRLF);
    Input CMD_COMMIT [];
    Recv ($"ping" ++ CRLF);
    Input CMD_PING [];
    Recv ($"ping 12345" ++ CRLF);
    Input CMD_PING $"12345";
    Recv ($"version 255" ++ CRLF);
    Input MSG_VERSION [255];
    Recv ($"version 255 yay for me" ++ CRLF);
    Input MSG_VERSION ([255] ++ $"yay for me");
    Recv ($"info key" ++ CRLF);
    Input MSG_INFO $"key";
    Recv ($"info key value" ++ CRLF);
    Input MSG_INFO ($"key" ++ [0] ++ $"value");
    Recv ($"info key " ++ Q ++ Q ++ CRLF);
    Input MSG_INFO ($"key" ++ [0]);
    Recv ($"info key value space" ++ CRLF);
    Input MSG_INFO ($"key" ++ [0] ++ $"value space");
    Recv ($"info key " ++ Q ++ $"value\000space" ++ Q ++ CRLF);
    Input MSG_INFO ($"key" ++ [0] ++ $"value" ++ [0] ++ $"space");
    Recv ($"info key value" ++ [0] ++ $"space" ++ CRLF);
    Input MSG_INFO ($"key" ++ [0] ++ $"value" ++ [0] ++ $"space");
    Recv ($"pong" ++ [10]);
    Input MSG_PONG [];
    Recv ($"pong  xyz " ++ [10]);
    Input MSG_PONG $"xyz";
    Recv ($"error 255 text" ++ [10]);
    Input MSG_ERROR ([255] ++ $"text");
    Recv ($"error 100 " ++ Q ++ Q ++ [10]);
    Input MSG_ERROR $"d";
    Recv ($"commit foo" ++ CRLF);
    NoInput;
    Sent ($"ERROR 101 " ++ Q ++ $"unexpected arg for 'commit'" ++ Q ++ CRLF) ].

(** Exercise sending messages. *)
Definition text_send_steps : list step :=
  [ Out CMD_HELLO $"%c %s" [AInt 0; APtr ($"hello" ++ [0])];
    Sent ($"HELLO 0 " ++ Q ++ $"hello" ++ Q ++ CRLF);
    Out CMD_HELLO $"%c" [AInt 0];
    Sent ($"HELLO 0" ++ CRLF);
    Out CMD_SUB $"%s" [APtr ($"*" ++ [0])];
    Sent ($"SUB " ++ Q ++ $"*" ++ Q ++ CRLF);
    Out CMD_UNSUB $"%s" [APtr ($"*" ++ [0])];
    Sent ($"UNSUB " ++ Q ++ $"*" ++ Q ++ CRLF);
    Out CMD_READ $"%s" [APtr ($"key" ++ [0])];
    Sent ($"READ " ++ Q ++ $"key" ++ Q ++ CRLF);
    Out CMD_WRITE $"%s" [APtr ($"key" ++ [0])];
    Sent ($"WRITE " ++ Q ++ $"key" ++ Q ++ CRLF);
    Out CMD_WRITE $"%s%c%s" [APtr ($"key" ++ [0]); AInt 0; APtr ($"val" ++ [0])];
    Sent ($"WRITE " ++ Q ++ $"key" ++ Q ++ $" " ++ Q ++ $"val" ++ Q ++ CRLF);
    Out CMD_WRITE $"%*s%c%s" [AInt 3; APtr $"key"; AInt 0; APtr ($"val" ++ [0])];
    Sent ($"WRITE " ++ Q ++ $"key" ++ Q ++ $" " ++ Q ++ $"val" ++ Q ++ CRLF);
    Out CMD_WRITE $"%*s" [AInt 7; APtr ($"key" ++ [0] ++ $"val")];
    Sent ($"WRITE " ++ Q ++ $"key" ++ Q ++ $" " ++ Q ++ $"val" ++ Q ++ CRLF);
    Out CMD_BEGIN [] [];
    Sent ($"BEGIN" ++ CRLF);
    Out CMD_COMMIT [] [];
    Sent ($"COMMIT" ++ CRLF);
    Out CMD_PING [] [];
    Sent ($"PING" ++ CRLF);
    Out CMD_PING $"%s" [APtr ($"abcd" ++ [0])];
    Sent ($"PING " ++ Q ++ $"abcd" ++ Q ++ CRLF);
    Out MSG_VERSION $"%c" [AInt 9];
    Sent ($"VERSION 9" ++ CRLF);
    Out MSG_VERSION $"%c %s" [AInt 9; APtr [0]];
    Sent ($"VERSION 9 " ++ Q ++ Q ++ CRLF);
    Out MSG_VERSION $"%c %s" [AInt 9; APtr ($"wxyz" ++ [0])];
    Sent ($"VERSION 9 " ++ Q ++ $"wxyz" ++ Q ++ CRLF);
    Out MSG_INFO $"%s" [APtr ($"key" ++ [0])];
    Sent ($"INFO " ++ Q ++ $"key" ++ Q ++ CRLF);
    Out MSG_INFO $"%*s" [AInt 10; APtr ($"key" ++ [0] ++ $"val" ++ [10] ++ $"ue")];
    Sent ($"INFO " ++ Q ++ $"key" ++ Q ++ $" " ++ Q ++ $"val\012ue" ++ Q ++ CRLF);
    Out MSG_INFO $"%*s" [AInt 10; APtr ($"key" ++ [0] ++ $"val" ++ [0] ++ $"ue")];
    Sent ($"INFO " ++ Q ++ $"key" ++ Q ++ $" " ++ Q ++ $"val\000ue" ++ Q ++ CRLF);
    Out MSG_INFO $"%*s" [AInt 10; APtr ($"key" ++ [0] ++ $"val" ++ [2] ++ $"ue")];
    Sent ($"INFO " ++ Q ++ $"key" ++ Q ++ $" " ++ Q ++ $"val" ++ [2] ++ $"ue" ++ Q ++ CRLF);
    Out MSG_INFO $"%s%c%*s" [APtr ($"key" ++ [0]); AInt 0; AInt 6; APtr ($"val" ++ [10] ++ $"ue")];
    Sent ($"INFO " ++ Q ++ $"key" ++ Q ++ $" " ++ Q ++ $"val\012ue" ++ Q ++ CRLF);
    Out MSG_PONG [] [];
    Sent ($"PONG" ++ CRLF);
    Out MSG_PONG $"%s" [APtr ($"abcd" ++ [0])];
    Sent ($"PONG " ++ Q ++ $"abcd" ++ Q ++ CRLF);
    Out MSG_ERROR $"%c%s" [AInt 255; APtr ($"abcd" ++ [0])];
    Sent ($"ERROR 255 " ++ Q ++ $"abcd" ++ Q ++ CRLF) ].

(** Malformed formats and errors. Before these, the test sends the largest string: that step is
    [t_proto_text_mega] below. *)
Definition text_error_steps : list step :=
  [ OutError 255 $"a1";
    Sent ($"ERROR 255 " ++ Q ++ $"a1" ++ Q ++ CRLF);
    OutFail 0 $"%%" [];
    NoSent;
    OutFail 0 $"%x" [AInt 1];
    NoSent;
    OutFail 0 $"x" [];
    NoSent;
    OutFail 0 $"%*s" [AInt MEGA_SIZE; APtr Mega];
    NoSent;
    OutFail 0 $"%c %*s" [AInt 1; AInt MEGA_SIZE; APtr Mega];
    NoSent;
    Retval (-1);
    Reterrno ENODEV;
    RecvIs ($"hello 0" ++ [13]) (-1);
    Errno ENODEV;
    Retval (0);
    RecvIs [] (0);
    InputSeen;
    InputLen 0 ].

Definition framed_steps : list step :=
  [ Retval (1);
    SetMode PROTO_MODE_FRAMED;
    Recv [0; 0];
    Mode PROTO_MODE_FRAMED;
    Input CMD_HELLO [0];
    Out CMD_HELLO $"%c %s" [AInt 0; APtr ($"hello" ++ [0])];
    Sent ([0; 0] ++ $"hello");
    Out CMD_PING $"%*s" [AInt 65535; APtr Mega];
    SentFrom 1 (take (Z.to_nat 0xffff) Mega);
    SendvClear;
    Recv (take (Z.to_nat 0x10000) Mega);
    Input 77 (take (Z.to_nat 0xffff) Mega);
    InputClear;
    OutError 255 $"a1";
    Sent ([131; 255] ++ $"a1");
    Retval (-1);
    Reterrno ENODEV;
    RecvIs [0; 0] (-1);
    Errno ENODEV;
    Retval (0);
    RecvIs [] (0);
    InputSeen;
    InputLen 0 ].

Definition test_binary_proto : outcome (proto * mock) :=
  steps_run (proto_new junk) mock_init (binary_recv_steps ++ binary_send_steps).
Definition test_text_proto : outcome (proto * mock) :=
  steps_run (proto_new junk) mock_init (text_recv_steps ++ text_send_steps ++ text_error_steps).
Definition test_framed_proto : outcome (proto * mock) :=
  steps_run (proto_new junk) mock_init framed_steps.

(** ** [main]: the user data *)

(** [mock_udata_free_fn] notes the pointers it is given; the strings are named by a number. *)
Definition mock_udata_free_fn (u : option Z) (w : list (option Z)) : list (option Z) := w ++ [u].

Inductive ustep :=
  | SetUdata (u : option Z) (free : bool)
  | GetUdata (u : option Z)         (* assert(proto_get_udata() == u) *)
  | Freed (u : option Z)            (* assert_mock_udata_free *)
  | NotFreed.                       (* assert_no_mock_udata_free *)

Definition ustep_run (p : userdata Z (list (option Z))) (w : list (option Z)) (s : ustep)
    : outcome (userdata Z (list (option Z)) * list (option Z)) :=
  match s with
  | SetUdata u free => Done (proto_set_udata p w u (if free then Some mock_udata_free_fn else None))
  | GetUdata u => _ ← assert_c (bool_decide (proto_get_udata p = u)); Done (p, w)
  | Freed u => _ ← assert_c (bool_decide (w = [u])); Done (p, [])
  | NotFreed => _ ← assert_c (bool_decide (w = [])); Done (p, w)
  end.

Fixpoint usteps_run (p : userdata Z (list (option Z))) (w : list (option Z)) (ss : list ustep)
    : outcome (userdata Z (list (option Z)) * list (option Z)) :=
  match ss with
  | [] => Done (p, w)
  | s :: ss' => '(p', w') ← ustep_run p w s; usteps_run p' w' ss'
  end.

Definition main_udata : outcome bool :=
  '(p, w) ← usteps_run udata_new []
    [ GetUdata None;
      SetUdata (Some 0) true; NotFreed; GetUdata (Some 0);
      SetUdata (Some 1) false; Freed (Some 0); GetUdata (Some 1);
      SetUdata None true; NotFreed; GetUdata None;
      SetUdata (Some 1) true; Freed None; GetUdata (Some 1) ];
  Done (bool_decide (proto_free p w = [Some 1])).

Example t_proto_udata : main_udata = Done true.
Proof. reflexivity. Qed.
Example t_proto_binary : is_done test_binary_proto = true.
Proof. vm_compute. reflexivity. Qed.
Example t_proto_text : is_done test_text_proto = true.
Proof. vm_compute. reflexivity. Qed.
Example t_proto_framed : is_done test_framed_proto = true.
Proof. vm_compute. reflexivity. Qed.

(** The largest string, to a callback that takes everything: all of it is sent. *)
Definition take_all : callbacks bytes :=
  mk_callbacks None (Some (fun _ w iov => Done (0, w ++ concat iov))) None.

Lemma t_proto_text_mega p :
  mode p = PROTO_MODE_TEXT ->
  exists r, proto_output take_all p [] CMD_PING $"%*s" [AInt 0xffff; APtr (replicate (Z.to_nat 0xffff) 77)] =
    Done (r, p, $"PING " ++ Q ++ replicate (Z.to_nat 0xffff) 77 ++ Q ++ CRLF) /\ 0 <= r.
Proof.
  intros Hm. set (s := replicate (Z.to_nat 0xffff) 77).
  assert (Hz : zlen s = 0xffff) by (unfold zlen, s; rewrite length_replicate; lia).
  destruct (output_ping_plain take_all (fun p w iov => ex_intro _ 0 (ex_intro _ _ eq_refl)) 0
    (fun v b v' => v' = v ++ b) p [] s) as (r & w' & E & Hr & ->).
  - clear. split; [intros; by eexists 0, _|intros ? ? ? ? ? -> ->; by rewrite app_assoc|intros; by rewrite app_nil_r].
  - apply Forall_replicate. done.
  - rewrite Hz. done.
  - by rewrite Hz.
  - exists r. split; [|done]. unfold proto_output, proto_outputv. rewrite Hm. cbn [Z.eqb Pos.eqb].
    rewrite <- Hz. change (PROTO_MODE_TEXT =? PROTO_MODE_UNKNOWN) with false. cbv iota.
    rewrite Hm. change (PROTO_MODE_TEXT =? PROTO_MODE_BINARY) with false.
    change (PROTO_MODE_TEXT =? PROTO_MODE_TEXT) with true. cbv iota. by rewrite E.
Qed.
