(* ===== verification/LibInfo.v ===== *)
(** * The client library: definitions (src/lib/info.c)

    The library keeps one connection in global variables: the socket, the protocol translator,
    whether a transaction was begun, and [waitret], which says what the messages that arrive
    are for while a call waits. [K] is the state of everything on the other side of the system
    calls, [Link] the calls. The application's callback [info_cb] acts on the whole state. *)
From S2P Require Import Prelude StoreDefs Rxbuf ProtoDefs.
Local Open Scope infod_scope.

(** Pseudo-msg for reading once. *)
Definition ONCE : Z := MSG_EOF - 1.

(** The system calls on the connection. A read gives [None] for an error and [Some []] at the
    end of the file; a call that never returns is a crash [OutOfFuel]. An address of
    getaddrinfo() is a number. *)
Class Link (K : Type) := {
  sys_writev : K -> Z -> bytes -> outcome (Z * K);
  sys_read : K -> Z -> outcome (option bytes * K);
  sys_closefd : K -> Z -> K;
  sys_shutdown : K -> Z -> K;
  sockunix_connect : K -> option Z * K;
  tcp_client_addrinfo : K -> bytes -> option (list Z) * K;
  sys_socket : K -> Z -> option Z * K;
  sys_connect : K -> Z -> Z -> bool * K
}.

(** An entry of the [binds] array of [info_readv]; the list stands for the array without its
    sentinel. [value] is an offset in the caller's buffer, or NULL. *)
Record info_bind := mk_bind { b_key : bytes; b_value : option Z; b_valuesz : Z }.

(** A wait-until descriptor. [buffer] is the caller's memory; [info_cb] is NULL or not. *)
Record waitret := mk_waitret {
  until_msg : Z;                        (* rxing this msg increments .done *)
  in_cb : bool;                         (* true while inside .info_cb() *)
  done : Z;                             (* inc'd when .until_msg received *)
  binds : option (list info_bind);
  exists_key : option bytes;
  exists_ret : Z;
  buffer : bytes;
  buflen : Z;
  buffersz : Z;
  has_cb : bool
}.
Definition waitret_zero : waitret := mk_waitret 0 false 0 None None 0 [] 0 0 false.

Definition set_until (w : waitret) (msg n : Z) : waitret :=
  mk_waitret msg (in_cb w) n (binds w) (exists_key w) (exists_ret w) (buffer w) (buflen w)
             (buffersz w) (has_cb w).
Definition inc_done (w : waitret) : waitret := set_until w (until_msg w) (done w + 1).
Definition set_in_cb (w : waitret) (b : bool) : waitret :=
  mk_waitret (until_msg w) b (done w) (binds w) (exists_key w) (exists_ret w) (buffer w)
             (buflen w) (buffersz w) (has_cb w).
Definition set_exists (w : waitret) (key : option bytes) (r : Z) : waitret :=
  mk_waitret (until_msg w) (in_cb w) (done w) (binds w) key r (buffer w) (buflen w)
             (buffersz w) (has_cb w).
Definition set_binds (w : waitret) (bs : option (list info_bind)) (buf : bytes) (len sz : Z) : waitret :=
  mk_waitret (until_msg w) (in_cb w) (done w) bs (exists_key w) (exists_ret w) buf len sz (has_cb w).
Definition set_cb (w : waitret) (b : bool) : waitret :=
  mk_waitret (until_msg w) (in_cb w) (done w) (binds w) (exists_key w) (exists_ret w) (buffer w)
             (buflen w) (buffersz w) b.

Section Lib.
Context {os : OS} {K : Type} {link : Link K}.

(** The global variables of info.c, and [errno] as the library sets it. *)
Record lib := mk_lib {
  l_fd : Z;                     (* connection to server, or -1 *)
  l_proto : option proto;
  tx_begun : bool;
  wait : waitret;
  last_error : bytes;
  l_errno : errno;
  world : K
}.
Implicit Types (l : lib) (key data : bytes).

Definition set_fd l (n : Z) : lib :=
  mk_lib n (l_proto l) (tx_begun l) (wait l) (last_error l) (l_errno l) (world l).
Definition set_lproto l (p : option proto) : lib :=
  mk_lib (l_fd l) p (tx_begun l) (wait l) (last_error l) (l_errno l) (world l).
Definition set_tx l (b : bool) : lib :=
  mk_lib (l_fd l) (l_proto l) b (wait l) (last_error l) (l_errno l) (world l).
Definition set_wait l (w : waitret) : lib :=
  mk_lib (l_fd l) (l_proto l) (tx_begun l) w (last_error l) (l_errno l) (world l).
Definition set_error l (text : bytes) : lib :=
  mk_lib (l_fd l) (l_proto l) (tx_begun l) (wait l) text (l_errno l) (world l).
Definition set_errno l (e : errno) : lib :=
  mk_lib (l_fd l) (l_proto l) (tx_begun l) (wait l) (last_error l) e (world l).
Definition set_world l (k : K) : lib :=
  mk_lib (l_fd l) (l_proto l) (tx_begun l) (wait l) (last_error l) (l_errno l) k.

(** [snprintf(last_error, sizeof last_error, ...)] *)
Definition print_error l (text : bytes) : lib := set_error l (take (Z.to_nat 1023) text).

(** Initializes the waitret status; -1 when the waitret's callback is active. *)
Definition waitret_init l : Z * lib :=
  if in_cb (wait l) then (-1, set_errno l EBUSY) else (0, set_wait l waitret_zero).

(** ** Receiving *)

Section Callbacks.
(** The application's callback: key, and value unless the key is deleted. [wild] is what the
    allocator left in the translator's [on_error], which the library never sets. *)
Context (info_cb : lib -> bytes -> option bytes -> outcome (Z * lib)).
Context (wild : option (proto -> lib -> errno -> bytes -> lib)).

(** Fills in a variable binding from [key\0value], and allocates storage from the buffer. *)
Definition waitret_bind l (bs : list info_bind) (i : nat) (b : info_bind) (data : bytes)
    : outcome (Z * lib) :=
  let w := wait l in
  let put b' buf len := set_wait l (set_binds w (Some (<[i := b']> bs)) buf len (buffersz w)) in
  let keylen := zlen (cstr data) in
  if keylen =? zlen data then Done (0, put (mk_bind (b_key b) None 0) (buffer w) (buflen w))
  else
    let value := drop (Z.to_nat (keylen + 1)) data in
    let valuesz := zlen data - (keylen + 1) in
    if buffersz w <? valuesz + buflen w then Done (-1, set_errno l ENOMEM)
    else
      buf ← of_option OutOfBounds (mwrite (buffer w) (buflen w) value);
      Done (0, put (mk_bind (b_key b) (Some (buflen w)) valuesz) buf (buflen w + valuesz)).

(** The first binding that has the key of [data]. *)
Fixpoint find_bind (bs : list info_bind) (data : bytes) : option (nat * info_bind) :=
  match bs with
  | [] => None
  | b :: bs' => if bytes_eqb (cstr data) (cstr (b_key b)) then Some (O, b)
                else (fun x => (S x.1, x.2)) <$> find_bind bs' data
  end.

(** [waitret.info_cb(data, value, valuesz)] and what its result means. *)
Definition call_cb l (data : bytes) : outcome (Z * lib) :=
  let keylen := zlen (cstr data) in
  let value := if keylen =? zlen data then None else Some (drop (Z.to_nat (keylen + 1)) data) in
  let l1 := set_wait l (set_in_cb (wait l) true) in
  '(cb_ret, l2) ← info_cb l1 (cstr data) value;
  let l3 := set_wait l2 (set_in_cb (wait l2) false) in
  let l4 := if (cb_ret =? 0) && (until_msg (wait l3) =? MSG_EOF)
            then set_wait l3 (inc_done (wait l3)) else l3 in
  Done (cb_ret, l4).

(** Handles each received message according to [waitret]. The translator [p] that calls is the
    global one. *)
Definition info_on_input (p : proto) l (msg : Z) (data : bytes) : outcome (Z * lib) :=
  let l := set_lproto l (Some p) in
  let l := if until_msg (wait l) =? msg then set_wait l (inc_done (wait l)) else l in
  if msg =? MSG_EOF then Done (0, print_error l $"Connection closed")
  else
    let l := match exists_key (wait l) with
             | Some key =>
                 if (msg =? MSG_INFO) && bytes_eqb (cstr key) (cstr data)
                 then set_wait l (inc_done (set_exists (wait l) (Some key)
                        (if zlen (cstr key) =? zlen data then 0 else 1)))
                 else l
             | None => l
             end in
    '(r, l) ← match binds (wait l) with
              | Some bs =>
                  if msg =? MSG_INFO then
                    match find_bind bs data with
                    | Some (i, b) => waitret_bind l bs i b data
                    | None => Done (0, l)
                    end
                  else Done (0, l)
              | None => Done (0, l)
              end;
    if r =? -1 then Done (-1, l)
    else
      '(cb_ret, l) ← (if (msg =? MSG_INFO) && has_cb (wait l) then call_cb l data else Done (0, l));
      if cb_ret =? -1 then Done (-1, l)
      else if msg =? MSG_ERROR then Done (0, print_error l ($"(server) " ++ cstr data))
      else Done (1, l).

(** Connect the send path directly to the fd. *)
Definition info_on_sendv (p : proto) l (iovs : list bytes) : outcome (Z * lib) :=
  '(r, k) ← sys_writev (world l) (l_fd l) (concat iovs);
  Done (r, set_world l k).

Definition info_callbacks : callbacks lib :=
  mk_callbacks (Some info_on_input) (Some info_on_sendv) wild.

(** [proto_output(proto, msg, fmt, ...)] *)
Definition lib_output l (msg : Z) (fmt : bytes) (ap : list arg) : outcome (Z * lib) :=
  p ← of_option NullDeref (l_proto l);
  '(r, p1, l1) ← proto_output info_callbacks p l msg fmt ap;
  Done (r, set_lproto l1 (Some p1)).

(** Convert early EOF into some semblance of an error. *)
Definition wait_eof l : Z * lib := (-1, set_errno l EPIPE).

(** The loop of [wait_until]; [fuel] bounds the number of reads. *)
Fixpoint wait_loop (fuel : nat) l (msg : Z) : outcome (Z * lib) :=
  match fuel with
  | O => Crash OutOfFuel
  | S fuel' =>
      '(rd, k) ← sys_read (world l) (l_fd l);
      let l := set_world l k in
      match rd with
      | None => Done (-1, l)
      | Some [] => Done (wait_eof (print_error l $"connection closed by server"))
      | Some buf =>
          p ← of_option NullDeref (l_proto l);
          '(len, p1, l1) ← proto_recv info_callbacks p l buf 0;
          let l1 := set_lproto l1 (Some p1) in
          if len =? 0 then Done (wait_eof l1)
          else if len <? 0 then Done (len, l1)
          else if negb (msg =? ONCE) && (done (wait l1) =? 0) then wait_loop fuel' l1 msg
          else Done (done (wait l1), l1)
      end
  end.

(** Receives messages until [msg] is received, or [done] is set, or an error occurs. *)
Definition wait_until (fuel : nat) l (msg : Z) : outcome (Z * lib) :=
  wait_loop fuel (set_wait l (set_until (wait l) msg 0)) msg.

(** ** Connecting *)

Definition info_close l : Z * lib :=
  if in_cb (wait l) then (-1, set_errno l EBUSY)
  else
    let l1 := set_lproto l None in
    let l2 := if l_fd l1 =? -1 then l1
              else set_fd (set_world l1 (sys_closefd (world l1) (l_fd l1))) (-1) in
    (0, set_tx l2 false).

(** [goto fail]: close, and return -1. *)
Definition fail l : Z * lib := (-1, (info_close l).2).

(** The loop of [open_tcp] over the addresses. It goes on after a successful connect. *)
Fixpoint tcp_loop (k : K) (ais : list Z) (s : Z) : Z * K :=
  match ais with
  | [] => (s, k)
  | ai :: ais' =>
      match sys_socket k ai with
      | (None, k1) => tcp_loop k1 ais' (-1)
      | (Some s1, k1) =>
          match sys_connect k1 s1 ai with
          | (true, k2) => tcp_loop k2 ais' s1
          | (false, k2) => tcp_loop (sys_closefd k2 s1) ais' (-1)
          end
      end
  end.

(** The text that a failure to connect leaves in [last_error] is not modelled. *)
Definition open_tcp l (hostport : bytes) : Z * lib :=
  match tcp_client_addrinfo (world l) hostport with
  | (None, k) => (-1, set_world l k)
  | (Some ais, k) => let '(s, k1) := tcp_loop k ais (-1) in (s, set_world l k1)
  end.

(** The result, and the mode when it is 0. *)
Definition try_connect l (hostport : option bytes) : Z * Z * lib :=
  match hostport with
  | Some hp =>
      let '(s, l1) := open_tcp l hp in
      let l2 := set_fd l1 s in
      if s =? -1 then (-1, PROTO_MODE_UNKNOWN, l2) else (0, PROTO_MODE_BINARY, l2)
  | None =>
      match sockunix_connect (world l) with
      | (None, k) => (-1, PROTO_MODE_UNKNOWN, set_fd (set_world l k) (-1))
      | (Some s, k) => (0, PROTO_MODE_FRAMED, set_fd (set_world l k) s)
      end
  end.

(** [for (retry = 0; retry < info_retries; retry++)] *)
Fixpoint retry_connect (n : nat) l (hostport : option bytes) (mode : Z) : Z * lib :=
  match n with
  | O => (mode, l)
  | S n' =>
      let '(r, mode1, l1) := try_connect l hostport in
      if r =? 0 then (mode1, l1) else retry_connect n' l1 hostport mode
  end.

Definition info_retries : nat := 100.

(** [junk] is what malloc() left in a new translator, [None] when it fails. *)
Definition info_open (junk : option textproto) l (hostport : option bytes) : Z * lib :=
  if negb (l_fd l =? -1) && bool_decide (is_Some (l_proto l)) then (0, l)
  else
    let '(r, l) := waitret_init l in
    if r =? -1 then (-1, l)
    else
      let '(_, l) := info_close (set_error l []) in
      let '(r, mode, l) := try_connect l hostport in
      let '(mode, l) := if r =? -1 then retry_connect info_retries l hostport mode else (mode, l) in
      if l_fd l =? -1 then (-1, l)            (* too many retries *)
      else
        match junk with
        | None => (-1, (info_close l).2)
        | Some j => (0, set_lproto l (Some (proto_set_mode (proto_new j) mode).2))
        end.

(** ** Operations *)

Section Ops.
Context (junk : option textproto) (fuel : nat).

(** Sends a sequence of messages: [Some l] when all were taken, [None] of a failed one. *)
Fixpoint send_all l (cmds : list (Z * bytes * list arg)) : outcome (bool * lib) :=
  match cmds with
  | [] => Done (true, l)
  | (msg, fmt, ap) :: cmds' =>
      '(r, l1) ← lib_output l msg fmt ap;
      if r =? -1 then Done (false, l1) else send_all l1 cmds'
  end.

(** [if (wait_until(msg) == -1) goto fail;] and then [k] *)
Definition wait_or_fail l (msg : Z) (k : Z -> lib -> outcome (Z * lib)) : outcome (Z * lib) :=
  '(r, l1) ← wait_until fuel l msg;
  if r =? -1 then Done (fail l1) else k r l1.

Definition read_cmd (b : info_bind) : Z * bytes * list arg := (CMD_READ, $"%s", [APtr (b_key b)]).

(** The commands of [info_readv]: one READ, or a transaction that ends with a PING. *)
Definition readv_cmds (bs : list info_bind) : list (Z * bytes * list arg) :=
  match bs with
  | [b] => [read_cmd b]
  | _ => (CMD_BEGIN, [], []) :: (read_cmd <$> bs) ++ [(CMD_PING, [], []); (CMD_COMMIT, [], [])]
  end.

(** [b->value = NULL; b->valuesz = 0] for every binding *)
Definition clear_binds (bs : list info_bind) : list info_bind := (fun b => mk_bind (b_key b) None 0) <$> bs.

(** The result has the caller's array of bindings as the call leaves it: cleared, and once the call
    waits with what [waitret], which then points to it, has been given. The caller's buffer is in
    [wait] afterwards. *)
Definition info_readv l (bs : list info_bind) (buf : bytes) (bufsz : Z) : outcome (Z * list info_bind * lib) :=
  match bs with
  | [] => Done (0, [], l)                       (* nothing to read *)
  | _ =>
      (* Clear the results *)
      let bs := clear_binds bs in
      let '(r, l) := waitret_init l in
      if r =? -1 then Done (-1, bs, l)
      else
        let '(r, l) := info_open junk l None in
        if r =? -1 then Done (-1, bs, l)
        else
          '(ok, l) ← send_all l (readv_cmds bs);
          if negb ok then let '(r, l) := fail l in Done (r, bs, l)
          else
            let l := set_wait l (set_binds (wait l) (Some bs) buf 0 bufsz) in
            '(r, l) ← wait_or_fail l (match bs with [_] => MSG_INFO | _ => MSG_PONG end)
                        (fun _ l => Done (0, l));
            Done (r, default bs (binds (wait l)), l)
  end.

(** The caller's buffer, which [waitret] still refers to after the call. *)
Definition set_buffer l (buf : bytes) : lib :=
  set_wait l (set_binds (wait l) (binds (wait l)) buf (buflen (wait l)) (buffersz (wait l))).

Definition info_read l key (buf : bytes) (bufsz : Z) : outcome (Z * lib) :=
  '(r, bs, l) ← info_readv l [mk_bind key None 0] buf bufsz;
  if r =? -1 then Done (-1, l)
  else
    match bs with
    | mk_bind _ (Some o) sz :: _ =>
        v ← of_option OutOfBounds (mread (buffer (wait l)) o sz);
        buf' ← of_option OutOfBounds (mwrite (buffer (wait l)) 0 v);
        Done (sz, set_buffer l buf')
    | _ => Done (-1, set_errno l ENOENT)
    end.

(** The result is the offset of the string in the caller's buffer, or NULL. *)
Definition info_reads l key (buf : bytes) (bufsz : Z) : outcome (option Z * lib) :=
  if bufsz =? 0 then Done (None, set_errno l ENOMEM)
  else
    '(r, bs, l) ← info_readv l [mk_bind key None 0] buf (u32 (bufsz - 1));
    if r =? -1 then Done (None, l)
    else
      match bs with
      | mk_bind _ (Some o) sz :: _ =>
          buf' ← of_option OutOfBounds (mwrite (buffer (wait l)) (o + sz) [0]);
          Done (Some o, set_buffer l buf')
      | _ => Done (None, set_errno l ENOENT)
      end.

(** What a WRITE of a key carries; no value deletes the key. *)
Definition write_cmd (b : bytes * option bytes) : Z * bytes * list arg :=
  match b.2 with
  | Some v => (CMD_WRITE, $"%s%c%*s", [APtr b.1; AInt 0; AInt (zlen v); APtr v])
  | None => (CMD_WRITE, $"%s", [APtr b.1])
  end.

Definition writev_cmds (bs : list (bytes * option bytes)) : list (Z * bytes * list arg) :=
  match bs with
  | [b] => [write_cmd b]
  | _ => (CMD_BEGIN, [], []) :: (write_cmd <$> bs) ++ [(CMD_COMMIT, [], [])]
  end.

Definition info_writev l (bs : list (bytes * option bytes)) : outcome (Z * lib) :=
  match bs with
  | [] => Done (0, l)                       (* nothing to write *)
  | _ =>
      let '(r, l) := info_open junk l None in
      if r =? -1 then Done (-1, l)
      else
        '(ok, l) ← send_all l (writev_cmds bs);
        Done (if negb ok then fail l else (0, l))
  end.

Definition info_write l key (value : option bytes) : outcome (Z * lib) := info_writev l [(key, value)].
Definition info_writes l key (value_str : option bytes) : outcome (Z * lib) :=
  info_write l key (cstr <$> value_str).
Definition info_delete l key : outcome (Z * lib) := info_write l key None.

Definition info_exists l key : outcome (Z * lib) :=
  let '(r, l) := waitret_init l in
  if r =? -1 then Done (-1, l)
  else
    let '(r, l) := info_open junk l None in
    if r =? -1 then Done (-1, l)
    else
      '(r, l) ← lib_output l CMD_READ $"%s" [APtr key];
      if r =? -1 then Done (fail l)
      else
        let l := set_wait l (set_exists (wait l) (Some key) (exists_ret (wait l))) in
        wait_or_fail l MSG_EOF (fun _ l => Done (exists_ret (wait l), l)).

(** ** Transactions *)

Definition info_tx_begin l : outcome (Z * lib) :=
  if tx_begun l then Done (-1, set_errno l EIO)     (* already in a transaction *)
  else
    let '(r, l) := info_open junk l None in
    if r =? -1 then Done (-1, l)
    else
      '(r, l) ← lib_output l CMD_BEGIN [] [];
      Done (if r =? -1 then fail l else (0, set_tx l true)).

(** The body that the operations of a transaction share. *)
Definition tx_op l (msg : Z) (fmt : bytes) (ap : list arg) : outcome (Z * lib) :=
  if negb (tx_begun l) then Done (-1, set_errno l EIO)  (* not in a transaction *)
  else
    '(r, l) ← lib_output l msg fmt ap;
    Done (if r =? -1 then fail l else (0, l)).

Definition info_tx_read l key : outcome (Z * lib) := tx_op l CMD_READ $"%s" [APtr key].
Definition info_tx_write l key (value : bytes) : outcome (Z * lib) :=
  tx_op l CMD_WRITE $"%s%c%*s" [APtr key; AInt 0; AInt (zlen value); APtr value].
Definition info_tx_delete l key : outcome (Z * lib) := tx_op l CMD_WRITE $"%s" [APtr key].
Definition info_tx_sub l (pattern : bytes) : outcome (Z * lib) := tx_op l CMD_SUB $"%s" [APtr pattern].
Definition info_tx_unsub l (pattern : bytes) : outcome (Z * lib) := tx_op l CMD_UNSUB $"%s" [APtr pattern].

(** [cb] says if the callback given is not NULL. *)
Definition info_tx_commit l (cb : bool) : outcome (Z * lib) :=
  if negb (tx_begun l) then Done (-1, set_errno l EIO)  (* not in a transaction *)
  else
    let '(r, l) := waitret_init l in
    if r =? -1 then Done (-1, l)
    else
      '(ok, l) ← send_all l [(CMD_PING, [], []); (CMD_COMMIT, [], [])];
      if negb ok then Done (fail l)
      else
        let l := set_wait (set_tx l false) (set_cb (wait l) cb) in
        wait_or_fail l MSG_PONG (fun r l => Done (r, l)).

(** ** Dispatching *)

Definition dispatch_until l (msg : Z) (cb : bool) : outcome (Z * lib) :=
  let '(r, l) := waitret_init l in
  if r =? -1 then Done (-1, l)
  else if (l_fd l =? -1) || bool_decide (l_proto l = None) then Done (-1, set_errno l EBADF)
  else
    '(r, l) ← wait_until fuel (set_wait l (set_cb (wait l) cb)) msg;
    Done (r, if r =? -1 then set_errno (info_close l).2 (l_errno l) else l).

Definition info_loop l (cb : bool) : outcome (Z * lib) := dispatch_until l MSG_EOF cb.
Definition info_recv1 l (cb : bool) : outcome (Z * lib) := dispatch_until l ONCE cb.

End Ops.

(** Operations for callbacks. *)
Definition cb_op l (msg : Z) (arg : bytes) : outcome (Z * lib) := lib_output l msg $"%s" [APtr arg].
Definition info_cb_read l key : outcome (Z * lib) := cb_op l CMD_READ key.
Definition info_cb_sub l (pattern : bytes) : outcome (Z * lib) := cb_op l CMD_SUB pattern.
Definition info_cb_unsub l (pattern : bytes) : outcome (Z * lib) := cb_op l CMD_UNSUB pattern.

End Callbacks.

Definition info_cb_close l : lib :=
  if l_fd l =? -1 then l else set_world l (sys_shutdown (world l) (l_fd l)).
Definition info_fileno l : Z := l_fd l.
Definition info_get_last_error l : bytes := last_error l.

End Lib.
Arguments lib : clear implicits.
