(* ===== verification/LibPeer.v ===== *)
(** * What the client library relies on

    [InfoPeer] states what a server at the other end of a local socket promises to the library:
    packets of READ and PING are answered in order from a finite map, which packets of WRITE
    change; a subscription is told of the records there are and of the changes to come. This
    happens at once or, within a transaction, when it is committed. *)
From S2P Require Import Prelude Match StoreDefs StoreLayout StoreOps StoreTheorems Rxbuf ProtoDefs ProtoBin.
From S2P Require Import Infod InfodSpec LibInfo.
Import Match.
Local Open Scope infod_scope.

(** A command that only asks. *)
Definition query (cmd : Z * bytes) : Prop :=
  (cmd.1 = CMD_READ /\ 0 ∉ cmd.2 \/ cmd.1 = CMD_PING) /\ zlen cmd.2 <= 65535.

(** A command that a server obeys. *)
Definition request (cmd : Z * bytes) : Prop :=
  query cmd \/ cmd.1 = CMD_WRITE /\ zlen cmd.2 <= 65535 \/
  cmd.1 = CMD_SUB /\ (0 ∉ cmd.2) /\ match_isvalid cmd.2 = true /\ zlen cmd.2 <= 65535 \/
  cmd.1 = CMD_UNSUB /\ zlen cmd.2 <= 65535.

(** The packet that answers a question: the record of the key, the bare key if there is none, the
    echo of a PING. *)
Definition answer (M : gmap bytes bytes) (cmd : Z * bytes) : bytes :=
  if cmd.1 =? CMD_READ then MSG_INFO :: default cmd.2 (M !! cmd.2) else MSG_PONG :: cmd.2.

(** What a WRITE does to the map: a bare key is deleted, a key that ends with an exclamation mark
    is not kept; and whether subscribers hear of it. *)
Definition written (M : gmap bytes bytes) (data : bytes) : gmap bytes bytes :=
  if negb (contains_nul data) then delete data M
  else if is_ephemeral data then M else <[cstr data := data]> M.
Definition news (M : gmap bytes bytes) (data : bytes) : bool :=
  if negb (contains_nul data) then bool_decide (is_Some (M !! data))
  else is_ephemeral data || negb (bool_decide (M !! cstr data = Some data)).

(** The records of a map in the order of their keys. *)
Definition key_le (x y : bytes) : Prop := str_le (cstr x) (cstr y).
#[export] Instance key_le_dec x y : Decision (key_le x y).
Proof. unfold key_le. apply _. Defined.
Definition listing (M : gmap bytes bytes) : list bytes := merge_sort key_le (map_to_list M).*2.

(** The first subscription to a pattern is taken away. *)
Fixpoint unsubscribe (pattern : bytes) (pats : list bytes) : list bytes :=
  match pats with
  | [] => []
  | p :: pats' => if bool_decide (p = pattern) then pats' else p :: unsubscribe pattern pats'
  end.

(** What a command does to the map and to the subscriptions [pats] of the client. *)
Definition effect (M : gmap bytes bytes) (cmd : Z * bytes) : gmap bytes bytes :=
  if cmd.1 =? CMD_WRITE then written M cmd.2 else M.
Definition subs_after (pats : list bytes) (cmd : Z * bytes) : list bytes :=
  if cmd.1 =? CMD_SUB then cmd.2 :: pats
  else if cmd.1 =? CMD_UNSUB then unsubscribe cmd.2 pats else pats.

(** The records that the client is told, and the packets. *)
Definition told (M : gmap bytes bytes) (pats : list bytes) (cmd : Z * bytes) : list bytes :=
  if cmd.1 =? CMD_WRITE then
    if news M cmd.2 then (fun _ => cmd.2) <$> filter (hits cmd.2) pats else []
  else if cmd.1 =? CMD_SUB then filter (fun kv => hits kv cmd.2) (listing M)
  else if cmd.1 =? CMD_READ then [default cmd.2 (M !! cmd.2)] else [].
Definition reply (M : gmap bytes bytes) (pats : list bytes) (cmd : Z * bytes) : list bytes :=
  if cmd.1 =? CMD_PING then [MSG_PONG :: cmd.2] else cons MSG_INFO <$> told M pats cmd.

(** Writing may need memory or disk space, and subscriptions are limited. *)
Definition cost (cmd : Z * bytes) : nat := if cmd.1 =? CMD_WRITE then 1%nat else 0%nat.
Definition fits (pats : list bytes) (cmd : Z * bytes) : Prop := cmd.1 = CMD_SUB -> zlen pats <= MAX_SUBS.

(** The commands of a transaction, one after the other. *)
Fixpoint effects (M : gmap bytes bytes) (q : list (Z * bytes)) : gmap bytes bytes :=
  match q with [] => M | cmd :: q' => effects (effect M cmd) q' end.
Fixpoint subs_afters (pats : list bytes) (q : list (Z * bytes)) : list bytes :=
  match q with [] => pats | cmd :: q' => subs_afters (subs_after pats cmd) q' end.
Fixpoint heard (M : gmap bytes bytes) (pats : list bytes) (q : list (Z * bytes)) : list bytes :=
  match q with [] => [] | cmd :: q' => told M pats cmd ++ heard (effect M cmd) (subs_after pats cmd) q' end.
Fixpoint all_replies (M : gmap bytes bytes) (pats : list bytes) (q : list (Z * bytes)) : list bytes :=
  match q with [] => [] | cmd :: q' => reply M pats cmd ++ all_replies (effect M cmd) (subs_after pats cmd) q' end.
Fixpoint costs (q : list (Z * bytes)) : nat :=
  match q with [] => 0%nat | cmd :: q' => (cost cmd + costs q')%nat end.
Fixpoint all_fit (pats : list bytes) (q : list (Z * bytes)) : Prop :=
  match q with [] => True | cmd :: q' => fits pats cmd /\ all_fit (subs_after pats cmd) q' end.

(** [peer k n pats M q pend]: the server holds the map [M] and has room for [n] more writes;
    [pats] are the subscriptions of the library; [q] are the commands of the open transaction, if
    there is one; [pend] are the packets that were sent to the library and have not been read. *)
Class InfoPeer (K : Type) {link : Link K} := {
  peer_fd : Z;
  peer : K -> nat -> list bytes -> gmap bytes bytes -> option (list (Z * bytes)) -> list bytes -> Prop;
  peer_open : peer_fd <> -1;
  peer_record k n pats M q pend key kv :
    peer k n pats M q pend -> M !! key = Some kv -> cstr kv = key /\ 0 ∈ kv /\ zlen kv <= 65535;
  peer_read k n pats M q b pend :
    peer k n pats M q (b :: pend) ->
    exists k', sys_read k peer_fd = Done (Some b, k') /\ peer k' n pats M q pend;
  peer_now k n pats M pend cmd :
    peer k (cost cmd + n) pats M None pend -> request cmd -> fits pats cmd ->
    exists k', sys_writev k peer_fd (cmd.1 :: cmd.2) = Done (1 + zlen cmd.2, k') /\
      peer k' n (subs_after pats cmd) (effect M cmd) None (pend ++ reply M pats cmd);
  peer_begin k n pats M pend :
    peer k n pats M None pend ->
    exists k', sys_writev k peer_fd [CMD_BEGIN] = Done (1, k') /\ peer k' n pats M (Some []) pend;
  peer_later k n pats M q pend cmd :
    peer k n pats M (Some q) pend -> request cmd ->
    exists k', sys_writev k peer_fd (cmd.1 :: cmd.2) = Done (1 + zlen cmd.2, k') /\
      peer k' n pats M (Some (q ++ [cmd])) pend;
  peer_commit k n pats M q pend :
    peer k (costs q + n) pats M (Some q) pend -> Forall request q -> all_fit pats q ->
    exists k', sys_writev k peer_fd [CMD_COMMIT] = Done (1, k') /\
      peer k' n (subs_afters pats q) (effects M q) None (pend ++ all_replies M pats q)
}.

(** ** The listing *)

(** There is one list of the records of a map in the order of their keys. *)
Lemma listing_unique ks M : key_sorted ks -> kvmap ks = M -> ks = listing M.
Proof.
  intros Hs <-. pose proof (key_sorted_nodup ks Hs) as Hnd.
  assert (Hp : ks ≡ₚ listing (kvmap ks)).
  { unfold listing. rewrite merge_sort_Permutation. unfold kvmap.
    rewrite map_to_list_to_map by (by rewrite fst_keys). rewrite <- list_fmap_compose. by rewrite list_fmap_id. }
  eapply (StronglySorted_unique_strong key_le); [| | |done].
  - intros x y Hx Hy H1 H2. unfold key_le in H1, H2. rewrite <- Hp in Hy.
    assert (E : cstr x = cstr y).
    { apply str_le_lteq in H1 as [H1| ->]; [|done]. apply str_le_lteq in H2 as [H2| ->]; [|done].
      exfalso. apply (str_lt_irrefl (cstr x)). by transitivity (cstr y). }
    pose proof (kvmap_elem x ks Hnd Hx) as H3. rewrite E, (kvmap_elem y ks Hnd Hy) in H3. congruence.
  - clear -Hs. induction Hs as [|kv ks Hs IH Hall]; constructor; [done|]. eapply Forall_impl; [exact Hall|].
    intros x H. apply str_le_lteq. by left.
  - apply StronglySorted_merge_sort.
    + intros x y z. unfold key_le. apply str_le_trans.
    + intros x y. apply str_le_total.
Qed.

Lemma length_listing M : length (listing M) = size M.
Proof. unfold listing. by rewrite merge_sort_Permutation, length_fmap, length_map_to_list. Qed.

Lemma listing_elem M kv : kv ∈ listing M <-> exists key, M !! key = Some kv.
Proof.
  unfold listing. rewrite merge_sort_Permutation, list_elem_of_fmap. split.
  - intros ([key kv'] & -> & Hin). exists key. by apply elem_of_map_to_list.
  - intros [key Hk]. exists (key, kv). split; [done|]. by apply elem_of_map_to_list.
Qed.

(** A subscription to everything. *)
Lemma hits_star kv : hits kv $"*".
Proof.
  pose proof (proj2 (match_prefix [] kv (Forall_nil_2 _)) (prefix_nil _)) as E.
  change ([] ++ [ch_star]) with $"*" in E. unfold hits. by rewrite E.
Qed.

(** ** Questions change nothing *)

Lemma query_kind M pats cmd : query cmd ->
  effect M cmd = M /\ subs_after pats cmd = pats /\ reply M pats cmd = [answer M cmd] /\ cost cmd = 0%nat /\ fits pats cmd.
Proof.
  unfold effect, subs_after, reply, told, cost, fits. destruct cmd as [msg data].
  intros [[[E _]|E] _]; cbn in E; subst msg; by split_and!.
Qed.

Lemma queries_kind M pats q :
  Forall query q -> effects M q = M /\ subs_afters pats q = pats /\ all_replies M pats q = answer M <$> q /\
    costs q = 0%nat /\ all_fit pats q.
Proof.
  induction 1 as [|cmd q Hc _ (IH1 & IH2 & IH3 & IH4 & IH5)]; [done|].
  cbn [effects subs_afters all_replies costs all_fit].
  destruct (query_kind M pats cmd Hc) as (-> & -> & -> & -> & Hf). by rewrite IH1, IH2, IH3, IH4.
Qed.

Lemma queries_request q : Forall query q -> Forall request q.
Proof. intros H. eapply Forall_impl; [exact H|]. by left. Qed.

Lemma effects_app M q q' : effects M (q ++ q') = effects (effects M q) q'.
Proof. revert M. induction q as [|cmd q IH]; intros M; [done|]. apply IH. Qed.
Lemma subs_afters_app pats q q' : subs_afters pats (q ++ q') = subs_afters (subs_afters pats q) q'.
Proof. revert pats. induction q as [|cmd q IH]; intros pats; [done|]. apply IH. Qed.
Lemma all_replies_app M pats q q' :
  all_replies M pats (q ++ q') = all_replies M pats q ++ all_replies (effects M q) (subs_afters pats q) q'.
Proof. revert M pats. induction q as [|cmd q IH]; intros M pats; [done|]. cbn. by rewrite IH, app_assoc. Qed.
Lemma costs_app q q' : costs (q ++ q') = (costs q + costs q')%nat.
Proof. induction q as [|cmd q IH]; [done|]. cbn. rewrite IH. lia. Qed.
Lemma all_fit_app pats q q' : all_fit pats (q ++ q') <-> all_fit pats q /\ all_fit (subs_afters pats q) q'.
Proof.
  revert pats. induction q as [|cmd q IH]; intros pats; cbn; [naive_solver|]. rewrite IH. naive_solver.
Qed.

(** Without a PING every packet is a record. *)
Lemma replies_heard q : forall M pats, Forall (fun cmd => cmd.1 <> CMD_PING) q ->
  all_replies M pats q = cons MSG_INFO <$> heard M pats q.
Proof.
  induction q as [|cmd q IH]; intros M pats H; [done|]. apply Forall_cons in H as [Hc H].
  cbn [all_replies heard]. rewrite fmap_app, IH by done. unfold reply. by rewrite (proj2 (Z.eqb_neq _ _) Hc).
Qed.

Section Questions.
Context {K : Type} {link : Link K} {P : InfoPeer K}.

Lemma peer_ask k n pats M pend cmd :
  peer k n pats M None pend -> query cmd ->
  exists k', sys_writev k peer_fd (cmd.1 :: cmd.2) = Done (1 + zlen cmd.2, k') /\
    peer k' n pats M None (pend ++ [answer M cmd]).
Proof.
  intros Hp Hq. destruct (query_kind M pats cmd Hq) as (E1 & E2 & E3 & E4 & E5).
  pose proof (peer_now k n pats M pend cmd) as H. rewrite E1, E2, E3, E4 in H. apply H; [done|by left|done].
Qed.

Lemma peer_answers k n pats M q pend :
  peer k n pats M (Some q) pend -> Forall query q ->
  exists k', sys_writev k peer_fd [CMD_COMMIT] = Done (1, k') /\ peer k' n pats M None (pend ++ (answer M <$> q)).
Proof.
  intros Hp Hq. destruct (queries_kind M pats q Hq) as (E1 & E2 & E3 & E4 & E5).
  pose proof (peer_commit k n pats M q pend) as H. rewrite E1, E2, E3, E4 in H.
  apply H; [done|by apply queries_request|done].
Qed.

End Questions.

(** ** The library over such a server *)

(** The value of a key, and the records that [info_readv] makes of some keys: the bindings, with
    the values one after the other from the offset [o] of the buffer. *)
Definition value_of (kv : bytes) : bytes := drop (S (length (cstr kv))) kv.
Definition value_at (M : gmap bytes bytes) (key : bytes) : option bytes := value_of <$> M !! key.
Definition values (M : gmap bytes bytes) (keys : list bytes) : bytes :=
  concat ((fun key => default [] (value_at M key)) <$> keys).
Fixpoint filled (M : gmap bytes bytes) (keys : list bytes) (o : Z) : list info_bind :=
  match keys with
  | [] => []
  | key :: keys' =>
      match value_at M key with
      | None => mk_bind key None 0 :: filled M keys' o
      | Some v => mk_bind key (Some o) (zlen v) :: filled M keys' (o + zlen v)
      end
  end.
Definition unbound (key : bytes) : info_bind := mk_bind key None 0.

Section Client.
Context {os : OS} {K : Type} {link : Link K} {P : InfoPeer K}.
Context (info_cb : lib K -> bytes -> option bytes -> outcome (Z * lib K)).
Context (wild : option (proto -> lib K -> errno -> bytes -> lib K)).
Context (junk : option textproto).
Abbreviation lib := (lib K).
Abbreviation cb := (info_callbacks info_cb wild).
Implicit Types (l : lib) (p : proto) (room : nat) (pats : list bytes) (M : gmap bytes bytes) (key data : bytes).

(** The library is connected over the local socket. *)
Record Online l p : Prop := {
  on_fd : l_fd l = peer_fd;
  on_proto : l_proto l = Some p;
  on_mode : mode p = PROTO_MODE_FRAMED
}.

Lemma set_same l p : l_proto l = Some p -> set_lproto l (Some p) = l.
Proof. intros <-. by destruct l. Qed.

(** ** Sending *)

Definition says (fmt : bytes) (ap : list arg) (b : bytes) : Prop :=
  forall p l, exists iov, to_binary_iov cb p l 7 8 fmt ap 0 0 = Done (Some iov, l) /\ concat iov = b.

Lemma says_str b : 0 ∉ b -> says $"%s" [APtr b] b.
Proof. intros Hb p l. exists [cstr b]. split; [done|]. cbn. by rewrite app_nil_r, cstr_no_nul. Qed.
Lemma says_nothing : says [] [] [].
Proof. intros p l. by exists []. Qed.

Lemma lib_output_framed l p msg fmt ap b :
  Online l p -> says fmt ap b ->
  lib_output info_cb wild l msg fmt ap =
    ('(r, k) ← sys_writev (world l) peer_fd (msg :: b); Done (r, set_world l k)).
Proof.
  intros [Hf Hp Hm] Hs. unfold lib_output. rewrite Hp. ostep. unfold proto_output, proto_outputv.
  rewrite Hm. cbn [Z.eqb Pos.eqb PROTO_MODE_FRAMED PROTO_MODE_UNKNOWN PROTO_MODE_BINARY PROTO_MODE_TEXT].
  rewrite Hm. cbn [Z.eqb Pos.eqb PROTO_MODE_FRAMED PROTO_MODE_BINARY PROTO_MODE_TEXT].
  unfold output_framed. destruct (Hs p l) as (iov & -> & <-). ostep.
  unfold sendv. cbn [on_sendv info_callbacks]. unfold info_on_sendv. rewrite Hf. cbn [concat app].
  destruct (sys_writev _ _ _) as [[r k]|]; [|done]. ostep. by rewrite set_same.
Qed.

Lemma send_all_app l a b :
  send_all info_cb wild l (a ++ b) =
    ('(ok, l1) ← send_all info_cb wild l a;
     if (ok : bool) then send_all info_cb wild l1 b else Done (false, l1)).
Proof.
  revert l. induction a as [|[[msg fmt] ap] a IH]; intros l; [done|]. cbn [app send_all].
  destruct (lib_output _ _ _ _ _ _) as [[r l1]|]; [|done]. ostep. destruct (r =? -1); [done|]. apply IH.
Qed.

Lemma online_world l p k : Online l p -> Online (set_world l k) p.
Proof. intros []. by split. Qed.

(** A message that the server takes. *)
Lemma send_taken l p msg fmt ap b k n :
  Online l p -> says fmt ap b -> sys_writev (world l) peer_fd (msg :: b) = Done (1 + n, k) -> 0 <= n ->
  send_all info_cb wild l [(msg, fmt, ap)] = Done (true, set_world l k).
Proof.
  intros Ho Hs Hw Hn. cbn [send_all]. rewrite (lib_output_framed l p msg fmt ap b Ho Hs), Hw. ostep.
  by destruct (Z.eqb_spec (1 + n) (-1)); [lia|].
Qed.

Definition readable key : Prop := (0 ∉ key) /\ zlen key <= 65535.
Definition ask key : Z * bytes := (CMD_READ, key).

Lemma ask_query key : readable key -> query (ask key).
Proof. intros []. split; [by left|done]. Qed.

Lemma send_read l p key k :
  Online l p -> readable key -> sys_writev (world l) peer_fd (CMD_READ :: key) = Done (1 + zlen key, k) ->
  send_all info_cb wild l [read_cmd (unbound key)] = Done (true, set_world l k).
Proof.
  intros Ho [Hk _] Hw. apply (send_taken l p _ _ _ key k (zlen key)); [done|by apply says_str|done|apply zlen_nonneg].
Qed.

(** A call of [proto_output] and the command that it sends. *)
Definition sends (c : Z * bytes * list arg) (cmd : Z * bytes) : Prop := c.1.1 = cmd.1 /\ says c.1.2 c.2 cmd.2.

(** Commands that are sent in a transaction are queued. *)
Lemma send_queued room pats M pend p cs q' : forall l q,
  Forall2 sends cs q' -> Forall request q' -> Online l p -> peer (world l) room pats M (Some q) pend ->
  exists k, send_all info_cb wild l cs = Done (true, set_world l k) /\ peer k room pats M (Some (q ++ q')) pend.
Proof.
  intros l q Hs. revert l q. induction Hs as [|[[msg fmt] ap] [msg' b] cs q' [Hc1 Hc2] Hs IH]; intros l q Hreq Ho Hp.
  { exists (world l). rewrite app_nil_r. split; [by destruct l|done]. }
  cbn in Hc1, Hc2. subst msg'. apply Forall_cons in Hreq as [Hr Hreq].
  destruct (peer_later _ _ _ _ _ _ _ Hp Hr) as (k1 & E1 & Hp1). cbn [fst snd] in E1.
  destruct (IH (set_world l k1) (q ++ [(msg, b)])) as (k & E & Hp2); [done|by apply online_world|done|].
  exists k. rewrite <- app_assoc in Hp2. split; [|done].
  change ((msg, fmt, ap) :: cs) with ([(msg, fmt, ap)] ++ cs).
  rewrite send_all_app, (send_taken l p msg fmt ap b k1 (zlen b)) by (try done; apply zlen_nonneg). ostep.
  rewrite E. by destruct l.
Qed.

Lemma sends_reads keys : Forall readable keys -> Forall2 sends (read_cmd <$> (unbound <$> keys)) (ask <$> keys).
Proof.
  induction 1 as [|key keys [Hk _] _ IH]; [constructor|]. rewrite !fmap_cons. constructor; [|done].
  split; [done|]. by apply says_str.
Qed.

Lemma asks_request keys : Forall readable keys -> Forall request (ask <$> keys).
Proof. intros H. apply Forall_fmap. eapply Forall_impl; [exact H|]. intros x Hx. left. by apply ask_query. Qed.

(** The packets that [info_readv] is going to read. *)
Definition replies M (keys : list bytes) : list bytes :=
  match keys with
  | [key] => [answer M (ask key)]
  | _ => (answer M <$> (ask <$> keys)) ++ [[MSG_PONG]]
  end.

Lemma send_readv l p room pats M pend keys :
  Online l p -> peer (world l) room pats M None pend -> Forall readable keys -> keys <> [] ->
  exists k, send_all info_cb wild l (readv_cmds (unbound <$> keys)) = Done (true, set_world l k) /\
    peer k room pats M None (pend ++ replies M keys).
Proof.
  intros Ho Hp Hall Hne. destruct keys as [|key [|key2 keys]]; [done| |].
  { apply Forall_cons in Hall as [Hall _]. destruct (peer_ask _ _ _ _ _ (ask key) Hp (ask_query key Hall)) as (k & E & Hp1).
    exists k. split; [|done]. by apply (send_read l p). }
  set (ks := key :: key2 :: keys) in *. destruct (peer_begin _ _ _ _ _ Hp) as (k1 & E1 & Hp1).
  destruct (send_queued room pats M pend p _ _ (set_world l k1) [] (sends_reads ks Hall) (asks_request ks Hall)) as (k2 & E2 & Hp2); [by apply online_world|done|].
  set (l2 := set_world (set_world l k1) k2) in *.
  assert (Ho2 : Online l2 p) by (by do 2 apply online_world).
  destruct (peer_later _ _ _ _ _ _ (CMD_PING, []) Hp2) as (k3 & E3 & Hp3); [by left; split; [right|]|].
  destruct (peer_answers _ _ _ _ _ _ Hp3) as (k4 & E4 & Hp4).
  { apply Forall_app. split; [|by apply Forall_singleton; split; [right|]]. apply Forall_fmap.
    eapply Forall_impl; [exact Hall|]. intros x. apply ask_query. }
  exists k4. cbn [app] in Hp4. rewrite fmap_app in Hp4. split; [|done].
  assert (R : readv_cmds (unbound <$> ks) = [(CMD_BEGIN, [], [])] ++ (read_cmd <$> (unbound <$> ks)) ++
    [(CMD_PING, [], [])] ++ [(CMD_COMMIT, [], [])]) by done.
  rewrite R, send_all_app, (send_taken l p CMD_BEGIN [] [] [] k1 0 Ho says_nothing E1) by lia. ostep.
  rewrite send_all_app, E2. ostep.
  rewrite send_all_app, (send_taken l2 p CMD_PING [] [] [] k3 0 Ho2 says_nothing E3) by lia. ostep.
  rewrite (send_taken (set_world l2 k3) p CMD_COMMIT [] [] [] k4 0); [by destruct l| |apply says_nothing|exact E4|lia].
  by apply online_world.
Qed.

(** ** Receiving *)

Lemma filled_app M a b o : filled M (a ++ b) o = filled M a o ++ filled M b (o + zlen (values M a)).
Proof.
  revert o. induction a as [|key a IH]; intros o; [by rewrite Z.add_0_r|]. cbn [app filled].
  unfold values. rewrite fmap_cons. cbn [concat]. rewrite zlen_app. fold (values M a).
  destruct (value_at M key) as [v|]; cbn [default]; rewrite IH; cbn [app]; [by rewrite Z.add_assoc|done].
Qed.

Lemma values_app M a b : values M (a ++ b) = values M a ++ values M b.
Proof. unfold values. by rewrite fmap_app, concat_app. Qed.

Lemma length_filled M keys o : length (filled M keys o) = length keys.
Proof.
  revert o. induction keys as [|key keys IH]; intros o; [done|]. cbn [filled].
  destruct (value_at M key); cbn; by rewrite IH.
Qed.

(** The state of [waitret] after the records of [dn] have arrived. *)
Definition progress M (until n : Z) (dn rest : list bytes) (buf : bytes) (bufsz : Z) : waitret :=
  mk_waitret until false n (Some (filled M dn 0 ++ (unbound <$> rest))) None 0
    (values M dn ++ drop (length (values M dn)) buf) (zlen (values M dn)) bufsz false.

Lemma find_filled M dn rest key data : forall o,
  cstr data = key -> Forall (fun k => 0 ∉ k) (dn ++ key :: rest) -> key ∉ dn ->
  find_bind (filled M dn o ++ (unbound <$> key :: rest)) data = Some (length dn, unbound key).
Proof.
  intros o Hd. revert o. induction dn as [|k dn IH]; intros o Hall Hnot.
  - apply Forall_cons in Hall as [Hk _]. cbn. unfold bytes_eqb. rewrite Hd, cstr_no_nul by done.
    by rewrite bool_decide_true.
  - apply Forall_cons in Hall as [Hk Hall]. cbn [filled app].
    assert (E : forall v z b, find_bind (mk_bind k v z :: b) data = (fun x => (S x.1, x.2)) <$> find_bind b data).
    { intros v z b. cbn. unfold bytes_eqb. rewrite Hd, cstr_no_nul by done.
      rewrite bool_decide_false; [done|]. intros ->. set_solver. }
    destruct (value_at M k); cbn [app]; rewrite E, IH; try done; set_solver.
Qed.

Lemma insert_filled M dn rest key b :
  <[length dn := b]> (filled M dn 0 ++ (unbound <$> key :: rest)) = filled M dn 0 ++ b :: (unbound <$> rest).
Proof. rewrite <- (length_filled M dn 0). by rewrite insert_app_r_alt, Nat.sub_diag by lia. Qed.

(** What is known of a record that the server sends. *)
Definition records M : Prop := forall key kv, M !! key = Some kv -> cstr kv = key /\ 0 ∈ kv /\ zlen kv <= 65535.

Lemma record_split M key kv :
  records M -> M !! key = Some kv -> kv = key ++ 0 :: value_of kv /\ value_at M key = Some (value_of kv).
Proof.
  intros Hrec Hk. destruct (Hrec key kv Hk) as (Hc & Hnul & _). unfold value_at. rewrite Hk. split; [|done].
  destruct (cstr_split kv Hnul) as [v E]. rewrite Hc in E. unfold value_of. rewrite Hc, E.
  rewrite <- Nat.add_1_r, <- drop_drop, drop_app_length. done.
Qed.

Lemma record_key M key : records M -> 0 ∉ key -> cstr (default key (M !! key)) = key.
Proof. intros Hrec Hk. destruct (M !! key) as [kv|] eqn:E; [by apply (Hrec key kv)|by apply cstr_no_nul]. Qed.

Lemma values_one M key : values M [key] = default [] (value_at M key).
Proof. unfold values. cbn. by rewrite app_nil_r. Qed.

Lemma bind_record l M until n dn key rest buf bufsz :
  wait l = progress M until n dn (key :: rest) buf bufsz -> records M -> 0 ∉ key ->
  zlen (values M (dn ++ [key])) <= bufsz <= zlen buf ->
  waitret_bind l (filled M dn 0 ++ (unbound <$> key :: rest)) (length dn) (unbound key) (default key (M !! key)) =
    Done (0, set_wait l (progress M until n (dn ++ [key]) rest buf bufsz)).
Proof.
  intros Hw Hrec Hk Hfit. unfold waitret_bind. rewrite (record_key M key Hrec Hk), Hw.
  cbn [buffersz buflen buffer progress]. unfold progress, set_binds.
  cbn [until_msg in_cb LibInfo.done binds exists_key exists_ret has_cb].
  rewrite filled_app, values_app, values_one, Z.add_0_l in *. rewrite !insert_filled. cbn [b_key unbound].
  rewrite <- (app_assoc (filled M dn 0)). cbn [filled].
  set (A := values M dn) in *. unfold value_at in *.
  destruct (M !! key) as [kv|] eqn:E; cbn [fmap option_fmap option_map from_option id] in *.
  - destruct (record_split M key kv Hrec E) as [Ekv _]. set (v := value_of kv) in *. rewrite Ekv.
    assert (El : zlen (key ++ 0 :: v) = zlen key + 1 + zlen v) by (rewrite zlen_app, zlen_cons; lia).
    rewrite El. pose proof (zlen_nonneg v). rewrite zlen_app in *.
    destruct (Z.eqb_spec (zlen key) (zlen key + 1 + zlen v)); [lia|].
    replace (zlen key + 1 + zlen v - (zlen key + 1)) with (zlen v) by lia.
    destruct (Z.ltb_spec bufsz (zlen v + zlen A)); [lia|].
    assert (Ed : drop (Z.to_nat (zlen key + 1)) (key ++ 0 :: v) = v).
    { replace (Z.to_nat (zlen key + 1)) with (length key + 1)%nat by (unfold zlen; lia).
      by rewrite <- drop_drop, drop_app_length. }
    rewrite Ed.
    assert (Eb : drop (length A) buf = take (length v) (drop (length A) buf) ++ drop (length (A ++ v)) buf).
    { rewrite length_app, <- drop_drop. symmetry. apply take_drop. }
    rewrite Eb, mwrite_app; [|done|unfold zlen in *; rewrite length_take, length_drop; lia].
    ostep. by rewrite <- app_assoc.
  - rewrite Z.eqb_refl, !app_nil_r. done.
Qed.

Lemma recv_record l p M until n dn key rest buf bufsz :
  l_proto l = Some p -> wait l = progress M until n dn (key :: rest) buf bufsz ->
  Forall (fun k => 0 ∉ k) (dn ++ key :: rest) -> key ∉ dn -> records M ->
  zlen (values M (dn ++ [key])) <= bufsz <= zlen buf ->
  info_on_input info_cb p l MSG_INFO (default key (M !! key)) =
    Done (1, set_wait l (progress M until (if until =? MSG_INFO then n + 1 else n) (dn ++ [key]) rest buf bufsz)).
Proof.
  intros Hp Hw Hall Hnot Hrec Hfit.
  assert (Hk : 0 ∉ key) by (by apply Forall_app in Hall as [_ [? _]%Forall_cons]).
  unfold info_on_input. rewrite (set_same l p Hp).
  set (l1 := if until_msg (wait l) =? MSG_INFO then _ else l).
  assert (H1 : wait l1 = progress M until (if until =? MSG_INFO then n + 1 else n) dn (key :: rest) buf bufsz /\
    forall w, set_wait l1 w = set_wait l w).
  { unfold l1. rewrite Hw. cbn [until_msg progress]. by destruct (until =? MSG_INFO). }
  destruct H1 as [Hw1 Hs]. change (MSG_INFO =? MSG_EOF) with false. cbv iota.
  rewrite Hw1. cbn [exists_key progress]. rewrite Hw1. cbn [binds progress]. change (MSG_INFO =? MSG_INFO) with true. cbv iota.
  rewrite (find_filled M dn rest key (default key (M !! key)) 0 (record_key M key Hrec Hk) Hall Hnot).
  rewrite (bind_record l1 _ _ _ _ _ _ _ _ Hw1 Hrec Hk Hfit). ostep. cbn [andb]. ostep.
  cbn [wait set_wait has_cb progress andb]. ostep. by rewrite Hs.
Qed.


(** ** Waiting *)

(** One read of [wait_until]: a packet that the handler accepts. *)
Lemma wait_packet l p room pats M q msg data pend :
  Online l p -> peer (world l) room pats M q ((msg :: data) :: pend) ->
  exists k, peer k room pats M q pend /\ forall fuel u l1,
    info_on_input info_cb p (set_world l k) msg data = Done (1, l1) -> l_proto l1 = Some p ->
    wait_loop info_cb wild (S fuel) l u =
      if negb (u =? ONCE) && (LibInfo.done (wait l1) =? 0) then wait_loop info_cb wild fuel l1 u
      else Done (LibInfo.done (wait l1), l1).
Proof.
  intros [Hf Hp Hm] (k & E & Hpk)%peer_read. exists k. split; [done|]. intros fuel u l1 E1 Hp1.
  cbn [wait_loop]. rewrite Hf, E. ostep. cbn [l_proto set_world]. rewrite Hp. ostep.
  rewrite proto_recv_framed by done. unfold recv_framed. cbn [on_input info_callbacks]. rewrite E1. ostep.
  rewrite (set_same l1 p Hp1). done.
Qed.

Section Reading.
Context (p : proto) (M : gmap bytes bytes) (buf : bytes) (bufsz : Z).
Hypothesis Hrec : records M.

Lemma progress_step l k u n dn rest : 
  Online l p -> Online (set_wait (set_world l k) (progress M u n dn rest buf bufsz)) p.
Proof. intros []. by split. Qed.

(** The records of a transaction arrive one by one; the PONG is still to come. *)
Lemma wait_records room pats rest : forall l dn fuel pend,
  Online l p -> wait l = progress M MSG_PONG 0 dn rest buf bufsz ->
  Forall (fun k => 0 ∉ k) (dn ++ rest) -> NoDup (dn ++ rest) ->
  zlen (values M (dn ++ rest)) <= bufsz <= zlen buf ->
  peer (world l) room pats M None ((answer M <$> (ask <$> rest)) ++ pend) ->
  exists k, peer k room pats M None pend /\
    wait_loop info_cb wild (length rest + fuel) l MSG_PONG =
    wait_loop info_cb wild fuel
      (set_wait (set_world l k) (progress M MSG_PONG 0 (dn ++ rest) [] buf bufsz)) MSG_PONG.
Proof.
  induction rest as [|key rest IH]; intros l dn fuel pend Ho Hw Hall Hnd Hfit Hpeer.
  { exists (world l). split; [done|]. rewrite app_nil_r, <- Hw. by destruct l. }
  rewrite !fmap_cons in Hpeer. destruct (wait_packet l p room pats M None _ _ _ Ho Hpeer) as (k & Hpk & Hstep).
  assert (Hnot : key ∉ dn) by (apply NoDup_app in Hnd as (_ & H & _); intros ?; by apply (H key); [|left]).
  assert (Hfit1 : zlen (values M (dn ++ [key])) <= bufsz <= zlen buf).
  { rewrite (cons_middle key dn rest), app_assoc, values_app, zlen_app in Hfit. pose proof (zlen_nonneg (values M rest)). lia. }
  pose proof (recv_record (set_world l k) p M MSG_PONG 0 dn key rest buf bufsz (on_proto _ _ Ho) Hw Hall Hnot Hrec Hfit1) as E1.
  set (l1 := set_wait (set_world l k) (progress M MSG_PONG 0 (dn ++ [key]) rest buf bufsz)) in *.
  assert (Ho1 : Online l1 p) by (by apply progress_step).
  cbn [length Nat.add]. rewrite (Hstep _ MSG_PONG l1 E1 (on_proto _ _ Ho1)). cbn [LibInfo.done wait set_wait progress l1].
  change (negb (MSG_PONG =? ONCE) && (0 =? 0)) with true. cbv iota.
  rewrite (cons_middle key dn rest), app_assoc in Hall, Hnd, Hfit.
  destruct (IH l1 (dn ++ [key]) fuel pend) as (k2 & Hpk2 & E2); [done|done|done|done|done|done|].
  exists k2. split; [done|]. rewrite E2, <- app_assoc. done.
Qed.

End Reading.

(** What [info_readv] waits for. *)
Definition readv_until (keys : list bytes) : Z := match keys with [_] => MSG_INFO | _ => MSG_PONG end.

(** The commands of [info_readv] are sent and it waits, with nothing bound yet. *)
Lemma readv_start fuel l p room pats M pend bs buf bufsz :
  Online l p -> in_cb (wait l) = false -> peer (world l) room pats M None pend ->
  bs <> [] -> Forall readable (b_key <$> bs) ->
  let u := readv_until (b_key <$> bs) in
  exists k, peer k room pats M None (pend ++ replies M (b_key <$> bs)) /\
    info_readv info_cb wild junk fuel l bs buf bufsz =
      ('(r, l2) ← ('(r, l1) ← wait_loop info_cb wild fuel
          (set_wait (set_world l k) (progress M u 0 [] (b_key <$> bs) buf bufsz)) u;
        if r =? -1 then Done (fail l1) else Done (0, l1));
       Done (r, default (unbound <$> (b_key <$> bs)) (binds (wait l2)), l2)).
Proof.
  intros Ho Hcb Hp Hne Hread u. set (keys := b_key <$> bs) in *.
  assert (Hk : keys <> []) by (unfold keys; by destruct bs).
  set (l0 := set_wait l waitret_zero). assert (Ho0 : Online l0 p) by (by destruct Ho).
  destruct (send_readv l0 p room pats M pend keys Ho0 Hp Hread Hk) as (k & E & Hpk). exists k. split; [done|].
  unfold info_readv. destruct bs as [|b bs]; [done|].
  replace (clear_binds (b :: bs)) with (unbound <$> keys)
    by (unfold keys, clear_binds; by rewrite <- list_fmap_compose).
  unfold waitret_init. rewrite Hcb. cbn [Z.eqb]. fold l0. unfold info_open.
  rewrite (on_fd _ _ Ho0), (on_proto _ _ Ho0), (proj2 (Z.eqb_neq _ _) peer_open).
  cbn [negb andb bool_decide]. rewrite bool_decide_true by done. cbn [andb Z.eqb]. rewrite E. ostep. cbn [negb].
  unfold wait_or_fail, wait_until.
  assert (Hu : match unbound <$> keys with [_] => MSG_INFO | _ => MSG_PONG end = u).
  { unfold u, readv_until. by destruct keys as [|? [|? ?]]. }
  rewrite Hu. done.
Qed.

Lemma recv_pong l p M n dn buf bufsz :
  l_proto l = Some p -> wait l = progress M MSG_PONG n dn [] buf bufsz ->
  info_on_input info_cb p l MSG_PONG [] = Done (1, set_wait l (progress M MSG_PONG (n + 1) dn [] buf bufsz)).
Proof.
  intros Hp Hw. unfold info_on_input. rewrite (set_same l p Hp), Hw. cbn [until_msg progress].
  change (MSG_PONG =? MSG_PONG) with true. cbn [exists_key binds wait set_wait inc_done set_until progress].
  change (MSG_PONG =? MSG_EOF) with false. change (MSG_PONG =? MSG_INFO) with false.
  change (MSG_PONG =? MSG_ERROR) with false. cbv iota. ostep. cbn [Z.eqb andb]. by ostep.
Qed.

(** [info_readv] on a connection with nothing to be read: all keys get their values. *)
Lemma readv_ok fuel l p room pats M bs buf bufsz :
  Online l p -> in_cb (wait l) = false -> peer (world l) room pats M None [] ->
  bs <> [] -> Forall readable (b_key <$> bs) -> NoDup (b_key <$> bs) ->
  zlen (values M (b_key <$> bs)) <= bufsz <= zlen buf -> (length bs < fuel)%nat ->
  exists l' k n, info_readv info_cb wild junk fuel l bs buf bufsz = Done (0, filled M (b_key <$> bs) 0, l') /\
    l' = set_wait (set_world l k) (progress M (readv_until (b_key <$> bs)) n (b_key <$> bs) [] buf bufsz) /\
    peer k room pats M None [].
Proof.
  intros Ho Hcb Hp Hne Hread Hnd Hfit Hfuel.
  destruct (readv_start fuel l p room pats M [] bs buf bufsz Ho Hcb Hp Hne Hread) as (k & Hpk & ->).
  assert (Hlen : length (b_key <$> bs) = length bs) by apply length_fmap. rewrite <- Hlen in Hfuel.
  assert (Hrec : records M) by (intros key kv; by apply (peer_record _ _ _ _ _ _ _ _ Hp)).
  set (keys := b_key <$> bs) in *. set (l0 := set_wait (set_world l k) _).
  assert (Ho0 : Online l0 p) by (by destruct Ho).
  assert (Hnul : Forall (fun k => 0 ∉ k) keys) by (eapply Forall_impl; [exact Hread|]; by intros x []).
  destruct keys as [|key [|key2 keys']] eqn:Ek; [by destruct bs| |].
  - cbn [replies app] in Hpk. destruct (wait_packet l0 p room pats M None _ _ _ Ho0 Hpk) as (k1 & Hpk1 & Hstep).
    destruct fuel as [|fuel]; [cbn in Hfuel; lia|].
    pose proof (recv_record (set_world l0 k1) p M MSG_INFO 0 [] key [] buf bufsz (on_proto _ _ Ho0) eq_refl Hnul
      (not_elem_of_nil key) Hrec Hfit) as E1.
    cbn [readv_until]. erewrite Hstep; [|exact E1|apply Ho0]. ostep.
    eexists _, k1, 1. split; [by refine (eq_trans _ (f_equal (fun x => Done (0, x, _)) (app_nil_r _)))|]. by split.
  - rewrite <- Ek in *. assert (Er : replies M keys = (answer M <$> (ask <$> keys)) ++ [[MSG_PONG]]) by (by rewrite Ek).
    assert (Eu : readv_until keys = MSG_PONG) by (by rewrite Ek). cbn [app] in Hpk. rewrite Er in Hpk.
    replace fuel with (length keys + S (fuel - S (length keys)))%nat by lia. rewrite Eu in *.
    destruct (wait_records p M buf bufsz Hrec room pats keys l0 [] (S (fuel - S (length keys))) [[MSG_PONG]])
      as (k1 & Hpk1 & ->); try done; [by rewrite Ek|].
    set (l1 := set_wait (set_world l0 k1) _). assert (Ho1 : Online l1 p) by (by destruct Ho0).
    destruct (wait_packet l1 p room pats M None _ _ _ Ho1 Hpk1) as (k2 & Hpk2 & Hstep).
    erewrite Hstep; [|apply (recv_pong _ p M 0 keys buf bufsz); [apply Ho1|done]|apply Ho1]. ostep.
    eexists _, k2, 1. split; [by refine (eq_trans _ (f_equal (fun x => Done (0, x, _)) (app_nil_r _)))|]. by split.
Qed.

(** ** Writing *)

(** A binding as [info_writev] takes it: a key with a value, or a key to delete. *)
Definition record_of (b : bytes * option bytes) : bytes :=
  match b.2 with Some v => b.1 ++ 0 :: v | None => b.1 end.
Definition writable (b : bytes * option bytes) : Prop := (0 ∉ b.1) /\ zlen (record_of b) <= 65535.
Definition put (b : bytes * option bytes) : Z * bytes := (CMD_WRITE, record_of b).

Lemma says_record key v : 0 ∉ key -> says $"%s%c%*s" [APtr key; AInt 0; AInt (zlen v); APtr v] (key ++ 0 :: v).
Proof.
  intros Hk p l. exists [cstr key; [0]; v]. rewrite cstr_no_nul by done. split.
  - cbn. by rewrite mread_all, cstr_no_nul.
  - cbn. by rewrite app_nil_r.
Qed.

Lemma sends_write b : writable b -> sends (write_cmd b) (put b).
Proof.
  destruct b as [key [v|]]; intros [Hk _]; (split; [done|]); [by apply says_record|by apply says_str].
Qed.

Lemma put_request b : writable b -> request (put b).
Proof. intros [_ Hsz]. right. by left. Qed.

(** Without subscriptions nothing is heard of a change. *)
Lemma puts_silent M bs : all_replies M [] (put <$> bs) = [] /\ subs_afters [] (put <$> bs) = [] /\
  costs (put <$> bs) = length bs /\ all_fit [] (put <$> bs).
Proof.
  revert M. induction bs as [|b bs IH]; intros M; [done|]. destruct (IH (effect M (put b))) as (H1 & H2 & H3 & H4).
  rewrite fmap_cons. cbn [all_replies subs_afters costs length all_fit].
  change (subs_after [] (put b)) with (@nil bytes). rewrite H1, H2, H3.
  assert (Hr : reply M [] (put b) = []) by (unfold reply, told; cbn; by destruct (news _ _)).
  rewrite Hr. by split_and!.
Qed.

(** [info_writev] changes the map, key by key, and nothing is sent back. *)
Lemma writev_ok l p room M pend bs :
  Online l p -> peer (world l) (length bs + room) [] M None pend -> bs <> [] -> Forall writable bs ->
  exists k, info_writev info_cb wild junk l bs = Done (0, set_world l k) /\
    peer k room [] (effects M (put <$> bs)) None pend.
Proof.
  intros Ho Hp Hne Hall. unfold info_writev.
  assert (Hop : info_open junk l None = (0, l)).
  { unfold info_open. rewrite (on_fd _ _ Ho), (on_proto _ _ Ho), (proj2 (Z.eqb_neq _ _) peer_open).
    by rewrite bool_decide_true. }
  assert (Hreq : Forall request (put <$> bs)).
  { apply Forall_fmap. eapply Forall_impl; [exact Hall|]. intros x. apply put_request. }
  assert (Hs : Forall2 sends (write_cmd <$> bs) (put <$> bs)).
  { clear -Hall. induction Hall; constructor; [by apply sends_write|done]. }
  destruct (puts_silent M bs) as (Er & Es & Ec & Hfit).
  rewrite Hop. enough (exists k, send_all info_cb wild l (writev_cmds bs) = Done (true, set_world l k) /\
    peer k room [] (effects M (put <$> bs)) None pend) as (k & E & Hpk).
  { exists k. destruct bs; [done|]. cbn [Z.eqb]. rewrite E. by ostep. }
  destruct bs as [|b [|b2 bs]]; [done| |].
  - destruct (peer_now _ room [] M pend (put b) Hp) as (k & E & Hpk); [apply put_request; by eapply Forall_inv|apply Hfit|].
    cbn [fmap list_fmap all_replies] in Er. rewrite app_nil_r in Er. rewrite Er, app_nil_r in Hpk.
    exists k. split; [|done]. apply Forall_inv in Hall.
    cbn [writev_cmds]. destruct (write_cmd b) as [[msg fmt] ap] eqn:Ew.
    pose proof (sends_write b Hall) as [H1 H2]. rewrite Ew in H1, H2. cbn in H1, H2. subst msg.
    by apply (send_taken l p _ _ _ (record_of b) k (zlen (record_of b))); try done; apply zlen_nonneg.
  - set (ws := b :: b2 :: bs) in *. destruct (peer_begin _ _ _ _ _ Hp) as (k1 & E1 & Hp1).
    destruct (send_queued (length ws + room) [] M pend p _ _ (set_world l k1) [] Hs Hreq) as (k2 & E2 & Hp2);
      [by apply online_world|done|].
    cbn [app] in Hp2. rewrite <- Ec in Hp2.
    destruct (peer_commit _ _ _ _ _ _ Hp2 Hreq Hfit) as (k3 & E3 & Hp3). exists k3. rewrite Er, Es, app_nil_r in Hp3. split; [|done].
    assert (R : writev_cmds ws = [(CMD_BEGIN, [], [])] ++ (write_cmd <$> ws) ++ [(CMD_COMMIT, [], [])]) by done.
    rewrite R, send_all_app, (send_taken l p CMD_BEGIN [] [] [] k1 0 Ho says_nothing E1) by lia. ostep.
    rewrite send_all_app, E2. ostep.
    rewrite (send_taken (set_world (set_world l k1) k2) p CMD_COMMIT [] [] [] k3 0); [by destruct l| |apply says_nothing|exact E3|lia].
    by do 2 apply online_world.
Qed.

End Client.
