(* ===== verification/LibDaemon.v ===== *)
(** * The daemon as the library's server

    A client process and the daemon joined by a local socket: what the library writes is served
    by [on_net_ready] of infod.c, what the daemon sends to that client is what the library
    reads. The daemon keeps the promises of [InfoPeer]; payloads are as long as a message allows,
    so none of its other clients speaks the text protocol. *)
From S2P Require Import Prelude Match StoreDefs StoreLayout StoreRep StoreOps StoreTheorems.
From S2P Require Import Rxbuf ProtoDefs ProtoBin Infod InfodSpec InfodSay InfodSim InfodCmd InfodTheorems.
From S2P Require Import LibInfo LibPeer.
Import Match.
Local Open Scope infod_scope.

(** The packets of the log that went to [fd]. *)
Definition sent_to (fd : Z) (ev : list event) : list bytes :=
  omap (fun e => match e with Sent f b => if f =? fd then Some b else None | _ => None end) ev.

Lemma sent_to_app fd a b : sent_to fd (a ++ b) = sent_to fd a ++ sent_to fd b.
Proof. apply omap_app. Qed.

Lemma sent_to_all fd ps : sent_to fd (Sent fd <$> ps) = ps.
Proof. unfold sent_to. induction ps as [|b ps IH]; [done|]. cbn. rewrite Z.eqb_refl. cbn. by rewrite <- IH at 2. Qed.

(** A connection: the daemon, how many of its packets have been read, whether it is open. *)
Record conn (ST : Type) := mk_conn { k_daemon : daemon ST; k_taken : nat; k_open : bool }.
Arguments mk_conn {ST}. Arguments k_daemon {ST}. Arguments k_taken {ST}. Arguments k_open {ST}.

Section Conn.
Context {os : OS} {net : Net} {ST : Type} {KV : KVStore ST}.
(** The descriptor of the library's end, and of the daemon's. *)
Context (cfd dfd : Z) (junk : textproto * nat).
Abbreviation conn := (conn ST).
Implicit Types (k : conn) (d : daemon ST).

Definition conn_write k (b : bytes) : outcome (Z * conn) :=
  if negb (k_open k) then Done (-1, k)
  else
    '(r, d1) ← on_net_ready (k_daemon k) (Some dfd) (Some b);
    if r <=? 0 then
      d2 ← on_net_close d1 (Some dfd);
      Done (zlen b, mk_conn d2 (k_taken k) false)
    else Done (zlen b, mk_conn d1 (k_taken k) true).

(** With nothing to read, a read of an open connection waits for ever. *)
Definition conn_read k : outcome (option bytes * conn) :=
  match sent_to dfd (events (k_daemon k)) !! k_taken k with
  | Some b => Done (Some b, mk_conn (k_daemon k) (S (k_taken k)) (k_open k))
  | None => if k_open k then Crash OutOfFuel else Done (Some [], k)
  end.

Definition conn_accept k : option Z * conn :=
  match on_net_accept (k_daemon k) dfd true junk with
  | (Some _, d) => (Some cfd, mk_conn d (length (sent_to dfd (events d))) true)
  | (None, d) => (None, mk_conn d (k_taken k) false)
  end.

#[export] Instance conn_link : Link conn := {
  sys_writev k _ b := conn_write k b;
  sys_read k _ := conn_read k;
  sys_closefd k _ := mk_conn (k_daemon k) (k_taken k) false;
  sys_shutdown k _ := mk_conn (k_daemon k) (k_taken k) false;
  sockunix_connect k := conn_accept k;
  tcp_client_addrinfo k _ := (None, k);
  sys_socket k _ := (None, k);
  sys_connect k _ _ := (false, k)
}.

Abbreviation Inv := (Inv (lim:=MAX_PAYLOAD)).
Abbreviation queued := (queued MAX_PAYLOAD).
Abbreviation Said := (Said (lim:=MAX_PAYLOAD)).
Abbreviation abs_find := (abs_find (lim:=MAX_PAYLOAD)).
Abbreviation upd_client_ext := (upd_client_ext (lim:=MAX_PAYLOAD)).

(** With long payloads there is no text client. *)
Lemma plain_inv d fd : Inv d -> mode_of (abs d) fd <> PROTO_MODE_TEXT.
Proof.
  intros Hinv. unfold mode_of. destruct (a_find (abs d) fd) as [a|] eqn:Ha; [|done]. cbn.
  destruct (get_of_abs d fd a Hinv Ha) as (c & Hc & ->). pose proof (get_client_inv d fd c Hinv Hc) as Hci. cbn. intros E.
  destruct (settle_mode _ (ci_mode Hci)) as [E'|[E'|[_ Ht]]]; [by rewrite E in E'..|].
  pose proof (ci_text Hci Ht). unfold MAX_PAYLOAD, TEXT_LIMIT in *. lia.
Qed.

Lemma no_text_errors : MAX_PAYLOAD <= TEXT_LIMIT -> forall ev, zlen (strerror ev) <= 255.
Proof. done. Qed.

(** Every message is one packet. *)
Lemma plain_events d outs d' :
  Inv d -> (exists evs, events d' = events d ++ evs /\ on_wire (abs d) outs evs) ->
  events d' = events d ++ (wire (abs d) <$> outs).
Proof.
  intros Hinv (evs & -> & Hw). f_equal. apply (on_wire_plain _ _ _ (fun fd => plain_inv d fd Hinv) Hw).
Qed.

(** The library's client in the daemon: its transaction, if it has begun one. *)
Definition in_txn (a : aclient) (q : option (list (Z * bytes))) : Prop :=
  match q with
  | None => a_begins a = 0 /\ a_queue a = []
  | Some q => a_begins a = 1 /\ a_queue a = q
  end.

Record Joined k (n : nat) (pats : list bytes) (M : gmap bytes bytes) (q : option (list (Z * bytes))) (pend : list bytes) : Prop := {
  j_open : k_open k = true;
  j_inv : Inv (k_daemon k);
  j_holds : kv_holds (the_store (k_daemon k)) M;
  j_room : kv_room (the_store (k_daemon k)) n;
  j_client : exists a, a_find (abs (k_daemon k)) dfd = Some a /\ a_mode a = PROTO_MODE_FRAMED /\
    a_subs a = pats /\ in_txn a q;
  j_pend : exists seen, sent_to dfd (events (k_daemon k)) = seen ++ pend /\ length seen = k_taken k
}.

Hypothesis writev_takes : forall ev fd b, writev ev fd b = zlen b.
Hypothesis malloc_succeeds : forall ev n, malloc_ok ev n = true.
(** There is memory and disk space for what is written. *)
Hypothesis put_succeeds : forall s M kv n r s', kv_holds s M -> kv_room s (S n) -> wf_kv kv ->
  kv_put s (zlen kv) kv = Done (r, s') -> r <> -1.

(** ** Requests *)

(** The library's client has the subscriptions [pats]; the packets [outs] are sent to it. Other
    clients may be told of a change. *)
Record Obeyed d (n : nat) (pats : list bytes) (M' : gmap bytes bytes) (outs : list bytes) d' : Prop := {
  ob_inv : Inv d';
  ob_shape : shape (abs d') = shape (abs d);
  ob_client a : a_find (abs d) dfd = Some a -> a_find (abs d') dfd = Some (with_subs pats a);
  ob_holds : kv_holds (the_store d') M';
  ob_room : kv_room (the_store d') n;
  ob_sent : sent_to dfd (events d') = sent_to dfd (events d) ++ outs
}.

(** Nothing but messages. *)
Lemma obeyed_said d c n M' msgs outs s d' :
  Inv d -> get_client d dfd = Done c -> Said (set_store d s) msgs d' -> kv_holds s M' -> kv_room s n ->
  sent_to dfd (wire (abs d) <$> msgs) = outs -> Obeyed d n (subs c) M' outs d'.
Proof.
  intros Hinv Hc [A S E%(plain_events (set_store d s)) I] HM Hn <-; [|done]. change (abs (set_store d s)) with (abs d) in *.
  split; [done|by rewrite A| |by rewrite S|by rewrite S|by rewrite E, sent_to_app].
  intros a. rewrite A, (abs_find d dfd c Hinv Hc). intros [= <-]. done.
Qed.

(** The subscriptions change. *)
Lemma obeyed_subs d c n M pats msgs outs d' :
  get_client d dfd = Done c -> Inv d' -> abs d' = a_upd (abs d) dfd (with_subs pats) ->
  the_store d' = the_store d -> events d' = events d ++ (wire (abs d) <$> msgs) ->
  kv_holds (the_store d) M -> kv_room (the_store d) n ->
  sent_to dfd (wire (abs d) <$> msgs) = outs -> Obeyed d n pats M outs d'.
Proof.
  intros Hc Hinv A S E HM Hn <-.
  split; [done|rewrite A; by apply shape_upd| |by rewrite S|by rewrite S|by rewrite E, sent_to_app].
  intros a Ha. rewrite A. by apply a_find_upd.
Qed.

Lemma wire_framed d a msg pl :
  a_find (abs d) dfd = Some a -> a_mode a = PROTO_MODE_FRAMED ->
  wire (abs d) (dfd, msg, pl) = Sent dfd (msg :: pl).
Proof. intros Ha Hm. unfold wire, mode_of, frame. cbn. rewrite Ha. cbn. by rewrite Hm. Qed.

(** A question is answered at once and nothing else happens. *)
Lemma query_ok d M c cmd :
  Inv d -> get_client d dfd = Done c -> kv_holds (the_store d) M -> query cmd ->
  exists r d' pl, run_command d dfd cmd.1 cmd.2 = Done (r, d') /\ 0 < r /\
    Said d [(dfd, hd0 (answer M cmd), pl)] d' /\ answer M cmd = hd0 (answer M cmd) :: pl.
Proof.
  intros Hinv Hc HM [Hq Hsz]. destruct cmd as [msg data]. cbn [fst snd] in *.
  destruct Hq as [[-> Hnul]| ->]; unfold answer; cbn [fst snd].
  - change (CMD_READ =? CMD_READ) with true. cbv iota. cbn [hd0].
    change (run_command d dfd CMD_READ data) with (cmd_read d dfd data). unfold cmd_read, contains_nul.
    rewrite bool_decide_false by done. rewrite (kv_get_law _ _ data HM), (cstr_no_nul data Hnul). ostep.
    destruct (M !! data) as [kv|] eqn:E; cbn [from_option id].
    + destruct (kv_record _ _ _ _ HM E) as [[Hkv _] _].
      destruct (client_output_ok writev_takes d dfd c MSG_INFO _ _ _ Hinv Hc (says_info dfd kv ltac:(lia))) as (r & d' & E1 & Hr & Hs);
        [lia|done|]. by exists r, d', kv.
    + destruct (client_output_ok writev_takes d dfd c MSG_INFO _ _ _ Hinv Hc (says_absent dfd data ltac:(lia) Hnul)) as (r & d' & E1 & Hr & Hs);
        [lia|done|]. by exists r, d', data.
  - change (CMD_PING =? CMD_READ) with false. cbv iota. cbn [hd0].
    destruct (client_output_ok writev_takes d dfd c MSG_PONG _ _ _ Hinv Hc (says_pong dfd data ltac:(lia))) as (r & d' & E1 & Hr & Hs);
      [lia|done|]. by exists r, d', data.
Qed.

(** Messages to the library, and to the others. *)
Lemma sent_own d c msg (pls : list bytes) :
  Inv d -> get_client d dfd = Done c -> mode (c_proto c) = PROTO_MODE_FRAMED ->
  sent_to dfd (wire (abs d) <$> ((fun pl => (dfd, msg, pl)) <$> pls)) = cons msg <$> pls.
Proof.
  intros Hinv Hc Hm. induction pls as [|pl pls IH]; [done|]. rewrite !fmap_cons.
  rewrite (wire_framed d (abs_client c)); [|by apply abs_find|cbn; unfold settle; by rewrite Hm].
  rewrite <- IH. unfold sent_to. cbn. by rewrite Z.eqb_refl.
Qed.

Lemma sent_others d fd (l : list bytes) pl :
  fd <> dfd -> sent_to dfd (wire (abs d) <$> ((fun _ => (fd, MSG_INFO, pl)) <$> l)) = [].
Proof.
  intros E. induction l as [|x l IH]; [done|]. rewrite !fmap_cons. cbn. by rewrite (proj2 (Z.eqb_neq _ _) E).
Qed.

(** The library is told of a change once for each of its subscriptions that matches. *)
Lemma notices_own d c data :
  Inv d -> get_client d dfd = Done c -> mode (c_proto c) = PROTO_MODE_FRAMED ->
  sent_to dfd (wire (abs d) <$> notices (abs d) data) =
    cons MSG_INFO <$> ((fun _ => data) <$> filter (hits data) (subs c)).
Proof.
  intros Hinv Hc Hm. destruct (get_client_elem _ _ _ Hc) as [Hin Hfd].
  destruct (list_elem_of_split _ _ Hin) as (l1 & l2 & El). destruct (Hinv) as [Hnd _].
  assert (Hne : forall c', c' ∈ l1 \/ c' ∈ l2 -> c_fd c' <> dfd).
  { rewrite El, fmap_app, fmap_cons in Hnd. apply NoDup_app in Hnd as (_ & Hd & Hnd2). apply NoDup_cons in Hnd2 as [Hn2 _].
    intros c' [Hc'|Hc'] E; rewrite Hfd in *.
    - apply (Hd (c_fd c')); [by apply list_elem_of_fmap_2|]. rewrite E. by left.
    - apply Hn2. rewrite <- E. by apply list_elem_of_fmap_2. }
  assert (Hot : forall l, (forall c', c' ∈ l -> c_fd c' <> dfd) ->
    sent_to dfd (wire (abs d) <$> concat (notices_to data <$> (abs_client <$> l))) = []).
  { induction l as [|c' l IH]; intros Hl; [done|]. rewrite !fmap_cons. cbn [concat]. rewrite fmap_app, sent_to_app.
    rewrite IH by set_solver. rewrite app_nil_r. apply sent_others. apply Hl. by left. }
  unfold notices. unfold abs at 2. rewrite El, !fmap_app, !fmap_cons, concat_app. cbn [concat].
  rewrite !fmap_app, !sent_to_app, !Hot by auto. rewrite app_nil_r. cbn [app].
  unfold notices_to. cbn [a_fd a_subs abs_client]. rewrite Hfd.
  rewrite <- (sent_own d c MSG_INFO _ Hinv Hc Hm). do 2 f_equal. by rewrite <- list_fmap_compose.
Qed.

Lemma obeyed_notify d d1 c data M' n s :
  Inv d -> get_client d dfd = Done c -> mode (c_proto c) = PROTO_MODE_FRAMED -> zlen data <= 65535 ->
  kv_holds s M' -> kv_room s n -> d1 = set_store d s ->
  exists d', (d2 ← notify_clients d1 (all_clients d1) data; Done (1, d2)) = Done (1, d') /\
    Obeyed d n (subs c) M' (cons MSG_INFO <$> ((fun _ => data) <$> filter (hits data) (subs c))) d'.
Proof.
  intros Hinv Hc Hm Hsz HM Hn ->. destruct (notify_all_ok (lim:=MAX_PAYLOAD) writev_takes ltac:(done) no_text_errors data (set_store d s) Hinv Hsz) as (d2 & -> & Hs).
  exists d2. split; [done|]. eapply obeyed_said; [done|done|exact Hs|done|done|]. exact (notices_own d c data Hinv Hc Hm).
Qed.

(** A WRITE changes the map as it should. *)
Lemma write_ok d M n c data :
  Inv d -> get_client d dfd = Done c -> mode (c_proto c) = PROTO_MODE_FRAMED ->
  kv_holds (the_store d) M -> kv_room (the_store d) (S n) -> zlen data <= 65535 ->
  exists d', cmd_write d dfd data = Done (1, d') /\
    Obeyed d n (subs c) (written M data) (reply M (subs c) (CMD_WRITE, data)) d'.
Proof.
  intros Hinv Hc Hm HM Hn Hsz. unfold cmd_write, write_store, written, reply, told, news, contains_nul. cbn [fst snd].
  change (CMD_WRITE =? CMD_PING) with false. change (CMD_WRITE =? CMD_WRITE) with true. cbv iota.
  assert (Hq : forall s M', kv_holds s M' -> kv_room s n -> Obeyed d n (subs c) M' [] (set_store d s)).
  { intros s M' H1 H2. eapply obeyed_said; [done|done|by apply Said_refl|done|done|done]. }
  case_bool_decide as Hnul; cbn [negb].
  - destruct (is_ephemeral data) eqn:Eeph; ostep; cbn [orb].
    { eapply obeyed_notify; [done|done|done|done|done|by apply kv_room_law|by rewrite set_store_same]. }
    rewrite (u16_small (zlen data)) by (pose proof (zlen_nonneg data); lia).
    assert (Hwf : wf_kv data) by (split; [lia|done]).
    destruct (kv_put_law _ _ data n HM Hn Hwf) as (r & s & M' & E & HM' & Hn' & Hr).
    pose proof (put_succeeds _ _ _ _ _ _ HM Hn Hwf E) as Hne. rewrite E. ostep.
    destruct Hr as [(-> & -> & -> & Hsame)|[(-> & Hdiff & ->)|(-> & _)]]; cbn [Z.eqb]; ostep; [| |done].
    + eexists. split; [done|]. rewrite insert_id, bool_decide_true by done. by apply Hq.
    + rewrite bool_decide_false by done. by eapply obeyed_notify.
  - destruct (kv_del_law _ _ data (S n) HM Hn) as (s & -> & HM' & Hn' & _). ostep.
    rewrite (cstr_no_nul data Hnul) in *. destruct (M !! data) as [kv|] eqn:Ek.
    + rewrite decide_True, bool_decide_true by done. cbn [Z.eqb]. ostep. eapply obeyed_notify; try done. by apply kv_room_law.
    + rewrite decide_False, bool_decide_false by (by intros [? ?]). cbn [Z.eqb]. ostep.
      eexists. split; [done|]. apply Hq; [done|by apply kv_room_law].
Qed.

Lemma sub_ok d M n c data :
  Inv d -> get_client d dfd = Done c -> mode (c_proto c) = PROTO_MODE_FRAMED ->
  kv_holds (the_store d) M -> kv_room (the_store d) n -> zlen (subs c) <= MAX_SUBS ->
  0 ∉ data -> match_isvalid data = true ->
  exists d', cmd_sub d dfd data = Done (1, d') /\
    Obeyed d n (data :: subs c) M (reply M (subs c) (CMD_SUB, data)) d'.
Proof.
  intros Hinv Hc Hm HM Hn Hfew Hnul Hval.
  destruct (sub_taken writev_takes ltac:(done) d M dfd c data Hinv Hc HM (kv_bounded _ _ HM) Hfew Hnul Hval)
    as (ks & d' & E & Hs & Hk & A & S & Ev%(plain_events d) & I); [| |done].
  { unfold subscription_new. by rewrite malloc_succeeds. }
  exists d'. split; [done|]. eapply obeyed_subs; [done|done|done|done|exact Ev|done|done|].
  unfold snapshot, reply, told. cbn [fst snd Z.eqb Pos.eqb CMD_SUB CMD_PING CMD_WRITE].
  rewrite <- (listing_unique ks M Hs Hk).
  by apply (sent_own d c).
Qed.

Lemma unsubscribe_split data l1 l2 : data ∉ l1 -> unsubscribe data (l1 ++ data :: l2) = l1 ++ l2.
Proof.
  induction l1 as [|x l1 IH]; intros Hn; cbn; [by rewrite bool_decide_true|].
  apply not_elem_of_cons in Hn as [Hx Hn]. rewrite bool_decide_false by done. by rewrite IH.
Qed.
Lemma unsubscribe_absent data l : data ∉ l -> unsubscribe data l = l.
Proof.
  induction l as [|x l IH]; intros Hn; cbn; [done|].
  apply not_elem_of_cons in Hn as [Hx Hn]. rewrite bool_decide_false by done. by rewrite IH.
Qed.

Lemma unsub_ok d M n c data :
  Inv d -> get_client d dfd = Done c -> kv_holds (the_store d) M -> kv_room (the_store d) n ->
  exists d', cmd_unsub d dfd data = Done (1, d') /\ Obeyed d n (unsubscribe data (subs c)) M [] d'.
Proof.
  intros Hinv Hc HM Hn. destruct (decide (data ∈ subs c)) as [Hin|Hn1].
  - destruct (list_elem_of_split_l _ _ Hin) as (l1 & l2 & El & Hn1).
    destruct (unsub_taken d dfd c data l1 l2 Hinv Hc El Hn1) as (d' & E & A & S & Ev & I).
    exists d'. split; [done|]. rewrite El, unsubscribe_split by done.
    eapply (obeyed_subs d c n M _ []); try done. by rewrite app_nil_r.
  - rewrite (unsub_absent d dfd c data Hc Hn1), unsubscribe_absent by done. exists d. split; [done|].
    eapply (obeyed_said d c n M []); [done|done|rewrite set_store_same; by apply Said_refl|done|done|done].
Qed.

Lemma request_ok d M n c cmd :
  Inv d -> get_client d dfd = Done c -> mode (c_proto c) = PROTO_MODE_FRAMED ->
  kv_holds (the_store d) M -> kv_room (the_store d) (cost cmd + n) -> request cmd -> fits (subs c) cmd ->
  exists r d', run_command d dfd cmd.1 cmd.2 = Done (r, d') /\ 0 < r /\
    Obeyed d n (subs_after (subs c) cmd) (effect M cmd) (reply M (subs c) cmd) d'.
Proof.
  intros Hinv Hc Hm HM Hn [Hq|[[Hw Hsz]|[(Hw & Hnul & Hval & Hsz)|[Hw Hsz]]]] Hfit.
  - destruct (query_ok d M c cmd Hinv Hc HM Hq) as (r & d' & pl & E & Hr & Hsaid & Hans).
    destruct (query_kind M (subs c) cmd Hq) as (-> & -> & -> & Ec & _). rewrite Ec in Hn.
    exists r, d'. split_and!; [done|done|]. rewrite <- (set_store_same d) in Hsaid.
    eapply obeyed_said; [done|done|exact Hsaid|done|done|].
    rewrite Hans at 2. by apply (sent_own d c _ [pl]).
  - destruct cmd as [msg data]. cbn [fst snd] in *. subst msg.
    destruct (write_ok d M n c data Hinv Hc Hm HM Hn Hsz) as (d' & E & Ho). by exists 1, d'.
  - destruct cmd as [msg data]. cbn [fst snd] in *. subst msg.
    destruct (sub_ok d M n c data Hinv Hc Hm HM Hn (Hfit eq_refl) Hnul Hval) as (d' & E & Ho). by exists 1, d'.
  - destruct cmd as [msg data]. cbn [fst snd] in *. subst msg.
    destruct (unsub_ok d M n c data Hinv Hc HM Hn) as (d' & E & Ho). by exists 1, d'.
Qed.

(** ** A packet through the translator *)

Lemma framed_client d a :
  Inv d -> a_find (abs d) dfd = Some a -> a_mode a = PROTO_MODE_FRAMED ->
  exists c, get_client d dfd = Done c /\ a = abs_client c /\ mode (c_proto c) = PROTO_MODE_FRAMED.
Proof.
  intros Hinv Ha Hm. destruct (get_of_abs d dfd a Hinv Ha) as (c & Hc & ->). exists c. split_and!; try done.
  cbn in Hm. unfold settle in Hm. by destruct (mode (c_proto c) =? PROTO_MODE_UNKNOWN).
Qed.

(** The handler runs on the daemon as it is; putting the translator back changes nothing. *)
Lemma ready_framed d a msg data r d1 :
  Inv d -> a_find (abs d) dfd = Some a -> a_mode a = PROTO_MODE_FRAMED ->
  app_input 2 d dfd msg data = Done (r, d1) -> Inv d1 -> shape (abs d1) = shape (abs d) ->
  exists d2, on_net_ready d (Some dfd) (Some (msg :: data)) = Done (r, d2) /\ Inv d2 /\
    abs d2 = abs d1 /\ the_store d2 = the_store d1 /\ events d2 = events d1.
Proof.
  intros Hinv Ha Hm E Hinv1 Hsh. destruct (framed_client d a Hinv Ha Hm) as (c & Hc & -> & Hp).
  unfold on_net_ready. ostep. rewrite Hc. ostep. rewrite proto_recv_framed by done.
  unfold recv_framed. cbn [on_input client_cb]. unfold on_app_input.
  assert (Eu : upd_client d dfd (fun c' => set_proto c' (c_proto c)) = d).
  { rewrite (upd_client_ext d dfd _ (fun c' => c') c); [|done|done|by destruct c].
    unfold upd_client. rewrite (list_fmap_ext _ id), list_fmap_id; [by destruct d|].
    intros i x _. by destruct (_ =? _). }
  rewrite Eu, E. ostep. eexists. split; [done|].
  destruct (shape_find (abs d) (abs d1) dfd _ Hsh Ha) as (a1 & Ha1 & Hm1).
  destruct (get_of_abs d1 dfd a1 Hinv1 Ha1) as (c1 & Hc1 & ->).
  destruct (sync_ok d1 dfd c1 (c_proto c) Hinv1 Hc1) as (I2 & _ & A2 & _); [|by split_and!].
  cbn in Hm1, Hm. by rewrite Hm1, Hm, Hp.
Qed.

(** ** The promises *)

Lemma joined_write k room pats M q pend msg data r d1 n pats' M' outs q' :
  Joined k room pats M q pend -> app_input 2 (k_daemon k) dfd msg data = Done (r, d1) -> 0 < r ->
  Inv d1 -> shape (abs d1) = shape (abs (k_daemon k)) -> kv_holds (the_store d1) M' -> kv_room (the_store d1) n ->
  sent_to dfd (events d1) = sent_to dfd (events (k_daemon k)) ++ outs ->
  (forall a, a_find (abs d1) dfd = Some a -> a_subs a = pats' /\ in_txn a q') ->
  exists k', sys_writev k cfd (msg :: data) = Done (1 + zlen data, k') /\ Joined k' n pats' M' q' (pend ++ outs).
Proof.
  intros [Ho Hinv HM _ (a & Ha & Hm & _) (seen & Hs & Hl)] E Hr Hinv1 Hsh HM1 Hn1 He Hq.
  destruct (ready_framed _ _ _ _ _ _ Hinv Ha Hm E Hinv1 Hsh) as (d2 & E2 & I2 & A2 & S2 & He2).
  cbn [sys_writev conn_link]. unfold conn_write. rewrite Ho, E2. cbn [negb]. ostep.
  destruct (Z.leb_spec r 0); [lia|]. rewrite zlen_cons. replace (zlen data + 1) with (1 + zlen data) by lia.
  eexists. split; [done|].
  destruct (shape_find _ _ dfd _ Hsh Ha) as (a1 & Ha1 & Hm1).
  split; cbn [k_open k_daemon k_taken]; [done|done|by rewrite S2|by rewrite S2| |].
  - exists a1. rewrite A2. split_and!; [done|by rewrite Hm1|by apply Hq..].
  - exists seen. split; [|done]. by rewrite He2, He, Hs, app_assoc.
Qed.

Lemma joined_read k n pats M q b pend :
  Joined k n pats M q (b :: pend) -> exists k', sys_read k cfd = Done (Some b, k') /\ Joined k' n pats M q pend.
Proof.
  intros [Ho Hinv HM Hn Hc (seen & Hs & Hl)]. cbn [sys_read conn_link]. unfold conn_read.
  rewrite Hs, <- Hl, list_lookup_middle by done. eexists. split; [done|].
  split; cbn [k_open k_daemon k_taken]; try done. exists (seen ++ [b]). rewrite <- app_assoc. split; [done|].
  rewrite length_app. cbn. lia.
Qed.

Lemma request_not_eof cmd : request cmd -> cmd.1 <> MSG_EOF /\ cmd.1 <> CMD_BEGIN /\ cmd.1 <> CMD_COMMIT.
Proof. intros [[[[-> _]| ->] _]|[[-> _]|[[-> _]|[-> _]]]]; done. Qed.

Lemma joined_now k n pats M pend cmd :
  Joined k (cost cmd + n) pats M None pend -> request cmd -> fits pats cmd ->
  exists k', sys_writev k cfd (cmd.1 :: cmd.2) = Done (1 + zlen cmd.2, k') /\
    Joined k' n (subs_after pats cmd) (effect M cmd) None (pend ++ reply M pats cmd).
Proof.
  intros Hj Hq Hfit. destruct (Hj) as [Ho Hinv HM Hn (a & Ha & Hm & Hs & Ht1 & Ht2) _].
  destruct (framed_client _ a Hinv Ha Hm) as (c & Hc & Eac & Hp). subst a. cbn in Hs. subst pats.
  destruct (request_ok _ M n c cmd Hinv Hc Hp HM Hn Hq Hfit) as (r & d1 & E & Hr & [I1 Sh1 C1 HM1 Hn1 He1]).
  destruct (request_not_eof cmd Hq) as (Hne & _ & _).
  eapply (joined_write k _ _ M None pend cmd.1 cmd.2 r d1); try done.
  - by rewrite (app_input_idle 1 _ dfd c).
  - intros a1. rewrite (C1 _ Ha). intros [= <-]. done.
Qed.

Lemma txn_upd d a n q a1 :
  a_find (abs d) dfd = Some a -> a_find (a_upd (abs d) dfd (with_txn n q)) dfd = Some a1 -> a1 = with_txn n q a.
Proof. intros Ha. rewrite (a_find_upd _ _ _ a) by done. by intros [= <-]. Qed.

(** A message that only changes the transaction of the library's client. *)
Lemma joined_txn k n pats M q pend c msg data q' tail :
  Joined k n pats M q pend -> get_client (k_daemon k) dfd = Done c ->
  app_input 2 (k_daemon k) dfd msg data =
    Done (1, upd_client (k_daemon k) dfd (fun c' => set_begins (set_bufcmds c' q' tail) 1)) ->
  tail = length q' -> Forall queued q' ->
  exists k', sys_writev k cfd (msg :: data) = Done (1 + zlen data, k') /\ Joined k' n pats M (Some q') pend.
Proof.
  intros Hj Hc E Ht Hq'. destruct (Hj) as [_ Hinv HM Hn (a & Ha & _ & Hs & _) _].
  destruct (set_txn_ok (k_daemon k) dfd c 1 q' tail Hinv Hc) as (I1 & _ & A1); try done.
  rewrite <- (app_nil_r pend). eapply (joined_write k _ _ M q pend msg data 1); [done|exact E|done|done| |done|done| |].
  - rewrite A1. by apply shape_upd.
  - by rewrite app_nil_r.
  - intros a1. rewrite A1. intros ->%(txn_upd _ _ _ _ _ Ha). by split.
Qed.

Lemma joined_begin k n pats M pend :
  Joined k n pats M None pend ->
  exists k', sys_writev k cfd [CMD_BEGIN] = Done (1, k') /\ Joined k' n pats M (Some []) pend.
Proof.
  intros Hj. destruct (Hj) as [Ho Hinv HM Hn (a & Ha & Hm & Hs & Ht1 & Ht2) _].
  destruct (framed_client _ a Hinv Ha Hm) as (c & Hc & Eac & Hp). subst a. cbn in Ht1, Ht2.
  apply (joined_txn k n pats M None pend c CMD_BEGIN [] [] 0); try done.
  rewrite (app_input_idle 1 _ dfd c) by done.
  change (run_command (k_daemon k) dfd CMD_BEGIN []) with (cmd_begin (k_daemon k) dfd). unfold cmd_begin.
  rewrite (upd_client_ext _ dfd _ (fun c' => set_begins (set_bufcmds c' [] 0) 1) c); [done|done|done|by rewrite Ht2].
Qed.

Lemma request_queued cmd : request cmd -> queued cmd.
Proof.
  intros Hq. pose proof (request_not_eof cmd Hq) as (_ & Hnb & Hnc).
  split_and!; destruct Hq as [[[[E _]|E] ?]|[[E ?]|[(E & _ & _ & ?)|[E ?]]]]; rewrite ?E; done.
Qed.

Lemma joined_later k n pats M q pend cmd :
  Joined k n pats M (Some q) pend -> request cmd ->
  exists k', sys_writev k cfd (cmd.1 :: cmd.2) = Done (1 + zlen cmd.2, k') /\ Joined k' n pats M (Some (q ++ [cmd])) pend.
Proof.
  intros Hj Hq. destruct (Hj) as [Ho Hinv HM Hn (a & Ha & Hm & Hs & Ht1 & Ht2) _].
  destruct (framed_client _ a Hinv Ha Hm) as (c & Hc & Eac & Hp). subst a. cbn in Ht1, Ht2.
  pose proof (get_client_inv _ _ _ Hinv Hc) as Hci. pose proof (ci_tail Hci ltac:(lia)) as Ht.
  destruct (request_not_eof cmd Hq) as (Hne & Hnb & Hnc).
  apply (joined_txn k n pats M (Some q) pend c cmd.1 cmd.2 (q ++ [cmd]) (S (length q))); try done.
  - rewrite (app_input_busy 1 _ dfd c) by (done || lia). unfold buffer_command. rewrite Hc. ostep.
    rewrite (proj2 (Z.eqb_neq _ _) Hnb), (proj2 (Z.eqb_neq _ _) Hnc), (ci_nbufcmds Hci).
    change (MAX_BUFCMDS <=? 0) with false. cbv iota. unfold bufcmd_new. rewrite malloc_succeeds.
    unfold APPEND. rewrite Ht, Nat.ltb_irrefl, Nat.eqb_refl. ostep. rewrite Ht2.
    rewrite (upd_client_ext _ dfd _ (fun c' => set_begins (set_bufcmds c' (q ++ [cmd]) (S (length q))) 1) c);
      [done|done|done|]. rewrite <- Ht1. destruct cmd. by apply set_bufcmds_eta.
  - rewrite length_app. cbn. lia.
  - apply Forall_app. split; [rewrite <- Ht2; apply Hci|]. apply Forall_singleton. by apply request_queued.
Qed.

(** The requests of a transaction are carried out in order. *)
Lemma playback_requests q : forall d c M n fuel depth,
  Inv d -> get_client d dfd = Done c -> mode (c_proto c) = PROTO_MODE_FRAMED ->
  begins c = 0 -> bufcmds c = q -> Forall request q -> all_fit (subs c) q -> (length q <= fuel)%nat ->
  kv_holds (the_store d) M -> kv_room (the_store d) (costs q + n) ->
  exists d', playback (app_input (S depth)) fuel d dfd = Done (1, d') /\ Inv d' /\ shape (abs d') = shape (abs d) /\
    a_find (abs d') dfd = Some (with_txn 0 [] (with_subs (subs_afters (subs c) q) (abs_client c))) /\
    kv_holds (the_store d') (effects M q) /\ kv_room (the_store d') n /\
    sent_to dfd (events d') = sent_to dfd (events d) ++ all_replies M (subs c) q.
Proof.
  induction q as [|cmd q IH]; intros d c M n fuel depth Hinv Hc Hm Hb Hq Hall Hfit Hfuel HM Hn.
  { exists d. split_and!; [|done|done| |done|done|by rewrite app_nil_r].
    - destruct fuel; cbn [playback]; rewrite Hc; ostep; by rewrite Hq.
    - rewrite (abs_find d dfd c Hinv Hc). unfold abs_client, with_txn, with_subs. cbn. by rewrite Hb, Hq. }
  apply Forall_cons in Hall as [Hcmd Hall]. destruct Hfit as [Hfit Hfits]. destruct fuel as [|fuel]; [cbn in Hfuel; lia|].
  cbn [playback]. rewrite Hc. ostep. rewrite Hq. destruct cmd as [msg data] eqn:Ecmd. rewrite <- Ecmd in *.
  destruct (pop_ok d dfd c cmd q Hinv Hc Hb Hq) as (Hinv1 & Hc1 & A1 & Ac1).
  set (d1 := upd_client d dfd _) in *. set (c1 := set_bufcmds c q _) in *.
  destruct (request_not_eof cmd Hcmd) as (Hne & _ & _). cbn [costs] in Hn. rewrite <- Nat.add_assoc in Hn.
  destruct (request_ok d1 M _ c1 cmd Hinv1 Hc1 Hm HM Hn Hcmd Hfit) as (r & d2 & E & Hr & [I2 Sh2 C2 HM2 Hn2 He2]).
  change (subs c1) with (subs c) in *.
  replace msg with cmd.1 by (by rewrite Ecmd). replace data with cmd.2 by (by rewrite Ecmd).
  rewrite (app_input_idle depth d1 dfd c1 _ _ Hc1 Hb Hne), E. ostep. destruct (Z.leb_spec r 0); [lia|].
  pose proof (C2 _ (abs_find d1 dfd c1 Hinv1 Hc1)) as Hf2.
  destruct (framed_client d2 _ I2 Hf2) as (c2 & Hc2 & Eac2 & Hm2); [cbn; unfold settle; by rewrite Hm|].
  pose proof Eac2 as [= _ Hmd2 Hs2 Hb2 Hq2].
  destruct (IH d2 c2 (effect M cmd) n fuel depth) as (d' & E' & I' & Sh' & C' & HM' & Hn' & He'); try done;
    [by rewrite <- Hb2|by rewrite <- Hs2|cbn in Hfuel; lia|].
  exists d'. split_and!; [done|done| | |done|done|].
  - rewrite Sh', Sh2, A1. by apply shape_upd.
  - rewrite C', <- Eac2, <- Hs2. cbn [subs_afters]. done.
  - rewrite He', He2, <- Hs2. change (events d1) with (events d). cbn [all_replies]. by rewrite app_assoc.
Qed.

Lemma joined_commit k n pats M q pend :
  Joined k (costs q + n) pats M (Some q) pend -> Forall request q -> all_fit pats q ->
  exists k', sys_writev k cfd [CMD_COMMIT] = Done (1, k') /\
    Joined k' n (subs_afters pats q) (effects M q) None (pend ++ all_replies M pats q).
Proof.
  intros Hj Hall Hfit. destruct (Hj) as [Ho Hinv HM Hn (a & Ha & Hm & Hs & Ht1 & Ht2) _].
  destruct (framed_client _ a Hinv Ha Hm) as (c & Hc & Eac & Hp). subst a. cbn in Ht1, Ht2, Hs. subst pats.
  pose proof (get_client_inv _ _ _ Hinv Hc) as Hci.
  destruct (set_txn_ok (k_daemon k) dfd c 0 (bufcmds c) (bufcmd_tail c) Hinv Hc) as (I1 & C1 & A1); [lia|done|apply Hci|].
  set (d1 := upd_client _ _ _) in *.
  destruct (playback_requests q d1 _ M n (length (bufcmds c)) 0 I1 C1) as (d2 & E2 & I2 & Sh2 & C2 & HM2 & Hn2 & He2); try done;
    [by rewrite Ht2|].
  eapply (joined_write k _ _ M (Some q) pend CMD_COMMIT [] 1 d2); try done.
  - rewrite (app_input_busy 1 _ dfd c) by (done || lia). unfold buffer_command. rewrite Hc. ostep.
    change (CMD_COMMIT =? CMD_BEGIN) with false. change (CMD_COMMIT =? CMD_COMMIT) with true. cbv iota.
    rewrite Ht1. change (u32 (1 - 1)) with 0. cbn [Z.eqb negb].
    rewrite (upd_client_ext _ dfd _ (fun c' => set_begins (set_bufcmds c' (bufcmds c) (bufcmd_tail c)) 0) c);
      [|done|done|by apply set_begins_eta]. exact E2.
  - rewrite Sh2, A1. by apply shape_upd.
  - intros a1. rewrite C2. intros [= <-]. done.
Qed.

(** The daemon is such a server. *)
Definition daemon_peer (Hfd : cfd <> -1) : InfoPeer conn.
Proof.
  refine {| peer_fd := cfd; peer := Joined; peer_open := Hfd |}.
  - intros k n pats M q pend key kv [_ _ HM _ _ _] Hk. destruct (kv_record _ _ _ _ HM Hk) as [[Hsz Hnul] Hkey].
    split_and!; [done|done|lia].
  - apply joined_read.
  - apply joined_now.
  - apply joined_begin.
  - apply joined_later.
  - apply joined_commit.
Defined.

End Conn.
