(* ===== verification/LibTheorems.v ===== *)
(** * The client library: its theorems *)
From S2P Require Import Prelude Match StoreDefs StoreLayout StoreRep StoreOps StoreTheorems.
From S2P Require Import Rxbuf ProtoDefs ProtoBin Infod InfodSpec InfodSim InfodCmd InfodTheorems.
From S2P Require Import LibInfo LibPeer LibDaemon.
Local Open Scope infod_scope.

Section Client.
Context {os : OS} {K : Type} {link : Link K} {P : InfoPeer K}.
Context (info_cb : lib K -> bytes -> option bytes -> outcome (Z * lib K)).
Context (wild : option (proto -> lib K -> errno -> bytes -> lib K)).
Context (junk : option textproto).
Abbreviation lib := (lib K).
Implicit Types (l : lib) (p : proto) (room : nat) (pats : list bytes) (M : gmap bytes bytes) (key data : bytes).

(** ** Reading *)

Lemma progress_online l p k M u n dn rest buf bufsz :
  Online l p -> Online (set_wait (set_world l k) (progress M u n dn rest buf bufsz)) p.
Proof. intros []. by split. Qed.

(** C12: [info_readv] of distinct keys, on an idle connection with nothing to be read to a server
    that keeps its promises, and with a buffer that is large enough for the values, returns: every
    binding of the caller's array refers to the part of the caller's buffer that holds the value
    of its key, or is NULL when the server has no such key; the values are packed from the start
    of the buffer, in the order of the bindings, and the rest of the buffer is not touched. *)
Theorem readv_values fuel l p room pats M bs buf bufsz :
  Online l p -> in_cb (wait l) = false -> peer (world l) room pats M None [] ->
  bs <> [] -> Forall readable (b_key <$> bs) -> NoDup (b_key <$> bs) ->
  zlen (values M (b_key <$> bs)) <= bufsz <= zlen buf -> (length bs < fuel)%nat ->
  exists l', info_readv info_cb wild junk fuel l bs buf bufsz = Done (0, filled M (b_key <$> bs) 0, l') /\
    buffer (wait l') = values M (b_key <$> bs) ++ drop (length (values M (b_key <$> bs))) buf /\
    Online l' p /\ in_cb (wait l') = false /\ peer (world l') room pats M None [].
Proof.
  intros Ho Hcb Hp Hne Hread Hnd Hfit Hfuel.
  destruct (readv_ok info_cb wild junk fuel l p room pats M bs buf bufsz Ho Hcb Hp Hne Hread Hnd Hfit Hfuel)
    as (l' & k & n & E & -> & Hpk).
  eexists. split; [exact E|]. cbn. split_and!; try done. by apply progress_online.
Qed.

Lemma read_ok fuel l p room pats M key buf bufsz :
  Online l p -> in_cb (wait l) = false -> peer (world l) room pats M None [] -> readable key ->
  zlen (default [] (value_at M key)) <= bufsz <= zlen buf -> (2 <= fuel)%nat ->
  exists r l', info_read info_cb wild junk fuel l key buf bufsz = Done (r, l') /\
    match value_at M key with
    | Some v => r = zlen v /\ buffer (wait l') = v ++ drop (length v) buf
    | None => r = -1 /\ l_errno l' = ENOENT /\ buffer (wait l') = buf
    end /\ Online l' p /\ in_cb (wait l') = false /\ peer (world l') room pats M None [].
Proof.
  intros Ho Hcb Hp Hread Hfit Hfuel.
  destruct (readv_ok info_cb wild junk fuel l p room pats M [mk_bind key None 0] buf bufsz Ho Hcb Hp)
    as (l1 & k & n & E & El & Hpk); [done|by apply Forall_singleton|apply NoDup_singleton| |done|].
  { cbn [fmap list_fmap b_key]. by rewrite values_one. }
  cbn [fmap list_fmap b_key] in El. unfold info_read. rewrite E. ostep. cbn [Z.eqb].
  assert (Hbuf : buffer (wait l1) = default [] (value_at M key) ++ drop (length (default [] (value_at M key))) buf)
    by (rewrite El; cbn [wait set_wait progress buffer]; by rewrite values_one).
  assert (Ho1 : Online l1 p) by (rewrite El; by apply progress_online).
  rewrite Hbuf. cbn [fmap list_fmap b_key filled]. destruct (value_at M key) as [v|]; cbn [from_option id b_value b_valuesz].
  - pose proof (mread_app [] v (drop (length v) buf) 0 (zlen v) eq_refl eq_refl) as E1. cbn [app] in E1.
    pose proof (mwrite_app [] v (drop (length v) buf) v 0 eq_refl eq_refl) as E2. cbn [app] in E2.
    rewrite E1. ostep. rewrite E2. ostep. eexists _, _. split; [done|].
    subst l1. split_and!; try done. by destruct Ho1.
  - eexists _, _. split; [done|]. split; [|subst l1; split_and!; try done; by destruct Ho1].
    by split_and!.
Qed.

(** [info_read] of a key returns the size of its value and puts the value at the start of
    the caller's buffer, or returns -1 with ENOENT when the server has no such key; the
    connection is idle again. *)
Theorem read_value fuel l p room pats M key buf bufsz :
  Online l p -> in_cb (wait l) = false -> peer (world l) room pats M None [] -> readable key ->
  zlen (default [] (value_at M key)) <= bufsz <= zlen buf -> (2 <= fuel)%nat ->
  exists r l', info_read info_cb wild junk fuel l key buf bufsz = Done (r, l') /\
    match value_at M key with
    | Some v => r = zlen v /\ buffer (wait l') = v ++ drop (length v) buf
    | None => r = -1 /\ l_errno l' = ENOENT /\ buffer (wait l') = buf
    end /\ Online l' p /\ in_cb (wait l') = false /\ peer (world l') room pats M None [].
Proof. apply read_ok. Qed.

(** ** Writing *)

(** A key that ends with an exclamation mark is not kept. *)
Definition kept (b : bytes * option bytes) : Prop := is_Some b.2 -> last b.1 <> Some 33.

Lemma written_record M b : writable b -> kept b ->
  written M (record_of b) =
    match b.2 with Some v => <[b.1 := b.1 ++ 0 :: v]> M | None => delete b.1 M end.
Proof.
  destruct b as [key [v|]]; intros [Hk _] Hl; unfold written, record_of, contains_nul; cbn [fst snd] in *.
  - assert (0 ∈ key ++ 0 :: v) by set_solver. rewrite bool_decide_true by done. cbn [negb].
    unfold is_ephemeral, contains_nul. rewrite bool_decide_true by done. rewrite cstr_app_nul by (by apply nul_free_no_nul). cbn [andb].
    specialize (Hl ltac:(done)). cbn in Hl. destruct (last key) as [c|]; [|done].
    destruct (Z.eqb_spec c 33); [congruence|done].
  - by rewrite bool_decide_false.
Qed.

(** The map after [info_writev]: each key has the value it was given, the others have theirs. *)
Lemma written_other M b key :
  writable b -> kept b -> key <> b.1 -> effect M (put b) !! key = M !! key.
Proof.
  intros Hw Hk Hn. change (effect M (put b)) with (written M (record_of b)). rewrite written_record by done.
  destruct b.2; [by apply lookup_insert_ne|by apply lookup_delete_ne].
Qed.

Lemma written_others bs : forall M key,
  Forall writable bs -> Forall kept bs -> key ∉ bs.*1 -> effects M (put <$> bs) !! key = M !! key.
Proof.
  induction bs as [|b bs IH]; intros M key Hw Hk Hn; [done|].
  apply Forall_cons in Hw as [Hb Hw], Hk as [Hkb Hk]. rewrite fmap_cons, not_elem_of_cons in Hn.
  destruct Hn as [Hn1 Hn2]. rewrite fmap_cons. cbn [effects]. rewrite IH by done. by apply written_other.
Qed.

Lemma written_value M key v : writable (key, v) -> kept (key, v) -> value_at (effect M (put (key, v))) key = v.
Proof.
  intros Hw Hk. change (effect M (put (key, v))) with (written M (record_of (key, v))).
  rewrite written_record by done. unfold value_at. cbn [fst snd]. destruct v as [v|].
  - rewrite lookup_insert_eq. cbn. unfold value_of. rewrite cstr_app_nul by (apply nul_free_no_nul, Hw).
    by rewrite <- Nat.add_1_r, <- drop_drop, drop_app_length.
  - by rewrite lookup_delete_eq.
Qed.

Lemma written_values bs : forall M key v,
  Forall writable bs -> Forall kept bs -> NoDup bs.*1 -> (key, v) ∈ bs ->
  value_at (effects M (put <$> bs)) key = v.
Proof.
  induction bs as [|b bs IH]; intros M key v Hw Hk Hnd Hin; [by apply not_elem_of_nil in Hin|].
  apply Forall_cons in Hw as [Hb Hw], Hk as [Hkb Hk]. rewrite fmap_cons, NoDup_cons in Hnd. destruct Hnd as [Hn Hnd].
  rewrite fmap_cons. cbn [effects]. apply elem_of_cons in Hin as [<-|Hin]; [|by apply IH].
  unfold value_at. rewrite written_others by done. by apply written_value.
Qed.

(** C11: [info_writev] of bindings with distinct keys, none of them with a value and an
    exclamation mark at its end (the server does not keep those), on an idle connection without
    subscriptions to a server that keeps its promises and has room, succeeds. Then [info_read] of
    any of the keys, into a buffer that is large enough, returns the value that was written, or
    fails with ENOENT for a key that was deleted. Every other key of the server keeps its value.
    *)
Theorem written_is_read l p room M bs :
  Online l p -> in_cb (wait l) = false -> peer (world l) (length bs + room) [] M None [] ->
  bs <> [] -> Forall writable bs -> Forall kept bs -> NoDup bs.*1 ->
  exists l1 M', info_writev info_cb wild junk l bs = Done (0, l1) /\ peer (world l1) room [] M' None [] /\
    (forall key, key ∉ bs.*1 -> M' !! key = M !! key) /\
    forall key v buf bufsz fuel, (key, v) ∈ bs -> zlen (default [] v) <= bufsz <= zlen buf -> (2 <= fuel)%nat ->
      exists r l2, info_read info_cb wild junk fuel l1 key buf bufsz = Done (r, l2) /\
        match v with
        | Some v => r = zlen v /\ buffer (wait l2) = v ++ drop (length v) buf
        | None => r = -1 /\ l_errno l2 = ENOENT /\ buffer (wait l2) = buf
        end.
Proof.
  intros Ho Hcb Hp Hne Hw Hk Hnd.
  destruct (writev_ok info_cb wild junk l p room M [] bs Ho Hp Hne Hw) as (k & E & Hpk).
  exists (set_world l k), (effects M (put <$> bs)). split_and!; [done|done| |].
  { intros key Hn. by apply written_others. }
  intros key v buf bufsz fuel Hin Hfit Hfuel.
  pose proof (written_values bs M key v Hw Hk Hnd Hin) as Hv.
  destruct (read_ok fuel (set_world l k) p room [] (effects M (put <$> bs)) key buf bufsz) as (r & l2 & E2 & Hr & _);
    try done; [by apply online_world| |by rewrite Hv|].
  - pose proof (proj1 (Forall_forall _ _) Hw _ Hin) as [H1 H2]. cbn in H1. split; [done|].
    unfold record_of in H2. cbn in H2. destruct v as [v|]; [|done]. rewrite zlen_app, zlen_cons in H2.
    pose proof (zlen_nonneg v). lia.
  - exists r, l2. split; [done|]. by rewrite Hv in Hr.
Qed.

(** C39: a notice of an earlier subscription that has not been read yet makes [info_read] answer
    that a key does not exist, whatever the server holds: [wait_until] takes any INFO message
    for the answer. The true answer stays in the socket for the next call. *)
Theorem read_takes_notice fuel l p room pats M key other pend buf bufsz :
  Online l p -> in_cb (wait l) = false -> peer (world l) room pats M None ((MSG_INFO :: other) :: pend) ->
  readable key -> cstr other <> key -> (1 <= fuel)%nat ->
  exists l', info_read info_cb wild junk fuel l key buf bufsz = Done (-1, l') /\ l_errno l' = ENOENT /\
    peer (world l') room pats M None (pend ++ [answer M (ask key)]).
Proof.
  intros Ho Hcb Hp Hread Hother Hfuel. destruct fuel as [|fuel]; [lia|]. set (bs := [mk_bind key None 0]).
  destruct (readv_start info_cb wild junk (S fuel) l p room pats M _ bs buf bufsz Ho Hcb Hp) as (k & Hpk & E);
    [done|by apply Forall_singleton|].
  unfold info_read. fold bs. rewrite E. clear E. change (b_key <$> bs) with [key] in *. cbn [replies readv_until app] in *.
  set (l0 := set_wait _ _). assert (Ho0 : Online l0 p) by (by apply progress_online).
  destruct (wait_packet info_cb wild l0 p room pats M None _ _ _ Ho0 Hpk) as (k1 & Hpk1 & Hstep).
  assert (E1 : info_on_input info_cb p (set_world l0 k1) MSG_INFO other =
    Done (1, set_wait (set_world l0 k1) (progress M MSG_INFO 1 [] [key] buf bufsz))).
  { unfold info_on_input. rewrite (set_same (set_world l0 k1) p (on_proto _ _ Ho0)). change (MSG_INFO =? MSG_EOF) with false.
    cbn -[bytes_eqb]. unfold bytes_eqb. rewrite (cstr_no_nul key) by apply Hread.
    by rewrite bool_decide_false. }
  erewrite Hstep; [|exact E1|apply Ho0]. eexists. by split_and!.
Qed.

(** ** Reentrancy *)

(** C26: while a callback runs, the operations that would wait or close fail with EBUSY and leave
    the state of the library, the connection and what the waiting call waits for as they were.
    The exceptions: [info_readv] clears the caller's bindings first, [info_reads] with an empty
    buffer fails with ENOMEM, and [info_tx_commit] without a transaction fails with EIO. *)
Theorem busy_in_callback fuel l bs b buf bufsz key cb :
  in_cb (wait l) = true ->
  info_close l = (-1, set_errno l EBUSY) /\
  info_readv info_cb wild junk fuel l (b :: bs) buf bufsz = Done (-1, clear_binds (b :: bs), set_errno l EBUSY) /\
  info_read info_cb wild junk fuel l key buf bufsz = Done (-1, set_errno l EBUSY) /\
  info_reads info_cb wild junk fuel l key buf bufsz =
    Done (None, set_errno l (if bufsz =? 0 then ENOMEM else EBUSY)) /\
  info_exists info_cb wild junk fuel l key = Done (-1, set_errno l EBUSY) /\
  info_loop info_cb wild fuel l cb = Done (-1, set_errno l EBUSY) /\
  info_recv1 info_cb wild fuel l cb = Done (-1, set_errno l EBUSY) /\
  info_tx_commit info_cb wild fuel l cb = Done (-1, set_errno l (if tx_begun l then EBUSY else EIO)).
Proof.
  intros Hcb. assert (Hi : waitret_init l = (-1, set_errno l EBUSY)) by (unfold waitret_init; by rewrite Hcb).
  split_and!.
  - unfold info_close. by rewrite Hcb.
  - unfold info_readv. by rewrite Hi.
  - unfold info_read, info_readv. by rewrite Hi.
  - unfold info_reads, info_readv. destruct (bufsz =? 0); [done|]. by rewrite Hi.
  - unfold info_exists. by rewrite Hi.
  - unfold info_loop, dispatch_until. by rewrite Hi.
  - unfold info_recv1, dispatch_until. by rewrite Hi.
  - unfold info_tx_commit. destruct (tx_begun l); cbn [negb]; [by rewrite Hi|done].
Qed.

(** ** Connecting over TCP *)

Lemma tcp_loop_last k ais ai s :
  (forall k s k1, sys_socket k ai = (Some s, k1) -> (sys_connect k1 s ai).1 = false) ->
  (tcp_loop k (ais ++ [ai]) s).1 = -1.
Proof.
  intros Hfail. revert k s. induction ais as [|a ais IH]; intros k s; cbn [app tcp_loop].
  - destruct (sys_socket k ai) as [[s1|] k1] eqn:E; [|done]. pose proof (Hfail _ _ _ E) as H.
    by destruct (sys_connect k1 s1 ai) as [[] k2].
  - destruct (sys_socket k a) as [[s1|] k1]; [|apply IH]. destruct (sys_connect k1 s1 a) as [[] k2]; apply IH.
Qed.

(** [open_tcp] returns -1 whenever the last address that the name resolves to cannot be
    connected to, even if an earlier one was: the loop does not stop at the first success. *)
Theorem open_tcp_last_address l hostport ais ai k :
  tcp_client_addrinfo (world l) hostport = (Some (ais ++ [ai]), k) ->
  (forall k s k1, sys_socket k ai = (Some s, k1) -> (sys_connect k1 s ai).1 = false) ->
  (open_tcp l hostport).1 = -1.
Proof.
  intros E Hfail. unfold open_tcp. rewrite E. pose proof (tcp_loop_last k ais ai (-1) Hfail) as H.
  by destruct (tcp_loop k (ais ++ [ai]) (-1)) as [s k1].
Qed.

End Client.

(** ** A connection to run *)

Section Demo.
Local Existing Instance quiet_net.
Local Existing Instance demo_kv.
Local Instance demo_link : Link (conn store) := conn_link 4 5 (demo_text, 0%nat).
Local Instance demo_peer : InfoPeer (conn store) :=
  daemon_peer 4 5 (demo_text, 0%nat) (fun _ _ _ => eq_refl) (fun _ _ => eq_refl)
    (put_never_fails (os:=quiet_os) (fun _ _ => eq_refl) (fun _ => eq_refl) (fun n H => proj2 (Z.ltb_lt 0 n) H) (fun _ => eq_refl))
    (ltac:(discriminate)).

(** The library on socket 4, the daemon on socket 5, where it has sent the packets [ps]. *)
Definition demo_conn (ps : list bytes) : conn store :=
  mk_conn (mk_daemon demo_store (all_clients (demo_daemon [])) (Sent 5 <$> ps)) 0 true.
Definition demo_lib (w : waitret) (ps : list bytes) : lib (conn store) :=
  mk_lib 4 (Some (demo_proto 3)) false w [] (EOTHER 0) (demo_conn ps).
Definition no_cb (l : lib (conn store)) (_ : bytes) (_ : option bytes) : outcome (Z * lib (conn store)) :=
  Done (1, l).

Lemma demo_online w ps : Online (demo_lib w ps) (demo_proto 3).
Proof. by split. Qed.

Lemma demo_joined ps : peer (demo_conn ps) 90 [] (contents demo_l) None ps.
Proof.
  split; [done|by apply (demo_inv MAX_PAYLOAD [])|apply (demo_holds [])|by apply demo_room; lia|by eexists|]. exists []. split; [|done].
  apply sent_to_all.
Qed.

Lemma readv_values_witness :
  exists l', info_readv no_cb None None 4 (demo_lib waitret_zero [])
      [mk_bind [97] None 0; mk_bind [99] None 0; mk_bind [98] None 0] (replicate 8 7) 8 =
      Done (0, [mk_bind [97] (Some 0) 3; mk_bind [99] None 0; mk_bind [98] (Some 3) 3], l') /\
    buffer (wait l') = [111; 110; 101; 116; 119; 111; 7; 7] /\
    Online l' (demo_proto 3) /\ in_cb (wait l') = false /\ peer (world l') 90 [] (contents demo_l) None [].
Proof.
  apply (readv_values no_cb None None 4 (demo_lib waitret_zero []) (demo_proto 3) 90 [] (contents demo_l)
    [mk_bind [97] None 0; mk_bind [99] None 0; mk_bind [98] None 0] (replicate 8 7) 8).
  - apply demo_online.
  - reflexivity.
  - apply demo_joined.
  - discriminate.
  - repeat (apply Forall_cons; split); [split; [by apply (bool_decide_unpack (0 ∉ [97]))|done]
      |split; [by apply (bool_decide_unpack (0 ∉ [99]))|done]|split; [by apply (bool_decide_unpack (0 ∉ [98]))|done]|done].
  - by apply (bool_decide_unpack (NoDup [[97]; [99]; [98]])).
  - vm_compute. split; discriminate.
  - cbn. lia.
Defined.

Lemma read_value_witness :
  exists r l', info_read no_cb None None 2 (demo_lib waitret_zero []) [97] (replicate 4 7) 4 = Done (r, l') /\
    (r = 3 /\ buffer (wait l') = [111; 110; 101; 7]) /\
    Online l' (demo_proto 3) /\ in_cb (wait l') = false /\ peer (world l') 90 [] (contents demo_l) None [].
Proof.
  apply (read_value no_cb None None 2 (demo_lib waitret_zero []) (demo_proto 3) 90 [] (contents demo_l) [97] (replicate 4 7) 4).
  - apply demo_online.
  - reflexivity.
  - apply demo_joined.
  - split; [by apply (bool_decide_unpack (0 ∉ [97]))|done].
  - vm_compute. split; discriminate.
  - lia.
Defined.

(** "a" gets a new value and "b" is deleted. *)
Lemma written_is_read_witness :
  exists l1 M', info_writev no_cb None None (demo_lib waitret_zero []) [([97], Some [50; 50]); ([98], None)] = Done (0, l1) /\
    peer (world l1) 88 [] M' None [] /\
    (forall key, key ∉ [[97]; [98]] -> M' !! key = contents demo_l !! key) /\
    forall key v buf bufsz fuel, (key, v) ∈ [([97], Some [50; 50]); ([98], None)] ->
      zlen (default [] v) <= bufsz <= zlen buf -> (2 <= fuel)%nat ->
      exists r l2, info_read no_cb None None fuel l1 key buf bufsz = Done (r, l2) /\
        match v with
        | Some v => r = zlen v /\ buffer (wait l2) = v ++ drop (length v) buf
        | None => r = -1 /\ l_errno l2 = ENOENT /\ buffer (wait l2) = buf
        end.
Proof.
  apply (written_is_read no_cb None None (demo_lib waitret_zero []) (demo_proto 3) 88 (contents demo_l)
    [([97], Some [50; 50]); ([98], None)]).
  - apply demo_online.
  - reflexivity.
  - apply demo_joined.
  - discriminate.
  - repeat (apply Forall_cons; split); [split; [by apply (bool_decide_unpack (0 ∉ [97]))|done]
      |split; [by apply (bool_decide_unpack (0 ∉ [98]))|done]|done].
  - repeat (apply Forall_cons; split); [|by intros [? ?]|done]. intros _. discriminate.
  - by apply (bool_decide_unpack (NoDup [[97]; [98]])).
Defined.

(** The daemon has told of ["b\0two"]; the library asks for ["a"], which exists. *)
Lemma read_takes_notice_witness :
  contents demo_l !! [97] = Some demo_a /\
  exists l', info_read no_cb None None 1 (demo_lib waitret_zero [MSG_INFO :: demo_b]) [97] (replicate 4 7) 4 = Done (-1, l') /\
    l_errno l' = ENOENT /\ peer (world l') 90 [] (contents demo_l) None [MSG_INFO :: demo_a].
Proof.
  split; [reflexivity|].
  apply (read_takes_notice no_cb None None 1 (demo_lib waitret_zero [MSG_INFO :: demo_b]) (demo_proto 3) 90 []
    (contents demo_l) [97] demo_b [] (replicate 4 7) 4).
  - apply demo_online.
  - reflexivity.
  - apply (demo_joined [MSG_INFO :: demo_b]).
  - split; [by apply (bool_decide_unpack (0 ∉ [97]))|done].
  - discriminate.
  - lia.
Defined.

Lemma busy_in_callback_witness :
  let l := demo_lib (set_in_cb waitret_zero true) [] in
  info_close l = (-1, set_errno l EBUSY) /\
  info_readv no_cb None None 1 l [mk_bind [97] (Some 2) 1] [] 0 = Done (-1, [mk_bind [97] None 0], set_errno l EBUSY) /\
  info_read no_cb None None 1 l [97] [] 0 = Done (-1, set_errno l EBUSY) /\
  info_reads no_cb None None 1 l [97] [] 0 = Done (None, set_errno l ENOMEM) /\
  info_exists no_cb None None 1 l [97] = Done (-1, set_errno l EBUSY) /\
  info_loop no_cb None 1 l true = Done (-1, set_errno l EBUSY) /\
  info_recv1 no_cb None 1 l true = Done (-1, set_errno l EBUSY) /\
  info_tx_commit no_cb None 1 l true = Done (-1, set_errno l EIO).
Proof.
  apply (busy_in_callback no_cb None None 1 (demo_lib (set_in_cb waitret_zero true) []) [] (mk_bind [97] (Some 2) 1) [] 0 [97] true).
  reflexivity.
Defined.

(** The other transaction functions do not look for a callback: within one a transaction is begun
    and a key is read in it, with no EBUSY. *)
Example transaction_in_callback :
  exists l1, info_tx_begin no_cb None None (demo_lib (set_in_cb waitret_zero true) []) = Done (0, l1) /\
    tx_begun l1 = true /\ exists l2, info_tx_read no_cb None l1 [97] = Done (0, l2).
Proof. eexists. split; [vm_compute; reflexivity|]. split; [done|]. eexists. vm_compute. reflexivity. Qed.

(** A second binding of the same key is left NULL, although the key exists. *)
Example readv_duplicate :
  exists l', info_readv no_cb None None 4 (demo_lib waitret_zero [])
      [mk_bind [97] None 0; mk_bind [97] None 0] (replicate 8 7) 8 = Done (0, [mk_bind [97] (Some 3) 3; mk_bind [97] None 0], l').
Proof. eexists. vm_compute. reflexivity. Qed.

(** The text of a server's error begins with the byte of its code: ["(server) d..."]. *)
Example error_shows_code :
  exists l', info_on_input no_cb (demo_proto 3) (demo_lib waitret_zero []) MSG_ERROR
      (PROTO_ERROR_BAD_MSG :: $"long command") = Done (0, l') /\
    info_get_last_error l' = $"(server) dlong command".
Proof. eexists. split; vm_compute; reflexivity. Qed.

End Demo.

(** Two addresses of which the first answers and the second refuses; the socket of an address
    has its number. *)
Definition two_addresses : Link unit :=
  {| sys_writev _ _ b := Done (zlen b, tt); sys_read _ _ := Done (None, tt); sys_closefd _ _ := tt;
     sys_shutdown _ _ := tt; sockunix_connect _ := (None, tt); tcp_client_addrinfo _ _ := (Some [10; 11], tt);
     sys_socket _ ai := (Some ai, tt); sys_connect _ _ ai := (ai =? 10, tt) |}.

Lemma open_tcp_last_address_witness :
  (open_tcp (link:=two_addresses) (mk_lib (-1) None false waitret_zero [] (EOTHER 0) tt) $"host:1").1 = -1.
Proof.
  apply (open_tcp_last_address (link:=two_addresses) (mk_lib (-1) None false waitret_zero [] (EOTHER 0) tt)
    $"host:1" [10] 11 tt); [reflexivity|]. intros k s k1 E. reflexivity.
Defined.
