(* ===== verification/TestInfo.v ===== *)
(** * The test of the client library (src/lib/t-info.c)

    The program t-info.c run on the model of info.c. The test replaces the socket by a pipe and
    the translator by a mock that checks each message sent against an expected one, and that
    makes the expected messages arrive. Here the translator is the framed one of the model and
    the socket has the mock's two queues: a write is checked against the first expected call,
    a read gives the next input. The values that the mock expects on_input() to return are not
    looked at. *)
From S2P Require Import Prelude StoreDefs Rxbuf ProtoDefs LibInfo.
Local Open Scope infod_scope.

(** ** The mock socket and translator *)

(** [proto_output_calls] (without data where the data is ignored), [on_input_call], and whether
    the socket is open. *)
Record mock := mk_mock { calls : list (Z * option bytes); inputs : list (Z * bytes); is_open : bool }.

Definition mock_socket_fd : Z := 3.

(** The checks of [proto_output]; its result is 1 in every expectation of the test. *)
Definition mock_output (k : mock) (data : bytes) : outcome (Z * mock) :=
  match calls k, data with
  | (msg, expected) :: calls', m :: d =>
      _ ← assert_c (m =? msg);
      _ ← assert_c (match expected with Some e => bytes_eqb d e | None => true end);
      Done (1, mk_mock calls' (inputs k) (is_open k))
  | _, _ => Crash AssertFailed
  end.

(** A read of the pipe; it blocks when nothing is scheduled. *)
Definition mock_read (k : mock) : outcome (option bytes * mock) :=
  match inputs k with
  | (msg, d) :: inputs' => Done (Some (msg :: d), mk_mock (calls k) inputs' (is_open k))
  | [] => Crash OutOfFuel
  end.

(** [sockunix_connect] asserts that the socket was closed. *)
Definition mock_connect (k : mock) : option Z * mock :=
  if is_open k then (None, k) else (Some mock_socket_fd, mk_mock (calls k) (inputs k) true).

#[export] Instance mock_link : Link mock := {
  sys_writev k _ data := mock_output k data;
  sys_read k _ := mock_read k;
  sys_closefd k _ := mk_mock (calls k) (inputs k) false;
  sys_shutdown k _ := k;
  sockunix_connect := mock_connect;
  tcp_client_addrinfo k _ := (None, k);
  sys_socket k _ := (None, k);
  sys_connect k _ _ := (false, k)
}.

Definition tlib : Type := lib mock.

Definition expect_proto_output (msg : Z) (data : option bytes) (l : tlib) : tlib :=
  let k := world l in set_world l (mk_mock (calls k ++ [(msg, data)]) (inputs k) (is_open k)).
Definition expect_on_input (msg : Z) (data : bytes) (l : tlib) : tlib :=
  let k := world l in set_world l (mk_mock (calls k) (inputs k ++ [(msg, data)]) (is_open k)).

(** [CHECK()]: every expected call has occurred. *)
Definition CHECK (l : tlib) : outcome unit :=
  assert_c (bool_decide (calls (world l) = []) && bool_decide (inputs (world l) = [])).

(** ** The calls of the test *)

(** The callback is NULL in every call. *)
Definition no_cb (l : tlib) (_ : bytes) (_ : option bytes) : outcome (Z * tlib) := Done (1, l).
Definition junk : option textproto := Some (mk_text T_QSTR $"junk" 99 (replicate 16 74) 7 5 true).
Local Notation t_readv := (info_readv no_cb None junk 8).
Local Notation t_read := (info_read no_cb None junk 8).
Local Notation t_reads := (info_reads no_cb None junk 8).
Local Notation t_writev := (info_writev no_cb None junk).
Local Notation t_write := (info_write no_cb None junk).
Local Notation t_writes := (info_writes no_cb None junk).
Local Notation t_delete := (info_delete no_cb None junk).
Local Notation t_exists := (info_exists no_cb None junk 8).
Local Notation t_tx_begin := (info_tx_begin no_cb None junk).
Local Notation t_tx_commit l := (info_tx_commit no_cb None 8 l false).

(** [errno = 0] *)
Definition clear_errno (l : tlib) : tlib := set_errno l (EOTHER 0).
Definition errno_is (l : tlib) (e : errno) : outcome unit := assert_c (bool_decide (l_errno l = e)).
(** [assert(buf[i] == c)] *)
Definition buf_is (l : tlib) (i : nat) (c : byte) : outcome unit :=
  assert_c (bool_decide (buffer (wait l) !! i = Some c)).
Definition x : byte := 120.
Definition xbuf (n : nat) : bytes := x :: replicate (n - 1) 0.

Definition kv (key value : bytes) : bytes := key ++ [0] ++ value.

(** ** The parts of [main] *)

(** You can close before any opens. *)
Definition test_close (l : tlib) : outcome tlib :=
  _ ← assert_c (negb (is_open (world l)));
  let '(_, l) := info_close l in
  let '(_, l) := info_close l in
  _ ← assert_c (negb (is_open (world l)));
  let '(r, l) := info_open junk l None in
  _ ← assert_c (negb (r =? -1)); Done l.

Definition test_read (l : tlib) : outcome tlib :=
  let l := expect_on_input MSG_INFO (kv $"key" $"value") (expect_proto_output CMD_READ (Some $"key") l) in
  '(r, l) ← t_read l $"key" (replicate 8 0) 8;
  _ ← assert_c (0 <? r);
  _ ← assert_c (bytes_eqb (take 5 (buffer (wait l))) $"value");
  _ ← CHECK l;
  (* a deleted value *)
  let l := expect_on_input MSG_INFO $"key" (expect_proto_output CMD_READ (Some $"key") l) in
  '(r, l) ← t_read (clear_errno l) $"key" (xbuf 8) 8;
  _ ← assert_c (r =? -1); _ ← errno_is l ENOENT; _ ← buf_is l 0 x; _ ← CHECK l; Done l.

Definition test_write (l : tlib) : outcome tlib :=
  let l := expect_proto_output CMD_WRITE (Some (kv $"key" $"value")) l in
  '(r, l) ← t_write l $"key" (Some $"value"); _ ← assert_c (negb (r =? -1)); _ ← CHECK l;
  let l := expect_proto_output CMD_WRITE (Some $"key") l in
  '(r, l) ← t_write l $"key" None; _ ← assert_c (negb (r =? -1)); _ ← CHECK l;
  let l := expect_proto_output CMD_WRITE (Some $"key") l in
  '(r, l) ← t_delete l $"key"; _ ← assert_c (negb (r =? -1)); _ ← CHECK l; Done l.

Definition exists_case (l : tlib) (answer : bytes) (expected : Z) : outcome tlib :=
  let l := expect_on_input MSG_INFO answer (expect_proto_output CMD_READ (Some $"key") l) in
  '(r, l) ← t_exists l $"key"; _ ← assert_c (r =? expected); _ ← CHECK l; Done l.
Definition test_exists (l : tlib) : outcome tlib :=
  l ← exists_case l (kv $"key" []) 1; l ← exists_case l (kv $"key" $"xyz") 1; exists_case l $"key" 0.

Definition test_writes (l : tlib) : outcome tlib :=
  let l := expect_proto_output CMD_WRITE (Some (kv $"key" $"value")) l in
  '(r, l) ← t_writes l $"key" (Some $"value"); _ ← assert_c (negb (r =? -1)); _ ← CHECK l;
  let l := expect_proto_output CMD_WRITE (Some $"key") l in
  '(r, l) ← t_writes l $"key" None; _ ← assert_c (negb (r =? -1)); _ ← CHECK l; Done l.

Definition test_reads (l : tlib) : outcome tlib :=
  let l := expect_on_input MSG_INFO (kv $"key" $"value") (expect_proto_output CMD_READ (Some $"key") l) in
  '(ret, l) ← t_reads l $"key" (replicate 6 x) 6;
  o ← of_option AssertFailed ret;
  _ ← buf_is l 5 0;
  _ ← assert_c (bytes_eqb (cstr (drop (Z.to_nat o) (buffer (wait l)))) $"value"); _ ← CHECK l;
  (* deleted keys *)
  let l := expect_on_input MSG_INFO $"bad" (expect_proto_output CMD_READ (Some $"bad") l) in
  '(ret, l) ← t_reads (clear_errno l) $"bad" (xbuf 8) 8;
  _ ← assert_c (bool_decide (ret = None)); _ ← errno_is l ENOENT; _ ← buf_is l 0 x; _ ← CHECK l;
  (* a short buffer: the connection will have been closed *)
  let l := expect_on_input MSG_INFO (kv $"key" $"value") (expect_proto_output CMD_READ (Some $"key") l) in
  '(ret, l) ← t_reads (clear_errno l) $"key" (xbuf 5) 5;
  _ ← assert_c (bool_decide (ret = None)); _ ← errno_is l ENOMEM; _ ← buf_is l 0 x; _ ← CHECK l;
  _ ← assert_c (negb (is_open (world l)));
  (* a zero-sized buffer *)
  '(ret, l) ← t_reads (clear_errno l) $"key" (xbuf 5) 0;
  _ ← assert_c (bool_decide (ret = None)); _ ← errno_is l ENOMEM; _ ← buf_is l 0 x; Done l.

Definition test_readv (l : tlib) : outcome tlib :=
  let l := expect_proto_output CMD_BEGIN (Some []) l in
  let l := expect_proto_output CMD_READ (Some $"key1") l in
  let l := expect_proto_output CMD_READ (Some $"key2") l in
  let l := expect_proto_output CMD_PING (Some []) l in
  let l := expect_proto_output CMD_COMMIT (Some []) l in
  let l := expect_on_input MSG_INFO (kv $"key1" $"val") l in
  let l := expect_on_input MSG_INFO $"key2" l in
  let l := expect_on_input MSG_PONG [] l in
  '(r, bs, l) ← t_readv l [mk_bind $"key1" (Some 1) UINT32_MAX; mk_bind $"key2" (Some 1) UINT32_MAX] (replicate 24 0) 24;
  _ ← assert_c (negb (r =? -1)); _ ← CHECK l;
  match bs with
  | [b1; b2] =>
      _ ← assert_c (b_valuesz b1 =? 3);
      o ← of_option AssertFailed (b_value b1);
      v ← of_option OutOfBounds (mread (buffer (wait l)) o 3);
      _ ← assert_c (bytes_eqb v $"val");
      _ ← assert_c (bool_decide (b_value b2 = None));
      _ ← assert_c (b_valuesz b2 =? 0); Done l
  | _ => Crash AssertFailed
  end.

Definition test_writev (l : tlib) : outcome tlib :=
  let l := expect_proto_output CMD_BEGIN (Some []) l in
  let l := expect_proto_output CMD_WRITE (Some (kv $"key1" $"value")) l in
  let l := expect_proto_output CMD_WRITE (Some $"key2") l in
  let l := expect_proto_output CMD_COMMIT (Some []) l in
  '(r, l) ← t_writev l [($"key1", Some $"value"); ($"key2", None)];
  _ ← assert_c (negb (r =? -1)); _ ← CHECK l;
  _ ← assert_c (negb (info_fileno l =? -1)); _ ← assert_c (info_fileno l =? mock_socket_fd); Done l.

(** An empty transaction, and none at all. *)
Definition test_tx_empty (l : tlib) : outcome tlib :=
  let l := expect_proto_output CMD_BEGIN (Some []) l in
  let l := expect_proto_output CMD_PING None l in
  let l := expect_proto_output CMD_COMMIT (Some []) l in
  let l := expect_on_input MSG_PONG [] l in
  '(r, l) ← t_tx_begin l; _ ← assert_c (negb (r =? -1));
  '(r, l) ← t_tx_commit l; _ ← assert_c (negb (r =? -1)); _ ← CHECK l;
  '(r, l) ← info_tx_read no_cb None l $"key1"; _ ← assert_c (r =? -1);
  '(r, l) ← info_tx_write no_cb None l $"key2" $"value"; _ ← assert_c (r =? -1);
  '(r, l) ← info_tx_delete no_cb None l $"key3"; _ ← assert_c (r =? -1);
  '(r, l) ← info_tx_sub no_cb None l $"pattern"; _ ← assert_c (r =? -1); Done l.

(** A transaction with many things. *)
Definition test_tx (l : tlib) : outcome tlib :=
  let l := expect_proto_output CMD_BEGIN (Some []) l in
  let l := expect_proto_output CMD_READ (Some $"key1") l in
  let l := expect_proto_output CMD_WRITE (Some (kv $"key2" $"value")) l in
  let l := expect_proto_output CMD_WRITE (Some $"key3") l in
  let l := expect_proto_output CMD_SUB (Some $"pattern") l in
  let l := expect_proto_output CMD_UNSUB (Some $"pattern") l in
  let l := expect_proto_output CMD_PING None l in
  let l := expect_proto_output CMD_COMMIT (Some []) l in
  let l := expect_on_input MSG_PONG [] l in
  '(r, l) ← t_tx_begin l; _ ← assert_c (negb (r =? -1));
  '(r, l) ← info_tx_read no_cb None l $"key1"; _ ← assert_c (negb (r =? -1));
  '(r, l) ← info_tx_write no_cb None l $"key2" $"value"; _ ← assert_c (negb (r =? -1));
  '(r, l) ← info_tx_delete no_cb None l $"key3"; _ ← assert_c (negb (r =? -1));
  '(r, l) ← info_tx_sub no_cb None l $"pattern"; _ ← assert_c (negb (r =? -1));
  '(r, l) ← info_tx_unsub no_cb None l $"pattern"; _ ← assert_c (negb (r =? -1));
  '(r, l) ← t_tx_commit l; _ ← assert_c (negb (r =? -1)); _ ← CHECK l; Done l.

(** The library before any call. *)
Definition mock_lib : tlib := mk_lib (-1) None false waitret_zero [] (EOTHER 0) (mk_mock [] [] false).

Definition t_info_main : outcome tlib :=
  l ← test_close mock_lib; l ← test_read l; l ← test_write l; l ← test_exists l; l ← test_writes l;
  l ← test_reads l; l ← test_readv l; l ← test_writev l; l ← test_tx_empty l; test_tx l.

Example t_info_passes : is_done t_info_main = true.
Proof. vm_compute. reflexivity. Qed.
