(* ===== verification/ClientInfo.v ===== *)
(** * The command-line client: definitions (src/client/info.c)

    The client turns its arguments into one transaction of the client library and prints the
    records that come back. Arguments are C strings without their NUL; [argv] ends after its
    last element. The program's output and its counters live beside the world of the library;
    messages on stderr and the buffering of stdout are not modelled. *)
From S2P Require Import Prelude StoreDefs Rxbuf ProtoDefs LibInfo.
Local Open Scope infod_scope.

(** The [options] of info.c. *)
Record copts := mk_copts {
  key_delim : option bytes;       (* -k[delim] *)
  timeout : Z;
  blank : bool;                   (* -b print deleted as blank *)
  all : bool;                     (* -A print all *)
  clear : bool;                   (* -C clear all *)
  socket : option bytes           (* -S *)
}.
Definition opts0 : copts := mk_copts None (-1) false false false None.

Definition set_delim (o : copts) (d : bytes) : copts :=
  mk_copts (Some d) (timeout o) (blank o) (all o) (clear o) (socket o).
Definition set_timeout (o : copts) (n : Z) : copts :=
  mk_copts (key_delim o) n (blank o) (all o) (clear o) (socket o).
Definition set_blank (o : copts) : copts :=
  mk_copts (key_delim o) (timeout o) true (all o) (clear o) (socket o).
Definition set_all (o : copts) : copts :=
  mk_copts (key_delim o) (timeout o) (blank o) true (clear o) (socket o).
Definition set_clear (o : copts) : copts :=
  mk_copts (key_delim o) (timeout o) (blank o) (all o) true (socket o).
Definition set_socket (o : copts) (s : bytes) : copts :=
  mk_copts (key_delim o) (timeout o) (blank o) (all o) (clear o) (Some s).

(** ** Arguments *)

(** [opt[i]]: the terminating NUL can be read, what follows it cannot. *)
Definition char_at (s : bytes) (i : nat) : outcome byte :=
  if (i <? length s)%nat then Done (nth i s 0)
  else if (i =? length s)%nat then Done 0 else Crash OutOfBounds.

Definition dash : byte := 45.
Definition ch_r : byte := 114.
Definition ch_w : byte := 119.
Definition ch_d : byte := 100.
Definition ch_s : byte := 115.

(** [strncmp(opt, p, strlen(p)) == 0] *)
Definition has_prefix (p opt : bytes) : bool := bytes_eqb (take (length p) opt) p.

(** [strchr(s, '=')]: what is before and after the first equals sign. *)
Fixpoint split_eq (s : bytes) : option (bytes * bytes) :=
  match s with
  | [] => None
  | c :: s' => if c =? 61 then Some ([], s') else (fun x => (c :: x.1, x.2)) <$> split_eq s'
  end.

(** [sscanf(arg, "%d", &n)]: white space, a sign, digits. A number that does not fit is taken
    to the nearest [long] and cut to an [int]. *)
Definition isspace (c : byte) : bool := (c =? 32) || ((9 <=? c) && (c <=? 13)).
Fixpoint digits (s : bytes) (acc : Z) : Z :=
  match s with
  | c :: s' => if (48 <=? c) && (c <=? 57) then digits s' (acc * 10 + (c - 48)) else acc
  | [] => acc
  end.
Fixpoint skip_space (s : bytes) : bytes :=
  match s with c :: s' => if isspace c then skip_space s' else s | [] => [] end.
Definition isdigit (c : byte) : bool := (48 <=? c) && (c <=? 57).
Definition int_of (n : Z) : Z :=
  let n := Z.max (- 2 ^ 63) (Z.min (2 ^ 63 - 1) n) in (n + 2 ^ 31) mod 2 ^ 32 - 2 ^ 31.
Definition sscanf_d (arg : bytes) : option Z :=
  let s := skip_space arg in
  let '(sign, s) := match s with
                    | c :: s' => if c =? 45 then (-1, s') else if c =? 43 then (1, s') else (1, s)
                    | [] => (1, [])
                    end in
  if isdigit (hd0 s) then Some (int_of (sign * digits s 0)) else None.

(** Gather connection options: the error, the options, and the arguments from [optind] on. *)
Fixpoint gather (args : list bytes) (o : copts) : Z * copts * list bytes :=
  match args with
  | [] => (0, o, [])
  | opt :: rest =>
      if has_prefix $"-k" opt then
        gather rest (set_delim o (match drop 2 opt with [] => $" " | d => d end))
      else if bytes_eqb opt $"-S" then
        match rest with
        | [] => (2, o, args)
        | arg :: rest' => gather rest' (set_socket o arg)
        end
      else if bytes_eqb opt $"-A" then gather rest (set_all o)
      else if bytes_eqb opt $"-C" then gather rest (set_clear o)
      else if bytes_eqb opt $"-b" then gather rest (set_blank o)
      else if has_prefix $"-t" opt then
        match drop 2 opt with
        | [] =>
            match rest with
            | [] => (2, o, [])
            | arg :: rest' =>
                match sscanf_d arg with Some n => gather rest' (set_timeout o n) | None => (2, o, rest) end
            end
        | arg => match sscanf_d arg with Some n => gather rest (set_timeout o n) | None => (2, o, args) end
        end
      else (0, o, args)
  end.

(** [strchr("rwds", c)], which also finds the NUL. *)
Definition known_flag (c : byte) : bool :=
  (c =? ch_r) || (c =? ch_w) || (c =? ch_d) || (c =? ch_s) || (c =? 0).

(** Check command options: 2 is an error. *)
Fixpoint check_args (args : list bytes) : outcome Z :=
  match args with
  | [] => Done 0
  | opt :: rest =>
      let with_arg (c : byte) (arg : bytes) (k : outcome Z) :=
        if (c =? ch_w) && bool_decide (split_eq arg = None) then Done 2 else k in
      c0 ← char_at opt 0;
      if negb (c0 =? dash) then check_args rest        (* assume implied -r or -w *)
      else
        c1 ← char_at opt 1;
        if negb (known_flag c1) then Done 2
        else
          c2 ← char_at opt 2;
          if negb (c2 =? 0) then with_arg c1 (drop 2 opt) (check_args rest)
          else
            match rest with
            | [] => Done 2                              (* missing arg *)
            | arg :: rest' => with_arg c1 arg (check_args rest')
            end
  end.

(** ** Output *)

(** What the program printed, and [deleted_count]. *)
Record app := mk_app { stdout : bytes; deleted_count : Z }.

Section Client.
Context {os : OS} {K : Type} {link : Link K}.

(** The world of the library with the program's own state beside it. *)
Definition aworld : Type := K * app.

#[export] Instance app_link : Link aworld := {
  sys_writev k fd b := '(r, k') ← sys_writev k.1 fd b; Done (r, (k', k.2));
  sys_read k fd := '(r, k') ← sys_read k.1 fd; Done (r, (k', k.2));
  sys_closefd k fd := (sys_closefd k.1 fd, k.2);
  sys_shutdown k fd := (sys_shutdown k.1 fd, k.2);
  sockunix_connect k := let '(r, k') := sockunix_connect k.1 in (r, (k', k.2));
  tcp_client_addrinfo k hp := let '(r, k') := tcp_client_addrinfo k.1 hp in (r, (k', k.2));
  sys_socket k ai := let '(r, k') := sys_socket k.1 ai in (r, (k', k.2));
  sys_connect k s ai := let '(r, k') := sys_connect k.1 s ai in (r, (k', k.2))
}.

Abbreviation lib := (lib aworld).
Implicit Types (l : lib) (key data : bytes).

Definition the_app l : app := (world l).2.
Definition set_app l (a : app) : lib := set_world l ((world l).1, a).
Definition printf l (b : bytes) : lib := set_app l (mk_app (stdout (the_app l) ++ b) (deleted_count (the_app l))).
Definition count_deleted l : lib :=
  set_app l (mk_app (stdout (the_app l)) (u32 (deleted_count (the_app l) + 1))).

(** [wild] is the translator's uninitialised [on_error], [junk] what malloc() leaves. *)
Context (wild : option (proto -> lib -> errno -> bytes -> lib)) (junk : option textproto) (fuel : nat).

(** Sending delivers no message, so that no callback is called by [info_delete]. *)
Definition idle_cb l (_ : bytes) (_ : option bytes) : outcome (Z * lib) := Done (1, l).

Definition action_cb (o : copts) l key (value : option bytes) : outcome (Z * lib) :=
  if clear o && bool_decide (is_Some value) then
    '(_, l1) ← info_delete idle_cb wild junk l key; Done (1, l1)
  else
    let l1 := match value with None => count_deleted l | Some _ => l end in
    if negb (bool_decide (is_Some value)) && negb (blank o) then Done (1, l1)
    else
      let l2 := match key_delim o with Some d => printf l1 (key ++ d) | None => l1 end in
      let l3 := match value with Some v => printf l2 v | None => l2 end in
      Done (1, printf l3 [10]).

(** [signal(SIGALRM, on_alarm)] and [alarm(secs)]; [None] when signal() fails. The handler
    calls [info_cb_close], after which reads find the end of the file. *)
Context (sys_alarm : K -> Z -> option K).

Section Transaction.
Context (cb : lib -> bytes -> option bytes -> outcome (Z * lib)).

(** The loop that fills the transaction: [None] is [goto fail], [Some] holds [have_subs]. *)
Fixpoint run_args l (args : list bytes) (have_subs : bool) : outcome (option bool * lib) :=
  match args with
  | [] => Done (Some have_subs, l)
  | arg :: rest =>
      let step (c : byte) (data : bytes) (k : lib -> bool -> outcome (option bool * lib)) :=
        '(r, l1) ← (if c =? ch_r then info_tx_read cb wild l data
                    else if c =? ch_w then
                      '(key, value) ← of_option NullDeref (split_eq data);
                      info_tx_write cb wild l key value
                    else if c =? ch_d then info_tx_delete cb wild l data
                    else if c =? ch_s then info_tx_sub cb wild l data
                    else Done (0, l));
        if r =? -1 then Done (None, l1) else k l1 (have_subs || (c =? ch_s)) in
      c0 ← char_at arg 0;
      if negb (c0 =? dash) then
        step (if bool_decide (split_eq arg = None) then ch_r else ch_w) arg (fun l1 h => run_args l1 rest h)
      else
        c2 ← char_at arg 2;
        c1 ← char_at arg 1;
        if negb (c2 =? 0) then step c1 (drop 2 arg) (fun l1 h => run_args l1 rest h)
        else
          match rest with
          | [] => Crash NullDeref
          | data :: rest' => step c1 data (fun l1 h => run_args l1 rest' h)
          end
  end.

(** [info_tx_sub("*")] and [info_tx_unsub("*")] for -A and -C: [false] is [goto fail]. *)
Definition sub_all l : outcome (bool * lib) :=
  '(r, l1) ← info_tx_sub cb wild l $"*";
  if r =? -1 then Done (false, l1)
  else '(r, l2) ← info_tx_unsub cb wild l1 $"*"; Done (negb (r =? -1), l2).

End Transaction.

(** [exit(deleted_count)]: the parent sees the low eight bits. *)
Definition exit_ok l : outcome (Z * lib) := Done (u8 (deleted_count (the_app l)), l).
(** [fail:] *)
Definition exit_fail l : outcome (Z * lib) := Done (1, l).

(** Waiting for updates, after the transaction. *)
Definition subscribed (o : copts) l : outcome (Z * lib) :=
  let alarmed := if 0 <? timeout o
                 then (fun k => set_world l (k, the_app l)) <$> sys_alarm (world l).1 (timeout o) else Some l in
  match alarmed with
  | None => Done (1, l)
  | Some l1 =>
      '(r, l2) ← info_loop (action_cb o) wild fuel l1 true;
      if r =? -1 then exit_fail l2 else exit_ok l2
  end.

(** From the start of the transaction on. *)
Definition transact (o : copts) l (args : list bytes) : outcome (Z * lib) :=
  let o := if all o && bool_decide (key_delim o = None) then set_delim o $"=" else o in
  let cb := action_cb o in
  '(r, l1) ← info_tx_begin cb wild junk l;
  if r =? -1 then exit_fail l1
  else
    '(ok, l2) ← (if all o || clear o then sub_all cb l1 else Done (true, l1));
    if negb ok then exit_fail l2
    else
      let o := if (all o || clear o) && (timeout o =? -1) then set_timeout o 0 else o in
      '(subs, l3) ← run_args cb l2 args (all o || clear o);
      match subs with
      | None => exit_fail l3
      | Some have_subs =>
          '(r, l4) ← info_tx_commit cb wild fuel l3 true;
          if r =? -1 then exit_fail l4
          else if have_subs && negb (timeout o =? 0) then subscribed o l4
          else exit_ok l4
      end.

(** [main]: the exit status. *)
Definition client_main l (args : list bytes) : outcome (Z * lib) :=
  let '(error, o, rest) := gather args opts0 in
  error ← (if error =? 0 then check_args rest else Done error);
  if negb (error =? 0) then Done (error, l)
  else
    match socket o with
    | None => transact o l rest
    | Some hp =>
        let '(r, l1) := info_open junk l (Some hp) in
        if r =? -1 then Done (1, l1) else transact o l1 rest
    end.

End Client.
Arguments aworld : clear implicits.
