(* ===== verification/ClientTheorems.v ===== *)
(** * The command-line client: its theorems

    What the check of the arguments accepts is carried out, command by command; on a server
    that keeps its promises to the library, the client changes and prints the keys it is
    asked for and its exit status counts the keys that do not exist. *)
From S2P Require Import Prelude Match StoreDefs StoreLayout StoreRep StoreOps StoreTheorems.
From S2P Require Import Rxbuf ProtoDefs ProtoBin Infod InfodSpec InfodSim InfodCmd InfodTheorems.
From S2P Require Import LibInfo LibPeer LibDaemon LibTheorems ClientInfo.
Local Open Scope infod_scope.

(** ** The commands of an argument list *)

Inductive command := Read (key : bytes) | Write (key value : bytes) | Delete (key : bytes) | Sub (pattern : bytes).

Definition is_sub (c : command) : bool := match c with Sub _ => true | _ => false end.

(** A flag with its argument; an argument without a flag is a write if it has an equals sign. *)
Definition flagged (c : byte) (data : bytes) : command :=
  if c =? ch_w then match split_eq data with Some (key, value) => Write key value | None => Read data end
  else if c =? ch_d then Delete data else if c =? ch_s then Sub data else Read data.
Definition plain (arg : bytes) : command :=
  match split_eq arg with Some (key, value) => Write key value | None => Read arg end.

Fixpoint commands (args : list bytes) : list command :=
  match args with
  | [] => []
  | arg :: rest =>
      match arg with
      | d :: c :: data =>
          if d =? dash then
            match data, rest with
            | [], data' :: rest' => flagged c data' :: commands rest'
            | _, _ => flagged c data :: commands rest
            end
          else plain arg :: commands rest
      | _ => plain arg :: commands rest
      end
  end.

Section Run.
Context {os : OS} {K : Type} {link : Link K}.
Context (wild : option (proto -> lib (aworld K) -> errno -> bytes -> lib (aworld K))).
Context (cb : lib (aworld K) -> bytes -> option bytes -> outcome (Z * lib (aworld K))).
Implicit Types (l : lib (aworld K)).

Definition tx_command l (c : command) : outcome (Z * lib (aworld K)) :=
  match c with
  | Read key => info_tx_read cb wild l key
  | Write key value => info_tx_write cb wild l key value
  | Delete key => info_tx_delete cb wild l key
  | Sub pattern => info_tx_sub cb wild l pattern
  end.

Fixpoint run_commands l (cs : list command) (have_subs : bool) : outcome (option bool * lib (aworld K)) :=
  match cs with
  | [] => Done (Some have_subs, l)
  | c :: cs' =>
      '(r, l1) ← tx_command l c;
      if r =? -1 then Done (None, l1) else run_commands l1 cs' (have_subs || is_sub c)
  end.

(** What [run_args] does with a flag and its argument. *)
Definition flag_step l (have_subs : bool) (c : byte) (data : bytes)
    (k : lib (aworld K) -> bool -> outcome (option bool * lib (aworld K))) : outcome (option bool * lib (aworld K)) :=
  '(r, l1) ← (if c =? ch_r then info_tx_read cb wild l data
              else if c =? ch_w then
                '(key, value) ← of_option NullDeref (split_eq data);
                info_tx_write cb wild l key value
              else if c =? ch_d then info_tx_delete cb wild l data
              else if c =? ch_s then info_tx_sub cb wild l data
              else Done (0, l));
  if r =? -1 then Done (None, l1) else k l1 (have_subs || (c =? ch_s)).

Lemma flag_step_ok l hs c data k :
  known_flag c = true -> c <> 0 -> (c = ch_w -> split_eq data <> None) ->
  flag_step l hs c data k =
    ('(r, l1) ← tx_command l (flagged c data); if r =? -1 then Done (None, l1) else k l1 (hs || is_sub (flagged c data))).
Proof.
  intros Hf Hc Hw. unfold flag_step, flagged, known_flag in *.
  destruct (Z.eqb_spec c ch_r) as [->|]; [done|]. destruct (Z.eqb_spec c ch_w) as [->|].
  { specialize (Hw eq_refl). by destruct (split_eq data) as [[key value]|]. }
  destruct (Z.eqb_spec c ch_d) as [->|]; [done|]. destruct (Z.eqb_spec c ch_s) as [->|]; [done|].
  by destruct (Z.eqb_spec c 0).
Qed.

Abbreviation run_args := (run_args wild cb).

Lemma run_args_cons l arg rest hs :
  run_args l (arg :: rest) hs =
    (c0 ← char_at arg 0;
     if negb (c0 =? dash) then
       flag_step l hs (if bool_decide (split_eq arg = None) then ch_r else ch_w) arg (fun l1 h => run_args l1 rest h)
     else
       c2 ← char_at arg 2;
       c1 ← char_at arg 1;
       if negb (c2 =? 0) then flag_step l hs c1 (drop 2 arg) (fun l1 h => run_args l1 rest h)
       else match rest with
            | [] => Crash NullDeref
            | data :: rest' => flag_step l hs c1 data (fun l1 h => run_args l1 rest' h)
            end).
Proof. by destruct rest. Qed.

(** An argument without a flag. *)
Lemma plain_step l hs arg k :
  flag_step l hs (if bool_decide (split_eq arg = None) then ch_r else ch_w) arg k =
    ('(r, l1) ← tx_command l (plain arg); if r =? -1 then Done (None, l1) else k l1 (hs || is_sub (plain arg))).
Proof. unfold plain. by destruct (split_eq arg) as [[key value]|] eqn:E; unfold flag_step; rewrite ?E. Qed.

(** The continuation of a step is the rest of the commands. *)
Lemma step_commands l hs c k cs :
  (forall l1 h, k l1 h = run_commands l1 cs h) ->
  ('(r, l1) ← tx_command l c; if r =? -1 then Done (None, l1) else k l1 (hs || is_sub c)) =
  run_commands l (c :: cs) hs.
Proof.
  intros Hk. cbn [run_commands]. destruct (tx_command l c) as [[r l1]|]; [|done]. ostep.
  by destruct (r =? -1).
Qed.

Lemma split_eq_check c arg (k : outcome Z) :
  (if (c =? ch_w) && bool_decide (split_eq arg = None) then Done 2 else k) = Done 0 ->
  k = Done 0 /\ (c = ch_w -> split_eq arg <> None).
Proof.
  destruct (Z.eqb_spec c ch_w) as [->|]; cbn [andb]; [|done]. case_bool_decide; [done|]. done.
Qed.

Lemma checked_run n : forall args l hs,
  (length args <= n)%nat -> Forall nul_free args -> check_args args = Done 0 ->
  run_args l args hs = run_commands l (commands args) hs.
Proof.
  induction n as [|n IH]; intros [|arg rest] l hs Hn Hnul Hc; try done; [cbn in Hn; lia|].
  apply Forall_cons in Hnul as [Ha Hr]. cbn [length] in Hn. rewrite run_args_cons. cbn [check_args] in Hc.
  assert (Hplain : forall c0, c0 <> dash -> char_at arg 0 = Done c0 ->
    flag_step l hs (if bool_decide (split_eq arg = None) then ch_r else ch_w) arg (fun l1 h => run_args l1 rest h) =
    run_commands l (plain arg :: commands rest) hs).
  { intros c0 Hd E. rewrite E in Hc. cbn in Hc. rewrite (proj2 (Z.eqb_neq _ _) Hd) in Hc.
    cbn [negb] in Hc. rewrite plain_step. apply (step_commands l hs _ (fun l1 h => run_args l1 rest h)). intros l1 h. apply IH; [lia|done|done]. }
  destruct arg as [|d [|c data]]; [by apply (Hplain 0)| |].
  { cbn -[dash] in Hc |- *. destruct (Z.eqb_spec d dash) as [->|Hd]; cbn [negb] in *; [done|]. by apply (Hplain d). }
  change (char_at (d :: c :: data) 0) with (Done d) in *. change (char_at (d :: c :: data) 1) with (Done c) in *.
  change (drop 2 (d :: c :: data)) with data in *. ostep. cbn [mbind outcome_bind] in Hc. cbn [commands].
  destruct (Z.eqb_spec d dash) as [->|Hd]; cbn [negb] in *; [|by apply (Hplain d)].
  apply Forall_cons in Ha as [_ Ha]. apply Forall_cons in Ha as [Hc0 Ha].
  destruct (known_flag c) eqn:Hf; cbn [negb] in Hc; [|done].
  destruct data as [|e data].
  - change (char_at [dash; c] 2) with (@Done byte 0) in *. cbn [mbind outcome_bind Z.eqb negb] in Hc. ostep. cbn [Z.eqb negb].
    destruct rest as [|data rest]; [done|]. apply split_eq_check in Hc as [Hc Hw]. rewrite flag_step_ok by done.
    apply Forall_cons in Hr as [_ Hr]. apply (step_commands l hs _ (fun l1 h => run_args l1 rest h)). intros. apply IH; [cbn in Hn; lia|done|done].
  - change (char_at (dash :: c :: e :: data) 2) with (Done e) in *. apply Forall_cons in Ha as [He _].
    cbn [mbind outcome_bind] in Hc. ostep. rewrite (proj2 (Z.eqb_neq e 0) He) in *. cbn [negb] in *.
    apply split_eq_check in Hc as [Hc Hw]. rewrite flag_step_ok by done.
    apply (step_commands l hs _ (fun l1 h => run_args l1 rest h)). intros. apply IH; [lia|done|done].
Qed.

(** C25: an argument list that passes the check of the options is carried out: the loop that
    fills the transaction sends one command per flag and argument, in their order, and neither
    runs past the end of an argument or of the list nor misses an equals sign. *)
Theorem checked_args_run args l hs :
  Forall nul_free args -> check_args args = Done 0 ->
  run_args l args hs = run_commands l (commands args) hs.
Proof. apply (checked_run (length args)). done. Qed.

End Run.

(** ** A transaction with a server *)

(** The server's promises hold whatever the program prints; [a] is what it has printed. *)
Definition app_peer {K} {link : Link K} {P : InfoPeer K} (a : app) : InfoPeer (aworld K).
Proof.
  refine {| peer_fd := peer_fd; peer k n pats M q pend := peer k.1 n pats M q pend /\ k.2 = a; peer_open := peer_open |}.
  - intros k n pats M q pend key kv [Hp _]. by apply (peer_record _ _ _ _ _ _ _ _ Hp).
  - intros [k x] n pats M q b pend [Hp Hx]. cbn in Hp, Hx. subst x. destruct (peer_read _ _ _ _ _ _ _ Hp) as (k' & E & Hp').
    exists (k', a). cbn in *. rewrite E. by split.
  - intros [k x] n pats M pend cmd [Hp Hx] Hq Hf. cbn in Hp, Hx. subst x. destruct (peer_now _ _ _ _ _ _ Hp Hq Hf) as (k' & E & Hp').
    exists (k', a). cbn in *. rewrite E. by split.
  - intros [k x] n pats M pend [Hp Hx]. cbn in Hp, Hx. subst x. destruct (peer_begin _ _ _ _ _ Hp) as (k' & E & Hp').
    exists (k', a). cbn in *. rewrite E. by split.
  - intros [k x] n pats M q pend cmd [Hp Hx] Hq. cbn in Hp, Hx. subst x. destruct (peer_later _ _ _ _ _ _ _ Hp Hq) as (k' & E & Hp').
    exists (k', a). cbn in *. rewrite E. by split.
  - intros [k x] n pats M q pend [Hp Hx] Hq Hf. cbn in Hp, Hx. subst x. destruct (peer_commit _ _ _ _ _ _ Hp Hq Hf) as (k' & E & Hp').
    exists (k', a). cbn in *. rewrite E. by split.
Defined.

(** What a command sends. *)
Definition cmd_of (c : command) : Z * bytes :=
  match c with
  | Read key => ask key
  | Write key value => put (key, Some value)
  | Delete key => put (key, None)
  | Sub pattern => (CMD_SUB, pattern)
  end.
Definition doable (c : command) : Prop :=
  match c with
  | Read key => readable key
  | Write key value => writable (key, Some value)
  | Delete key => writable (key, None)
  | Sub pattern => (0 ∉ pattern) /\ Match.match_isvalid pattern = true /\ zlen pattern <= 65535
  end.

Lemma doable_request c : doable c -> request (cmd_of c).
Proof.
  destruct c as [key|key value|key|pattern]; intros H; [left; by apply ask_query|by apply put_request..|].
  right. right. left. by destruct H as (? & ? & ?).
Qed.

(** All commands of a run: -A and -C begin with a subscription to everything, for a moment. *)
Definition dump (o : copts) : list (Z * bytes) :=
  if all o || clear o then [(CMD_SUB, $"*"); (CMD_UNSUB, $"*")] else [].
Definition sent (o : copts) (cs : list command) : list (Z * bytes) := dump o ++ (cmd_of <$> cs).

(** The options as they are used: -A prints the keys, and neither -A nor -C waits. *)
Definition in_use (o : copts) : copts :=
  let o := if all o && bool_decide (key_delim o = None) then set_delim o $"=" else o in
  if (all o || clear o) && (timeout o =? -1) then set_timeout o 0 else o.
(** The run ends with the transaction. *)
Definition ends (o : copts) (cs : list command) : Prop :=
  timeout (in_use o) = 0 \/ all o || clear o = false /\ Forall (fun c => is_sub c = false) cs.

Lemma sent_request o cs : Forall doable cs -> Forall request (sent o cs).
Proof.
  intros H. apply Forall_app. split.
  - unfold dump. destruct (_ || _); [|constructor].
    apply Forall_cons. split; [right; right; left|apply Forall_singleton; right; right; right; by split].
    split_and!; [done|by apply (bool_decide_unpack (0 ∉ _))|done|done].
  - apply Forall_fmap. eapply Forall_impl; [exact H|]. intros c. apply doable_request.
Qed.

Lemma sent_no_ping o cs : Forall (fun cmd => cmd.1 <> CMD_PING) (sent o cs).
Proof.
  apply Forall_app. split; [unfold dump; destruct (_ || _); repeat constructor; done|].
  apply Forall_fmap, Forall_true. by intros [].
Qed.

(** What the client prints of a record, and the count of the keys that do not exist. *)
Definition named (o : copts) (key : bytes) : bytes :=
  match key_delim o with Some d => key ++ d | None => [] end.
Definition printed (o : copts) (key : bytes) (value : option bytes) : bytes :=
  match value with
  | Some v => named o key ++ v ++ [10]
  | None => if blank o then named o key ++ [10] else []
  end.
Definition act (o : copts) (a : app) (key : bytes) (value : option bytes) : app :=
  mk_app (stdout a ++ printed o key value)
         (match value with None => u32 (deleted_count a + 1) | Some _ => deleted_count a end).
(** A record that arrived: its key and its value, if it has one. *)
Definition shown (data : bytes) : bytes * option bytes :=
  (cstr data, if zlen (cstr data) =? zlen data then None else Some (value_of data)).
Definition acts (o : copts) (a : app) (rs : list (bytes * option bytes)) : app :=
  foldl (fun a x => act o a x.1 x.2) a rs.

Section Transaction.
Context {os : OS} {K : Type} {link : Link K} {P : InfoPeer K}.
Context (wild : option (proto -> lib (aworld K) -> errno -> bytes -> lib (aworld K))) (junk : option textproto).
Implicit Types (l : lib (aworld K)) (p : proto) (room : nat) (pats : list bytes) (M : gmap bytes bytes) (a : app) (cs : list command).

Lemma action_ok o l key value :
  clear o = false -> action_cb wild junk o l key value = Done (1, set_app l (act o (the_app l) key value)).
Proof.
  intros Hc. unfold action_cb. rewrite Hc. cbn [andb]. destruct l as [fd pr tx wt er en [k [out n]]].
  unfold act, printed, named, printf, count_deleted, set_app, the_app. cbn.
  destruct value as [v|]; cbn; [|destruct (blank o); cbn];
    destruct (key_delim o); cbn; rewrite ?app_nil_r, <- ?app_assoc; done.
Qed.

(** [waitret] while [info_tx_commit] waits. *)
Definition cb_wait : waitret := mk_waitret MSG_PONG false 0 None None 0 [] 0 0 true.

(** A record arrives and the callback is called. *)
Lemma recv_call cb l p data r l1 :
  l_proto l = Some p -> wait l = cb_wait ->
  cb (set_wait l (set_in_cb cb_wait true)) (shown data).1 (shown data).2 = Done (r, l1) ->
  r = 1 -> wait l1 = set_in_cb cb_wait true ->
  info_on_input cb p l MSG_INFO data = Done (1, set_wait l1 cb_wait).
Proof.
  intros Hp Hw E -> Hw1. unfold info_on_input. rewrite (set_same l p Hp), Hw.
  change (until_msg cb_wait =? MSG_INFO) with false. cbv iota. change (MSG_INFO =? MSG_EOF) with false. cbv iota.
  rewrite Hw. cbn [exists_key cb_wait]. rewrite Hw. cbn [binds cb_wait]. ostep. rewrite Hw.
  change ((MSG_INFO =? MSG_INFO) && has_cb cb_wait) with true. cbn [Z.eqb]. unfold call_cb. rewrite Hw.
  assert (Ev : (if zlen (cstr data) =? zlen data then None
                else Some (drop (Z.to_nat (zlen (cstr data) + 1)) data)) = (shown data).2).
  { unfold shown, value_of. cbn [snd]. by replace (Z.to_nat (zlen (cstr data) + 1)) with (S (length (cstr data))) by (unfold zlen; lia). }
  rewrite Ev. change (cstr data) with (shown data).1. rewrite E. ostep. rewrite Hw1. cbn. by ostep.
Qed.

Lemma recv_cb o l p data :
  clear o = false -> l_proto l = Some p -> wait l = cb_wait ->
  info_on_input (action_cb wild junk o) p l MSG_INFO data =
    Done (1, set_app l (act o (the_app l) (shown data).1 (shown data).2)).
Proof.
  intros Hc Hp Hw.
  rewrite (recv_call _ l p data 1 _ Hp Hw (action_ok o _ (shown data).1 (shown data).2 Hc) eq_refl eq_refl).
  destruct l. cbn in *. by subst.
Qed.

(** Connected, whatever was printed. *)
Lemma online_any a a' l p : Online (P:=app_peer a) l p -> Online (P:=app_peer a') l p.
Proof. intros []. by split. Qed.

Lemma online_app a l p k a' : Online (P:=app_peer a) l p -> Online (P:=app_peer a) (set_app (set_world l k) a') p.
Proof. intros []. by split. Qed.

(** The records of the transaction arrive one by one and are printed. *)
Lemma wait_cb o p room pats M ds : forall l a fuel pend,
  clear o = false -> Online (P:=app_peer a) l p -> wait l = cb_wait ->
  peer (InfoPeer:=app_peer a) (world l) room pats M None ((cons MSG_INFO <$> ds) ++ pend) ->
  let a' := acts o a (shown <$> ds) in
  exists k, peer (InfoPeer:=app_peer a') k room pats M None pend /\
    wait_loop (action_cb wild junk o) wild (length ds + fuel) l MSG_PONG =
    wait_loop (action_cb wild junk o) wild fuel (set_world l k) MSG_PONG.
Proof.
  induction ds as [|data ds IH]; intros l a fuel pend Hc Ho Hw Hp a'.
  { exists (world l). split; [done|]. by destruct l. }
  rewrite fmap_cons in Hp.
  destruct (wait_packet (P:=app_peer a) (action_cb wild junk o) wild l p room pats M None _ _ _ Ho Hp)
    as ([k x] & [Hpk Hx] & Hstep).
  cbn in Hpk, Hx. subst x. cbn [length Nat.add].
  pose proof (recv_cb o (set_world l (k, a)) p data Hc (on_proto _ _ Ho) Hw) as E.
  set (l1 := set_app _ _) in E. assert (Ho1 : Online (P:=app_peer a) l1 p) by (by apply online_app).
  rewrite (Hstep _ MSG_PONG l1 E (on_proto _ _ Ho1)). assert (Hw1 : wait l1 = cb_wait) by done. rewrite Hw1.
  change (negb (MSG_PONG =? ONCE) && (LibInfo.done cb_wait =? 0)) with true. cbv iota.
  destruct (IH l1 (act o a (shown data).1 (shown data).2) fuel pend) as (k2 & Hp2 & E2); try done; [by eapply online_any|].
  exists k2. split; [done|]. rewrite E2. by destruct l.
Qed.

(** ** The transaction *)

(** A command of the transaction is sent as one message, and queued by the server. *)
Lemma tx_op_ok cb l p room pats M a q pend msg fmt ap b :
  Online (P:=app_peer a) l p -> tx_begun l = true -> says cb wild fmt ap b -> request (msg, b) ->
  peer (InfoPeer:=app_peer a) (world l) room pats M (Some q) pend ->
  exists k, tx_op cb wild l msg fmt ap = Done (0, set_world l k) /\
    peer (InfoPeer:=app_peer a) k room pats M (Some (q ++ [(msg, b)])) pend.
Proof.
  intros Ho Ht Hs Hr Hp. destruct (peer_later (InfoPeer:=app_peer a) _ _ _ _ _ _ _ Hp Hr) as (k & E & Hpk).
  exists k. split; [|done]. unfold tx_op. rewrite Ht. cbn [negb].
  rewrite (lib_output_framed (P:=app_peer a) cb wild l p msg fmt ap b Ho Hs). cbn [fst snd] in E. rewrite E. ostep.
  pose proof (zlen_nonneg b). by destruct (Z.eqb_spec (1 + zlen b) (-1)); [lia|].
Qed.

Lemma tx_command_ok cb l p room pats M a q pend c :
  Online (P:=app_peer a) l p -> tx_begun l = true -> doable c ->
  peer (InfoPeer:=app_peer a) (world l) room pats M (Some q) pend ->
  exists k, tx_command wild cb l c = Done (0, set_world l k) /\
    peer (InfoPeer:=app_peer a) k room pats M (Some (q ++ [cmd_of c])) pend.
Proof.
  intros Ho Ht Hd Hp. pose proof (doable_request c Hd) as Hr.
  destruct c as [key|key value|key|pattern];
    (eapply tx_op_ok; [exact Ho|done| |exact Hr|exact Hp]);
    [apply says_str, Hd|apply says_record, Hd|apply says_str, Hd|apply says_str, Hd].
Qed.

Lemma tx_queued cb p room pats M a pend cs : forall l q hs,
  Online (P:=app_peer a) l p -> tx_begun l = true -> peer (InfoPeer:=app_peer a) (world l) room pats M (Some q) pend ->
  Forall doable cs ->
  exists k, run_commands wild cb l cs hs = Done (Some (hs || existsb is_sub cs), set_world l k) /\
    peer (InfoPeer:=app_peer a) k room pats M (Some (q ++ (cmd_of <$> cs))) pend.
Proof.
  induction cs as [|c cs IH]; intros l q hs Ho Ht Hp Hall.
  { exists (world l). rewrite app_nil_r, orb_false_r. split; [by destruct l|done]. }
  apply Forall_cons in Hall as [Hd Hall].
  destruct (tx_command_ok cb l p room pats M a q pend c Ho Ht Hd Hp) as (k1 & E1 & Hp1).
  destruct (IH (set_world l k1) (q ++ [cmd_of c]) (hs || is_sub c)) as (k & E & Hp2);
    [by apply (online_world (P:=app_peer a))|done|done|done|].
  exists k. rewrite <- app_assoc in Hp2. split; [|done]. cbn [run_commands existsb].
  rewrite E1. ostep. cbn [Z.eqb]. rewrite E, orb_assoc. by destruct l.
Qed.

(** The momentary subscription of -A and -C. *)
Lemma sub_all_ok cb l p room pats M a q pend :
  Online (P:=app_peer a) l p -> tx_begun l = true -> peer (InfoPeer:=app_peer a) (world l) room pats M (Some q) pend ->
  exists k, sub_all wild cb l = Done (true, set_world l k) /\
    peer (InfoPeer:=app_peer a) k room pats M (Some (q ++ [(CMD_SUB, $"*"); (CMD_UNSUB, $"*")])) pend.
Proof.
  intros Ho Ht Hp. assert (Hs : 0 ∉ $"*") by (by apply (bool_decide_unpack (0 ∉ _))).
  destruct (tx_op_ok cb l p room pats M a q pend CMD_SUB $"%s" [APtr $"*"] $"*" Ho Ht) as (k1 & E1 & Hp1); try done.
  { by apply says_str. } { right. right. left. by split_and!. }
  destruct (tx_op_ok cb (set_world l k1) p room pats M a (q ++ [(CMD_SUB, $"*")]) pend CMD_UNSUB $"%s" [APtr $"*"] $"*")
    as (k2 & E2 & Hp2); try done.
  { by apply (online_world (P:=app_peer a)). } { by apply says_str. } { right. right. right. by split. }
  exists k2. unfold sub_all, info_tx_sub, info_tx_unsub. rewrite E1. ostep. cbn [Z.eqb]. rewrite E2. ostep.
  rewrite <- app_assoc in Hp2. by destruct l.
Qed.

Lemma recv_pong_cb o l p :
  l_proto l = Some p -> wait l = cb_wait ->
  info_on_input (action_cb wild junk o) p l MSG_PONG [] = Done (1, set_wait l (inc_done cb_wait)).
Proof.
  intros Hp Hw. unfold info_on_input. rewrite (set_same l p Hp), Hw.
  change (until_msg cb_wait =? MSG_PONG) with true. change (MSG_PONG =? MSG_EOF) with false. cbv iota. cbn. by ostep.
Qed.

(** The commands of the transaction are committed: [info_tx_commit] is going to wait for the
    records and for the answer to its PING. *)
Lemma commit_sent cb l p room pats M a q fuel :
  Online (P:=app_peer a) l p -> tx_begun l = true -> in_cb (wait l) = false ->
  peer (InfoPeer:=app_peer a) (world l) (costs q + room) pats M (Some q) [] ->
  Forall request q -> Forall (fun cmd => cmd.1 <> CMD_PING) q -> all_fit pats q ->
  exists k, peer (InfoPeer:=app_peer a) k room (subs_afters pats q) (effects M q) None
      ((cons MSG_INFO <$> heard M pats q) ++ [[MSG_PONG]]) /\
    info_tx_commit cb wild fuel l true =
      wait_or_fail cb wild fuel (set_wait (set_tx (set_world l k) false) (set_cb waitret_zero true)) MSG_PONG
        (fun r l => Done (r, l)).
Proof.
  intros Ho Ht Hcb Hp Hreq Hnp Hfit. unfold info_tx_commit, waitret_init. rewrite Ht, Hcb. cbn [negb Z.eqb].
  set (l0 := set_wait l waitret_zero). assert (Ho0 : Online (P:=app_peer a) l0 p) by (by destruct Ho).
  assert (Hping : request (CMD_PING, [])) by (left; by split; [right|]).
  destruct (peer_later (InfoPeer:=app_peer a) _ _ _ _ _ _ _ Hp Hping) as (k3 & E3 & Hp3).
  assert (Hcost : costs (q ++ [(CMD_PING, [])]) = costs q) by (rewrite costs_app; cbn; lia).
  rewrite <- Hcost in Hp3. destruct (peer_commit (InfoPeer:=app_peer a) _ _ _ _ _ _ Hp3) as (k4 & E4 & Hp4).
  { apply Forall_app. split; [done|]. by apply Forall_singleton. }
  { apply all_fit_app. split; [done|]. by split. }
  rewrite effects_app, subs_afters_app, all_replies_app, replies_heard in Hp4 by done.
  exists k4. split; [exact Hp4|].
  change [(CMD_PING, [], []); (CMD_COMMIT, [], [])]
    with ([(CMD_PING, [], [])] ++ [(CMD_COMMIT, [], [])] : list (Z * bytes * list arg)).
  rewrite send_all_app, (send_taken (P:=app_peer a) _ wild l0 p CMD_PING [] [] [] k3 0 Ho0 (says_nothing _ _) E3) by lia. ostep.
  rewrite (send_taken (P:=app_peer a) _ wild (set_world l0 k3) p CMD_COMMIT [] [] [] k4 0);
    [|by apply (online_world (P:=app_peer a))|apply says_nothing|exact E4|lia]. ostep. cbn [negb]. by destruct l.
Qed.

(** The answer to the PING ends the wait. *)
Lemma wait_pong o l p room pats M a fuel :
  Online (P:=app_peer a) l p -> wait l = cb_wait -> peer (InfoPeer:=app_peer a) (world l) room pats M None [[MSG_PONG]] ->
  exists k, peer (InfoPeer:=app_peer a) k room pats M None [] /\
    wait_loop (action_cb wild junk o) wild (S fuel) l MSG_PONG = Done (1, set_wait (set_world l k) (inc_done cb_wait)).
Proof.
  intros Ho Hw Hp. destruct (wait_packet (P:=app_peer a) (action_cb wild junk o) wild _ p room pats M None _ _ _ Ho Hp)
    as (k & Hpk & Hstep). exists k. split; [done|]. by erewrite Hstep; [|apply recv_pong_cb; [apply Ho|done]|apply Ho].
Qed.

(** How many of the keys do not exist. *)
Definition absent (rs : list (bytes * option bytes)) : Z := zlen (filter (fun x => x.2 = None) rs).

Lemma acts_eq o rs : forall a, 0 <= deleted_count a -> deleted_count a + zlen rs < 2 ^ 32 ->
  acts o a rs = mk_app (stdout a ++ concat ((fun x => printed o x.1 x.2) <$> rs)) (deleted_count a + absent rs).
Proof.
  induction rs as [|[key v] rs IH]; intros a H0 Hlt; unfold absent in *.
  { change (acts o a []) with a. change (zlen (filter _ [])) with 0. cbn. rewrite app_nil_r, Z.add_0_r. by destruct a. }
  change (acts o a ((key, v) :: rs)) with (acts o (act o a key v) rs).
  rewrite zlen_cons in Hlt. pose proof (zlen_nonneg rs). rewrite IH; unfold act; cbn [stdout deleted_count]; cycle 1.
  { destruct v; [done|]. rewrite u32_small; lia. }
  { destruct v; [lia|]. rewrite u32_small; lia. }
  rewrite fmap_cons. cbn [concat fst snd]. rewrite <- app_assoc. f_equal. rewrite filter_cons. cbn [snd].
  destruct v; [by rewrite decide_False|]. rewrite decide_True by done.
  rewrite u32_small, zlen_cons by lia. lia.
Qed.

(** A transaction up to its commit; [o'] are the options in use. *)
Lemma transact_start o l p room M a args fuel sys_alarm :
  let cs := commands args in let q := sent o cs in let o' := in_use o in
  let cb := action_cb wild junk o' in
  Forall nul_free args -> check_args args = Done 0 -> Forall doable cs -> all_fit [] q -> ends o cs ->
  Online (P:=app_peer a) l p -> in_cb (wait l) = false -> tx_begun l = false ->
  peer (InfoPeer:=app_peer a) (world l) (costs q + room) [] M None [] ->
  exists k, peer (InfoPeer:=app_peer a) k room (subs_afters [] q) (effects M q) None
      ((cons MSG_INFO <$> heard M [] q) ++ [[MSG_PONG]]) /\
    transact wild junk fuel sys_alarm o l args =
      ('(r, l4) ← wait_or_fail cb wild fuel (set_wait (set_world l k) (set_cb waitret_zero true)) MSG_PONG
         (fun r l => Done (r, l));
       if r =? -1 then exit_fail l4 else exit_ok l4).
Proof.
  intros cs q o' cb Hnul Hck Hdo Hfit Hend Ho Hcb Ht Hp. unfold transact.
  set (o1 := if all o && _ then set_delim o _ else o).
  assert (Eo : all o1 = all o /\ clear o1 = clear o /\ timeout o1 = timeout o /\
    action_cb wild junk o1 = cb /\ o' = if (all o1 || clear o1) && (timeout o1 =? -1) then set_timeout o1 0 else o1).
  { unfold cb, o', in_use. fold o1. unfold o1. destruct (all o && _); cbn [all clear timeout set_delim];
      (split_and!; [done|done|done| |done]); by destruct (_ && _). }
  destruct Eo as (Ea & Ec & Et & Ecb & Eo'). rewrite Ecb.
  unfold info_tx_begin. rewrite Ht. unfold info_open. rewrite (on_fd _ _ Ho), (on_proto _ _ Ho).
  change (@peer_fd _ _ (app_peer a)) with (@peer_fd _ _ P). rewrite (proj2 (Z.eqb_neq _ _) peer_open).
  rewrite bool_decide_true by done. cbn [negb andb Z.eqb].
  destruct (peer_begin (InfoPeer:=app_peer a) _ _ _ _ _ Hp) as (k1 & E1 & Hp1).
  rewrite (lib_output_framed (P:=app_peer a) _ wild l p CMD_BEGIN [] [] [] Ho (says_nothing _ _)), E1. ostep. cbn [Z.eqb]. ostep.
  cbn [Z.eqb]. set (l1 := set_tx _ true).
  assert (Ho1 : Online (P:=app_peer a) l1 p) by (by destruct Ho).
  assert (Hdump : exists k, (if all o1 || clear o1 then sub_all wild cb l1 else Done (true, l1)) = Done (true, set_world l1 k) /\
    peer (InfoPeer:=app_peer a) k (costs q + room) [] M (Some (dump o)) []).
  { unfold dump. rewrite Ea, Ec. destruct (all o || clear o); [by apply (sub_all_ok cb l1 p _ _ _ a [] [] Ho1)|].
    exists k1. split; [by destruct l|done]. }
  destruct Hdump as (k2 & E2 & Hp2). rewrite E2. ostep. cbn [negb].
  rewrite (checked_run wild _ (length args)) by done. fold cs.
  destruct (tx_queued cb p (costs q + room) [] M a [] cs (set_world l1 k2) (dump o) (all o' || clear o')) as (k3 & E3 & Hp3); try done;
    [by apply (online_world (P:=app_peer a))|].
  change (dump o ++ (cmd_of <$> cs)) with q in Hp3. rewrite <- Eo', E3. ostep.
  destruct (commit_sent cb (set_world (set_world l1 k2) k3) p room [] M a q fuel) as (k4 & Hp4 & E4); try done;
    [by do 2 apply (online_world (P:=app_peer a))|by apply sent_request|apply sent_no_ping|].
  exists k4. split; [done|]. rewrite E4.
  replace (set_tx (set_world (set_world (set_world l1 k2) k3) k4) false) with (set_world l k4)
    by (destruct l; cbn in *; by subst).
  assert (En : (all o' || clear o' || existsb is_sub cs) && negb (timeout o' =? 0) = false).
  { destruct Hend as [Hz|[Hn Hs]]; [change (timeout o' = 0) in Hz; rewrite Hz; apply andb_false_r|].
    assert (all o' || clear o' = false) as ->.
    { rewrite Eo', Ea, Ec, Hn. cbn [andb]. by rewrite Ea, Ec. }
    assert (existsb is_sub cs = false) as ->; [|done]. clear -Hs. induction Hs as [|c cs Hc _ IH]; [done|]. cbn. by rewrite Hc. }
  clear E4. destruct (wait_or_fail _ _ _ _ _ _) as [[r l4]|]; ostep; [|done]. by rewrite En.
Qed.

(** A run of the client whose commands end with the transaction. *)
Lemma client_ok args o l p room M rest fuel sys_alarm :
  let cs := commands rest in let q := sent o cs in let rs := shown <$> heard M [] q in
  gather args opts0 = (0, o, rest) -> clear o = false -> socket o = None ->
  Forall nul_free rest -> check_args rest = Done 0 -> Forall doable cs -> all_fit [] q -> ends o cs ->
  zlen rs < 2 ^ 32 -> (length rs < fuel)%nat ->
  Online (P:=app_peer (mk_app [] 0)) l p -> in_cb (wait l) = false -> tx_begun l = false ->
  peer (InfoPeer:=app_peer (mk_app [] 0)) (world l) (costs q + room) [] M None [] ->
  exists l', client_main wild junk fuel sys_alarm l args = Done (absent rs mod 256, l') /\
    stdout (the_app l') = concat ((fun x => printed (in_use o) x.1 x.2) <$> rs) /\
    peer (world l').1 room (subs_afters [] q) (effects M q) None [] /\ in_cb (wait l') = false /\ tx_begun l' = false.
Proof.
  intros cs q rs Hg Hc Hs Hnul Hck Hdo Hfit Hend Hlen Hfuel Ho Hcb Ht Hp. unfold client_main. rewrite Hg. cbn [Z.eqb].
  rewrite Hck. ostep. cbn [Z.eqb negb]. rewrite Hs.
  destruct (transact_start o l p room M (mk_app [] 0) rest fuel sys_alarm Hnul Hck Hdo Hfit Hend Ho Hcb Ht Hp)
    as (k & Hpk & E). fold cs q in Hpk, E.
  assert (Hc' : clear (in_use o) = false).
  { unfold in_use. destruct (all o && _); cbn [all clear timeout set_delim]; by destruct (_ && _). }
  rewrite E. clear E. unfold wait_or_fail, wait_until. cbn [wait set_wait]. set (l1 := set_wait _ _).
  unfold rs in Hfuel. rewrite length_fmap in Hfuel. set (ds := heard M [] q) in *.
  destruct (wait_cb (in_use o) p room (subs_afters [] q) (effects M q) ds l1 (mk_app [] 0) (S (fuel - S (length ds))) [[MSG_PONG]] Hc') as (k5 & Hp5 & E5); try done.
  { by destruct Ho. }
  replace fuel with (length ds + S (fuel - S (length ds)))%nat by lia. rewrite E5. fold rs in Hp5.
  destruct (wait_pong (in_use o) (set_world l1 k5) p room (subs_afters [] q) (effects M q)
    (acts (in_use o) (mk_app [] 0) rs) (fuel - S (length ds))) as (k6 & Hp6 & E6);
    [by destruct Ho|done|done|].
  rewrite E6. ostep. cbn [Z.eqb]. ostep. cbn [Z.eqb]. unfold exit_ok. destruct Hp6 as [Hp6 Ea].
  unfold the_app. cbn [world set_wait set_world]. rewrite Ea. rewrite acts_eq by (cbn; lia). cbn [stdout deleted_count].
  eexists. split; [done|]. cbn [world set_wait set_world]. rewrite Ea, acts_eq by (cbn; lia). by split_and!.
Qed.

(** C8: the command line [info ...] without -C and -S, on an open, idle connection without
    subscriptions to a server that keeps its promises and has room. Its run ends with the
    transaction ([ends]): there is no -s, or the timeout is 0, as it is with -A. The commands are
    carried out in the order of the arguments, as one transaction, after the momentary
    subscription to everything that -A asks for. The records that the server sends for them (the
    value of a key at the turn of its READ, the records a subscription finds, the changes it hears
    of) are printed in that order, each on a line, with the key and the delimiter under -k or -A,
    and a blank line for a deleted key under -b. The exit status is the number of deleted keys,
    modulo 256. A subscription that lasts is another matter ([timeout_fails]). *)
Theorem client_runs args o l p room M rest fuel sys_alarm :
  let cs := commands rest in let q := sent o cs in let rs := shown <$> heard M [] q in
  gather args opts0 = (0, o, rest) -> clear o = false -> socket o = None ->
  Forall nul_free rest -> check_args rest = Done 0 -> Forall doable cs -> all_fit [] q -> ends o cs ->
  zlen rs < 2 ^ 32 -> (length rs < fuel)%nat ->
  Online (P:=app_peer (mk_app [] 0)) l p -> in_cb (wait l) = false -> tx_begun l = false ->
  peer (InfoPeer:=app_peer (mk_app [] 0)) (world l) (costs q + room) [] M None [] ->
  exists l', client_main wild junk fuel sys_alarm l args = Done (absent rs mod 256, l') /\
    stdout (the_app l') = concat ((fun x => printed (in_use o) x.1 x.2) <$> rs) /\
    peer (world l').1 room (subs_afters [] q) (effects M q) None [] /\ in_cb (wait l') = false /\ tx_begun l' = false.
Proof. apply client_ok. Qed.

(** ** All keys *)

Lemma heard_all M : heard M [] [(CMD_SUB, $"*"); (CMD_UNSUB, $"*")] = listing M.
Proof.
  cbn [heard]. change (told M [] (CMD_SUB, $"*")) with (filter (fun kv => hits kv $"*") (listing M)).
  change (told _ _ (CMD_UNSUB, $"*")) with (@nil bytes). rewrite !app_nil_r.
  induction (listing M) as [|kv l IH]; [done|]. rewrite filter_cons_True by apply hits_star. by rewrite IH.
Qed.

Lemma shown_record data : 0 ∈ data -> shown data = (cstr data, Some (value_of data)).
Proof.
  intros Hn. unfold shown. destruct (cstr_split data Hn) as [v E].
  rewrite (proj2 (Z.eqb_neq _ _)); [done|]. rewrite E at 2. rewrite zlen_app, zlen_cons. pose proof (zlen_nonneg v). lia.
Qed.

(** C10: [info -A] prints every record of the server as a line of the key, an equals sign and the
    value, in the order of the keys, and exits with 0. The server is left as it was, without a
    subscription. *)
Theorem client_lists l p room M fuel sys_alarm :
  Z.of_nat (size M) < 2 ^ 32 -> (size M < fuel)%nat ->
  Online (P:=app_peer (mk_app [] 0)) l p -> in_cb (wait l) = false -> tx_begun l = false ->
  peer (InfoPeer:=app_peer (mk_app [] 0)) (world l) room [] M None [] ->
  exists l', client_main wild junk fuel sys_alarm l [$"-A"] = Done (0, l') /\
    stdout (the_app l') = concat ((fun kv => cstr kv ++ $"=" ++ value_of kv ++ [10]) <$> listing M) /\
    peer (world l').1 room [] M None [] /\ in_cb (wait l') = false /\ tx_begun l' = false.
Proof.
  intros Hsz Hfuel Ho Hcb Ht Hp.
  assert (Hall : Forall (fun kv => 0 ∈ kv) (listing M)).
  { apply Forall_forall. intros kv [key Hk]%listing_elem.
    by destruct (peer_record (InfoPeer:=app_peer (mk_app [] 0)) _ _ _ _ _ _ _ _ Hp Hk) as (_ & ? & _). }
  assert (Ea : absent (shown <$> listing M) = 0).
  { clear -Hall. unfold absent. induction Hall as [|kv ks Hk _ IH]; [done|].
    rewrite fmap_cons, shown_record by done. by rewrite filter_cons_False. }
  assert (Eq : sent (set_all opts0) [] = [(CMD_SUB, $"*"); (CMD_UNSUB, $"*")]) by done.
  destruct (client_ok [$"-A"] (set_all opts0) l p room M [] fuel sys_alarm) as (l' & E & Eo & Hp' & Hrest); try done.
  - by left.
  - cbn [commands]. rewrite Eq, heard_all. unfold zlen. by rewrite length_fmap, length_listing.
  - cbn [commands]. rewrite Eq, heard_all. by rewrite length_fmap, length_listing.
  - exists l'. cbn [commands] in E, Eo, Hp'. rewrite Eq, heard_all in E, Eo. rewrite Ea in E. rewrite E, Eo. split_and!; try done; try apply Hrest.
    rewrite <- list_fmap_compose. f_equal. apply list_fmap_ext. intros i kv Hi. unfold compose. cbv beta.
    rewrite shown_record by (by apply (proj1 (Forall_lookup _ _) Hall _ _ Hi)).
    change (printed _ _ _) with ((cstr kv ++ $"=") ++ value_of kv ++ [10]). by rewrite <- app_assoc.
Qed.

(** ** Clearing *)

Definition erase (M : gmap bytes bytes) (ds : list bytes) : gmap bytes bytes :=
  foldl (fun M d => delete (cstr d) M) M ds.

Lemma erase_listing M : (forall key kv, M !! key = Some kv -> cstr kv = key) -> erase M (listing M) = ∅.
Proof.
  intros Hrec. assert (H : forall ds M' key, erase M' ds !! key = if decide (key ∈ cstr <$> ds) then None else M' !! key).
  { induction ds as [|d ds IH]; intros M' key; [by rewrite decide_False by apply not_elem_of_nil|].
    change (erase M' (d :: ds)) with (erase (delete (cstr d) M') ds). rewrite IH, fmap_cons.
    destruct (decide (key ∈ cstr <$> ds)) as [Hin|Hn]; [by rewrite decide_True by by right|].
    destruct (decide (key = cstr d)) as [->|Hne].
    - rewrite decide_True by left. apply lookup_delete_eq.
    - rewrite decide_False by (by intros [?|?]%elem_of_cons). by apply lookup_delete_ne. }
  apply map_empty. intros key. rewrite H. destruct (M !! key) as [kv|] eqn:E; [|by destruct (decide _)].
  rewrite decide_True; [done|]. rewrite <- (Hrec _ _ E). apply list_elem_of_fmap_2, listing_elem. by exists key.
Qed.

(** Each record that arrives is deleted. *)
Lemma recv_clear o l p room M a pend data :
  clear o = true -> Online (P:=app_peer a) l p -> wait l = cb_wait -> 0 ∈ data -> zlen data <= 65535 ->
  peer (InfoPeer:=app_peer a) (world l) (S room) [] M None pend ->
  exists k, info_on_input (action_cb wild junk o) p l MSG_INFO data = Done (1, set_world l k) /\
    peer (InfoPeer:=app_peer a) k room [] (delete (cstr data) M) None pend.
Proof.
  intros Hc Ho Hw Hn Hsz Hp. set (l1 := set_wait l (set_in_cb cb_wait true)).
  assert (Hnul : 0 ∉ cstr data).
  { intros Hin. by apply (proj1 (Forall_forall _ _) (cstr_nul_free data)) in Hin. }
  destruct (writev_ok (P:=app_peer a) idle_cb wild junk l1 p room M pend [(cstr data, None)]) as (k & E & Hpk);
    [by destruct Ho|done|done| |].
  { apply Forall_singleton. split; [done|]. cbn. destruct (cstr_split data Hn) as [v E].
    rewrite E, zlen_app, zlen_cons in Hsz. pose proof (zlen_nonneg v). lia. }
  exists k. split.
  - erewrite (recv_call (action_cb wild junk o) l p data 1 (set_world l1 k)); [by destruct l; cbn in *; subst|apply Ho|done| |done|done].
    rewrite shown_record by done. cbn [fst snd]. unfold action_cb. rewrite Hc, bool_decide_true by done. cbn [andb].
    unfold info_delete, info_write. fold l1. rewrite E. by ostep.
  - cbn [fmap list_fmap effects effect put record_of fst snd] in Hpk. unfold effect, written, contains_nul in Hpk.
    cbn [put fst snd record_of] in Hpk. rewrite bool_decide_false in Hpk by done. exact Hpk.
Qed.

Lemma wait_clear o p room ds : forall l M a fuel pend,
  clear o = true -> Online (P:=app_peer a) l p -> wait l = cb_wait ->
  Forall (fun d => 0 ∈ d /\ zlen d <= 65535) ds ->
  peer (InfoPeer:=app_peer a) (world l) (length ds + room) [] M None ((cons MSG_INFO <$> ds) ++ pend) ->
  exists k, peer (InfoPeer:=app_peer a) k room [] (erase M ds) None pend /\
    wait_loop (action_cb wild junk o) wild (length ds + fuel) l MSG_PONG =
    wait_loop (action_cb wild junk o) wild fuel (set_world l k) MSG_PONG.
Proof.
  induction ds as [|data ds IH]; intros l M a fuel pend Hc Ho Hw Hall Hp.
  { exists (world l). split; [done|]. by destruct l. }
  apply Forall_cons in Hall as [[Hn Hsz] Hall]. rewrite fmap_cons in Hp.
  destruct (wait_packet (P:=app_peer a) (action_cb wild junk o) wild l p _ [] M None _ _ _ Ho Hp) as (k & Hpk & Hstep).
  cbn [length Nat.add] in *.
  assert (Ho1 : Online (P:=app_peer a) (set_world l k) p) by (by apply (online_world (P:=app_peer a))).
  destruct (recv_clear o (set_world l k) p _ M a _ data Hc Ho1 Hw Hn Hsz Hpk) as (k1 & E & Hp1).
  rewrite (Hstep _ MSG_PONG _ E (on_proto _ _ Ho1)). cbn [wait set_world]. rewrite Hw.
  change (negb (MSG_PONG =? ONCE) && (LibInfo.done cb_wait =? 0)) with true. cbv iota.
  destruct (IH (set_world (set_world l k) k1) (delete (cstr data) M) a fuel pend) as (k2 & Hp2 & E2); try done;
    [by apply (online_world (P:=app_peer a))|].
  exists k2. split; [done|]. rewrite E2. by destruct l.
Qed.

(** C9: [info -C] deletes every key of the server: while it waits for the records that its
    subscription brings, its callback sends a command that deletes each, and when the client
    exits, with 0 and without having printed anything, the server holds no key. *)
Theorem client_clears l p room M fuel sys_alarm :
  (size M < fuel)%nat ->
  Online (P:=app_peer (mk_app [] 0)) l p -> in_cb (wait l) = false -> tx_begun l = false ->
  peer (InfoPeer:=app_peer (mk_app [] 0)) (world l) (size M + room) [] M None [] ->
  exists l', client_main wild junk fuel sys_alarm l [$"-C"] = Done (0, l') /\ stdout (the_app l') = [] /\
    peer (world l').1 room [] ∅ None [] /\ in_cb (wait l') = false /\ tx_begun l' = false.
Proof.
  intros Hfuel Ho Hcb Ht Hp. unfold client_main. set (o := set_clear opts0).
  change (gather [$"-C"] opts0) with (0, o, @nil bytes). cbn [Z.eqb check_args]. ostep. cbn [Z.eqb negb].
  change (socket o) with (@None bytes). cbv iota.
  assert (Hrec : forall key kv, M !! key = Some kv -> cstr kv = key /\ 0 ∈ kv /\ zlen kv <= 65535).
  { intros key kv. by apply (peer_record (InfoPeer:=app_peer (mk_app [] 0)) _ _ _ _ _ _ _ _ Hp). }
  destruct (transact_start o l p (size M + room) M (mk_app [] 0) [] fuel sys_alarm) as (k & Hpk & E); try done.
  { by left. }
  rewrite E. clear E. change (sent o (commands [])) with [(CMD_SUB, $"*"); (CMD_UNSUB, $"*")] in *.
  rewrite heard_all in Hpk. unfold wait_or_fail, wait_until. cbn [wait set_wait]. set (l1 := set_wait _ _).
  rewrite <- length_listing in Hfuel, Hpk. set (ds := listing M) in *.
  destruct (wait_clear (in_use o) p room ds l1 M (mk_app [] 0) (S (fuel - S (length ds))) [[MSG_PONG]]) as (k5 & Hp5 & E5); try done.
  { by destruct Ho. }
  { apply Forall_forall. intros kv [key Hk]%listing_elem. by destruct (Hrec key kv Hk) as (_ & ? & ?). }
  replace fuel with (length ds + S (fuel - S (length ds)))%nat by lia. rewrite E5.
  destruct (wait_pong (in_use o) (set_world l1 k5) p room [] (erase M ds) (mk_app [] 0) (fuel - S (length ds))) as (k6 & Hp6 & E6);
    [by destruct Ho|done|done|].
  rewrite E6. ostep. cbn [Z.eqb]. ostep. cbn [Z.eqb]. unfold exit_ok. destruct Hp6 as [Hp6 Ea].
  unfold the_app. cbn [world set_wait set_world]. rewrite Ea. unfold ds in Hp6. rewrite erase_listing in Hp6 by (intros; by eapply Hrec).
  eexists. split; [done|]. cbn [world set_wait set_world]. rewrite Ea. by split_and!.
Qed.

End Transaction.

(** ** The loop of the library and the exit status *)

Section Loop.
Context {os : OS} {K : Type} {link : Link K}.

Lemma wait_loop_nonzero cb (wild : option (proto -> lib K -> errno -> bytes -> lib K)) fuel msg : forall l r l',
  msg <> ONCE -> wait_loop cb wild fuel l msg = Done (r, l') -> r <> 0.
Proof.
  induction fuel as [|fuel IH]; intros l r l' Hm; cbn [wait_loop]; [done|].
  destruct (sys_read _ _) as [[[[|c b]|] k]|]; ostep; [by intros [= <- _]| |by intros [= <- _]|done].
  cbn [l_proto set_world]. destruct (l_proto l) as [p|]; ostep; [|done].
  destruct (proto_recv _ _ _ _ _) as [[[len p1] l1]|]; ostep; [|done].
  destruct (Z.eqb_spec len 0); [by intros [= <- _]|].
  destruct (Z.ltb_spec len 0); [intros [= <- _]; lia|].
  rewrite (proj2 (Z.eqb_neq _ _) Hm). cbn [negb andb].
  destruct (Z.eqb_spec (LibInfo.done (wait (set_lproto l1 (Some p1)))) 0) as [|Hd]; [by apply IH|].
  intros [= <- _]. exact Hd.
Qed.

(** [info_loop] never returns 0, the value that info.h documents for a callback that returns 0. *)
Lemma info_loop_nonzero cb wild fuel (l : lib K) has r l' :
  info_loop cb wild fuel l has = Done (r, l') -> r <> 0.
Proof.
  unfold info_loop, dispatch_until. destruct (waitret_init l) as [r0 l0]. destruct (r0 =? -1); [by intros [= <- _]|].
  destruct (_ || _); [by intros [= <- _]|]. unfold wait_until.
  destruct (wait_loop _ _ _ _ _) as [[r1 l1]|] eqn:E; ostep; [|done]. intros [= <- _].
  eapply wait_loop_nonzero; [|exact E]. unfold ONCE, MSG_EOF. lia.
Qed.

(** The subscription that ends because the alarm shuts the connection down is a failure. *)
Lemma timeout_fails wild junk fuel sys_alarm o (l : lib (aworld K)) k p :
  0 < timeout o -> sys_alarm (world l).1 (timeout o) = Some k ->
  (exists k', sys_read k (l_fd l) = Done (Some [], k')) ->
  l_fd l <> -1 -> l_proto l = Some p -> in_cb (wait l) = false ->
  exists l', subscribed wild junk (S fuel) sys_alarm o l = Done (1, l') /\ last_error l' = $"connection closed by server".
Proof.
  intros Ht Ha [k' Hr] Hfd Hp Hcb. unfold subscribed. rewrite (proj2 (Z.ltb_lt _ _) Ht), Ha. cbn [fmap option_fmap option_map].
  unfold info_loop, dispatch_until, waitret_init. cbn [wait set_world]. rewrite Hcb. cbn [Z.eqb].
  cbn [l_fd l_proto set_wait set_world]. rewrite (proj2 (Z.eqb_neq _ _) Hfd), Hp. cbn [orb].
  rewrite bool_decide_false by done. unfold wait_until. cbn [wait_loop world set_wait set_world l_fd].
  cbn [sys_read app_link fst]. rewrite Hr. ostep. eexists. split; [done|].
  unfold info_close. cbn [wait set_errno print_error set_error set_world set_wait set_until set_cb waitret_zero in_cb].
  cbn [l_fd set_lproto set_errno print_error set_error set_world set_wait].
  by rewrite (proj2 (Z.eqb_neq _ _) Hfd).
Qed.

End Loop.

(** A lone dash is accepted by [strchr], and the byte after its end is read. *)
Example lone_dash : check_args [[dash]] = Crash OutOfBounds.
Proof. reflexivity. Qed.

(** ** The client on the daemon of the examples *)

Definition demo_world (out : app) : aworld (conn store) := (demo_conn [], out).
Definition demo_alib : lib (aworld (conn store)) :=
  mk_lib 4 (Some (demo_proto 3)) false waitret_zero [] (EOTHER 0) (demo_world (mk_app [] 0)).

Section Demo.
Local Existing Instance quiet_net.
Local Existing Instance demo_kv.
Local Existing Instance demo_link.
Local Existing Instance demo_peer.

(** [info -k= a c=3 -da c a]: the daemon has "a" and "b". *)
Lemma client_runs_witness :
  exists l', client_main None None 6 (fun k _ => Some k) demo_alib [$"-k="; $"a"; $"c=3"; $"-da"; $"c"; $"a"] = Done (1, l') /\
    stdout (the_app l') = $"a=one" ++ [10] ++ $"c=3" ++ [10] /\
    peer (world l').1 88 [] (delete $"a" (<[$"c" := $"c" ++ [0; 51]]> (contents demo_l))) None [] /\
    in_cb (wait l') = false /\ tx_begun l' = false.
Proof.
  apply (client_runs None None [$"-k="; $"a"; $"c=3"; $"-da"; $"c"; $"a"] (set_delim opts0 $"=") demo_alib (demo_proto 3) 88
    (contents demo_l) [$"a"; $"c=3"; $"-da"; $"c"; $"a"] 6 (fun k _ => Some k)).
  - reflexivity.
  - reflexivity.
  - reflexivity.
  - repeat (apply Forall_cons; split); try done; by apply (bool_decide_unpack (nul_free _)).
  - reflexivity.
  - repeat (apply Forall_cons; split); try done; split; by apply (bool_decide_unpack (_ ∉ _)).
  - by repeat split.
  - right. split; [reflexivity|]. by repeat (apply Forall_cons; split).
  - reflexivity.
  - vm_compute. lia.
  - by split.
  - reflexivity.
  - reflexivity.
  - split; [|reflexivity]. apply (demo_joined []).
Defined.

Lemma client_lists_witness :
  exists l', client_main None None 3 (fun k _ => Some k) demo_alib [$"-A"] = Done (0, l') /\
    stdout (the_app l') = $"a=one" ++ [10] ++ $"b=two" ++ [10] /\
    peer (world l').1 90 [] (contents demo_l) None [] /\ in_cb (wait l') = false /\ tx_begun l' = false.
Proof.
  apply (client_lists None None demo_alib (demo_proto 3) 90 (contents demo_l) 3 (fun k _ => Some k)).
  - reflexivity.
  - vm_compute. lia.
  - by split.
  - reflexivity.
  - reflexivity.
  - split; [|reflexivity]. apply (demo_joined []).
Defined.

Lemma client_clears_witness :
  exists l', client_main None None 3 (fun k _ => Some k) demo_alib [$"-C"] = Done (0, l') /\ stdout (the_app l') = [] /\
    peer (world l').1 88 [] ∅ None [] /\ in_cb (wait l') = false /\ tx_begun l' = false.
Proof.
  apply (client_clears None None demo_alib (demo_proto 3) 88 (contents demo_l) 3 (fun k _ => Some k)).
  - vm_compute. lia.
  - by split.
  - reflexivity.
  - reflexivity.
  - split; [|reflexivity]. apply (demo_joined []).
Defined.

Lemma checked_args_run_witness :
  run_args None idle_cb demo_alib [$"-w"; $"k=v"; $"a"; $"b=1"; $"-dc"; $"-s"; $"*"] false =
    run_commands None idle_cb demo_alib
      [Write $"k" $"v"; Read $"a"; Write $"b" $"1"; Delete $"c"; Sub $"*"] false.
Proof.
  apply (checked_args_run None idle_cb [$"-w"; $"k=v"; $"a"; $"b=1"; $"-dc"; $"-s"; $"*"] demo_alib false).
  - repeat (apply Forall_cons; split); try done; by apply (bool_decide_unpack (nul_free _)).
  - reflexivity.
Defined.

End Demo.
